(* ===== verification/_CoqProject ===== *)
-Q . S2P
Prelude.v
GoStrings.v
Strconv.v
Json.v
Sha256.v
Times.v
Base64.v
Errors.v
Effects.v
Files.v
Profile.v
Netip.v
NetText.v
Ipam.v
AwgConfig.v
Sorting.v
Interleave.v
Float64.v
NumText.v
RateLimit.v
Render.v
Executor.v
Dump.v
CliExecutor.v
FakeExecutor.v
CliFacts.v
SimTools.v
NodeAgent.v
Redact.v
NodeAgentFacts.v
Auth.v
Tokens.v
Config.v
Store.v
StoreFacts.v
Crypto.v
Bootstrap.v
BootstrapFacts.v
Service.v
ServiceFacts.v
Hashes.v
HttpApi.v
HttpFacts.v
OpenApi.v
Worker.v
WorkerFacts.v
RemoteWorker.v
Production.v
System.v
Migrations.v
Startup.v
StartupFacts.v
Concurrent.v
Drained.v
Reconcile.v
Lifecycle.v
Lives.v
