(* ===== verification/Prelude.v ===== *)
(** * awg-rest: a verification library for the AmneziaWG REST control plane

    awg-rest keeps the desired state of VPN nodes in a relational database and
    drives the AmneziaWG runtime of each node to it.  An API request (create or
    revoke a peer) writes the peer, an operation, an outbox job, an audit event
    and an idempotency record in one transaction and returns; a worker claims
    the jobs, renders the node's whole server config from the database, has an
    executor apply it, reads the runtime back and records what it saw.  In
    production that executor is an HTTP client whose other end, the node agent,
    runs the AmneziaWG tools on the node.  This library models that path from the
    start of the programs and the HTTP requests they serve down to the rows of the
    database, the bytes of the config, the files and the argument vectors on the
    node, and proves what makes it correct.

    ** The parts and their files

    - [Prelude]: the [result] type and its bind, loops with a bound
      ([iter_until]), 64-bit wrap-around, byte literals, the [awg] hint database
      and the shared tactics ([bool_to_prop], ...).
    - [GoStrings], [Strconv], [Base64], [Json], [Sha256], [Times], [Netip],
      [NetText], [Sorting], [Float64], [NumText]: what the program uses of Go's
      strings, strconv, encoding/base64, encoding/json, crypto/sha256 and encoding/hex,
      time, net/netip, net, sort and float64.
    - [Effects]: the state-and-error monad, deferred and wrapped calls, and the
      inversion lemmas for its runs.
    - [Files]: paths and a file system in which every operation can fail (os,
      path/filepath).
    - [Errors]: internal/domain/errors.go and internal/api/problem.go; Go errors
      as trees of wrapped errors, errors.Is and errors.As, the HTTP problem of
      an error.
    - [Profile]: internal/domain/profile.go; protocol profiles, their validator
      and the special-junk scanner.
    - [Ipam]: internal/ipam/ipam.go; the address allocator.
    - [AwgConfig]: internal/awg/config.go; lookup and insertion in config text.
    - [Render]: internal/render/render.go; the server and client configs.
    - [Executor]: internal/awg/executor.go; the executor interface as the class
      [Executor] over a world of any type, its documented behaviour as the classes
      [ExecutorLaws] and [SyncLaws].
    - [Dump]: internal/awg/dump.go; the parser of the tools' dump.
    - [CliExecutor], [CliFacts], [SimTools]: internal/awg/cli_linux.go and
      cli_other.go; the executor that runs the tools, over the file system and a
      host.  What the tools are documented to do is the class [AwgTools], under
      which the executor keeps [ExecutorLaws]; [SimTools] is a simulation that
      meets it.
    - [FakeExecutor]: internal/awg/fake.go; the in-memory host and its config
      parser, an instance of both classes.
    - [NodeAgent], [Redact], [NodeAgentFacts]: internal/nodeagent; the JSON
      protocol, the agent's handlers over any executor, the remote executor (again
      an instance of [Executor], over a network that can lose requests and
      responses) and the TLS policy of both ends.
    - [Auth], [Tokens]: internal/auth/auth.go; principals, claims, the static-key
      and HMAC validators, public keys from PEM, development tokens.
    - [Config]: internal/config/config.go, the choice of a token validator in
      internal/server/bootstrap.go, and the limiter that the settings build.
    - [Store], [StoreFacts]: internal/repo and internal/domain/peer.go; tables as
      lists of rows, one function per repository method with the constraints of
      the schema, transactions, the invariant [store_ok] and its preservation.
    - [Crypto]: internal/crypto/wg.go; keys.
    - [Bootstrap], [BootstrapFacts]: internal/bootstrap; settings from the
      environment, seeding a blank database, provisioning a V3.1 node.
    - [Service], [ServiceFacts]: internal/api/service.go; the service operations
      over the store, and what their callers can rely on.
    - [Hashes]: requestHash and mustJSON of service.go with the structs they are
      given, HashConfig of internal/awg/executor.go.
    - [RateLimit]: internal/ratelimit; the keyed token bucket.
    - [HttpApi], [HttpFacts]: internal/api/handlers.go, middleware.go and router.go;
      requests to replies, over the service and a rate limiter.
    - [Worker], [WorkerFacts]: internal/outbox/worker.go; the worker over the
      store and any executor.
    - [RemoteWorker], [Production]: the worker over the remote executor, and the
      whole production stack: worker, client, agent, host executor, tools.
    - [System]: requests, provisioning and worker over one store, as a step
      relation, and the way of a peer into the runtime and out of it.
    - [Migrations]: internal/repo/migrate.go and the SQL of internal/repo/schema; a
      database is its tables, columns, constraints and rows.
    - [Startup], [StartupFacts]: cmd/awg-api, cmd/awg-worker, cmd/awg-node-agent,
      internal/server, internal/obs and NewDB of internal/repo/db.go; from flags and
      environment to a served handler, a worker with its executor, or an exit.
    - [OpenApi]: api/openapi.yaml; its schemas and statuses, and the replies of the
      router against them.
    - [Interleave], [Concurrent], [Drained], [Reconcile]: threads as programs of atomic
      actions, rely-guarantee triples for them; worker turns, startup reconciliations and
      requests as such threads, and what holds once the queue is empty.
    - [Lifecycle], [Lives]: the [main] functions of cmd from the signal context to the
      end; a process ([Proc]) with its goroutines, what they do ([acts], [moves]) and what
      happens to it ([meets]), deployments of processes over one shared state ([deploy]),
      executable schedules of them ([play_events]), and the three programs as such
      processes ([awg_api], [awg_worker], [awg_provision], [awg_node_agent]).

    ** How the code is modelled

    Strings are byte lists and integers are [Z], with Go's wrap-around written
    out where a value can leave its width.  A Go function that can fail returns
    [result error]; one that uses the database is in the state-and-error monad
    [SE Store]; a transaction closure also carries its captured variables, which
    survive a rollback as in Go.  The clock, the ids the database draws and the
    random bytes are arguments, so every theorem holds for all of them; times are
    nanoseconds, uuids 128-bit numbers.  Code outside the repository is a
    parameter: the JWT library, uuid parsing and printing, X25519, chi's routing,
    the Prometheus registry, pgxpool, the external commands, and which file
    operations fail ([FileEnv]).  So are the parts of Go's library whose tables or
    formats the program does not depend on: strconv.Quote, error texts of
    encoding/json and net/netip, reading RFC 3339 times, url.Parse, PEM and X.509
    decoding, the conversion of a float64 outside the range of the integer type.  The service and the concurrent model hold for
    any hash of a request; [Hashes] and [Startup] use the real one.  The
    executor is a class parameter of the worker's theorems; the in-memory host and
    the simulated tools show that its laws can hold, and every theorem about the
    worker has a witness run with one of them.

    ** What is proved

    - Whole system: the store invariant in every reachable state
      ([system_invariant]); a created peer becomes active on the runtime
      ([create_reaches_runtime]), a revoked one leaves it
      ([revoke_leaves_runtime]).
    - Worker: a successful application makes the runtime list exactly the live
      peers and records it, as long as the stored texts fit their config lines
      ([applyNode_converges]); a failed one changes nothing ([applyNode_failure]); a
      claimed job is settled in every turn that is not interrupted, and only its rows
      change in one that is ([turn_settles]).
    - Concurrency: with any number of workers and requests interleaved between their
      statements and calls, and threads that die anywhere, the store invariant and the
      monotonicity of revisions hold ([concurrent_invariant]); with one worker an empty
      queue means a runtime with exactly the live peers ([drained_consistent]); without
      interference the threads are the sequential model ([threads_alone]).
    - Processes: both hold through every start, signal, failed listener, shutdown and kill
      of any number of processes ([deployments_keep_store], [deployments_drained], the
      latter with a startup reconciliation as well, on hosts where a failed call changes
      no peers); a process whose context is done takes finitely many steps of its own, and
      ends unless requests without end arrive before its [Shutdown] ([shutdown_terminates]).
    - Production: the remote executor refines the local one ([remote_refines]), so
      that a successful application by the worker, through HTTP, agent, files,
      commands and dump parser, leaves the kernel with exactly the live peers
      ([production_converges]); the node's private key never leaves it
      ([agent_hides_secrets], [remote_key_handover]), applying again is a no-op
      ([remote_sync_idempotent]), plain HTTP is never used by accident
      ([transport_policy]).
    - HTTP: what every request is answered with before its handler runs
      ([http_gate]); no change without a token the configured validator accepts and a
      writing role ([started_api_guarded]); the limiter's bounds, from the text of the settings on
      ([configured_limiter]);
      replies are of the documented types ([replies_conform]), and the log has one line
      for each request, of which nothing secret is part ([access_log_line]).
    - Start-up: a server comes up on an upgraded, seeded database that keeps its
      promises, or leaves no pool open ([BuildAPI_spec]); the upgrade is all or
      nothing, does what it says and is a no-op afterwards ([Migrate_spec],
      [restart_keeps]); the commands of awg-api ([dev_token_opens],
      [provision_command_spec]).
    - Host executor: no secret in a command line ([cli_commands]), no half-written
      file, and no leftover but files whose own removal or renaming failed ([cli_files]); the dump parser reads back
      what the tools print and bounds what it accepts ([Dump]).
    - Installation: provisioning is all or nothing across database and disk, unless
      removing its config again fails ([provision_atomic]) and creates what it says ([provision_effect]); seeding
      ([seed_effect]).
    - Requests: atomicity, exact effects, idempotent replay, confinement of reads
      and writes to the caller's tenant, and non-interference theorems for the
      secrets ([ServiceFacts]); a key answers the request it was used for and no other,
      up to collisions of SHA-256 ([key_means_request]).
    - Database: the invariant, address assignment, the job queue's leases, the
      round trip of profiles ([StoreFacts]).
    - Allocator: which address is found and when the pool is exhausted, for both
      address families ([Ipam]).
    - Texts: validator against a declarative specification, render/parse and
      insert/lookup round trips ([Profile], [Render], [AwgConfig],
      [FakeExecutor]); keys and tokens ([Crypto], [Auth]); error classification
      ([Errors]).
    - Behaviours the code does not intend, as theorems: addresses of revoked peers
      block a pool ([revoked_address_blocks]), an expired idempotency key stays
      unusable ([expired_key_unusable]), a failing job is retried ahead of all
      others ([failed_job_is_next]), the allocator's loop on a full large pool
      has no end ([Allocate_saturated_diverges]), display names and profile texts
      with line breaks inject config ([comment_injects_peer],
      [valid_profile_injects]), an unterminated header swallows an inserted key
      ([WithInterfaceValue_unterminated_header]), a seeding that failed half way is
      never repaired ([seed_never_repaired]), the server's address in a /31 pool
      can be given to a peer ([server_address_reserved]), "(null)" in a dump is
      taken literally ([ParseShowDump_null]), two workers can leave a revoked peer on
      the interface with every job applied ([two_workers_resurrect]), a refill rate of
      NaN locks a client out ([nan_setting_locks]), a node whose peers have two profiles
      keeps every process from starting ([history_refused]), statuses and checks that
      differ from the API document ([document_gaps]), a key with a slash that the agent
      removes under another name ([remote_RemovePeer_slash]), a row with a time beyond what
      JSON writes that is answered with an empty body ([replies_conform]).

    ** Bounds and fuel

    [Allocate] runs its loop at most [alloc_fuel] times: one per address of the
    pool, one for a cursor outside the usable range, one for the final test; [Allocate_first_free] and [Allocate_exhausted] show
    that this is enough for a result, and [Allocate_saturated_diverges] that a
    loop still running then never stops (callers report it as the error
    [diverges]).  The special-junk scanner's fuel is the length of its text, and
    [validateSpecialJunk_grammar] shows it suffices; the loop of [itoa] has 20
    turns, enough for 64 bits ([itoa_FormatInt]); reading a duration takes at most a
    turn for each byte ([duration_parts_fuel]).  All other recursion is
    structural.

    ** Not modelled

    A transaction, and the reads of a request before its transaction, are one atomic
    action each: the isolation of concurrent database sessions is not modelled below
    that.  Text columns are compared by bytes, not by a database collation; the order
    of rows with equal keys in sort.Slice and in ORDER BY is the model's; a row is read
    back exactly as it was written, nanoseconds included.  Column types (and so the check of a cidr's
    host bits), indexes and connection failures are left out: a database call fails as a
    done context or as the call list of a start-up says.  In the sequential model of the
    service BEGIN and COMMIT succeed; in the threads a transaction can also fail as a
    whole, without effect.  A context is constant within one turn of the sequential
    worker and free at every call of the threads.  External commands change the host, not
    the files of the model.  The refill of the limiter rounds its product and its sum
    separately, where a Go compiler may fuse them on some targets.  A file system has no permissions, links or directories
    of its own: an operation that would fail for such a reason is one the environment
    lets fail.  The parsing of flags, sockets, the text of log lines other than
    those of the two servers' middleware, the values of metrics (which no code changes)
    and the indentation of printed JSON are left out: input and output without a decision
    of the program.  A process ends its goroutines when [main] returns; that the pool's
    Close first waits for a statement that is running is not visible where statements are
    atomic.  The programs' processes start on an upgraded database, where the upgrade
    changes nothing ([restart_keeps]); formats of strings in the API document and its
    request schemas are not modelled.  The
    decoder of JSON has no nesting limit. *)

From Stdlib Require Export ZArith Lia Ascii String.
From stdpp Require Export base list strings gmap fin_maps option.
Export stdpp.list_basics.list stdpp.list_relations.list stdpp.list_monad.list stdpp.list_misc.list stdpp.list_numbers.list.

#[global] Open Scope Z_scope.

(** ** Bytes and literals *)

(** A Go [string] (and a [[]byte]) is a sequence of bytes. *)
Abbreviation bytes := (list ascii).

Declare Scope go_scope.
Delimit Scope go_scope with go.
#[global] Open Scope go_scope.

(** [#"text"] is the byte sequence of a literal. *)
Notation "# s" := (list_ascii_of_string s%string)
  (at level 1, s constr at level 0, format "# s") : go_scope.

#[global] Arguments list_ascii_of_string : simpl never.

(** The newline, tab and carriage-return bytes, which Go writes as escapes. *)
Definition nl : ascii := Ascii.ascii_of_nat 10.
Definition tab : ascii := Ascii.ascii_of_nat 9.
Definition cr : ascii := Ascii.ascii_of_nat 13.

(** The numeric value of a byte, 0..255. *)
Definition code (c : ascii) : Z := Z.of_N (N_of_ascii c).

(** ** Go's (value, error) results *)

(** [result E A] is what a fallible Go function returns: a value, or an error
    that makes the value irrelevant. *)
Inductive result (E A : Type) : Type :=
| Ok (a : A)
| Err (e : E).
Arguments Ok {E A} a.
Arguments Err {E A} e.

#[export] Instance result_ret E : MRet (result E) := fun A a => Ok a.
#[export] Instance result_bind E : MBind (result E) := fun A B f r =>
  match r with
  | Ok a => f a
  | Err e => Err e
  end.

#[export] Instance result_eq_dec {E A} `{EqDecision E, EqDecision A} : EqDecision (result E A).
Proof. solve_decision. Defined.

(** ** Loops with an early exit *)

(** [iter_until step p a] runs a loop body at most [p] times: [inl] is "go
    round again", [inr] is the value the loop returns.  The bound is binary so
    that a loop whose bound is 2^64 still evaluates when it exits early. *)
Fixpoint iter_until {A B : Type} (step : A -> A + B) (p : positive) (a : A) : A + B :=
  match p with
  | xH => step a
  | xO p => match iter_until step p a with
            | inl a' => iter_until step p a'
            | inr b => inr b
            end
  | xI p => match step a with
            | inl a' => match iter_until step p a' with
                        | inl a'' => iter_until step p a''
                        | inr b => inr b
                        end
            | inr b => inr b
            end
  end.

(** The same loop with a unary bound, used for induction. *)
Fixpoint iter_nat {A B : Type} (step : A -> A + B) (n : nat) (a : A) : A + B :=
  match n with
  | O => inl a
  | S n => match step a with
           | inl a' => iter_nat step n a'
           | inr b => inr b
           end
  end.

(** ** Machine integers *)

Definition max_int64 : Z := 2 ^ 63 - 1.
Definition min_int64 : Z := - 2 ^ 63.

(** Two's-complement wrap-around of Go's 64-bit [int]. *)
Definition wrap_int64 (z : Z) : Z := (z + 2 ^ 63) mod 2 ^ 64 - 2 ^ 63.

Definition in_int64 (z : Z) : Prop := min_int64 <= z <= max_int64.

(** The sum of a list of integers. *)
Definition sumZ (l : list Z) : Z := foldr Z.add 0 l.

(** ** Automation *)

(** [bool_cases] turns boolean tests of the hypotheses and the goal into
    propositions. *)
Ltac bool_to_prop :=
  repeat match goal with
  | H : _ && _ = true |- _ => apply andb_true_iff in H; destruct H
  | H : _ || _ = false |- _ => apply orb_false_iff in H; destruct H
  | H : negb _ = true |- _ => apply negb_true_iff in H
  | H : negb _ = false |- _ => apply negb_false_iff in H
  | H : (_ <? _) = true |- _ => apply Z.ltb_lt in H
  | H : (_ <? _) = false |- _ => apply Z.ltb_ge in H
  | H : (_ <=? _) = true |- _ => apply Z.leb_le in H
  | H : (_ <=? _) = false |- _ => apply Z.leb_gt in H
  | H : (_ =? _) = true |- _ => apply Z.eqb_eq in H
  | H : (_ =? _) = false |- _ => apply Z.eqb_neq in H
  | H : bool_decide _ = true |- _ => apply bool_decide_eq_true in H
  | H : bool_decide _ = false |- _ => apply bool_decide_eq_false in H
  end.

(** Split every [match]/[if] of the goal, keep the equations, close what is
    contradictory. *)
Ltac split_matches :=
  repeat (case_match; simplify_eq/=; try done).

(** [inv_result] unfolds a chain of binds that returned [Ok]. *)
Ltac inv_result :=
  repeat match goal with
  | H : mbind _ ?r = Ok _ |- _ => destruct r eqn:?; simpl in H; [|discriminate H]
  | H : mret _ = Ok _ |- _ => unfold mret, result_ret in H
  | H : Ok _ = Ok _ |- _ => injection H as H
  | H : Err _ = Ok _ |- _ => discriminate H
  | H : (if ?b then _ else _) = Ok _ |- _ => destruct b eqn:?; simpl in H
  end.

(** [code_lia] evaluates the codes of literal bytes before calling [lia]. *)
Ltac eval_codes :=
  repeat match goal with
  | |- context [code ?c] =>
      let v := eval vm_compute in (code c) in
      match v with
      | Z0 => change (code c) with v
      | Zpos _ => change (code c) with v
      end
  end.
Ltac code_lia := eval_codes; lia.

(** The library's hint and rewrite databases. *)
Create HintDb awg.
Create Rewrite HintDb awg_rw.

(** ** Generic lemmas *)

Lemma iter_nat_add {A B} (step : A -> A + B) n m a :
  iter_nat step (n + m) a =
  match iter_nat step n a with
  | inl a' => iter_nat step m a'
  | inr b => inr b
  end.
Proof.
  revert a. induction n as [|n IH]; intros a; simpl; [done|].
  destruct (step a); [apply IH|done].
Qed.

(** The binary loop is the unary loop. *)
Lemma iter_until_nat {A B} (step : A -> A + B) p a :
  iter_until step p a = iter_nat step (Pos.to_nat p) a.
Proof.
  revert a. induction p as [p IH|p IH|]; intros a.
  - replace (Pos.to_nat p~1) with (S (Pos.to_nat p + Pos.to_nat p)) by lia.
    cbn [iter_until iter_nat]. destruct (step a) as [a'|b]; [|done].
    rewrite iter_nat_add, IH. destruct (iter_nat _ _ a'); [by rewrite IH|done].
  - replace (Pos.to_nat p~0) with (Pos.to_nat p + Pos.to_nat p)%nat by lia.
    cbn [iter_until]. rewrite iter_nat_add, IH. destruct (iter_nat _ _ a); [by rewrite IH|done].
  - change (Pos.to_nat 1) with 1%nat. simpl. by destruct (step a).
Qed.

(** A loop that has exited stays exited under a larger bound. *)
Lemma iter_nat_mono {A B} (step : A -> A + B) n m a b :
  iter_nat step n a = inr b -> (n <= m)%nat -> iter_nat step m a = inr b.
Proof.
  intros H Hle. replace m with (n + (m - n))%nat by lia.
  by rewrite iter_nat_add, H.
Qed.

Lemma wrap_int64_id z : in_int64 z -> wrap_int64 z = z.
Proof.
  unfold in_int64, wrap_int64, min_int64, max_int64. intros ?.
  rewrite Z.mod_small; lia.
Qed.

Lemma code_bound c : 0 <= code c < 256.
Proof. unfold code. pose proof (N_ascii_bounded c). lia. Qed.

Lemma code_inj c d : code c = code d -> c = d.
Proof.
  unfold code. intros H. apply N2Z.inj in H.
  rewrite <- (ascii_N_embedding c), <- (ascii_N_embedding d). by f_equal.
Qed.

(** A boolean test that holds somewhere up to [n] holds at a first place. *)
Lemma first_true (f : nat -> bool) n :
  (exists k, (k <= n)%nat /\ f k = true) ->
  exists k, (k <= n)%nat /\ f k = true /\ forall j, (j < k)%nat -> f j = false.
Proof.
  intros (k & Hk & Hf). revert f n Hk Hf. induction k as [|k IH]; intros f n Hk Hf.
  - exists 0%nat. split_and!; [lia|done|]. lia.
  - destruct (f 0%nat) eqn:E0.
    + exists 0%nat. split_and!; [lia|done|]. lia.
    + destruct (IH (fun i => f (S i)) (pred n)) as (i & Hi & Hfi & Hmin); [lia|done|].
      exists (S i). split_and!; [lia|done|]. intros [|j] Hj; [done|]. apply Hmin. lia.
Qed.

(** The value of a loop comes from one of its iterations. *)
Lemma iter_nat_inr {A B} (step : A -> A + B) n a b :
  iter_nat step n a = inr b -> exists st, step st = inr b.
Proof.
  revert a. induction n as [|n IH]; intros a; simpl; [done|].
  destruct (step a) as [a'|b'] eqn:E; [by apply IH|]. intros [= ->]. by exists a.
Qed.
