(* ===== verification/GoStrings.v ===== *)
(** * Go's [strings] package, as far as awg-rest uses it

    Strings are byte sequences.  Operations that Go defines on runes are given
    here on the UTF-8 bytes: [TrimSpace] and [Fields] recognise every encoding
    of a [unicode.IsSpace] rune (lead bytes never occur inside another rune, so
    a byte-wise scan finds the same runes as Go's decoder), [ToLower] maps the
    ASCII letters and the two non-ASCII letters whose lower case is ASCII (the
    dotted capital I and the Kelvin sign); other non-ASCII runes are kept, and
    the program compares lowered text to ASCII constants only. *)

From S2P Require Import Prelude.

(** ** Definitions *)

(** ASCII white space: tab, newline, vertical tab, form feed, return, space. *)
Definition space1 (c : ascii) : bool :=
  ((9 <=? code c) && (code c <=? 13)) || (code c =? 32).

(** U+0085 and U+00A0. *)
Definition space2 (c d : ascii) : bool :=
  (code c =? 0xC2) && ((code d =? 0x85) || (code d =? 0xA0)).

(** U+1680, U+2000..U+200A, U+2028, U+2029, U+202F, U+205F and U+3000. *)
Definition space3 (c d e : ascii) : bool :=
  ((code c =? 0xE1) && (code d =? 0x9A) && (code e =? 0x80))
  || ((code c =? 0xE2) && (code d =? 0x80)
      && (((0x80 <=? code e) && (code e <=? 0x8A))
          || (code e =? 0xA8) || (code e =? 0xA9) || (code e =? 0xAF)))
  || ((code c =? 0xE2) && (code d =? 0x81) && (code e =? 0x9F))
  || ((code c =? 0xE3) && (code d =? 0x80) && (code e =? 0x80)).

(** Remove one leading white-space rune. *)
Definition strip_space (s : bytes) : option bytes :=
  match s with
  | [] => None
  | c :: s1 =>
      if space1 c then Some s1 else
      match s1 with
      | [] => None
      | d :: s2 =>
          if space2 c d then Some s2 else
          match s2 with
          | [] => None
          | e :: s3 => if space3 c d e then Some s3 else None
          end
      end
  end.

(** Remove one trailing white-space rune; the argument is the reversed text. *)
Definition strip_space_back (s : bytes) : option bytes :=
  match s with
  | [] => None
  | c :: s1 =>
      if space1 c then Some s1 else
      match s1 with
      | [] => None
      | d :: s2 =>
          if space2 d c then Some s2 else
          match s2 with
          | [] => None
          | e :: s3 => if space3 e d c then Some s3 else None
          end
      end
  end.

Fixpoint drop_while_some (strip : bytes -> option bytes) (fuel : nat) (s : bytes) : bytes :=
  match fuel with
  | O => s
  | S fuel => match strip s with
              | Some r => drop_while_some strip fuel r
              | None => s
              end
  end.

Definition trim_left (s : bytes) : bytes := drop_while_some strip_space (length s) s.

Definition trim_right (s : bytes) : bytes :=
  rev (drop_while_some strip_space_back (length s) (rev s)).

(** [strings.TrimSpace] *)
Definition TrimSpace (s : bytes) : bytes := trim_right (trim_left s).

Fixpoint fields_aux (fuel : nat) (cur s : bytes) : list bytes :=
  let flush := match cur with [] => [] | _ => [rev cur] end in
  match fuel with
  | O => flush
  | S fuel =>
      match s with
      | [] => flush
      | c :: s1 =>
          match strip_space s with
          | Some r => flush ++ fields_aux fuel [] r
          | None => fields_aux fuel (c :: cur) s1
          end
      end
  end.

(** [strings.Fields] *)
Definition Fields (s : bytes) : list bytes := fields_aux (S (length s)) [] s.

(** [strings.IndexByte]; [None] is Go's -1. *)
Fixpoint IndexByte (s : bytes) (c : ascii) : option nat :=
  match s with
  | [] => None
  | x :: s => if Ascii.eqb x c then Some O else S <$> IndexByte s c
  end.

(** [strings.Cut] with a one-byte separator; [None] is ok = false. *)
Definition Cut (s : bytes) (c : ascii) : option (bytes * bytes) :=
  match IndexByte s c with
  | Some i => Some (take i s, drop (S i) s)
  | None => None
  end.

(** [strings.Split] with a one-byte separator. *)
Fixpoint Split (s : bytes) (c : ascii) : list bytes :=
  match s with
  | [] => [[]]
  | x :: s =>
      if Ascii.eqb x c then [] :: Split s c
      else match Split s c with
           | h :: t => (x :: h) :: t
           | [] => [[x]]
           end
  end.

(** [strings.SplitAfter] with a one-byte separator. *)
Fixpoint SplitAfter (s : bytes) (c : ascii) : list bytes :=
  match s with
  | [] => [[]]
  | x :: s =>
      if Ascii.eqb x c then [x] :: SplitAfter s c
      else match SplitAfter s c with
           | h :: t => (x :: h) :: t
           | [] => [[x]]
           end
  end.

(** [strings.Join] *)
Fixpoint Join (l : list bytes) (sep : bytes) : bytes :=
  match l with
  | [] => []
  | [x] => x
  | x :: l => x ++ sep ++ Join l sep
  end.

(** [strings.HasPrefix] *)
Fixpoint HasPrefix (s p : bytes) : bool :=
  match p, s with
  | [], _ => true
  | x :: p, y :: s => Ascii.eqb x y && HasPrefix s p
  | _ :: _, [] => false
  end.

(** [strings.HasSuffix] *)
Definition HasSuffix (s p : bytes) : bool := HasPrefix (rev s) (rev p).

(** [strings.TrimPrefix] *)
Definition TrimPrefix (s p : bytes) : bytes :=
  if HasPrefix s p then drop (length p) s else s.

(** [strings.Contains] *)
Fixpoint Contains (s sub : bytes) : bool :=
  HasPrefix s sub || match s with
                     | [] => false
                     | _ :: s => Contains s sub
                     end.

Definition in_cutset (cutset : bytes) (c : ascii) : bool :=
  existsb (Ascii.eqb c) cutset.

Fixpoint trim_left_set (cutset s : bytes) : bytes :=
  match s with
  | [] => []
  | c :: s' => if in_cutset cutset c then trim_left_set cutset s' else s
  end.

(** [strings.TrimRight] for an ASCII cutset. *)
Definition TrimRight (s cutset : bytes) : bytes :=
  rev (trim_left_set cutset (rev s)).

(** [strings.Trim] for an ASCII cutset. *)
Definition Trim (s cutset : bytes) : bytes :=
  TrimRight (trim_left_set cutset s) cutset.

(** Lower case of one ASCII byte. *)
Definition lower_byte (c : ascii) : ascii :=
  if (65 <=? code c) && (code c <=? 90) then ascii_of_N (Z.to_N (code c + 32)) else c.

(** [strings.ToLower] (see the header for non-ASCII runes). *)
Fixpoint ToLower (s : bytes) : bytes :=
  match s with
  | [] => []
  | c :: s1 =>
      match s1 with
      | [] => [lower_byte c]
      | d :: s2 =>
          if (code c =? 0xC4) && (code d =? 0xB0) then "i"%char :: ToLower s2 else
          match s2 with
          | [] => lower_byte c :: ToLower s1
          | e :: s3 =>
              if (code c =? 0xE2) && (code d =? 0x84) && (code e =? 0xAA)
              then "k"%char :: ToLower s3
              else lower_byte c :: ToLower s1
          end
      end
  end.

(** [strings.EqualFold] against an ASCII text without the letters k and s,
    whose case orbits contain a non-ASCII rune. *)
Definition EqualFold (s t : bytes) : bool :=
  bool_decide (lower_byte <$> s = lower_byte <$> t).

(** Go's [<] on strings: lexicographic on bytes. *)
Fixpoint bytes_ltb (a b : bytes) : bool :=
  match a, b with
  | _, [] => false
  | [], _ :: _ => true
  | x :: a, y :: b => (code x <? code y) || (Ascii.eqb x y && bytes_ltb a b)
  end.

(** Text made of lines that each end with a newline. *)
Definition unlines (ls : list bytes) : bytes := concat ((fun l => l ++ [nl]) <$> ls).

(** A printable non-blank ASCII byte. *)
Definition solid_byte (c : ascii) : Prop := 33 <= code c <= 126.

(** A non-empty text whose first and last bytes are printable and not blank:
    [TrimSpace] leaves it alone. *)
Definition solid (s : bytes) : Prop :=
  (exists c, head s = Some c /\ solid_byte c) /\ (exists c, last s = Some c /\ solid_byte c).

#[export] Instance solid_byte_dec c : Decision (solid_byte c).
Proof. unfold solid_byte. apply _. Defined.

Definition solidb (s : bytes) : bool :=
  match head s, last s with
  | Some c, Some d => bool_decide (solid_byte c) && bool_decide (solid_byte d)
  | _, _ => false
  end.

(** A text of ASCII bytes. *)
Definition ascii_text (s : bytes) : Prop := Forall (fun c => code c < 128) s.

#[export] Instance ascii_text_dec s : Decision (ascii_text s).
Proof. unfold ascii_text. apply _. Defined.

(** A text without blanks and control bytes, such as a key. *)
Definition key_text (s : bytes) : Prop := Forall solid_byte s.

#[export] Instance key_text_dec s : Decision (key_text s).
Proof. unfold key_text. apply _. Defined.

Lemma key_text_ascii s : key_text s -> ascii_text s.
Proof. intros H. eapply Forall_impl; [exact H|]. unfold solid_byte. simpl. lia. Qed.

(** One configuration line: non-blank ends, no newline inside. *)
Definition line_ok (s : bytes) : Prop := solid s /\ nl ∉ s.

(** ** White space *)

(** ASCII blanks never continue a multi-byte white-space rune. *)
Lemma space1_code c : space1 c = true -> code c < 0x80.
Proof. unfold space1. lia. Qed.

Lemma solid_space1 c : solid_byte c -> space1 c = false.
Proof. unfold solid_byte, space1. lia. Qed.

Ltac ascii_bytes :=
  unfold space1, space2, space3, solid_byte in *; lia.

Lemma strip_space_length s r : strip_space s = Some r -> (length r < length s)%nat.
Proof. unfold strip_space. intros. repeat case_match; simplify_eq/=; lia. Qed.

Lemma strip_space_back_length s r :
  strip_space_back s = Some r -> (length r < length s)%nat.
Proof. unfold strip_space_back. intros. repeat case_match; simplify_eq/=; lia. Qed.

(** More fuel than bytes changes nothing. *)
Lemma drop_while_some_fuel strip n s :
  (forall x r, strip x = Some r -> (length r < length x)%nat) ->
  (length s <= n)%nat -> drop_while_some strip n s = drop_while_some strip (length s) s.
Proof.
  intros Hlen. revert s.
  induction n as [n IH] using lt_wf_ind; intros s Hn.
  destruct n as [|n]; simpl.
  { by destruct s; [|simpl in Hn; lia]. }
  destruct (strip s) as [r|] eqn:Hs.
  - pose proof (Hlen _ _ Hs). rewrite IH by lia.
    destruct s as [|c s]; simpl in *; [lia|]. rewrite Hs.
    destruct (decide (length s = length r)) as [->|]; [done|].
    symmetry. apply IH; lia.
  - destruct s as [|c s]; simpl; [done|]. by rewrite Hs.
Qed.

Lemma drop_while_some_None strip n s : strip s = None -> drop_while_some strip n s = s.
Proof. destruct n; simpl; [done|]. by intros ->. Qed.

Lemma trim_left_Some s r : strip_space s = Some r -> trim_left s = trim_left r.
Proof.
  intros Hs. unfold trim_left. destruct s as [|c s]; [done|]. simpl length.
  cbn [drop_while_some]. rewrite Hs. apply drop_while_some_fuel.
  - apply strip_space_length.
  - apply strip_space_length in Hs. simpl in Hs. lia.
Qed.

Lemma trim_left_None s : strip_space s = None -> trim_left s = s.
Proof. apply drop_while_some_None. Qed.

Lemma trim_left_cons c s : space1 c = true -> trim_left (c :: s) = trim_left s.
Proof. intros Hc. apply trim_left_Some. simpl. by rewrite Hc. Qed.

Lemma trim_right_snoc c s : space1 c = true -> trim_right (s ++ [c]) = trim_right s.
Proof.
  intros Hc. unfold trim_right. rewrite rev_app_distr. simpl.
  rewrite length_app, Nat.add_comm. simpl. rewrite Hc. f_equal.
Qed.

(** What [trim_left] leaves never starts with white space. *)
Lemma trim_left_stripped s : strip_space (trim_left s) = None.
Proof.
  induction s as [s IH] using (well_founded_induction (well_founded_ltof _ length)).
  destruct (strip_space s) as [r|] eqn:Hs.
  - rewrite (trim_left_Some _ _ Hs). apply IH. by apply strip_space_length in Hs.
  - by rewrite trim_left_None.
Qed.

Lemma strip_space_snoc s c :
  space1 c = true -> s <> [] ->
  strip_space (s ++ [c]) = (fun r => r ++ [c]) <$> strip_space s.
Proof.
  intros Hc Hs. apply space1_code in Hc as Hc'.
  destruct s as [|x1 [|x2 [|x3 s]]]; [done|..]; simpl;
    destruct (space1 x1); try done.
  - assert (space2 x1 c = false) as -> by ascii_bytes. done.
  - destruct (space2 x1 x2); [done|].
    assert (space3 x1 x2 c = false) as -> by ascii_bytes. done.
  - destruct (space2 x1 x2); [done|]. by destruct (space3 x1 x2 x3).
Qed.

Lemma trim_left_snoc s c :
  space1 c = true ->
  trim_left (s ++ [c]) = match trim_left s with [] => [] | t => t ++ [c] end.
Proof.
  intros Hc.
  induction s as [s IH] using (well_founded_induction (well_founded_ltof _ length)).
  destruct (decide (s = [])) as [->|Hne].
  { simpl. rewrite (trim_left_cons c []) by done. done. }
  pose proof (strip_space_snoc s c Hc Hne) as Hss.
  destruct (strip_space s) as [r|] eqn:Hs; simpl in Hss.
  - rewrite (trim_left_Some _ _ Hss), (trim_left_Some _ _ Hs). apply IH.
    by apply strip_space_length in Hs.
  - rewrite !trim_left_None by done. by destruct s.
Qed.

Lemma TrimSpace_cons c s : space1 c = true -> TrimSpace (c :: s) = TrimSpace s.
Proof. intros Hc. unfold TrimSpace. by rewrite trim_left_cons. Qed.

Lemma TrimSpace_snoc s c : space1 c = true -> TrimSpace (s ++ [c]) = TrimSpace s.
Proof.
  intros Hc. unfold TrimSpace. rewrite trim_left_snoc by done.
  destruct (trim_left s) as [|x t] eqn:Ht; [done|].
  by rewrite trim_right_snoc.
Qed.

Lemma solid_cases s :
  solid s -> exists x, s = [x] /\ solid_byte x \/
    exists y m, s = x :: m ++ [y] /\ solid_byte x /\ solid_byte y.
Proof.
  intros [(x & Hx & Sx) (y & Hy & Sy)]. destruct s as [|a s]; [done|].
  simpl in Hx. simplify_eq. exists x.
  destruct s as [|b s] using rev_ind; [by left|].
  right. rewrite app_comm_cons, last_snoc in Hy. simplify_eq. eauto.
Qed.

(** Text with printable ends is not changed by [TrimSpace]. *)
Lemma TrimSpace_solid s : solid s -> TrimSpace s = s.
Proof.
  intros Hs. assert (strip_space s = None) as Hl.
  { destruct (solid_cases s Hs) as (x & [[-> Hx]|(y & m & -> & Hx & _)]); simpl;
      rewrite solid_space1 by done; [done|].
    destruct m as [|a [|b m]]; simpl; repeat case_match; try done; exfalso; ascii_bytes. }
  unfold TrimSpace. rewrite trim_left_None by done.
  unfold trim_right. rewrite drop_while_some_None; [by rewrite rev_involutive|].
  destruct (solid_cases s Hs) as (x & [[-> Hx]|(y & m & -> & _ & Hy)]); simpl.
  { by rewrite solid_space1. }
  rewrite rev_app_distr. simpl. rewrite solid_space1 by done.
  destruct (rev m ++ [x]) as [|a [|b l]]; [done|..]; repeat case_match; try done;
    exfalso; ascii_bytes.
Qed.

Lemma drop_while_some_incl strip n s c :
  (forall x r, strip x = Some r -> forall y, y ∈ r -> y ∈ x) ->
  c ∈ drop_while_some strip n s -> c ∈ s.
Proof.
  intros Hs. revert s. induction n as [|n IH]; intros s; simpl; [done|].
  destruct (strip s) as [r|] eqn:E; [|done]. intros Hc. eapply Hs; eauto.
Qed.

(** Trimming only removes bytes. *)
Lemma TrimSpace_incl s c : c ∈ TrimSpace s -> c ∈ s.
Proof.
  unfold TrimSpace, trim_right, trim_left.
  rewrite list_elem_of_In, <- in_rev, <- list_elem_of_In.
  intros H. eapply drop_while_some_incl in H.
  - rewrite list_elem_of_In, <- in_rev, <- list_elem_of_In in H.
    eapply drop_while_some_incl in H; [done|].
    intros x r Hx y. unfold strip_space in Hx. repeat case_match; simplify_eq; set_solver.
  - intros x r Hx y. unfold strip_space_back in Hx. repeat case_match; simplify_eq; set_solver.
Qed.

(** A text that starts with a visible byte is only trimmed at its end. *)
Lemma TrimSpace_prefix c s : solid_byte c -> exists t, c :: s = TrimSpace (c :: s) ++ t.
Proof.
  intros Hc. unfold TrimSpace. rewrite trim_left_None.
  - assert (Hsuf : forall n r, exists t, r = t ++ drop_while_some strip_space_back n r).
    { induction n as [|n IH]; intros r; [by exists []|]. simpl.
      destruct (strip_space_back r) as [r'|] eqn:E; [|by exists []].
      assert (exists u, r = u ++ r') as [u ->].
      { unfold strip_space_back in E. repeat case_match; simplify_eq;
          [by exists [a]|by exists [a; a0]|by exists [a; a0; a1]]. }
      destruct (IH r') as [t Ht]. exists (u ++ t). by rewrite <- app_assoc, <- Ht. }
    unfold trim_right. destruct (Hsuf (length (c :: s)) (rev (c :: s))) as [t Ht].
    exists (rev t). rewrite <- rev_app_distr, <- Ht. by rewrite rev_involutive.
  - simpl. rewrite solid_space1 by done.
    destruct s as [|a [|b m]]; simpl; repeat case_match; try done; exfalso; ascii_bytes.
Qed.

Lemma solid_Forall s : s <> [] -> Forall solid_byte s -> solid s.
Proof.
  intros Hne Hs. split.
  - destruct s as [|c s]; [done|]. exists c. split; [done|]. by inversion Hs.
  - destruct (exists_last Hne) as (s' & c & ->). exists c. rewrite last_snoc. split; [done|].
    apply Forall_app in Hs as [_ Hc]. by inversion Hc.
Qed.

Lemma TrimSpace_nil : TrimSpace [] = [].
Proof. done. Qed.

Lemma solidb_solid s : solidb s = true -> solid s.
Proof.
  unfold solidb, solid. destruct (head s), (last s); try done.
  intros H. bool_to_prop. split; eauto.
Qed.

Lemma solid_app a m b : solid a -> solid b -> solid (a ++ m ++ b).
Proof.
  intros [(c & Hc & ?) _] [_ (d & Hd & ?)]. split.
  - exists c. split; [|done]. by destruct a.
  - exists d. split; [|done]. rewrite app_assoc, last_app. by rewrite Hd.
Qed.

Lemma solid_single c : solid_byte c -> solid [c].
Proof. split; exists c; done. Qed.

Lemma solid_cons c s : solid_byte c -> solid s -> solid (c :: s).
Proof. intros. by apply (solid_app [c] [] s); [apply solid_single|]. Qed.

Lemma solid_not_nil s : solid s -> s <> [].
Proof. by intros [(c & Hc & _) _] ->. Qed.

#[export] Hint Resolve solidb_solid solid_app solid_cons solid_single : awg.
#[export] Hint Rewrite TrimSpace_nil : awg_rw.

(** ** Searching and splitting *)

Lemma ascii_eqb_true x y : Ascii.eqb x y = true <-> x = y.
Proof. apply Ascii.eqb_eq. Qed.

Lemma ascii_eqb_false x y : Ascii.eqb x y = false <-> x <> y.
Proof. apply Ascii.eqb_neq. Qed.

Lemma IndexByte_None s c : IndexByte s c = None <-> c ∉ s.
Proof.
  induction s as [|x s IH]; simpl; [set_solver|].
  destruct (Ascii.eqb_spec x c) as [->|Hne]; [set_solver|].
  rewrite fmap_None, IH. set_solver.
Qed.

(** The first occurrence splits the text. *)
Lemma IndexByte_app a c b : c ∉ a -> IndexByte (a ++ c :: b) c = Some (length a).
Proof.
  induction a as [|x a IH]; simpl; intros Ha.
  - by rewrite Ascii.eqb_refl.
  - destruct (Ascii.eqb_spec x c) as [->|Hne]; [set_solver|].
    rewrite IH by set_solver. done.
Qed.

Lemma Cut_app a c b : c ∉ a -> Cut (a ++ c :: b) c = Some (a, b).
Proof.
  intros Ha. unfold Cut. rewrite IndexByte_app by done.
  rewrite take_app_length. rewrite (drop_app_ge a) by lia.
  by replace (S (length a) - length a)%nat with 1%nat by lia.
Qed.

Lemma Cut_Some s c a b : Cut s c = Some (a, b) -> s = a ++ c :: b /\ c ∉ a.
Proof.
  unfold Cut. revert a b. induction s as [|x s IH]; intros a b; simpl; [done|].
  destruct (Ascii.eqb_spec x c) as [->|Hne].
  - intros. simplify_eq/=. set_solver.
  - destruct (IndexByte s c) as [i|]; simpl; [|done]. intros. simplify_eq/=.
    destruct (IH _ _ eq_refl) as [E Hn].
    split; [by rewrite <- E|set_solver].
Qed.

Lemma Cut_None s c : Cut s c = None <-> c ∉ s.
Proof. unfold Cut. rewrite <- IndexByte_None. by destruct (IndexByte s c). Qed.

(** The text before the first separator is unique. *)
Lemma first_sep_inj (c : ascii) a b a' b' :
  c ∉ a -> c ∉ a' -> a ++ c :: b = a' ++ c :: b' -> a = a' /\ b = b'.
Proof.
  intros Ha Ha' E. apply (f_equal (fun s => Cut s c)) in E.
  rewrite !Cut_app in E by done. by simplify_eq.
Qed.

(** A text either lacks a byte or splits at its first occurrence. *)
Lemma first_sep_cases (s : bytes) c : c ∉ s \/ exists a b, s = a ++ c :: b /\ c ∉ a.
Proof.
  destruct (Cut s c) as [[a b]|] eqn:E.
  - apply Cut_Some in E as [-> ?]. right. eauto.
  - left. by apply Cut_None.
Qed.

Lemma Split_not_nil s c : Split s c <> [].
Proof. destruct s as [|x s]; simpl; [done|]. destruct (Ascii.eqb x c), (Split s c); done. Qed.

Lemma Split_absent s c : c ∉ s -> Split s c = [s].
Proof.
  induction s as [|x s IH]; simpl; intros H; [done|].
  destruct (Ascii.eqb_spec x c) as [->|]; [set_solver|]. rewrite IH; set_solver.
Qed.

Lemma Split_app a c b : c ∉ a -> Split (a ++ c :: b) c = a :: Split b c.
Proof.
  induction a as [|x a IH]; simpl; intros H.
  - by rewrite Ascii.eqb_refl.
  - destruct (Ascii.eqb_spec x c) as [->|]; [set_solver|]. rewrite IH; set_solver.
Qed.

(** No piece of a split contains the separator. *)
Lemma Split_pieces s c : Forall (fun p => c ∉ p) (Split s c).
Proof.
  induction s as [|x s IH]; simpl; [constructor; set_solver|].
  destruct (Ascii.eqb_spec x c) as [->|]; [constructor; [set_solver|done]|].
  destruct (Split s c) as [|h t]; [constructor; set_solver|].
  inversion_clear IH. constructor; set_solver.
Qed.

Lemma Join_cons x l sep : l <> [] -> Join (x :: l) sep = x ++ sep ++ Join l sep.
Proof. by destruct l. Qed.

(** Joining the pieces of a split gives the text back. *)
Lemma Join_Split s c : Join (Split s c) [c] = s.
Proof.
  induction s as [|x s IH]; [done|]. simpl.
  destruct (Ascii.eqb_spec x c) as [->|].
  - rewrite Join_cons by apply Split_not_nil. by rewrite IH.
  - destruct (Split s c) as [|h t] eqn:Es; [by apply Split_not_nil in Es|].
    by destruct t; simpl in *; rewrite IH.
Qed.

Lemma Split_Join l c :
  l <> [] -> Forall (fun p => c ∉ p) l -> Split (Join l [c]) c = l.
Proof.
  induction l as [|x l IH]; [done|]. intros _ Hl. inversion_clear Hl as [|? ? Hx Hr].
  destruct l as [|y l]; [by apply Split_absent|].
  rewrite Join_cons by done. cbn [app]. rewrite Split_app by done. by rewrite IH.
Qed.

(** [SplitAfter] is [Split] with the separator put back after every piece but
    the last. *)
Fixpoint terminate (c : ascii) (l : list bytes) : list bytes :=
  match l with
  | [] => []
  | [x] => [x]
  | x :: l => (x ++ [c]) :: terminate c l
  end.

Lemma terminate_cons c x l : l <> [] -> terminate c (x :: l) = (x ++ [c]) :: terminate c l.
Proof. by destruct l. Qed.

Lemma SplitAfter_terminate s c : SplitAfter s c = terminate c (Split s c).
Proof.
  induction s as [|x s IH]; [done|]. simpl. rewrite IH.
  destruct (Ascii.eqb_spec x c) as [->|].
  - rewrite terminate_cons by apply Split_not_nil. done.
  - destruct (Split s c) as [|h [|h' t]]; done.
Qed.

Lemma terminate_not_nil c l : l <> [] -> terminate c l <> [].
Proof. by destruct l as [|? [|??]]. Qed.

Lemma concat_terminate c l : concat (terminate c l) = Join l [c].
Proof.
  induction l as [|x [|y l] IH]; [done|simpl; by rewrite app_nil_r|].
  rewrite terminate_cons, Join_cons by done. cbn [concat]. rewrite IH.
  by rewrite <- app_assoc.
Qed.

Lemma concat_SplitAfter s c : concat (SplitAfter s c) = s.
Proof. by rewrite SplitAfter_terminate, concat_terminate, Join_Split. Qed.

Lemma unlines_cons l ls : unlines (l :: ls) = l ++ nl :: unlines ls.
Proof. unfold unlines. simpl. by rewrite <- app_assoc. Qed.

Lemma unlines_app a b : unlines (a ++ b) = unlines a ++ unlines b.
Proof. unfold unlines. by rewrite fmap_app, concat_app. Qed.

Lemma Split_unlines ls : Forall (fun l => nl ∉ l) ls -> Split (unlines ls) nl = ls ++ [[]].
Proof.
  induction ls as [|l ls IH]; intros H; [done|]. inversion_clear H.
  rewrite unlines_cons, Split_app by done. by rewrite IH.
Qed.

Lemma Split_unlines_last ls s :
  Forall (fun l => nl ∉ l) ls -> nl ∉ s -> Split (unlines ls ++ s) nl = ls ++ [s].
Proof.
  induction ls as [|l ls IH]; intros H Hs; [by apply Split_absent|]. inversion_clear H.
  rewrite unlines_cons, <- app_assoc. cbn [app]. rewrite Split_app by done. by rewrite IH.
Qed.

Lemma terminate_snoc ls s :
  terminate nl (ls ++ [s]) = ((fun l => l ++ [nl]) <$> ls) ++ [s].
Proof.
  induction ls as [|l ls IH]; [done|]. cbn [app]. rewrite terminate_cons by (by destruct ls).
  by rewrite IH.
Qed.

(** Every text is a sequence of terminated lines and a rest without newline. *)
Lemma text_lines s : exists ls r,
  s = unlines ls ++ r /\ Forall (fun l => nl ∉ l) ls /\ (nl ∉ r)
  /\ Split s nl = ls ++ [r] /\ SplitAfter s nl = ((fun l => l ++ [nl]) <$> ls) ++ [r].
Proof.
  destruct (exists_last (Split_not_nil s nl)) as (ls & r & Hs).
  pose proof (Split_pieces s nl) as Hp. rewrite Hs in Hp. apply Forall_app in Hp as [Hls Hr].
  inversion_clear Hr as [|? ? Hr' _].
  assert (Ha : SplitAfter s nl = ((fun l => l ++ [nl]) <$> ls) ++ [r])
    by (by rewrite SplitAfter_terminate, Hs, terminate_snoc).
  exists ls, r. split; [|done].
  rewrite <- (concat_SplitAfter s nl), Ha, concat_app. simpl. by rewrite app_nil_r.
Qed.

#[export] Hint Resolve Split_not_nil terminate_not_nil : awg.
