(* ===== verification/Strconv.v ===== *)
(** * Go's [strconv] and [encoding/hex], as far as awg-rest uses them

    Numbers are parsed into [Z] and checked against the width Go parses them
    at; [None] stands for the error of the call (the program distinguishes
    failure from success, never one parse error from another). *)

From S2P Require Import Prelude GoStrings.

(** ** Definitions *)

(** The value of a decimal digit. *)
Definition digit (c : ascii) : option Z :=
  if (48 <=? code c) && (code c <=? 57) then Some (code c - 48) else None.

Fixpoint parse_digits (acc : Z) (s : bytes) : option Z :=
  match s with
  | [] => Some acc
  | c :: s => d ← digit c; parse_digits (acc * 10 + d) s
  end.

(** Unsigned decimal text: one digit at least. *)
Definition parse_udec (s : bytes) : option Z :=
  match s with
  | [] => None
  | _ => parse_digits 0 s
  end.

(** [strconv.ParseUint(s, 10, bits)] *)
Definition ParseUint10 (s : bytes) (bits : Z) : option Z :=
  v ← parse_udec s; if v <? 2 ^ bits then Some v else None.

(** The sign of a number and what follows it. *)
Definition split_sign (s : bytes) : bool * bytes :=
  match s with
  | c :: r => if Ascii.eqb c "-" then (true, r)
              else if Ascii.eqb c "+" then (false, r) else (false, s)
  | [] => (false, s)
  end.

(** [strconv.ParseInt(s, 10, 64)], and [strconv.Atoi] with a 64-bit [int]: an
    optional sign, one digit at least, the value in the int64 range. *)
Definition ParseInt10 (s : bytes) : option Z :=
  let '(neg, ds) := split_sign s in
  v ← parse_udec ds;
  let z := if neg then - v else v in
  if (min_int64 <=? z) && (z <=? max_int64) then Some z else None.

Definition Atoi (s : bytes) : option Z := ParseInt10 s.

Definition digit_byte (d : Z) : ascii := ascii_of_N (Z.to_N (48 + d)).

Fixpoint udec_aux (fuel : nat) (n : Z) (acc : bytes) : bytes :=
  match fuel with
  | O => acc
  | S fuel =>
      let acc := digit_byte (n mod 10) :: acc in
      if n / 10 =? 0 then acc else udec_aux fuel (n / 10) acc
  end.

(** Decimal digits of [n >= 0]; one loop per digit, and a number has no more
    decimal than binary digits. *)
Definition format_udec (n : Z) : bytes := udec_aux (S (Z.to_nat (Z.log2 n))) n [].

(** [strconv.FormatInt(z, 10)], [strconv.Itoa] and the verb %d. *)
Definition FormatInt (z : Z) : bytes :=
  if z <? 0 then "-"%char :: format_udec (- z) else format_udec z.

(** The verb %x for [n >= 0]. *)
Definition hex_digit_byte (d : Z) : ascii := ascii_of_N (Z.to_N (if d <? 10 then 48 + d else 87 + d)).

Fixpoint uhex_aux (fuel : nat) (n : Z) (acc : bytes) : bytes :=
  match fuel with
  | O => acc
  | S fuel =>
      let acc := hex_digit_byte (n mod 16) :: acc in
      if n / 16 =? 0 then acc else uhex_aux fuel (n / 16) acc
  end.

Definition format_uhex (n : Z) : bytes := uhex_aux (S (Z.to_nat (Z.log2 n))) n [].

(** The value of a hexadecimal digit. *)
Definition hex_digit (c : ascii) : option Z :=
  if (48 <=? code c) && (code c <=? 57) then Some (code c - 48)
  else if (97 <=? code c) && (code c <=? 102) then Some (code c - 87)
  else if (65 <=? code c) && (code c <=? 70) then Some (code c - 55)
  else None.

(** *** [strconv.ParseInt(s, 0, 64)]: base prefixes and digit separators *)

(** The digits after a base prefix; underscores are skipped here and checked by
    [underscoreOK]. *)
Fixpoint parse_base (base acc : Z) (s : bytes) : option Z :=
  match s with
  | [] => Some acc
  | c :: s =>
      if Ascii.eqb c "_" then parse_base base acc s
      else d ← hex_digit c; if d <? base then parse_base base (acc * base + d) s else None
  end.

(** The base a text announces, its digits, and whether it has a letter prefix. *)
Definition base_prefix (s : bytes) : Z * bytes * bool :=
  match s with
  | z :: x :: r =>
      if Ascii.eqb z "0" then
        let l := lower_byte x in
        if negb (bool_decide (r = [])) && Ascii.eqb l "b" then (2, r, true)
        else if negb (bool_decide (r = [])) && Ascii.eqb l "o" then (8, r, true)
        else if negb (bool_decide (r = [])) && Ascii.eqb l "x" then (16, r, true)
        else (8, x :: r, false)
      else (10, s, false)
  | [z] => if Ascii.eqb z "0" then (8, [], false) else (10, s, false)
  | [] => (10, s, false)
  end.

(** The loop of [underscoreOK] after the prefix; [saw] is the kind of the last
    byte: a digit, an underscore, or neither. *)
Inductive saw_kind := SawDigit | SawUnderscore | SawOther.

Fixpoint underscore_loop (hex : bool) (saw : saw_kind) (s : bytes) : bool :=
  match s with
  | [] => match saw with SawUnderscore => false | _ => true end
  | c :: s =>
      if (match digit c with Some _ => true | None => false end)
         || (hex && match hex_digit c with Some _ => true | None => false end)
      then underscore_loop hex SawDigit s
      else if Ascii.eqb c "_" then
        match saw with SawDigit => underscore_loop hex SawUnderscore s | _ => false end
      else match saw with SawUnderscore => false | _ => underscore_loop hex SawOther s end
  end.

Definition underscoreOK (s : bytes) : bool :=
  let '(base, _, prefixed) := base_prefix s in
  underscore_loop (prefixed && (base =? 16)) (if prefixed then SawDigit else SawOther)
    (if prefixed then drop 2 s else s).

Definition parse_ubase0 (s : bytes) : option Z :=
  match s with
  | [] => None
  | _ =>
      let '(base, ds, _) := base_prefix s in
      v ← parse_base base 0 ds;
      if in_cutset s "_"%char && negb (underscoreOK s) then None else Some v
  end.

Definition ParseInt0 (s : bytes) : option Z :=
  let '(neg, ds) := split_sign s in
  v ← parse_ubase0 ds;
  let z := if neg then - v else v in
  if (min_int64 <=? z) && (z <=? max_int64) then Some z else None.

(** [hex.DecodeString] *)
Fixpoint hex_DecodeString (s : bytes) : option (list Z) :=
  match s with
  | [] => Some []
  | a :: b :: s =>
      hi ← hex_digit a; lo ← hex_digit b;
      r ← hex_DecodeString s; Some ((16 * hi + lo) :: r)
  | [_] => None
  end.

(** ** The range of a digit *)

Lemma digit_range c d : digit c = Some d -> 0 <= d <= 9.
Proof. unfold digit. destruct (_ && _) eqn:E; [|done]. intros [= <-]. lia. Qed.

Lemma hex_digit_range c d : hex_digit c = Some d -> 0 <= d < 16.
Proof. unfold hex_digit. repeat case_match; intros; simplify_eq; bool_to_prop; lia. Qed.

(** ** Decimal round trip *)

Lemma code_digit_byte d : 0 <= d < 10 -> code (digit_byte d) = 48 + d.
Proof.
  intros Hd. unfold code, digit_byte. rewrite N_ascii_embedding by lia. lia.
Qed.

Lemma digit_digit_byte d : 0 <= d < 10 -> digit (digit_byte d) = Some d.
Proof.
  intros Hd. unfold digit. rewrite code_digit_byte by done.
  destruct (_ && _) eqn:E; [f_equal; lia|lia].
Qed.

Lemma parse_digits_app a b acc :
  parse_digits acc (a ++ b) = (v ← parse_digits acc a; parse_digits v b).
Proof.
  revert acc. induction a as [|c a IH]; intros acc; simpl; [done|].
  destruct (digit c); simpl; [apply IH|done].
Qed.

Lemma log2_div10 n : 10 <= n -> (Z.to_nat (Z.log2 (n / 10)) < Z.to_nat (Z.log2 n))%nat.
Proof.
  intros Hn. assert (Z.log2 (n / 10) <= Z.log2 (n / 2 ^ 3)) as H1.
  { apply Z.log2_le_mono. change (2 ^ 3) with 8. apply Z.div_le_compat_l; lia. }
  rewrite <- Z.shiftr_div_pow2 in H1 by lia. rewrite Z.log2_shiftr in H1 by lia.
  assert (3 <= Z.log2 n) by (apply (Z.log2_le_mono 8); lia). lia.
Qed.

Lemma udec_aux_spec fuel n acc :
  0 <= n -> (Z.to_nat (Z.log2 n) < fuel)%nat ->
  exists ds, udec_aux fuel n acc = ds ++ acc /\ parse_digits 0 ds = Some n /\ ds <> []
             /\ Forall (fun c => 48 <= code c <= 57) ds.
Proof.
  revert n acc. induction fuel as [|fuel IH]; intros n acc Hn Hf; [lia|]. simpl.
  assert (0 <= n mod 10 < 10) by (apply Z.mod_pos_bound; lia).
  assert (48 <= code (digit_byte (n mod 10)) <= 57) by (rewrite code_digit_byte; lia).
  destruct (Z.eqb_spec (n / 10) 0) as [E|E].
  - exists [digit_byte (n mod 10)]. split; [done|]. split; [|split; [done|by apply Forall_singleton]].
    simpl. rewrite digit_digit_byte by done. simpl. f_equal.
    apply Z.div_small_iff in E; [|lia]. rewrite Z.mod_small; lia.
  - assert (10 <= n) as Hge.
    { apply Z.nlt_ge. intros ?. apply E, Z.div_small. lia. }
    pose proof (log2_div10 n Hge).
    destruct (IH (n / 10) (digit_byte (n mod 10) :: acc)) as (ds & -> & Hp & Hne & Hall);
      [by apply Z.div_pos|lia|].
    exists (ds ++ [digit_byte (n mod 10)]). rewrite <- app_assoc. split; [done|].
    split; [|split; [by destruct ds|apply Forall_app; split; [done|by apply Forall_singleton]]].
    rewrite parse_digits_app, Hp. simpl. rewrite digit_digit_byte by done. simpl.
    f_equal. pose proof (Z.div_mod n 10). lia.
Qed.

Lemma format_udec_spec n :
  0 <= n -> parse_digits 0 (format_udec n) = Some n /\ format_udec n <> []
            /\ Forall (fun c => 48 <= code c <= 57) (format_udec n).
Proof.
  intros Hn. destruct (udec_aux_spec (S (Z.to_nat (Z.log2 n))) n []) as (ds & E & ?);
    [done|lia|]. unfold format_udec. by rewrite E, app_nil_r.
Qed.

Lemma parse_udec_format n : 0 <= n -> parse_udec (format_udec n) = Some n.
Proof.
  intros Hn. destruct (format_udec_spec n Hn) as (Hp & Hne & _).
  unfold parse_udec. by destruct (format_udec n).
Qed.

(** Digits are neither signs nor blanks. *)
Lemma format_udec_head n c r :
  0 <= n -> format_udec n = c :: r -> 48 <= code c <= 57.
Proof.
  intros Hn E. destruct (format_udec_spec n Hn) as (_ & _ & Hall).
  rewrite E in Hall. by inversion Hall.
Qed.

Lemma digit_char_ne c x : 48 <= code c <= 57 -> ~ (48 <= code x <= 57) -> c <> x.
Proof. by intros ? ? ->. Qed.

(** [strconv.ParseInt] reads back what [strconv.FormatInt] wrote. *)
Lemma ParseInt10_FormatInt z : in_int64 z -> ParseInt10 (FormatInt z) = Some z.
Proof.
  intros [Hlo Hhi]. unfold FormatInt, ParseInt10, split_sign.
  destruct (Z.ltb_spec z 0) as [Hneg|Hpos].
  - simpl. rewrite parse_udec_format by lia. simpl.
    destruct (_ && _) eqn:E; [f_equal; lia|]. lia.
  - destruct (format_udec z) as [|c r] eqn:E.
    { by destruct (format_udec_spec z Hpos) as (_ & ? & _). }
    pose proof (format_udec_head z c r Hpos E) as Hc.
    assert (Ascii.eqb c "-" = false) as ->.
    { apply ascii_eqb_false. apply digit_char_ne; [done|code_lia]. }
    assert (Ascii.eqb c "+" = false) as ->.
    { apply ascii_eqb_false. apply digit_char_ne; [done|code_lia]. }
    rewrite <- E, parse_udec_format by lia. simpl.
    destruct (_ && _) eqn:E'; [done|]. lia.
Qed.

Lemma format_udec_notin n x : 0 <= n -> ~ (48 <= code x <= 57) -> x ∉ format_udec n.
Proof.
  intros Hn Hx Hin. destruct (format_udec_spec n Hn) as (_ & _ & Hall).
  rewrite Forall_forall in Hall. by apply Hall in Hin.
Qed.

Lemma format_udec_solid n : 0 <= n -> solid (format_udec n).
Proof.
  intros Hn. destruct (format_udec_spec n Hn) as (_ & Hne & Hall).
  unfold solid, solid_byte. rewrite Forall_forall in Hall.
  destruct (format_udec n) as [|c s] eqn:E using rev_ind; [done|]. clear IHs.
  split.
  - destruct (s ++ [c]) as [|d r] eqn:E'; [by destruct s|].
    exists d. split; [done|]. specialize (Hall d ltac:(set_solver)). lia.
  - exists c. rewrite last_snoc. split; [done|]. specialize (Hall c ltac:(set_solver)). lia.
Qed.

Lemma FormatInt_solid z : solid (FormatInt z).
Proof.
  unfold FormatInt. destruct (Z.ltb_spec z 0).
  - apply solid_cons; [unfold solid_byte; code_lia|]. apply format_udec_solid. lia.
  - by apply format_udec_solid.
Qed.

Lemma parse_udec_minus a b : parse_udec (a ++ "-"%char :: b) = None.
Proof.
  assert (forall acc, parse_digits acc (a ++ "-"%char :: b) = None) as H.
  { induction a as [|c a IH]; intros acc; simpl; [done|]. by destruct (digit c); simpl. }
  unfold parse_udec. rewrite H. by destruct a.
Qed.

(** Text with an inner minus sign is not a number. *)
Lemma ParseInt10_inner_minus c a b : ParseInt10 (c :: a ++ "-"%char :: b) = None.
Proof.
  unfold ParseInt10, split_sign. destruct (Ascii.eqb c "-"); [by rewrite parse_udec_minus|].
  destruct (Ascii.eqb c "+"); [by rewrite parse_udec_minus|].
  change (c :: a ++ "-"%char :: b) with ((c :: a) ++ "-"%char :: b).
  by rewrite parse_udec_minus.
Qed.

Lemma ParseInt10_range s z : ParseInt10 s = Some z -> in_int64 z.
Proof.
  unfold ParseInt10, in_int64. destruct (split_sign s) as [neg ds].
  destruct (parse_udec ds) as [v|]; simpl; [|done].
  case_match; intros; simplify_eq; lia.
Qed.

Lemma ParseInt0_range s z : ParseInt0 s = Some z -> in_int64 z.
Proof.
  unfold ParseInt0, in_int64. destruct (split_sign s) as [neg ds].
  destruct (parse_ubase0 ds) as [v|]; simpl; [|done].
  case_match; intros; simplify_eq; lia.
Qed.

Lemma parse_digits_nonneg acc s v : 0 <= acc -> parse_digits acc s = Some v -> 0 <= v.
Proof.
  revert acc. induction s as [|c s IH]; intros acc Hacc; simpl; [by intros [= <-]|].
  unfold digit. case_match; simpl; [|done]. apply IH. lia.
Qed.

(** Without a minus sign the value is not negative. *)
Lemma parse_digits_le acc s v : 0 <= acc -> parse_digits acc s = Some v -> acc <= v.
Proof.
  revert acc. induction s as [|c s IH]; simpl; intros acc Ha Hv; [by simplify_eq|].
  unfold digit in Hv. destruct (_ && _) eqn:E in Hv; [|done]. bool_to_prop. simpl in Hv.
  apply IH in Hv; lia.
Qed.

Lemma ParseInt10_nonneg s z : "-"%char ∉ s -> ParseInt10 s = Some z -> 0 <= z.
Proof.
  intros Hm. unfold ParseInt10. assert ((split_sign s).1 = false) as Hs.
  { destruct s as [|c s]; [done|]. simpl.
    destruct (Ascii.eqb_spec c "-") as [->|_]; [set_solver|]. by destruct (Ascii.eqb c "+"). }
  destruct (split_sign s) as [neg ds]. simpl in Hs. subst neg.
  destruct (parse_udec ds) as [v|] eqn:Hv; simpl; [|done]. case_match; intros; simplify_eq.
  unfold parse_udec in Hv. destruct ds; [done|].
  by eapply parse_digits_nonneg; [|exact Hv].
Qed.

Lemma FormatInt_notin z x :
  0 <= z -> ~ (48 <= code x <= 57) -> x ∉ FormatInt z.
Proof. intros. unfold FormatInt. destruct (Z.ltb_spec z 0); [lia|]. by apply format_udec_notin. Qed.

Lemma FormatInt_nl z : nl ∉ FormatInt z.
Proof.
  assert (Hnl : ~ (48 <= code nl <= 57)) by code_lia. unfold FormatInt. case_match; bool_to_prop.
  - rewrite elem_of_cons. intros [Hc|Hc]; [by vm_compute in Hc|]. by apply format_udec_notin in Hc; [|lia|].
  - apply format_udec_notin; [lia|done].
Qed.

Lemma hex_DecodeString_length s l :
  hex_DecodeString s = Some l -> Z.of_nat (length s) = 2 * Z.of_nat (length l).
Proof.
  revert l. induction s as [s IH] using (well_founded_induction (well_founded_ltof _ length)).
  intros l. destruct s as [|a [|b s]]; simpl; [by intros [= <-]|done|].
  destruct (hex_digit a); simpl; [|done]. destruct (hex_digit b); simpl; [|done].
  destruct (hex_DecodeString s) as [r|] eqn:E; simpl; [|done]. intros [= <-].
  apply IH in E; [simpl; lia|]. unfold ltof. simpl. lia.
Qed.

#[export] Hint Resolve format_udec_solid FormatInt_solid : awg.

(** ** Hexadecimal round trip *)

Lemma code_hex_digit_byte d : 0 <= d < 16 -> code (hex_digit_byte d) = if d <? 10 then 48 + d else 87 + d.
Proof.
  intros Hd. unfold code, hex_digit_byte. destruct (Z.ltb_spec d 10); rewrite N_ascii_embedding by lia; lia.
Qed.

Lemma hex_digit_hex_digit_byte d : 0 <= d < 16 -> hex_digit (hex_digit_byte d) = Some d.
Proof.
  intros Hd. unfold hex_digit. rewrite code_hex_digit_byte by done.
  destruct (Z.ltb_spec d 10); repeat case_match; bool_to_prop; f_equal; lia.
Qed.

(** A byte that a hexadecimal number is written with. *)
Definition hex_byte (c : ascii) : Prop := is_Some (hex_digit c).

Lemma hex_byte_ne c x : hex_byte c -> hex_digit x = None -> Ascii.eqb c x = false.
Proof. intros [d Hd] Hx. apply ascii_eqb_false. intros ->. congruence. Qed.

Lemma parse_base_app base a b acc :
  parse_base base acc (a ++ b) = (v ← parse_base base acc a; parse_base base v b).
Proof.
  revert acc. induction a as [|c a IH]; intros acc; [done|]. cbn [app parse_base].
  destruct (Ascii.eqb c "_"); [apply IH|]. destruct (hex_digit c) as [d|]; [|done]. cbn [mbind option_bind].
  destruct (d <? base); [apply IH|done].
Qed.

Lemma log2_div16 n : 16 <= n -> (Z.to_nat (Z.log2 (n / 16)) < Z.to_nat (Z.log2 n))%nat.
Proof.
  intros Hn. change 16 with (2 ^ 4) at 1. rewrite <- Z.shiftr_div_pow2, Z.log2_shiftr by lia.
  assert (4 <= Z.log2 n) by (apply (Z.log2_le_mono 16); lia). lia.
Qed.

Lemma uhex_aux_spec fuel n acc :
  0 <= n -> (Z.to_nat (Z.log2 n) < fuel)%nat ->
  exists ds, uhex_aux fuel n acc = ds ++ acc /\ parse_base 16 0 ds = Some n /\ ds <> [] /\ Forall hex_byte ds.
Proof.
  revert n acc. induction fuel as [|fuel IH]; intros n acc Hn Hf; [lia|]. cbn [uhex_aux].
  assert (Hd : 0 <= n mod 16 < 16) by (apply Z.mod_pos_bound; lia). pose proof (hex_digit_hex_digit_byte _ Hd) as Hx.
  set (c := hex_digit_byte (n mod 16)) in *.
  assert (Hc : forall a, parse_base 16 a [c] = Some (a * 16 + n mod 16)).
  { intros a. cbn [parse_base]. rewrite (hex_byte_ne c "_"%char) by (done || by eexists). rewrite Hx. cbn [mbind option_bind].
    destruct (Z.ltb_spec (n mod 16) 16); [done|lia]. }
  destruct (Z.eqb_spec (n / 16) 0) as [E|E].
  - exists [c]. split_and!; [done| |done|apply Forall_singleton; by eexists].
    rewrite Hc. f_equal. pose proof (Z.div_mod n 16). lia.
  - assert (16 <= n) as Hge by (apply Z.nlt_ge; intros ?; apply E, Z.div_small; lia). pose proof (log2_div16 n Hge).
    destruct (IH (n / 16) (c :: acc)) as (ds & -> & Hp & Hne & Hall); [by apply Z.div_pos|lia|].
    exists (ds ++ [c]). rewrite <- app_assoc. split_and!; [done| |by destruct ds|apply Forall_app; split; [done|apply Forall_singleton; by eexists]].
    rewrite parse_base_app, Hp. cbn [mbind option_bind]. rewrite Hc. f_equal. pose proof (Z.div_mod n 16). lia.
Qed.

Lemma format_uhex_spec n : 0 <= n ->
  parse_base 16 0 (format_uhex n) = Some n /\ format_uhex n <> [] /\ Forall hex_byte (format_uhex n).
Proof.
  intros Hn. destruct (uhex_aux_spec (S (Z.to_nat (Z.log2 n))) n []) as (ds & E & ?); [done|lia|].
  unfold format_uhex. by rewrite E, app_nil_r.
Qed.

(** [strconv.ParseInt(s, 0, 64)] reads back a number written with the verb %#x. *)
Lemma ParseInt0_hex n : 0 <= n <= max_int64 -> ParseInt0 (#"0x" ++ format_uhex n) = Some n.
Proof.
  intros [H0 Hmax]. destruct (format_uhex_spec n H0) as (Hp & Hne & Hall).
  assert (Hu : in_cutset (#"0x" ++ format_uhex n) "_"%char = false).
  { assert (forall l, Forall hex_byte l -> existsb (Ascii.eqb "_") l = false) as Hl.
    { induction 1 as [|c l Hc _ IH]; [done|]. cbn [existsb]. rewrite IH, orb_false_r. apply ascii_eqb_false. intros <-. by destruct Hc. }
    exact (Hl _ Hall). }
  unfold ParseInt0. change (split_sign (#"0x" ++ format_uhex n)) with (false, #"0x" ++ format_uhex n).
  unfold parse_ubase0. change (#"0x" ++ format_uhex n) with ("0"%char :: "x"%char :: format_uhex n) in *.
  change (base_prefix ("0"%char :: "x"%char :: format_uhex n))
    with (if negb (bool_decide (format_uhex n = [])) && false then (2, format_uhex n, true)
          else if negb (bool_decide (format_uhex n = [])) && false then (8, format_uhex n, true)
          else if negb (bool_decide (format_uhex n = [])) && true then (16, format_uhex n, true)
          else (8, "x"%char :: format_uhex n, false)).
  rewrite (bool_decide_eq_false_2 _ Hne). cbn [negb andb]. rewrite Hp. cbn [mbind option_bind]. rewrite Hu. cbn [andb].
  cbn [mbind option_bind]. unfold min_int64. destruct (_ && _) eqn:E; [done|]. bool_to_prop. lia.
Qed.
