(* ===== verification/Json.v ===== *)
(** * Json: [encoding/json] as far as awg-rest uses it

    JSON values, the text [json.Marshal] writes for them and the value the decoder
    reads from a text.  Strings are UTF-8: the encoder replaces bytes that are not
    by the replacement character, so the round trip returns [valid_text] of a
    string, which is the string itself for ASCII text.  The decoder's limit of
    10000 nested values is not modelled. *)

From S2P Require Import Prelude GoStrings Strconv.

(** ** Values *)

(** Numbers are kept as the literal of the text. *)
Inductive json : Type :=
| JNull
| JBool (b : bool)
| JNum (literal : bytes)
| JStr (s : bytes)
| JArr (l : list json)
| JObj (l : list (bytes * json)).

(** The quotation mark and the backslash. *)
Definition qm : ascii := Ascii.ascii_of_nat 34.
Definition bsl : ascii := Ascii.ascii_of_nat 92.

(** ** UTF-8 *)

Definition between (lo hi : Z) (c : ascii) : bool := (lo <=? code c) && (code c <=? hi).
Definition cont_byte : ascii -> bool := between 0x80 0xBF.

(** The number of bytes of the valid encoding a text starts with. *)
Definition utf8_len (s : bytes) : option nat :=
  match s with
  | [] => None
  | a :: s =>
      if code a <? 0x80 then Some 1%nat
      else match s with
      | [] => None
      | b :: s =>
          if between 0xC2 0xDF a && cont_byte b then Some 2%nat
          else match s with
          | [] => None
          | c :: s =>
              if (((code a =? 0xE0) && between 0xA0 0xBF b)
                  || ((between 0xE1 0xEC a || between 0xEE 0xEF a) && cont_byte b)
                  || ((code a =? 0xED) && between 0x80 0x9F b)) && cont_byte c then Some 3%nat
              else match s with
              | [] => None
              | d :: _ =>
                  if (((code a =? 0xF0) && between 0x90 0xBF b)
                      || (between 0xF1 0xF3 a && cont_byte b)
                      || ((code a =? 0xF4) && between 0x80 0x8F b)) && cont_byte c && cont_byte d then Some 4%nat
                  else None
              end
          end
      end
  end.

Definition byte_of (z : Z) : ascii := ascii_of_N (Z.to_N z).

(** The UTF-8 encoding of a code point. *)
Definition encode_rune (r : Z) : bytes :=
  if r <? 0x80 then [byte_of r]
  else if r <? 0x800 then [byte_of (0xC0 + r / 64); byte_of (0x80 + r mod 64)]
  else if r <? 0x10000 then [byte_of (0xE0 + r / 4096); byte_of (0x80 + (r / 64) mod 64); byte_of (0x80 + r mod 64)]
  else [byte_of (0xF0 + r / 262144); byte_of (0x80 + (r / 4096) mod 64); byte_of (0x80 + (r / 64) mod 64);
        byte_of (0x80 + r mod 64)].

(** U+FFFD *)
Definition replacement : bytes := encode_rune 0xFFFD.

(** A text with each byte that is not part of a valid encoding replaced; [k] bytes
    still belong to the current rune. *)
Fixpoint valid_from (k : nat) (s : bytes) : bytes :=
  match s with
  | [] => []
  | c :: s' =>
      match k with
      | S k => c :: valid_from k s'
      | O => match utf8_len s with
             | Some n => c :: valid_from (n - 1) s'
             | None => replacement ++ valid_from 0 s'
             end
      end
  end.
Definition valid_text (s : bytes) : bytes := valid_from 0 s.

(** ** Encoder *)

Definition hex_lower (d : Z) : ascii := if d <? 10 then byte_of (48 + d) else byte_of (87 + d).

(** How a string shows an ASCII byte; the HTML characters are escaped. *)
Definition escape (c : ascii) : bytes :=
  if Ascii.eqb c qm || Ascii.eqb c bsl then [bsl; c]
  else if code c =? 8 then [bsl; "b"%char]
  else if code c =? 12 then [bsl; "f"%char]
  else if code c =? 10 then [bsl; "n"%char]
  else if code c =? 13 then [bsl; "r"%char]
  else if code c =? 9 then [bsl; "t"%char]
  else if (code c <? 32) || bool_decide (c ∈ #"<>&")
  then [bsl; "u"%char; "0"%char; "0"%char; hex_lower (code c / 16); hex_lower (code c mod 16)]
  else [c].

(** U+2028 and U+2029, which are escaped for JavaScript. *)
Definition line_separator (s : bytes) : option ascii :=
  match s with
  | a :: b :: c :: _ =>
      if (code a =? 0xE2) && (code b =? 0x80) && (code c =? 0xA8) then Some "8"%char
      else if (code a =? 0xE2) && (code b =? 0x80) && (code c =? 0xA9) then Some "9"%char
      else None
  | _ => None
  end.

(** The inside of a string literal; [k] bytes are left of the current rune, which
    is copied or, after an escape, skipped. *)
Fixpoint quote_from (k : nat) (skip : bool) (s : bytes) : bytes :=
  match s with
  | [] => []
  | c :: s' =>
      match k with
      | S k => if skip then quote_from k skip s' else c :: quote_from k skip s'
      | O =>
          match utf8_len s with
          | None => bsl :: #"ufffd" ++ quote_from 0 false s'
          | Some n =>
              if code c <? 0x80 then escape c ++ quote_from 0 false s'
              else match line_separator s with
                   | Some d => bsl :: #"u202" ++ [d] ++ quote_from 2 true s'
                   | None => c :: quote_from (n - 1) false s'
                   end
          end
      end
  end.

Definition quote_json (s : bytes) : bytes := qm :: quote_from 0 false s ++ [qm].

Definition comma_sep {A} (f : A -> bytes) (l : list A) : bytes := Join (f <$> l) #",".

(** [json.Marshal] *)
Fixpoint Marshal (j : json) : bytes :=
  match j with
  | JNull => #"null"
  | JBool true => #"true"
  | JBool false => #"false"
  | JNum l => l
  | JStr s => quote_json s
  | JArr l => "["%char :: comma_sep Marshal l ++ #"]"
  | JObj l => "{"%char :: comma_sep (fun kv => quote_json (fst kv) ++ ":"%char :: Marshal (snd kv)) l ++ #"}"
  end.

(** ** Decoder *)

Definition json_space (c : ascii) : bool :=
  (code c =? 32) || (code c =? 9) || (code c =? 10) || (code c =? 13).

Fixpoint skip_ws (s : bytes) : bytes :=
  match s with
  | c :: r => if json_space c then skip_ws r else s
  | [] => []
  end.

(** Four hexadecimal digits. *)
Definition hex4 (a b c d : ascii) : option Z :=
  a ← hex_digit a; b ← hex_digit b; c ← hex_digit c; d ← hex_digit d;
  Some (((a * 16 + b) * 16 + c) * 16 + d).

Definition simple_escape (e : ascii) : option ascii :=
  if bool_decide (e ∈ [qm; bsl; "/"%char]) then Some e
  else if Ascii.eqb e "b" then Some (byte_of 8)
  else if Ascii.eqb e "f" then Some (byte_of 12)
  else if Ascii.eqb e "n" then Some (byte_of 10)
  else if Ascii.eqb e "r" then Some (byte_of 13)
  else if Ascii.eqb e "t" then Some (byte_of 9)
  else None.

Definition surrogate (r : Z) : bool := (0xD800 <=? r) && (r <? 0xE000).

(** The content of a string literal after its opening quote, and the rest. *)
Fixpoint unquote_from (k : nat) (s : bytes) {struct s} : option (bytes * bytes) :=
  match s with
  | [] => None
  | c :: s1 =>
      match k with
      | S k => '(t, r) ← unquote_from k s1; Some (c :: t, r)
      | O =>
          if Ascii.eqb c qm then Some ([], s1)
          else if Ascii.eqb c bsl then
            match s1 with
            | [] => None
            | e :: s2 =>
                if Ascii.eqb e "u" then
                  match s2 with
                  | h1 :: h2 :: h3 :: h4 :: s3 =>
                      r ← hex4 h1 h2 h3 h4;
                      let single (x : bytes) := '(t, rest) ← unquote_from 0 s3; Some (x ++ t, rest) in
                      if surrogate r then
                        match s3 with
                        | b1 :: u1 :: l1 :: l2 :: l3 :: l4 :: s4 =>
                            match (if Ascii.eqb b1 bsl && Ascii.eqb u1 "u" then hex4 l1 l2 l3 l4 else None) with
                            | Some r2 =>
                                if (r <? 0xDC00) && (0xDC00 <=? r2) && (r2 <? 0xE000) then
                                  '(t, rest) ← unquote_from 0 s4;
                                  Some (encode_rune (0x10000 + (r - 0xD800) * 1024 + (r2 - 0xDC00)) ++ t, rest)
                                else single replacement
                            | None => single replacement
                            end
                        | _ => single replacement
                        end
                      else single (encode_rune r)
                  | _ => None
                  end
                else x ← simple_escape e; '(t, r) ← unquote_from 0 s2; Some (x :: t, r)
            end
          else if code c <? 32 then None
          else match utf8_len s with
               | Some n => '(t, r) ← unquote_from (n - 1) s1; Some (c :: t, r)
               | None => '(t, r) ← unquote_from 0 s1; Some (replacement ++ t, r)
               end
      end
  end.

(** Leading decimal digits. *)
Fixpoint digits (s : bytes) : bytes * bytes :=
  match s with
  | c :: r => match digit c with
              | Some _ => let '(d, rest) := digits r in (c :: d, rest)
              | None => ([], s)
              end
  | [] => ([], [])
  end.

(** One digit at least. *)
Definition digits1 (s : bytes) : option (bytes * bytes) :=
  match digits s with
  | ([], _) => None
  | r => Some r
  end.

Definition lex_int (s : bytes) : option (bytes * bytes) :=
  match s with
  | c :: r => if Ascii.eqb c "0" then Some ([c], r) else digits1 s
  | [] => None
  end.

Definition lex_frac (s : bytes) : option (bytes * bytes) :=
  match s with
  | c :: r => if Ascii.eqb c "." then '(d, rest) ← digits1 r; Some (c :: d, rest) else Some ([], s)
  | [] => Some ([], [])
  end.

Definition lex_exp (s : bytes) : option (bytes * bytes) :=
  match s with
  | c :: r =>
      if Ascii.eqb (lower_byte c) "e" then
        match r with
        | g :: r' =>
            if Ascii.eqb g "+" || Ascii.eqb g "-" then '(d, rest) ← digits1 r'; Some (c :: g :: d, rest)
            else '(d, rest) ← digits1 r; Some (c :: d, rest)
        | [] => None
        end
      else Some ([], s)
  | [] => Some ([], [])
  end.

Definition lex_number (s : bytes) : option (bytes * bytes) :=
  let '(sign, s) := match s with
                    | c :: r => if Ascii.eqb c "-" then ([c], r) else ([], s)
                    | [] => ([], [])
                    end in
  '(i, s) ← lex_int s; '(f, s) ← lex_frac s; '(e, s) ← lex_exp s;
  Some (sign ++ i ++ f ++ e, s).

Definition literal (word : bytes) (j : json) (s : bytes) : option (json * bytes) :=
  if HasPrefix s word then Some (j, drop (length word) s) else None.

(** One value, the members of an object after its brace or a comma, the elements
    of an array likewise; the fuel bounds the nesting of calls. *)
Fixpoint parse_value (fuel : nat) (s : bytes) : option (json * bytes) :=
  match fuel with
  | O => None
  | S fuel =>
      match skip_ws s with
      | [] => None
      | c :: r =>
          if Ascii.eqb c "{" then
            match skip_ws r with
            | c' :: r' => if Ascii.eqb c' "}" then Some (JObj [], r')
                          else '(l, r) ← parse_members fuel r; Some (JObj l, r)
            | [] => None
            end
          else if Ascii.eqb c "[" then
            match skip_ws r with
            | c' :: r' => if Ascii.eqb c' "]" then Some (JArr [], r')
                          else '(l, r) ← parse_elems fuel r; Some (JArr l, r)
            | [] => None
            end
          else if Ascii.eqb c qm then '(t, r) ← unquote_from 0 r; Some (JStr t, r)
          else if Ascii.eqb c "t" then literal #"true" (JBool true) (c :: r)
          else if Ascii.eqb c "f" then literal #"false" (JBool false) (c :: r)
          else if Ascii.eqb c "n" then literal #"null" JNull (c :: r)
          else '(l, r) ← lex_number (c :: r); Some (JNum l, r)
      end
  end
with parse_members (fuel : nat) (s : bytes) : option (list (bytes * json) * bytes) :=
  match fuel with
  | O => None
  | S fuel =>
      match skip_ws s with
      | c :: r =>
          if Ascii.eqb c qm then
            '(k, r) ← unquote_from 0 r;
            match skip_ws r with
            | c :: r =>
                if Ascii.eqb c ":" then
                  '(v, r) ← parse_value fuel r;
                  match skip_ws r with
                  | c :: r =>
                      if Ascii.eqb c "," then '(l, r) ← parse_members fuel r; Some ((k, v) :: l, r)
                      else if Ascii.eqb c "}" then Some ([(k, v)], r)
                      else None
                  | [] => None
                  end
                else None
            | [] => None
            end
          else None
      | [] => None
      end
  end
with parse_elems (fuel : nat) (s : bytes) : option (list json * bytes) :=
  match fuel with
  | O => None
  | S fuel =>
      '(v, r) ← parse_value fuel s;
      match skip_ws r with
      | c :: r =>
          if Ascii.eqb c "," then '(l, r) ← parse_elems fuel r; Some (v :: l, r)
          else if Ascii.eqb c "]" then Some ([v], r)
          else None
      | [] => None
      end
  end.

(** The first value of a body, as [json.Decoder.Decode] reads it; [None] is a
    syntax error or the end of the input. *)
Definition Decode (body : bytes) : option json := fst <$> parse_value (2 * length body + 2) body.

(** ** Strings *)

Lemma utf8_len_bounds s n : utf8_len s = Some n -> (1 <= n <= length s)%nat /\ (n <= 4)%nat.
Proof. unfold utf8_len. intros. repeat case_match; simplify_eq/=; lia. Qed.

(** The length of a rune depends on its bytes only. *)
Lemma utf8_len_take s n x : utf8_len s = Some n -> utf8_len (take n s ++ x) = Some n.
Proof.
  unfold utf8_len. intros H.
  destruct s as [|a [|b [|c [|d s]]]]; simpl in H; repeat case_match; simplify_eq/=;
    repeat (case_match; simplify_eq/=); congruence.
Qed.

Lemma quote_from_skip s b b' : quote_from 0 b s = quote_from 0 b' s.
Proof. by destruct s. Qed.

Lemma quote_from_copy k s :
  (k <= length s)%nat -> quote_from k false s = take k s ++ quote_from 0 false (drop k s).
Proof.
  revert s. induction k as [|k IH]; intros s Hk; [done|]. destruct s as [|c s]; [simpl in Hk; lia|].
  simpl in *. by rewrite IH by lia.
Qed.

Lemma valid_from_copy k s : (k <= length s)%nat -> valid_from k s = take k s ++ valid_from 0 (drop k s).
Proof.
  revert s. induction k as [|k IH]; intros s Hk; [done|]. destruct s as [|c s]; [simpl in Hk; lia|].
  simpl in *. by rewrite IH by lia.
Qed.

Lemma unquote_from_copy k s x :
  (k <= length s)%nat ->
  unquote_from k (take k s ++ x) = '(t, r) ← unquote_from 0 x; Some (take k s ++ t, r).
Proof.
  revert s. induction k as [|k IH]; intros s Hk.
  { simpl. by destruct (unquote_from 0 x) as [[t r]|]. }
  destruct s as [|c s]; [simpl in Hk; lia|]. simpl in *. rewrite IH by lia.
  by destruct (unquote_from 0 x) as [[t r]|].
Qed.

Lemma unquote_escape c x :
  code c < 0x80 ->
  unquote_from 0 (escape c ++ x) = '(t, r) ← unquote_from 0 x; Some (c :: t, r).
Proof.
  intros Hc. destruct c as [[] [] [] [] [] [] [] []]; try (exfalso; vm_compute in Hc; congruence); reflexivity.
Qed.

Lemma code_byte_of c z : (code c =? z) = true -> c = byte_of z.
Proof. intros H. bool_to_prop. subst z. unfold byte_of, code. by rewrite N2Z.id, ascii_N_embedding. Qed.

Lemma line_separator_Some s d :
  line_separator s = Some d -> exists s' x, s = byte_of 0xE2 :: byte_of 0x80 :: byte_of x :: s'
    /\ ((d = "8"%char /\ x = 0xA8) \/ (d = "9"%char /\ x = 0xA9)).
Proof.
  destruct s as [|a [|b [|c s]]]; cbn [line_separator]; try done.
  destruct (_ && _) eqn:E1; [|destruct ((_ && _) && (code c =? 0xA9)) eqn:E2; [clear E1; rename E2 into E1|done]];
    intros [= <-]; apply andb_true_iff in E1 as [E1 Hc]; apply andb_true_iff in E1 as [Ha Hb];
    apply code_byte_of in Ha as ->; apply code_byte_of in Hb as ->; apply code_byte_of in Hc as ->;
    eexists _, _; split; [done|naive_solver|done|naive_solver].
Qed.

Lemma unquote_u202 d y x :
  (d = "8"%char /\ y = 0xA8) \/ (d = "9"%char /\ y = 0xA9) ->
  unquote_from 0 (bsl :: #"u202" ++ [d] ++ x)
  = '(t, r) ← unquote_from 0 x; Some (byte_of 0xE2 :: byte_of 0x80 :: byte_of y :: t, r).
Proof. by intros [[-> ->]|[-> ->]]. Qed.

Lemma unquote_ufffd x :
  unquote_from 0 (bsl :: #"ufffd" ++ x) = '(t, r) ← unquote_from 0 x; Some (replacement ++ t, r).
Proof. done. Qed.

(** Reading back a quoted string gives its valid text. *)
Lemma unquote_quote s rest :
  unquote_from 0 (quote_from 0 false s ++ qm :: rest) = Some (valid_text s, rest).
Proof.
  unfold valid_text.
  induction s as [s IH] using (well_founded_induction (well_founded_ltof _ length)). unfold ltof in IH.
  destruct s as [|c s]; [done|]. cbn [quote_from valid_from].
  destruct (utf8_len (c :: s)) as [n|] eqn:Hn.
  - destruct (Z.ltb_spec (code c) 0x80) as [Hc|Hc].
    + assert (n = 1%nat) as -> by (unfold utf8_len in Hn; rewrite (proj2 (Z.ltb_lt _ _)) in Hn by done; congruence).
      rewrite <- app_assoc, unquote_escape, IH by (simpl; lia || done). done.
    + destruct (utf8_len_bounds _ _ Hn) as [[H1 H2] H4]. simpl in H2.
      destruct (line_separator (c :: s)) as [d|] eqn:Hd.
      * apply line_separator_Some in Hd as (s' & x & [= -> ->] & Hd).
        assert (Some n = Some 3%nat) as [= ->] by (rewrite <- Hn; by destruct Hd as [[-> ->]|[-> ->]]).
        cbn [quote_from valid_from Nat.sub]. rewrite (quote_from_skip s' true false).
        rewrite <- app_comm_cons, <- !app_assoc, (unquote_u202 d x), IH by (done || simpl; lia). done.
      * rewrite quote_from_copy, valid_from_copy by lia. cbn [app unquote_from].
        assert (Hne : Ascii.eqb c qm = false /\ Ascii.eqb c bsl = false /\ (code c <? 32) = false).
        { split_and!; [apply ascii_eqb_false; intros ->; by vm_compute in Hc..|lia]. }
        destruct Hne as (-> & -> & ->). rewrite <- !app_assoc.
        assert (utf8_len (c :: take (n - 1) s ++ quote_from 0 false (drop (n - 1) s) ++ qm :: rest) = Some n) as ->.
        { destruct n as [|n]; [lia|]. replace (S n - 1)%nat with n by lia. by apply (utf8_len_take (c :: s) (S n)). }
        rewrite unquote_from_copy, IH by (simpl; rewrite ?length_drop; lia). done.
  - rewrite <- app_comm_cons, <- app_assoc, unquote_ufffd, IH by (simpl; lia). done.
Qed.

Lemma valid_text_ascii s : ascii_text s -> valid_text s = s.
Proof.
  unfold valid_text. induction 1 as [|c s Hc Hs IH]; [done|]. cbn [valid_from utf8_len].
  rewrite (proj2 (Z.ltb_lt _ _)) by lia. cbn [Nat.sub]. by rewrite IH.
Qed.

(** ** Numbers *)

(** What may follow a value. *)
Definition delimited (rest : bytes) : Prop :=
  match rest with
  | [] => True
  | c :: _ => c ∈ [","%char; "]"%char; "}"%char; nl]
  end.

Definition all_digits (s : bytes) : Prop := Forall (fun c => 48 <= code c <= 57) s.

Lemma digits_app d rest :
  all_digits d -> match rest with c :: _ => digit c = None | [] => True end -> digits (d ++ rest) = (d, rest).
Proof.
  intros Hd Hr. induction Hd as [|c d Hc _ IH]; cbn [app digits].
  - destruct rest as [|c rest]; [done|]. cbn [digits]. by rewrite Hr.
  - unfold digit. rewrite (proj2 (Z.leb_le 48 _)), (proj2 (Z.leb_le _ 57)) by lia. cbn [andb]. by rewrite IH.
Qed.

(** The leading digit of a positive number is not zero. *)
Lemma udec_aux_head fuel n acc :
  0 < n -> (Z.to_nat (Z.log2 n) < fuel)%nat -> exists c r, udec_aux fuel n acc = c :: r /\ c <> "0"%char.
Proof.
  revert n acc. induction fuel as [|fuel IH]; intros n acc Hn Hf; [lia|]. cbn [udec_aux].
  destruct (Z.eqb_spec (n / 10) 0) as [E|E].
  - eexists _, _. split; [done|]. intros Hz. apply (f_equal code) in Hz.
    assert (0 <= n < 10) as Hs by (apply Z.div_small_iff in E; lia).
    rewrite Z.mod_small, code_digit_byte in Hz by lia. change (code "0") with 48 in Hz. lia.
  - assert (10 <= n) as Hge by (apply Z.nlt_ge; intros ?; apply E, Z.div_small; lia).
    apply IH; [apply Z.div_str_pos; lia|]. pose proof (log2_div10 n Hge). lia.
Qed.

Lemma delimited_plain c rest : delimited (c :: rest) ->
  digit c = None /\ Ascii.eqb c "." = false /\ Ascii.eqb (lower_byte c) "e" = false.
Proof. cbn. rewrite !elem_of_cons, elem_of_nil. by intros [->|[->|[->|[->|[]]]]]. Qed.

Lemma lex_tail rest :
  delimited rest -> lex_frac rest = Some ([], rest) /\ lex_exp rest = Some ([], rest)
                    /\ match rest with c :: _ => digit c = None | [] => True end.
Proof.
  destruct rest as [|c rest]; [done|]. intros (H1 & H2 & H3)%delimited_plain.
  cbn [lex_frac lex_exp]. by rewrite H2, H3.
Qed.

Lemma lex_int_udec n rest : 0 <= n -> delimited rest -> lex_int (format_udec n ++ rest) = Some (format_udec n, rest).
Proof.
  intros Hn (_ & _ & Hr)%lex_tail. destruct (Z.eq_dec n 0) as [->|].
  { done. }
  destruct (udec_aux_head (S (Z.to_nat (Z.log2 n))) n []) as (c & r & E & Hc); [lia|lia|].
  destruct (format_udec_spec n Hn) as (_ & _ & Hall). unfold format_udec in *. rewrite E in *.
  cbn [app lex_int]. rewrite (proj2 (ascii_eqb_false _ _)) by done. unfold digits1.
  change (c :: r ++ rest) with ((c :: r) ++ rest). by rewrite digits_app.
Qed.

Lemma lex_number_FormatInt z rest :
  delimited rest -> lex_number (FormatInt z ++ rest) = Some (FormatInt z, rest).
Proof.
  intros Hr. destruct (lex_tail rest Hr) as (Hf & He & _).
  unfold FormatInt. destruct (Z.ltb_spec z 0) as [Hz|Hz]; unfold lex_number.
  - cbn [app]. change (Ascii.eqb "-" "-") with true. cbn iota.
    rewrite lex_int_udec by (done || lia). cbn [mbind option_bind]. rewrite Hf. cbn [mbind option_bind]. rewrite He.
    cbn [mbind option_bind app]. by rewrite app_nil_r.
  - pose proof (lex_int_udec z rest Hz Hr) as Hi.
    destruct (format_udec z) as [|c r] eqn:E; [by destruct (format_udec_spec z Hz) as (_ & ? & _)|].
    pose proof (format_udec_head z c r Hz E) as Hc. cbn [app] in *.
    rewrite (proj2 (ascii_eqb_false c "-")) by (apply digit_char_ne; [done|code_lia]).
    rewrite Hi. cbn [mbind option_bind]. rewrite Hf. cbn [mbind option_bind]. rewrite He.
    cbn [mbind option_bind app]. by rewrite app_nil_r.
Qed.

Lemma FormatInt_head z : exists c r, FormatInt z = c :: r /\ (c = "-"%char \/ 48 <= code c <= 57).
Proof.
  unfold FormatInt. destruct (Z.ltb_spec z 0) as [Hz|Hz]; [eauto|].
  destruct (format_udec z) as [|c r] eqn:E; [by destruct (format_udec_spec z Hz) as (_ & ? & _)|].
  exists c, r. split; [done|right]. by eapply format_udec_head.
Qed.

(** ** Values *)

Section json_ind.
Context (P : json -> Prop) (Hnull : P JNull) (Hbool : forall b, P (JBool b)) (Hnum : forall l, P (JNum l))
  (Hstr : forall s, P (JStr s)) (Harr : forall l, Forall P l -> P (JArr l))
  (Hobj : forall l, Forall (fun kv => P (snd kv)) l -> P (JObj l)).

Fixpoint json_nested_ind (j : json) : P j :=
  match j with
  | JNull => Hnull
  | JBool b => Hbool b
  | JNum l => Hnum l
  | JStr s => Hstr s
  | JArr l => Harr l ((fix go l : Forall P l :=
      match l with [] => List.Forall_nil _ | x :: l => List.Forall_cons _ _ _ (json_nested_ind x) (go l) end) l)
  | JObj l => Hobj l ((fix go l : Forall (fun kv => P (snd kv)) l :=
      match l with [] => List.Forall_nil _ | kv :: l => List.Forall_cons _ _ _ (json_nested_ind (snd kv)) (go l) end) l)
  end.
End json_ind.

(** Values whose numbers are integers. *)
Fixpoint integral (j : json) : Prop :=
  match j with
  | JNum l => exists z, l = FormatInt z
  | JArr l => foldr (fun x P => integral x /\ P) True l
  | JObj l => foldr (fun kv P => integral (snd kv) /\ P) True l
  | _ => True
  end.

(** The value with its strings made valid. *)
Fixpoint valid_json (j : json) : json :=
  match j with
  | JStr s => JStr (valid_text s)
  | JArr l => JArr (valid_json <$> l)
  | JObj l => JObj ((fun kv => (valid_text (fst kv), valid_json (snd kv))) <$> l)
  | j => j
  end.

(** Calls the parser nests for a value. *)
Fixpoint weight (j : json) : nat :=
  match j with
  | JArr l => S (foldr (fun x n => S (weight x) + n)%nat 0%nat l)
  | JObj l => S (foldr (fun kv n => S (weight (snd kv)) + n)%nat 0%nat l)
  | _ => 1
  end.

(** The first byte of a value starts neither white space nor a closing bracket. *)
Lemma Marshal_head j : integral j -> exists c r, Marshal j = c :: r /\ json_space c = false
  /\ Ascii.eqb c "]" = false /\ Ascii.eqb c "}" = false.
Proof.
  destruct j as [|[]|l|s|l|l]; cbn [Marshal integral]; try (intros _; eexists _, _; by split_and!).
  intros [z ->]. destruct (FormatInt_head z) as (c & r & -> & Hc). exists c, r. split; [done|].
  destruct Hc as [->|Hc]; [done|]. unfold json_space.
  rewrite !(proj2 (ascii_eqb_false c _)) by (apply digit_char_ne; [done|code_lia]). split_and!; [lia|done..].
Qed.

Lemma skip_ws_Marshal j x : integral j -> skip_ws (Marshal j ++ x) = Marshal j ++ x.
Proof. intros (c & r & -> & Hs & _)%Marshal_head. cbn. by rewrite Hs. Qed.

Lemma comma_sep_cons {A} (f : A -> bytes) x l :
  comma_sep f (x :: l) = f x ++ match l with [] => [] | _ => ","%char :: comma_sep f l end.
Proof.
  unfold comma_sep. cbn [fmap list_fmap]. destruct l as [|y l]; [by rewrite app_nil_r|].
  by rewrite Join_cons.
Qed.

Lemma literal_app word j rest : literal word j (word ++ rest) = Some (j, rest).
Proof.
  unfold literal. assert (HasPrefix (word ++ rest) word = true) as ->.
  { induction word as [|c w IH]; [by destruct rest|]. cbn. by rewrite IH, Ascii.eqb_refl. }
  by rewrite drop_app_length.
Qed.

(** A scalar is read back. *)
Lemma parse_scalar fuel j rest :
  match j with JArr _ | JObj _ => False | _ => True end -> integral j -> delimited rest ->
  parse_value (S fuel) (Marshal j ++ rest) = Some (valid_json j, rest).
Proof.
  intros Hj Hi Hd. cbn [parse_value]. rewrite skip_ws_Marshal by done.
  destruct j as [|[]|l|s|l|l]; try done.
  - exact (literal_app #"null" _ rest).
  - exact (literal_app #"true" _ rest).
  - exact (literal_app #"false" _ rest).
  - destruct Hi as [z ->]. cbn [Marshal valid_json]. destruct (FormatInt_head z) as (c & r & E & Hc).
    pose proof (lex_number_FormatInt z rest Hd) as Hl. rewrite E in *. cbn [app] in *.
    assert (Hne : forall x, x <> "-"%char -> ~ (48 <= code x <= 57) -> Ascii.eqb c x = false).
    { intros x Hx Hx'. apply ascii_eqb_false. destruct Hc as [->|Hc]; [by intros <-|by apply digit_char_ne]. }
    rewrite !Hne by (done || code_lia). rewrite Hl. done.
  - cbn [Marshal valid_json]. unfold quote_json. rewrite <- app_comm_cons, <- app_assoc.
    change (Ascii.eqb qm "{") with false. change (Ascii.eqb qm "[") with false. change (Ascii.eqb qm qm) with true.
    cbn iota. cbn [app]. by rewrite unquote_quote.
Qed.

(** Elements up to the closing bracket. *)
Lemma parse_elems_Marshal l rest fuel :
  l <> [] ->
  Forall (fun j => forall rest fuel, integral j -> delimited rest -> (weight j <= fuel)%nat ->
            parse_value fuel (Marshal j ++ rest) = Some (valid_json j, rest)) l ->
  foldr (fun x P => integral x /\ P) True l -> (foldr (fun x n => S (weight x) + n) 0 l <= fuel)%nat ->
  parse_elems fuel (comma_sep Marshal l ++ "]"%char :: rest) = Some (valid_json <$> l, rest).
Proof.
  intros Hl Hall. revert fuel. induction Hall as [|j l Hj Hall IH]; [done|]. intros fuel [Hi His] Hf.
  cbn [foldr] in Hf. destruct fuel as [|fuel]; [lia|]. rewrite comma_sep_cons, <- app_assoc. cbn [parse_elems].
  destruct l as [|k l].
  - cbn [app]. rewrite Hj by (done || (cbn; set_solver) || lia). done.
  - rewrite Hj by (done || (cbn; set_solver) || lia). cbn [mbind option_bind app skip_ws].
    change (json_space ",") with false. cbn iota. change (Ascii.eqb "," ",") with true. cbn iota.
    rewrite IH by (done || (cbn in *; lia)). done.
Qed.

(** Members up to the closing brace. *)
Lemma parse_members_Marshal l rest fuel :
  l <> [] ->
  Forall (fun kv => forall rest fuel, integral (snd kv) -> delimited rest -> (weight (snd kv) <= fuel)%nat ->
            parse_value fuel (Marshal (snd kv) ++ rest) = Some (valid_json (snd kv), rest)) l ->
  foldr (fun kv P => integral (snd kv) /\ P) True l -> (foldr (fun kv n => S (weight (snd kv)) + n) 0 l <= fuel)%nat ->
  parse_members fuel (comma_sep (fun kv => quote_json (fst kv) ++ ":"%char :: Marshal (snd kv)) l ++ "}"%char :: rest)
  = Some ((fun kv => (valid_text (fst kv), valid_json (snd kv))) <$> l, rest).
Proof.
  intros Hl Hall. revert fuel. induction Hall as [|[k j] l Hj Hall IH]; [done|]. intros fuel [Hi His] Hf.
  cbn [foldr snd fst] in *. destruct fuel as [|fuel]; [lia|]. rewrite comma_sep_cons. cbn [fst snd].
  unfold quote_json at 1. cbn [app parse_members skip_ws]. change (json_space qm) with false. cbn iota.
  change (Ascii.eqb qm qm) with true. cbn iota. rewrite <- !app_assoc. cbn [app]. rewrite unquote_quote.
  cbn [mbind option_bind skip_ws]. change (json_space ":") with false. cbn iota. change (Ascii.eqb ":" ":") with true.
  cbn iota. destruct l as [|kv l].
  - cbn [app]. rewrite Hj by (done || (cbn; set_solver) || lia). done.
  - rewrite Hj by (done || (cbn; set_solver) || lia). cbn [mbind option_bind app skip_ws].
    change (json_space ",") with false. cbn iota. change (Ascii.eqb "," ",") with true. cbn iota.
    rewrite IH by (done || (cbn in *; lia)). done.
Qed.

Lemma parse_Marshal j rest fuel :
  integral j -> delimited rest -> (weight j <= fuel)%nat ->
  parse_value fuel (Marshal j ++ rest) = Some (valid_json j, rest).
Proof.
  revert rest fuel. induction j as [|b|l|s|l IH|l IH] using json_nested_ind; intros rest fuel Hi Hd Hf;
    (destruct fuel as [|fuel]; [cbn in Hf; lia|]); try (by apply parse_scalar).
  - destruct l as [|j l]; [done|]. pose proof Hi as [Hj _].
    destruct (Marshal_head j Hj) as (c & r & E & Hs & Hb & _).
    assert (exists x, comma_sep Marshal (j :: l) = c :: x) as [x Hx] by (rewrite comma_sep_cons, E; eauto).
    pose proof (parse_elems_Marshal (j :: l) rest fuel) as He.
    cbn [Marshal]. rewrite <- app_comm_cons, <- app_assoc. cbn [parse_value skip_ws]. change (json_space "[") with false.
    cbn iota. change (Ascii.eqb "[" "{") with false. change (Ascii.eqb "[" "[") with true. cbn iota.
    change (#"]" ++ rest) with ("]"%char :: rest). rewrite Hx in *. cbn [app skip_ws] in *. rewrite Hs, Hb.
    rewrite He by (done || (cbn in Hf |- *; lia)). done.
  - destruct l as [|[k j] l]; [done|].
    assert (exists x, comma_sep (fun kv => quote_json (fst kv) ++ ":"%char :: Marshal (snd kv)) ((k, j) :: l) = qm :: x)
      as [x Hx] by (rewrite comma_sep_cons; eauto).
    pose proof (parse_members_Marshal ((k, j) :: l) rest fuel) as He.
    cbn [Marshal]. rewrite <- app_comm_cons, <- app_assoc. cbn [parse_value skip_ws]. change (json_space "{") with false.
    cbn iota. change (Ascii.eqb "{" "{") with true. cbn iota.
    change (#"}" ++ rest) with ("}"%char :: rest). rewrite Hx in *. cbn [app skip_ws] in *.
    change (json_space qm) with false. cbn iota. change (Ascii.eqb qm "}") with false. cbn iota.
    rewrite He by (done || (cbn in Hf |- *; lia)). done.
Qed.

Lemma comma_sep_weight {A} (w : A -> nat) (f : A -> bytes) l :
  Forall (fun x => (w x <= 2 * length (f x))%nat) l ->
  (foldr (fun x n => S (w x) + n) 0 l <= 2 * length (comma_sep f l) + 1)%nat.
Proof.
  induction 1 as [|x l Hx _ IH]; [simpl; lia|]. rewrite comma_sep_cons, length_app. cbn [foldr].
  destruct l as [|y l]; [simpl in *; lia|]. simpl length. lia.
Qed.

Lemma weight_length j : integral j -> (weight j <= 2 * length (Marshal j))%nat.
Proof.
  induction j as [|[]|l|s|l IH|l IH] using json_nested_ind; intros Hi; [vm_compute; lia..| |cbn; lia| |].
  - destruct Hi as [z ->]. destruct (FormatInt_head z) as (c & r & E & _). cbn [Marshal weight]. rewrite E. simpl. lia.
  - assert (Forall (fun x => (weight x <= 2 * length (Marshal x))%nat) l) as Hl.
    { revert Hi. cbn [integral]. induction IH as [|x l Hx _ IHl]; [done|]. cbn. intros [? ?]. constructor; auto. }
    pose proof (comma_sep_weight weight Marshal l Hl). cbn [weight Marshal length]. rewrite length_app.
    change (length #"]") with 1%nat. lia.
  - set (f := fun kv : bytes * json => quote_json (fst kv) ++ ":"%char :: Marshal (snd kv)).
    assert (Forall (fun kv => (weight (snd kv) <= 2 * length (f kv))%nat) l) as Hl.
    { revert Hi. cbn [integral]. induction IH as [|x l Hx _ IHl]; [done|]. cbn [foldr]. intros [Hx' ?].
      constructor; [|auto]. unfold f. rewrite length_app. simpl. specialize (Hx Hx'). lia. }
    pose proof (comma_sep_weight (fun kv => weight (snd kv)) f l Hl). cbn [weight Marshal length]. fold f.
    rewrite length_app. change (length #"}") with 1%nat. lia.
Qed.

(** What [json.Marshal] writes, also followed by the encoder's newline, is read
    back up to invalid bytes of its strings. *)
Lemma Decode_Marshal j rest : integral j -> delimited rest -> Decode (Marshal j ++ rest) = Some (valid_json j).
Proof.
  intros Hi Hd. unfold Decode. rewrite parse_Marshal; [done..|]. pose proof (weight_length j Hi).
  rewrite length_app. lia.
Qed.
