(* ===== verification/Sha256.v ===== *)
(** * Sha256: [crypto/sha256] and [encoding/hex]

    SHA-256 as FIPS 180-4 defines it, on 32-bit words kept in [Z]: padding, message
    schedule, compression, and the lower-case hexadecimal text of a digest.  A message
    is any text a Go program can hold (shorter than 2^61 bytes, so its length in bits
    fits the 64-bit length field). *)

From S2P Require Import Prelude GoStrings Strconv Json.

(** ** Words *)

Definition word (z : Z) : Z := Z.land z 0xFFFFFFFF.
Definition add32 (x y : Z) : Z := word (x + y).
Definition rotr (n x : Z) : Z := Z.lor (Z.shiftr x n) (word (Z.shiftl x (32 - n))).

Definition Ch (x y z : Z) : Z := Z.lxor (Z.land x y) (Z.land (Z.lxor x 0xFFFFFFFF) z).
Definition Maj (x y z : Z) : Z := Z.lxor (Z.land x y) (Z.lxor (Z.land x z) (Z.land y z)).
Definition Sigma0 (x : Z) : Z := Z.lxor (rotr 2 x) (Z.lxor (rotr 13 x) (rotr 22 x)).
Definition Sigma1 (x : Z) : Z := Z.lxor (rotr 6 x) (Z.lxor (rotr 11 x) (rotr 25 x)).
Definition sigma0 (x : Z) : Z := Z.lxor (rotr 7 x) (Z.lxor (rotr 18 x) (Z.shiftr x 3)).
Definition sigma1 (x : Z) : Z := Z.lxor (rotr 17 x) (Z.lxor (rotr 19 x) (Z.shiftr x 10)).

(** The standard's constants: the first 32 bits of the fractional parts of the cube
    roots of the first 64 primes, and of the square roots of the first eight. *)
Definition is_prime (n : Z) : bool := forallb (fun d => negb (n mod d =? 0)) (seqZ 2 (n - 2)).
Definition primes : list Z := List.filter is_prime (seqZ 2 310).

(** The largest number below [2^(S k)] that [ok] accepts, bit by bit from [acc]. *)
Fixpoint largest (k : nat) (ok : Z -> bool) (acc : Z) : Z :=
  let next := acc + 2 ^ Z.of_nat k in
  let acc := if ok next then next else acc in
  match k with O => acc | S k => largest k ok acc end.

Definition cube_root (n : Z) : Z := largest 40 (fun r => r * r * r <=? n) 0.
Definition round_constants : list Z := Eval vm_compute in (fun p => word (cube_root (Z.shiftl p 96))) <$> primes.

(** The eight chaining words. *)
Record digest : Type := mkDigest { hA : Z; hB : Z; hC : Z; hD : Z; hE : Z; hF : Z; hG : Z; hH : Z }.

Definition initial : digest := Eval vm_compute in
  let h i := word (Z.sqrt (Z.shiftl (nth i primes 0) 64)) in
  mkDigest (h 0%nat) (h 1%nat) (h 2%nat) (h 3%nat) (h 4%nat) (h 5%nat) (h 6%nat) (h 7%nat).

Example constants_known : length round_constants = 64%nat /\ nth 63 round_constants 0 = 0xc67178f2 /\ hH initial = 0x5be0cd19.
Proof. split; [reflexivity|split; reflexivity]. Qed.

(** ** Compression *)

Definition round (k w : Z) (d : digest) : digest :=
  let t1 := add32 (hH d) (add32 (Sigma1 (hE d)) (add32 (Ch (hE d) (hF d) (hG d)) (add32 k w))) in
  let t2 := add32 (Sigma0 (hA d)) (Maj (hA d) (hB d) (hC d)) in
  mkDigest (add32 t1 t2) (hA d) (hB d) (hC d) (add32 (hD d) t1) (hE d) (hF d) (hG d).

(** The next word of the schedule, from the sixteen before it. *)
Definition next_word (ws : list Z) : Z :=
  add32 (sigma1 (nth 14 ws 0)) (add32 (nth 9 ws 0) (add32 (sigma0 (nth 1 ws 0)) (nth 0 ws 0))).

(** The rounds, with the window of the sixteen words to come. *)
Fixpoint rounds (ks ws : list Z) (d : digest) : digest :=
  match ks with
  | [] => d
  | k :: ks => rounds ks (tl ws ++ [next_word ws]) (round k (nth 0 ws 0) d)
  end.

Definition add_digest (x y : digest) : digest :=
  mkDigest (add32 (hA x) (hA y)) (add32 (hB x) (hB y)) (add32 (hC x) (hC y)) (add32 (hD x) (hD y))
    (add32 (hE x) (hE y)) (add32 (hF x) (hF y)) (add32 (hG x) (hG y)) (add32 (hH x) (hH y)).

Definition compress (block : list Z) (d : digest) : digest := add_digest d (rounds round_constants block d).

Fixpoint compress_all (n : nat) (ws : list Z) (d : digest) : digest :=
  match n with
  | O => d
  | S n => compress_all n (drop 16 ws) (compress (take 16 ws) d)
  end.

(** ** Messages *)

(** Big-endian words and bytes. *)
Fixpoint words (l : list Z) : list Z :=
  match l with
  | a :: b :: c :: d :: l => a * 2 ^ 24 + b * 2 ^ 16 + c * 2 ^ 8 + d :: words l
  | _ => []
  end.

Definition word_bytes (w : Z) : list Z := [ w / 2 ^ 24; w / 2 ^ 16 mod 256; w / 2 ^ 8 mod 256; w mod 256 ].

(** The message, a one bit, zeros up to 8 bytes before a multiple of 64, and the length
    in bits. *)
Definition pad (s : bytes) : list Z :=
  let n := Z.of_nat (length s) in
  let bits := 8 * n in
  (code <$> s) ++ 0x80 :: repeat 0 (Z.to_nat ((55 - n) mod 64)) ++ word_bytes (bits / 2 ^ 32) ++ word_bytes (bits mod 2 ^ 32).

Definition digest_bytes (d : digest) : bytes :=
  byte_of <$> (word_bytes (hA d) ++ word_bytes (hB d) ++ word_bytes (hC d) ++ word_bytes (hD d)
               ++ word_bytes (hE d) ++ word_bytes (hF d) ++ word_bytes (hG d) ++ word_bytes (hH d)).

(** [sha256.Sum256] *)
Definition Sum256 (s : bytes) : bytes :=
  let ws := words (pad s) in
  digest_bytes (compress_all (length ws / 16) ws initial).

(** [hex.EncodeToString] *)
Definition hex_EncodeToString (s : bytes) : bytes :=
  s ≫= fun c => [ hex_lower (code c / 16); hex_lower (code c mod 16) ].

(** The digests of FIPS 180-4's examples, and of the empty message. *)
Example sum_empty :
  hex_EncodeToString (Sum256 []) = #"e3b0c44298fc1c149afbf4c8996fb92427ae41e4649b934ca495991b7852b855".
Proof. vm_compute. reflexivity. Qed.

Example sum_abc :
  hex_EncodeToString (Sum256 #"abc") = #"ba7816bf8f01cfea414140de5dae2223b00361a396177a9cb410ff61f20015ad".
Proof. vm_compute. reflexivity. Qed.

Example sum_two_blocks :
  hex_EncodeToString (Sum256 #"abcdbcdecdefdefgefghfghighijhijkijkljklmklmnlmnomnopnopq")
  = #"248d6a61d20638b8e5c026930c3e6039a33ce45964ff2167f6ecedd419db06c1".
Proof. vm_compute. reflexivity. Qed.

(** ** Facts *)

Lemma hex_lower_inj x y : 0 <= x < 16 -> 0 <= y < 16 -> hex_lower x = hex_lower y -> x = y.
Proof.
  assert (forall z, 0 <= z < 16 -> code (hex_lower z) = if z <? 10 then 48 + z else 87 + z) as H.
  { intros z Hz. unfold hex_lower. destruct (z <? 10) eqn:E; unfold code, byte_of; rewrite N_ascii_embedding; lia. }
  intros Hx Hy E%(f_equal code). rewrite !H in E by done. destruct (x <? 10) eqn:?, (y <? 10) eqn:?; lia.
Qed.

(** Hexadecimal text determines the bytes. *)
Lemma hex_inj s t : hex_EncodeToString s = hex_EncodeToString t -> s = t.
Proof.
  revert t. induction s as [|a s IH]; intros [|b t]; [done..|]. cbn. intros [= H1 H2 H3].
  pose proof (code_bound a). pose proof (code_bound b).
  assert (forall c, 0 <= c < 256 -> 0 <= c / 16 < 16) as Hd
    by (intros c Hc; split; [apply Z.div_pos|apply Z.div_lt_upper_bound]; lia).
  apply hex_lower_inj in H1; [|by apply Hd..]. apply hex_lower_inj in H2; [|by apply Z.mod_pos_bound..].
  f_equal; [|by apply IH]. apply code_inj. rewrite (Z.div_mod (code a) 16), (Z.div_mod (code b) 16) by done. congruence.
Qed.

Lemma hex_length s : length (hex_EncodeToString s) = (2 * length s)%nat.
Proof.
  induction s as [|a s IH]; [done|].
  change (S (S (length (hex_EncodeToString s))) = (2 * S (length s))%nat). lia.
Qed.

Lemma Sum256_length s : length (Sum256 s) = 32%nat.
Proof. reflexivity. Qed.

(** The padded message is a whole number of blocks. *)
Lemma pad_blocks s : exists n, length (pad s) = (64 * S n)%nat.
Proof.
  unfold pad. cbv zeta. rewrite length_app, length_fmap. cbn [length]. rewrite length_app, repeat_length. cbn [length app word_bytes].
  set (n := Z.of_nat (length s)). exists (Z.to_nat ((n + 8) / 64)).
  pose proof (Z.div_mod (55 - n) 64 ltac:(lia)). pose proof (Z.mod_pos_bound (55 - n) 64 ltac:(lia)).
  pose proof (Z.div_mod (n + 8) 64 ltac:(lia)). pose proof (Z.mod_pos_bound (n + 8) 64 ltac:(lia)). lia.
Qed.
