(* ===== verification/Times.v ===== *)
(** * Times: [time.Time] in JSON

    An instant with the offset of its zone, its calendar date as the [time] package
    computes it, and the RFC 3339 text [MarshalJSON] writes between the quotation marks.
    The date determines the day and the text the instant. *)

From S2P Require Import Prelude GoStrings Strconv.

(** ** Instants *)

(** Nanoseconds since 1970 in UTC, and the seconds the zone is east of it. *)
Record Time : Type := mkTime { tm_UnixNano : Z; tm_Offset : Z }.

#[export] Instance Time_eq_dec : EqDecision Time.
Proof. solve_decision. Defined.

(** ** The calendar *)

Definition isLeap (y : Z) : bool := (y mod 4 =? 0) && (negb (y mod 100 =? 0) || (y mod 400 =? 0)).

(** The days of a common year before a month counted from zero. *)
Definition days_before : list Z := [ 0; 31; 59; 90; 120; 151; 181; 212; 243; 273; 304; 334; 365 ].
Definition daysBefore (month : Z) : Z := nth (Z.to_nat month) days_before 0.

(** The year, counted from zero for year 1, and its day, from a day counted from
    1 January of year 1. *)
Definition year_day (days : Z) : Z * Z :=
  let n400 := days / 146097 in
  let d := days mod 146097 in
  let n100 := d / 36524 - d / 36524 / 4 in
  let d := d - 36524 * n100 in
  let n4 := d / 1461 in
  let d := d - 1461 * n4 in
  let n1 := d / 365 - d / 365 / 4 in
  (400 * n400 + 100 * n100 + 4 * n4 + n1, d - 365 * n1).

(** The month and the day of the month of a day of a year. *)
Definition month_day (leap : bool) (yday : Z) : Z * Z :=
  if leap && (yday =? 59) then (2, 29)
  else
    let day := if leap && (59 <? yday) then yday - 1 else yday in
    let month := day / 31 in
    let fin := daysBefore (month + 1) in
    if fin <=? day then (month + 2, day - fin + 1) else (month + 1, day - daysBefore month + 1).

(** [Time.Date] of a day. *)
Definition date (days : Z) : Z * Z * Z :=
  let '(y, yday) := year_day days in
  let '(month, day) := month_day (isLeap (y + 1)) yday in
  (y + 1, month, day).

(** ** Text *)

(** The last [w] decimal digits of a number. *)
Fixpoint fixed (w : nat) (n : Z) : bytes :=
  match w with
  | O => []
  | S w => fixed w (n / 10) ++ [digit_byte (n mod 10)]
  end.

(** Without the zeros at its end. *)
Fixpoint trim_zeros (s : bytes) : bytes :=
  match s with
  | [] => []
  | c :: s => match trim_zeros s with
              | [] => if Ascii.eqb c "0" then [] else [c]
              | s => c :: s
              end
  end.

Definition fraction (nanos : Z) : bytes :=
  match trim_zeros (fixed 9 nanos) with [] => [] | ds => "."%char :: ds end.

(** The zone, unless its hour has more than two digits or is above 23. *)
Definition zone_text (offset : Z) : option bytes :=
  if offset =? 0 then Some #"Z"
  else
    let zone := Z.quot offset 60 in
    if Z.abs zone / 60 <? 24 then
      Some ((if zone <? 0 then "-"%char else "+"%char) :: fixed 2 (Z.abs zone / 60) ++ ":"%char :: fixed 2 (Z.abs zone mod 60))
    else None.

Definition days_to_1970 : Z := 719162.

(** [appendStrictRFC3339]: none for a year outside 0 to 9999 or a zone it refuses. *)
Definition MarshalTime (t : Time) : option bytes :=
  let secs := tm_UnixNano t / 1000000000 + tm_Offset t in
  let '(y, month, day) := date (secs / 86400 + days_to_1970) in
  let clock := secs mod 86400 in
  if (0 <=? y) && (y <=? 9999) then
    zone ← zone_text (tm_Offset t);
    Some (fixed 4 y ++ "-"%char :: fixed 2 month ++ "-"%char :: fixed 2 day
          ++ "T"%char :: fixed 2 (clock / 3600) ++ ":"%char :: fixed 2 (clock mod 3600 / 60) ++ ":"%char :: fixed 2 (clock mod 60)
          ++ fraction (tm_UnixNano t mod 1000000000) ++ zone)
  else None.

Example marshal_epoch : MarshalTime (mkTime 0 0) = Some #"1970-01-01T00:00:00Z".
Proof. reflexivity. Qed.

Example marshal_leap : MarshalTime (mkTime 1709210096120000000 (- 5400)) = Some #"2024-02-29T11:04:56.12-01:30".
Proof. reflexivity. Qed.

Example marshal_new_year : MarshalTime (mkTime 978307199999999999 0) = Some #"2000-12-31T23:59:59.999999999Z".
Proof. reflexivity. Qed.

Example marshal_year_refused : MarshalTime (mkTime (253402300800 * 1000000000) 0) = None.
Proof. reflexivity. Qed.

(** ** Dates determine days *)

(** The day a date names, counted from 1 January of year 1. *)
Definition day_of (y month day : Z) : Z :=
  let y0 := y - 1 in
  365 * y0 + y0 / 4 - y0 / 100 + y0 / 400
  + (daysBefore (month - 1) + day - 1 + if isLeap y && (2 <? month) then 1 else 0).

(** Dividing by a period of which the last of four has one day more. *)
Lemma short_div d p : 0 < p -> 0 <= d <= 4 * p -> 0 <= d / p - d / p / 4 <= 3 /\ 0 <= d - p * (d / p - d / p / 4) <= p.
Proof.
  intros Hp Hd. set (q := d / p). assert (Hq : p * q <= d < p * q + p) by (subst q; pose proof (Z.div_mod d p); pose proof (Z.mod_pos_bound d p); lia).
  clearbody q. assert (0 <= q <= 4) as [? ?] by nia. destruct (decide (q = 4)) as [->|]; [change (4 / 4) with 1; lia|].
  rewrite (Z.div_small q 4) by lia. nia.
Qed.

(** The year counts from its quarter centuries, and the leap days before it. *)
Lemma leap_days a b c d :
  0 <= b <= 3 -> 0 <= c <= 24 -> 0 <= d <= 3 ->
  let y := 400 * a + 100 * b + 4 * c + d in y / 4 = 100 * a + 25 * b + c /\ y / 100 = 4 * a + b /\ y / 400 = a.
Proof.
  intros Hb Hc Hd y. subst y. split_and!; symmetry; eapply Z.div_unique_pos;
    [|instantiate (1 := d); lia| |instantiate (1 := 4 * c + d); lia| |instantiate (1 := 100 * b + 4 * c + d); lia]; lia.
Qed.

Lemma year_day_spec days :
  let '(y, yday) := year_day days in
  0 <= yday <= 365 /\ days = 365 * y + y / 4 - y / 100 + y / 400 + yday.
Proof.
  unfold year_day. pose proof (Z.div_mod days 146097 ltac:(lia)) as H0. pose proof (Z.mod_pos_bound days 146097 ltac:(lia)) as H0'.
  set (a := days / 146097) in *. set (d0 := days mod 146097) in *. clearbody a d0.
  pose proof (short_div d0 36524 ltac:(lia) ltac:(lia)) as [H1 H1']. set (b := d0 / 36524 - d0 / 36524 / 4) in *. clearbody b.
  cbv zeta. set (d1 := d0 - 36524 * b) in *.
  pose proof (Z.div_mod d1 1461 ltac:(lia)) as H2. pose proof (Z.mod_pos_bound d1 1461 ltac:(lia)) as H2'.
  set (c := d1 / 1461) in *. assert (Hc : 0 <= c <= 24) by lia. set (d2 := d1 - 1461 * c).
  pose proof (short_div d2 365 ltac:(lia) ltac:(lia)) as [H3 H3']. set (n := d2 / 365 - d2 / 365 / 4) in *. clearbody n.
  destruct (leap_days a b c n H1 Hc H3) as (-> & -> & ->). subst d2 d1. lia.
Qed.

Definition month_day_ok (leap : bool) (yday : Z) : bool :=
  let '(month, day) := month_day leap yday in
  (daysBefore (month - 1) + day - 1 + (if leap && (2 <? month) then 1 else 0) =? yday)
  && (1 <=? month) && (month <=? 13) && (1 <=? day) && (day <=? 31).

Lemma month_days leap yday : 0 <= yday <= 365 -> month_day_ok leap yday = true.
Proof.
  intros H. assert (Hall : forallb (month_day_ok leap) (seqZ 0 366) = true) by (destruct leap; vm_compute; reflexivity).
  rewrite forallb_forall in Hall. apply Hall, list_elem_of_In, elem_of_seqZ. lia.
Qed.

(** The date of a day names that day; its month and day have two digits. *)
Lemma date_spec days : let '(y, month, day) := date days in day_of y month day = days /\ 1 <= month <= 13 /\ 1 <= day <= 31.
Proof.
  unfold date. pose proof (year_day_spec days) as H. destruct (year_day days) as [y yday]. destruct H as [Hy Hd].
  pose proof (month_days (isLeap (y + 1)) yday Hy) as H. unfold month_day_ok in H.
  destruct (month_day _ yday) as [month day]. unfold day_of. rewrite Z.add_simpl_r.
  rewrite !andb_true_iff, !Z.leb_le, Z.eqb_eq in H. lia.
Qed.

(** ** Text determines the instant *)

Lemma fixed_length w n : length (fixed w n) = w.
Proof. revert n. induction w as [|w IH]; intros n; [done|]. cbn. rewrite length_app, IH. cbn. lia. Qed.

Lemma fixed_digits w n : Forall (fun c => 48 <= code c <= 57) (fixed w n).
Proof.
  revert n. induction w as [|w IH]; intros n; [constructor|]. cbn. apply Forall_app. split; [done|]. repeat constructor;
    rewrite code_digit_byte; pose proof (Z.mod_pos_bound n 10); lia.
Qed.

Lemma fixed_inj w m n : 0 <= m < 10 ^ Z.of_nat w -> 0 <= n < 10 ^ Z.of_nat w -> fixed w m = fixed w n -> m = n.
Proof.
  revert m n. induction w as [|w IH]; intros m n; [cbn; lia|]. rewrite Nat2Z.inj_succ, Z.pow_succ_r by lia. cbn [fixed].
  intros Hm Hn [H1 H2]%app_inj_2; [|done]. injection H2 as H2%(f_equal code).
  rewrite !code_digit_byte in H2 by (apply Z.mod_pos_bound; lia).
  apply IH in H1; [|split; [apply Z.div_pos|apply Z.div_lt_upper_bound]; lia..].
  rewrite (Z.div_mod m 10), (Z.div_mod n 10) by done. lia.
Qed.

Lemma trim_zeros_spec s : exists k, s = trim_zeros s ++ repeat "0"%char k.
Proof.
  induction s as [|c s [k IH]]; [by exists 0%nat|]. cbn. destruct (trim_zeros s) as [|d r].
  - destruct (Ascii.eqb_spec c "0") as [->|]; [exists (S k)|exists k]; cbn in *; congruence.
  - exists k. cbn in *. congruence.
Qed.

Lemma trim_zeros_inj s t : length s = length t -> trim_zeros s = trim_zeros t -> s = t.
Proof.
  intros Hl H. destruct (trim_zeros_spec s) as [j Hs], (trim_zeros_spec t) as [k Ht]. rewrite H in Hs.
  assert (j = k) as ->; [|congruence].
  apply (f_equal length) in Hs, Ht. rewrite length_app, repeat_length in Hs, Ht. lia.
Qed.

Lemma trim_zeros_digits (P : ascii -> Prop) s : Forall P s -> Forall P (trim_zeros s).
Proof. intros H. destruct (trim_zeros_spec s) as [k E]. rewrite E in H. by apply Forall_app in H as [? _]. Qed.

Lemma fraction_inj m n : 0 <= m < 1000000000 -> 0 <= n < 1000000000 -> fraction m = fraction n -> m = n.
Proof.
  intros Hm Hn H. apply (fixed_inj 9); [done..|]. apply trim_zeros_inj; [by rewrite !fixed_length|].
  unfold fraction in H. destruct (trim_zeros (fixed 9 m)), (trim_zeros (fixed 9 n)); congruence.
Qed.

(** The bytes of a fraction are none a zone starts with. *)
Definition fraction_byte (c : ascii) : Prop := code c = 46 \/ 48 <= code c <= 57.

Lemma fraction_bytes n : Forall fraction_byte (fraction n).
Proof.
  unfold fraction. pose proof (trim_zeros_digits _ _ (fixed_digits 9 n)) as H. destruct (trim_zeros _); [constructor|].
  constructor; [by left|]. eapply Forall_impl; [exact H|]. by right.
Qed.

Lemma zone_head o z : zone_text o = Some z -> exists c r, z = c :: r /\ ~ fraction_byte c.
Proof.
  unfold zone_text, fraction_byte. intros H. destruct (o =? 0).
  - injection H as <-. eexists _, _. split; [reflexivity|]. vm_compute. intuition congruence.
  - destruct (_ <? 24); [|done]. injection H as <-. eexists _, _. split; [reflexivity|].
    destruct (_ <? 0); vm_compute; intuition congruence.
Qed.

Lemma cons_parts {A} (a b : A) s t : a :: s = b :: t -> a = b /\ s = t.
Proof. by intros [=]. Qed.

Lemma span_inj (P : ascii -> Prop) s t c d x y :
  Forall P s -> Forall P t -> ~ P c -> ~ P d -> s ++ c :: x = t ++ d :: y -> s = t /\ c :: x = d :: y.
Proof.
  intros Hs. revert t. induction Hs as [|a s Ha Hs IH]; intros t Ht Hc Hd H.
  - destruct Ht as [|b t Hb Ht]; [done|]. cbn in H. injection H as -> _. done.
  - destruct Ht as [|b t Hb Ht]; cbn in H; injection H as -> H; [done|]. destruct (IH t Ht Hc Hd H) as [-> ?]. done.
Qed.

Lemma zone_inj o1 o2 z : o1 mod 60 = 0 -> o2 mod 60 = 0 -> zone_text o1 = Some z -> zone_text o2 = Some z -> o1 = o2.
Proof.
  intros M1 M2. unfold zone_text.
  assert (Q : forall o, o mod 60 = 0 -> o = 60 * Z.quot o 60).
  { intros o Ho. apply Z.mod_divide in Ho as [k ->]; [|done]. rewrite Z.quot_mul by done. lia. }
  pose proof (Q o1 M1) as Q1. pose proof (Q o2 M2) as Q2. set (q1 := Z.quot o1 60) in *. set (q2 := Z.quot o2 60) in *. clearbody q1 q2.
  subst o1 o2. clear. destruct (Z.eqb_spec (60 * q1) 0), (Z.eqb_spec (60 * q2) 0); [lia| | |].
  - destruct (Z.abs q2 / 60 <? 24); [|done]. intros [= <-]. by destruct (q2 <? 0).
  - destruct (Z.abs q1 / 60 <? 24); [|done]. intros [= <-]. by destruct (q1 <? 0).
  - destruct (Z.abs q1 / 60 <? 24) eqn:E1, (Z.abs q2 / 60 <? 24) eqn:E2; try done. intros <-%(inj Some) H. apply (inj Some), cons_parts in H as [Hs H].
    apply app_inj_1 in H as [Hh [_ Hm]%cons_parts]; [|by rewrite !fixed_length].
    pose proof (Z.div_pos (Z.abs q1) 60). pose proof (Z.div_pos (Z.abs q2) 60).
    apply (fixed_inj 2) in Hh; [|split; [lia|transitivity 24; [by apply Z.ltb_lt|done]]..].
    apply (fixed_inj 2) in Hm; [|pose proof (Z.mod_pos_bound (Z.abs q1) 60); pose proof (Z.mod_pos_bound (Z.abs q2) 60); cbn; lia..].
    assert (Z.abs q1 = Z.abs q2) by (rewrite (Z.div_mod (Z.abs q1) 60), (Z.div_mod (Z.abs q2) 60) by done; congruence).
    destruct (Z.ltb_spec q1 0), (Z.ltb_spec q2 0); [lia|done|done|lia].
Qed.

Lemma clock_parts c :
  0 <= c < 86400 ->
  c = 3600 * (c / 3600) + 60 * (c mod 3600 / 60) + c mod 60
  /\ 0 <= c / 3600 < 100 /\ 0 <= c mod 3600 / 60 < 100 /\ 0 <= c mod 60 < 100.
Proof. intros H. Z.to_euclidean_division_equations. lia. Qed.

(** (Times.) Two times whose zones are whole minutes and that have the same text are
    the same: instant and zone. *)
Lemma MarshalTime_inj a b s :
  tm_Offset a mod 60 = 0 -> tm_Offset b mod 60 = 0 -> MarshalTime a = Some s -> MarshalTime b = Some s -> a = b.
Proof.
  intros Ma Mb. unfold MarshalTime.
  set (sa := tm_UnixNano a / 1000000000 + tm_Offset a). set (sb := tm_UnixNano b / 1000000000 + tm_Offset b).
  pose proof (date_spec (sa / 86400 + days_to_1970)) as Da. pose proof (date_spec (sb / 86400 + days_to_1970)) as Db.
  destruct (date (sa / 86400 + _)) as [[y1 m1] d1], (date (sb / 86400 + _)) as [[y2 m2] d2].
  destruct (_ && _) eqn:Y1; [|done]. destruct (zone_text (tm_Offset a)) as [za|] eqn:Za; [|done]. cbn [mbind option_bind]. intros <-%(inj Some).
  destruct ((0 <=? y2) && _) eqn:Y2; [|done]. destruct (zone_text (tm_Offset b)) as [zb|] eqn:Zb; [|done]. cbn [mbind option_bind].
  rewrite andb_true_iff, !Z.leb_le in Y1, Y2. intros H%(inj Some).
  pose proof (Z.mod_pos_bound sa 86400 ltac:(lia)) as Ca. pose proof (Z.mod_pos_bound sb 86400 ltac:(lia)) as Cb.
  set (ca := sa mod 86400) in *. set (cb := sb mod 86400) in *.
  repeat match goal with
    | H : fixed ?w _ ++ _ = fixed ?w _ ++ _ |- _ =>
        apply app_inj_1 in H as [?E H]; [|by rewrite !fixed_length]; try (apply cons_parts in H as [_ H])
    end.
  destruct (zone_head _ _ Za) as (c1 & r1 & -> & N1), (zone_head _ _ Zb) as (c2 & r2 & -> & N2).
  apply (span_inj fraction_byte) in H as [Ef Ez]; [|apply fraction_bytes|apply fraction_bytes|done|done].
  rewrite Ez in Zb. assert (Eo : tm_Offset a = tm_Offset b) by (by apply (zone_inj _ _ (c1 :: r1))).
  destruct (clock_parts ca Ca) as (Pa & ? & ? & ?), (clock_parts cb Cb) as (Pb & ? & ? & ?).
  apply fixed_inj in E, E0, E1, E2, E3, E4; try (cbn; lia). subst y2 m2 d2.
  apply fraction_inj in Ef; [|by apply Z.mod_pos_bound..].
  assert (Es : sa = sb) by (rewrite (Z.div_mod sa 86400), (Z.div_mod sb 86400) by done; lia).
  destruct a as [na oa], b as [nb ob]. cbn in *. subst sa sb. f_equal; [|done].
  rewrite (Z.div_mod na 1000000000), (Z.div_mod nb 1000000000) by done. lia.
Qed.
