(* ===== verification/Base64.v ===== *)
(** * encoding/base64 (StdEncoding), as far as awg-rest uses it

    Raw bytes are [Z] values in 0..255.  [DecodeString] skips carriage returns
    and newlines anywhere, demands padding, ignores the unused low bits of the
    last sextet and rejects text after the padding, as Go's decoder does. *)

From S2P Require Import Prelude GoStrings.

(** ** Definitions *)

(** The value of a base64 letter. *)
Definition sextet (c : ascii) : option Z :=
  let k := code c in
  if (65 <=? k) && (k <=? 90) then Some (k - 65)
  else if (97 <=? k) && (k <=? 122) then Some (k - 71)
  else if (48 <=? k) && (k <=? 57) then Some (k + 4)
  else if k =? 43 then Some 62
  else if k =? 47 then Some 63
  else None.

(** The letter of a value in 0..63. *)
Definition b64_letter (v : Z) : ascii :=
  let k := if v <? 26 then v + 65
           else if v <? 52 then v + 71
           else if v <? 62 then v - 4
           else if v =? 62 then 43 else 47 in
  ascii_of_N (Z.to_N k).

Definition is_pad (c : ascii) : bool := Ascii.eqb c "=".

Fixpoint decode_quanta (s : bytes) : option (list Z) :=
  match s with
  | [] => Some []
  | a :: b :: c :: d :: r =>
      x ← sextet a; y ← sextet b;
      if is_pad d then
        match r with
        | [] => if is_pad c then Some [x * 4 + y / 16]
                else z ← sextet c; Some [x * 4 + y / 16; (y mod 16) * 16 + z / 4]
        | _ => None
        end
      else
        z ← sextet c; w ← sextet d; r ← decode_quanta r;
        Some ((x * 4 + y / 16) :: ((y mod 16) * 16 + z / 4) :: ((z mod 4) * 64 + w) :: r)
  | _ => None
  end.

Definition not_newline (c : ascii) : bool := negb (Ascii.eqb c nl || Ascii.eqb c cr).

(** base64.StdEncoding.DecodeString *)
Definition b64_DecodeString (s : bytes) : option (list Z) :=
  decode_quanta (List.filter not_newline s).

(** base64.StdEncoding.EncodeToString *)
Fixpoint b64_EncodeToString (l : list Z) : bytes :=
  match l with
  | [] => []
  | [x] => [b64_letter (x / 4); b64_letter ((x mod 4) * 16); "="%char; "="%char]
  | [x; y] => [b64_letter (x / 4); b64_letter ((x mod 4) * 16 + y / 16);
               b64_letter ((y mod 16) * 4); "="%char]
  | x :: y :: z :: r =>
      b64_letter (x / 4) :: b64_letter ((x mod 4) * 16 + y / 16)
      :: b64_letter ((y mod 16) * 4 + z / 64) :: b64_letter (z mod 64) :: b64_EncodeToString r
  end.

Definition byte_ok (z : Z) : Prop := 0 <= z < 256.

(** ** Lemmas *)

Lemma code_b64_letter v :
  0 <= v < 64 ->
  code (b64_letter v) = if v <? 26 then v + 65
           else if v <? 52 then v + 71
           else if v <? 62 then v - 4
           else if v =? 62 then 43 else 47.
Proof.
  intros Hv. unfold code, b64_letter. rewrite N_ascii_embedding; repeat case_match; lia.
Qed.

(** Every letter decodes to the value it encodes. *)
Lemma sextet_letter v : 0 <= v < 64 -> sextet (b64_letter v) = Some v.
Proof.
  intros Hv. unfold sextet. rewrite code_b64_letter by done.
  destruct (Z.ltb_spec v 26), (Z.ltb_spec v 52), (Z.ltb_spec v 62), (Z.eqb_spec v 62); try lia;
    repeat (case_match; bool_to_prop; try lia; try (f_equal; lia)).
Qed.

Lemma letter_not_newline v : 0 <= v < 64 -> not_newline (b64_letter v) = true.
Proof.
  intros Hv. pose proof (code_b64_letter v Hv) as Hc. unfold not_newline.
  apply negb_true_iff, orb_false_iff.
  split; apply ascii_eqb_false; intros E; rewrite E in Hc; revert Hc; eval_codes;
    repeat case_match; lia.
Qed.

Lemma letter_not_pad v : 0 <= v < 64 -> is_pad (b64_letter v) = false.
Proof.
  intros Hv. pose proof (code_b64_letter v Hv) as Hc. unfold is_pad.
  apply ascii_eqb_false; intros E; rewrite E in Hc; revert Hc; eval_codes;
    repeat case_match; lia.
Qed.

(** Letters and padding are printable. *)
Lemma letter_solid v : 0 <= v < 64 -> solid_byte (b64_letter v).
Proof.
  intros Hv. unfold solid_byte. rewrite code_b64_letter by done. repeat case_match; lia.
Qed.

Ltac solve_sextet := unfold byte_ok in *; Z.to_euclidean_division_equations; lia.

Lemma list_ind3 {A} (P : list A -> Prop) :
  P [] -> (forall x, P [x]) -> (forall x y, P [x; y]) ->
  (forall x y z r, P r -> P (x :: y :: z :: r)) -> forall l, P l.
Proof.
  intros H0 H1 H2 H3 l.
  assert (P l /\ (forall x, P (x :: l)) /\ (forall x y, P (x :: y :: l))) as [? _]; [|done].
  induction l as [|a l (Ha & Hb & Hc)]; [auto|]. split; [auto|]. split; [auto|].
  intros x y. apply H3. done.
Qed.

Lemma encode_no_newline l :
  Forall byte_ok l -> List.filter not_newline (b64_EncodeToString l) = b64_EncodeToString l.
Proof.
  induction l as [|x|x y|x y z r IH] using list_ind3; intros Hl; [done|..];
    repeat match goal with H : Forall _ (_ :: _) |- _ => inversion_clear H end;
    simpl; rewrite !letter_not_newline by solve_sextet; try done.
  by rewrite IH.
Qed.

(** Decoding inverts encoding. *)
Lemma b64_decode_encode l :
  Forall byte_ok l -> b64_DecodeString (b64_EncodeToString l) = Some l.
Proof.
  intros Hl. unfold b64_DecodeString. rewrite encode_no_newline by done.
  induction l as [|x|x y|x y z r IH] using list_ind3; [done|..];
    repeat match goal with H : Forall _ (_ :: _) |- _ => inversion_clear H end;
    simpl; rewrite !sextet_letter by solve_sextet; simpl.
  - do 2 f_equal. solve_sextet.
  - rewrite letter_not_pad by solve_sextet. simpl.
    do 2 f_equal; [solve_sextet|]. f_equal. solve_sextet.
  - rewrite letter_not_pad by solve_sextet. simpl.
    rewrite IH by done. simpl. do 2 f_equal; [solve_sextet|]. f_equal; [solve_sextet|].
    f_equal. solve_sextet.
Qed.

Lemma b64_encode_length l :
  Z.of_nat (length (b64_EncodeToString l)) = 4 * ((Z.of_nat (length l) + 2) / 3).
Proof.
  induction l as [|x|x y|x y z r IH] using list_ind3; [done..|].
  simpl length. rewrite !Nat2Z.inj_succ, IH. Z.to_euclidean_division_equations. lia.
Qed.

(** Encoded text is made of printable bytes. *)
Lemma b64_encode_solid l : Forall byte_ok l -> Forall solid_byte (b64_EncodeToString l).
Proof.
  induction l as [|x|x y|x y z r IH] using list_ind3; intros Hl; [constructor|..];
    repeat match goal with H : Forall _ (_ :: _) |- _ => inversion_clear H end;
    simpl; repeat (apply Forall_cons; split); auto;
    try (apply letter_solid; solve_sextet); by unfold solid_byte.
Qed.
