(* ===== verification/Errors.v ===== *)
(** * Errors: internal/domain/errors.go and internal/api/problem.go

    A Go error is a tree of wrapped errors with a text.  [errors.Is] looks a
    sentinel up in the tree, [errors.As] the first [ValidationErrors]; the API
    layer turns an error into an RFC 9457 problem with [FromError]. *)

From S2P Require Import Prelude GoStrings.

(** ** Definitions *)

(** The sentinel errors: those of package domain, then the ones the other
    packages and the libraries they call compare against. *)
Inductive sentinel :=
| ErrNotFound
| ErrConflict
| ErrIdempotencyConflict
| ErrValidation
| ErrUnauthorized
| ErrForbidden
| ErrIPPoolExhausted
| ErrPeerExists
| ErrInvalidProfile
| ErrInvalidKey
| ErrUnsupportedProtocol
| ErrRateLimited
| ErrPoolExhausted          (* ipam *)
| ErrNotImplemented         (* awg *)
| errAlreadyHandled         (* api *)
| ErrCanceled               (* context.Canceled *)
| ErrDeadlineExceeded       (* context.DeadlineExceeded *)
| ErrNoRows.                (* pgx.ErrNoRows *)

#[export] Instance sentinel_eq_dec : EqDecision sentinel.
Proof. solve_decision. Defined.

Definition sentinel_text (s : sentinel) : bytes :=
  match s with
  | ErrNotFound => #"not_found"
  | ErrConflict => #"conflict"
  | ErrIdempotencyConflict => #"idempotency_conflict"
  | ErrValidation => #"validation_failed"
  | ErrUnauthorized => #"unauthorized"
  | ErrForbidden => #"forbidden"
  | ErrIPPoolExhausted => #"ip_pool_exhausted"
  | ErrPeerExists => #"peer_exists"
  | ErrInvalidProfile => #"invalid_profile"
  | ErrInvalidKey => #"invalid_key"
  | ErrUnsupportedProtocol => #"unsupported_protocol"
  | ErrRateLimited => #"rate_limited"
  | ErrPoolExhausted => #"ipam: pool exhausted"
  | ErrNotImplemented => #"awg: executor not implemented on this platform"
  | errAlreadyHandled => #"already_handled"
  | ErrCanceled => #"context canceled"
  | ErrDeadlineExceeded => #"context deadline exceeded"
  | ErrNoRows => #"no rows in result set"
  end.

Record ValidationError := mkVE {
  ve_Field : bytes;
  ve_Code : bytes;
  ve_Message : bytes }.

#[export] Instance ValidationError_eq_dec : EqDecision ValidationError.
Proof. solve_decision. Defined.

(** ValidationErrors is a slice of ValidationError. *)
Abbreviation ValidationErrors := (list ValidationError).

(** [EWrap pre e post] is [fmt.Errorf("pre%wpost", e)], [EPg] an error of the
    database driver with its SQLSTATE, [EJoin] is [errors.Join]. *)
Inductive error :=
| ESentinel (s : sentinel)
| EValidation (v : ValidationErrors)
| EMsg (msg : bytes)
| EPg (sqlstate msg : bytes)
| EWrap (pre : bytes) (e : error) (post : bytes)
| EJoin (e1 e2 : error).

#[export] Instance error_eq_dec : EqDecision error.
Proof. solve_decision. Defined.

(** func (v ValidationError) Error() *)
Definition ValidationError_Error (v : ValidationError) : bytes :=
  ve_Field v ++ #": " ++ ve_Message v.

(** func (v ValidationErrors) Error() *)
Definition ValidationErrors_Error (v : ValidationErrors) : bytes :=
  match v with
  | [] => #"validation_failed"
  | v0 :: rest =>
      fold_left (fun out e => out ++ #"; " ++ ValidationError_Error e) rest
        (ValidationError_Error v0)
  end.

(** func (v ValidationErrors) Empty() *)
Definition ValidationErrors_Empty (v : ValidationErrors) : bool := bool_decide (v = []).

(** The Error() method. *)
Fixpoint err_Error (e : error) : bytes :=
  match e with
  | ESentinel s => sentinel_text s
  | EValidation v => ValidationErrors_Error v
  | EMsg msg => msg
  | EPg _ msg => msg
  | EWrap pre e post => pre ++ err_Error e ++ post
  | EJoin e1 e2 => err_Error e1 ++ [nl] ++ err_Error e2
  end.

(** [errors.Is] *)
Fixpoint errors_Is (e : error) (s : sentinel) : bool :=
  match e with
  | ESentinel s' => bool_decide (s' = s)
  | EWrap _ e _ => errors_Is e s
  | EJoin e1 e2 => errors_Is e1 s || errors_Is e2 s
  | _ => false
  end.

(** [errors.As] into a ValidationErrors. *)
Fixpoint errors_AsValidation (e : error) : option ValidationErrors :=
  match e with
  | EValidation v => Some v
  | EWrap _ e _ => errors_AsValidation e
  | EJoin e1 e2 => match errors_AsValidation e1 with
                   | Some v => Some v
                   | None => errors_AsValidation e2
                   end
  | _ => None
  end.

(** [errors.As] into an error with an SQLState() method. *)
Fixpoint errors_AsPg (e : error) : option bytes :=
  match e with
  | EPg st _ => Some st
  | EWrap _ e _ => errors_AsPg e
  | EJoin e1 e2 => match errors_AsPg e1 with
                   | Some v => Some v
                   | None => errors_AsPg e2
                   end
  | _ => None
  end.

(** func IsUniqueViolation *)
Definition IsUniqueViolation (e : error) : bool :=
  match errors_AsPg e with
  | Some st => bool_decide (st = #"23505")
  | None => false
  end.

(** func IsForeignKeyViolation *)
Definition IsForeignKeyViolation (e : error) : bool :=
  match errors_AsPg e with
  | Some st => bool_decide (st = #"23503")
  | None => false
  end.

(** type Problem (the fields FromError sets; Instance and Extra stay empty). *)
Record Problem := mkProblem {
  pb_Type : bytes;
  pb_Title : bytes;
  pb_Status : Z;
  pb_Detail : bytes;
  pb_Code : bytes;
  pb_Errors : ValidationErrors }.

Definition sentinel_problem (title : bytes) (status : Z) (e : error) : Problem :=
  {| pb_Type := #"about:blank"; pb_Title := title; pb_Status := status;
     pb_Detail := err_Error e; pb_Code := title; pb_Errors := [] |}.

(** func FromError; [None] is Go's nil error. *)
Definition FromError (err : option error) : Problem :=
  match err with
  | None => {| pb_Type := []; pb_Title := #"internal_error"; pb_Status := 500;
               pb_Detail := []; pb_Code := []; pb_Errors := [] |}
  | Some e =>
      if errors_Is e ErrNotFound then sentinel_problem #"not_found" 404 e
      else if errors_Is e ErrUnauthorized then sentinel_problem #"unauthorized" 401 e
      else if errors_Is e ErrForbidden then sentinel_problem #"forbidden" 403 e
      else if errors_Is e ErrIdempotencyConflict
      then sentinel_problem #"idempotency_conflict" 409 e
      else if errors_Is e ErrConflict || errors_Is e ErrPeerExists
      then sentinel_problem #"conflict" 409 e
      else if errors_Is e ErrIPPoolExhausted then sentinel_problem #"ip_pool_exhausted" 409 e
      else if errors_Is e ErrRateLimited then sentinel_problem #"rate_limited" 429 e
      else if errors_Is e ErrInvalidKey || errors_Is e ErrInvalidProfile
              || errors_Is e ErrUnsupportedProtocol
      then sentinel_problem #"invalid_request" 400 e
      else match errors_AsValidation e with
           | Some ve => {| pb_Type := #"about:blank"; pb_Title := #"validation_failed";
                           pb_Status := 422; pb_Detail := ValidationErrors_Error ve;
                           pb_Code := #"validation_failed"; pb_Errors := ve |}
           | None => sentinel_problem #"internal_error" 500 e
           end
  end.

(** The part of a problem a client dispatches on. *)
Definition problem_class (p : Problem) : Z * bytes := (pb_Status p, pb_Code p).

(** The status and code a plain sentinel is reported with. *)
Definition sentinel_class (s : sentinel) : Z * bytes :=
  match s with
  | ErrNotFound => (404, #"not_found")
  | ErrUnauthorized => (401, #"unauthorized")
  | ErrForbidden => (403, #"forbidden")
  | ErrIdempotencyConflict => (409, #"idempotency_conflict")
  | ErrConflict | ErrPeerExists => (409, #"conflict")
  | ErrIPPoolExhausted => (409, #"ip_pool_exhausted")
  | ErrRateLimited => (429, #"rate_limited")
  | ErrInvalidKey | ErrInvalidProfile | ErrUnsupportedProtocol => (400, #"invalid_request")
  | _ => (500, #"internal_error")
  end.

(** [e] wraps exactly one error [i] any number of times. *)
Inductive wraps : error -> error -> Prop :=
| wraps_refl e : wraps e e
| wraps_step pre e post i : wraps e i -> wraps (EWrap pre e post) i.

(** ** Theorems *)

Lemma wraps_Is e i s : wraps e i -> errors_Is e s = errors_Is i s.
Proof. induction 1; simpl; auto. Qed.

Lemma wraps_AsValidation e i : wraps e i -> errors_AsValidation e = errors_AsValidation i.
Proof. induction 1; simpl; auto. Qed.

Lemma wraps_AsPg e i : wraps e i -> errors_AsPg e = errors_AsPg i.
Proof. induction 1; simpl; auto. Qed.

Lemma FromError_wraps_class e i :
  wraps e i -> problem_class (FromError (Some e)) = problem_class (FromError (Some i)).
Proof.
  intros H. unfold FromError. rewrite !(wraps_Is _ _ _ H), (wraps_AsValidation _ _ H).
  repeat case_match; done.
Qed.

(** Wrapping an error with [fmt.Errorf("...%w...")], however often, never
    changes the HTTP status and code it is reported with: a sentinel keeps its
    class, field validation errors stay a 422 that carries exactly the field
    errors, and any other error is a 500. *)
Theorem FromError_classifies e i :
  wraps e i ->
  match i with
  | ESentinel s => problem_class (FromError (Some e)) = sentinel_class s
  | EValidation v =>
      problem_class (FromError (Some e)) = (422, #"validation_failed")
      /\ pb_Errors (FromError (Some e)) = v
  | EMsg _ | EPg _ _ => problem_class (FromError (Some e)) = (500, #"internal_error")
  | _ => True
  end.
Proof.
  intros H. rewrite (FromError_wraps_class _ _ H).
  destruct i as [s|v|m|st m| |]; try done; [by destruct s|].
  split; [done|]. unfold FromError. rewrite !(wraps_Is _ _ _ H), (wraps_AsValidation _ _ H).
  done.
Qed.

(** Witness of [FromError_classifies]: the error a missing tenant gives. *)
Lemma FromError_classifies_witness :
  problem_class (FromError (Some (EWrap #"tenant x: " (ESentinel ErrNotFound) [])))
  = (404, #"not_found").
Proof.
  apply (FromError_classifies _ (ESentinel ErrNotFound)).
  apply wraps_step, wraps_refl.
Defined.
