(* ===== verification/Effects.v ===== *)
(** * Effects: functions that update a state and may fail

    The monad of the database sessions and of the file system: state passing with
    Go's (value, error) results.  A failed call keeps the state it reached. *)

From S2P Require Import Prelude Errors.

(** ** The state-and-error monad *)

(** [SE S A]: a Go function that may update the state [S] and returns a value
    or an error. *)
Definition SE (S A : Type) : Type := S -> result error A * S.

#[export] Instance SE_ret S : MRet (SE S) := fun A a s => (Ok a, s).
#[export] Instance SE_bind S : MBind (SE S) := fun A B f m s =>
  match m s with
  | (Ok a, s') => f a s'
  | (Err e, s') => (Err e, s')
  end.

#[export] Instance SE_fmap S : FMap (SE S) := fun A B f m s =>
  match m s with
  | (Ok a, s') => (Ok (f a), s')
  | (Err e, s') => (Err e, s')
  end.

Definition fail {S A} (e : error) : SE S A := fun s => (Err e, s).
Definition asks {S A} (f : S -> A) : SE S A := fun s => (Ok (f s), s).
Definition modify {S} (f : S -> S) : SE S unit := fun s => (Ok tt, f s).
Definition of_result {S A} (r : result error A) : SE S A := fun s => (r, s).

Definition check {S} (ok : bool) (e : error) : SE S unit := if ok then mret tt else fail e.

(** A call whose error the caller looks at. *)
Definition attempt {S A} (m : SE S A) : SE S (result error A) :=
  fun s => let '(r, s') := m s in (Ok r, s').

(** [_ = f()]: the state of a call whose error is ignored. *)
Definition ignored {S A} (m : SE S A) (s : S) : S := snd (m s).

(** [defer d()]: [d] runs when the function returns, however it returns. *)
Definition defer {S A} (d : S -> S) (m : SE S A) : SE S A :=
  fun s => let '(r, s') := m s in (r, d s').

(** [fmt.Errorf("pre: %w", err)] around a call. *)
Definition wrapping {S A} (pre : bytes) (m : SE S A) : SE S A :=
  fun s => match m s with
           | (Err e, s') => (Err (EWrap pre e []), s')
           | r => r
           end.

(** ** Reasoning about a call *)

Lemma bind_inv {S A B} (m : SE S A) (f : A -> SE S B) s b s' :
  (m ≫= f) s = (Ok b, s') -> exists a s1, m s = (Ok a, s1) /\ f a s1 = (Ok b, s').
Proof. unfold mbind, SE_bind. destruct (m s) as [[a|e] s1]; [|done]. eauto. Qed.

Lemma bind_ok {S A B} (m : SE S A) (f : A -> SE S B) s a s1 :
  m s = (Ok a, s1) -> (m ≫= f) s = f a s1.
Proof. unfold mbind, SE_bind. by intros ->. Qed.

Lemma bind_err {S A B} (m : SE S A) (f : A -> SE S B) s e s1 :
  m s = (Err e, s1) -> (m ≫= f) s = (Err e, s1).
Proof. unfold mbind, SE_bind. by intros ->. Qed.

Lemma asks_bind {S A B} (g : S -> A) (f : A -> SE S B) s : (asks g ≫= f) s = f (g s) s.
Proof. done. Qed.

Lemma modify_bind {S B} (g : S -> S) (f : unit -> SE S B) s : (modify g ≫= f) s = f tt (g s).
Proof. done. Qed.

(** A call that returned ran its first part, and the second one if the first
    succeeded. *)
Lemma bind_cases {S A B} (m : SE S A) (f : A -> SE S B) s r s' :
  (m ≫= f) s = (r, s') ->
  (exists a s1, m s = (Ok a, s1) /\ f a s1 = (r, s')) \/ (exists e, m s = (Err e, s') /\ r = Err e).
Proof. unfold mbind, SE_bind. destruct (m s) as [[a|e] s1]; intros H; simplify_eq; eauto. Qed.

Lemma defer_inv {S A} d (m : SE S A) s r s' :
  defer d m s = (r, s') -> exists s1, m s = (r, s1) /\ s' = d s1.
Proof. unfold defer. destruct (m s) as [r0 s1]. intros [= <- <-]. eauto. Qed.

Lemma wrapping_inv {S A} pre (m : SE S A) s r s' :
  wrapping pre m s = (r, s') ->
  (exists a, m s = (Ok a, s') /\ r = Ok a) \/ (exists e, m s = (Err e, s') /\ r = Err (EWrap pre e [])).
Proof. unfold wrapping. destruct (m s) as [[a|e] s1]; intros [= <- <-]; eauto. Qed.
