(* ===== verification/Files.v ===== *)
(** * Files: paths and the file system (Go's os and path/filepath)

    A file system is a map from paths to files; directories are not kept, a
    missing one is one of the reasons for which an operation can fail.  Whether
    the n-th operation fails, with which error and after how many bytes is for the
    environment to say ([FileEnv]), so a theorem holds for every pattern of
    failures. *)

From S2P Require Import Prelude GoStrings Strconv Errors Effects.

(** ** Paths ([path.Join]) *)

(** One component of [path.Clean]; the stack holds the components kept so far,
    last first. *)
Definition clean_step (rooted : bool) (stack : list bytes) (c : bytes) : list bytes :=
  if bool_decide (c = []) || bool_decide (c = #".") then stack
  else if bool_decide (c = #"..") then
    match stack with
    | top :: rest => if bool_decide (top = #"..") then c :: stack else rest
    | [] => if rooted then [] else [c]
    end
  else c :: stack.

Definition path_Clean (p : bytes) : bytes :=
  let rooted := HasPrefix p #"/" in
  let out := Join (rev (fold_left (clean_step rooted) (Split p "/"%char) [])) #"/" in
  if rooted then #"/" ++ out else if bool_decide (out = []) then #"." else out.

(** [path.Join] of two elements: empty ones are ignored. *)
Definition path_Join (a b : bytes) : bytes :=
  match a, b with
  | [], [] => []
  | [], _ => path_Clean b
  | _, [] => path_Clean a
  | _, _ => path_Clean (a ++ #"/" ++ b)
  end.

(** [filepath.Dir]: the text up to the last separator, cleaned. *)
Fixpoint up_to_slash (p : bytes) : bytes :=
  match p with
  | [] => []
  | c :: rest => if existsb (fun d => bool_decide (d = "/"%char)) p then c :: up_to_slash rest else []
  end.
Definition path_Dir (p : bytes) : bytes :=
  let dir := up_to_slash p in if bool_decide (dir = []) then #"." else path_Clean dir.

(** ** The file system *)

Record file : Type := mkFile { f_data : bytes; f_mode : Z }.

Inductive fileop : Type :=
| OpMkdirAll (p : bytes) | OpOpen (p : bytes) | OpWrite (p : bytes) | OpChmod (p : bytes) | OpSync (p : bytes)
| OpClose (p : bytes) | OpRename (old new : bytes) | OpRemove (p : bytes) | OpRead (p : bytes).

(** A failed write has stored the first [n] bytes. *)
Inductive outcome : Type := Done | Failed (e : error) (n : nat).

(** The environment: the outcome of the n-th operation, the number the n-th
    temporary name is made of, and the directory for temporary files. *)
Class FileEnv : Type := {
  fault : nat -> fileop -> outcome;
  temp_number : nat -> N;
  TempDir : bytes }.

Record FS : Type := mkFS { fs_files : gmap bytes file; fs_step : nat }.

(** [0600], the mode of a private file. *)
Definition mode_private : Z := 384.

Definition EEXIST : error := EMsg #"file exists".
Definition ENOENT : error := EMsg #"no such file or directory".

(** [os.IsExist] *)
Definition os_IsExist (e : error) : bool :=
  match e with EWrap _ (EMsg t) _ => bool_decide (t = #"file exists") | _ => false end.

Section files.
Context {env : FileEnv}.

(** One operation: its effect when it succeeds, and when it fails after [n] bytes. *)
Definition sys (op : fileop) (eff : gmap bytes file -> gmap bytes file)
    (part : nat -> gmap bytes file -> gmap bytes file) : SE FS unit :=
  fun s => match fault (fs_step s) op with
           | Done => (Ok tt, mkFS (eff (fs_files s)) (S (fs_step s)))
           | Failed e n => (Err e, mkFS (part n (fs_files s)) (S (fs_step s)))
           end.

(** An operation that leaves the files alone when it fails. *)
Definition sys_atomic (op : fileop) (eff : gmap bytes file -> gmap bytes file) : SE FS unit :=
  sys op eff (fun _ fs => fs).

Definition MkdirAll (p : bytes) : SE FS unit := sys_atomic (OpMkdirAll p) id.
Definition Close (p : bytes) : SE FS unit := sys_atomic (OpClose p) id.
Definition Sync (p : bytes) : SE FS unit := sys_atomic (OpSync p) id.
Definition Chmod (p : bytes) (mode : Z) : SE FS unit :=
  sys_atomic (OpChmod p) (alter (fun f => mkFile (f_data f) mode) p).
Definition Rename (old new : bytes) : SE FS unit :=
  sys_atomic (OpRename old new) (fun fs => match fs !! old with Some f => <[new := f]> (delete old fs) | None => fs end).
Definition Remove (p : bytes) : SE FS unit := sys_atomic (OpRemove p) (delete p).

(** Some removal of the file fails. *)
Definition removal_fails (p : bytes) : Prop := exists n e k, fault n (OpRemove p) = Failed e k.

(** Writing to a file just opened for it. *)
Definition WriteString (p data : bytes) : SE FS unit :=
  sys (OpWrite p) (alter (fun f => mkFile (f_data f ++ data) (f_mode f)) p)
    (fun n => alter (fun f => mkFile (f_data f ++ take n data) (f_mode f)) p).

Definition ReadFile (p : bytes) : SE FS bytes :=
  sys_atomic (OpRead p) id ;;
  f ← asks (fun s => fs_files s !! p);
  match f with Some f => mret (f_data f) | None => fail (EWrap (#"open " ++ p ++ #": ") ENOENT []) end.

(** [OpenFile] with [O_CREATE|O_EXCL] *)
Definition OpenExclusive (p : bytes) (mode : Z) : SE FS unit :=
  f ← asks (fun s => fs_files s !! p);
  match f with
  | Some _ => fail (EWrap (#"open " ++ p ++ #": ") EEXIST [])
  | None => sys_atomic (OpOpen p) (<[p := mkFile [] mode]>)
  end.

(** [WriteFile]: an existing file is truncated and keeps its mode. *)
Definition WriteFile (p data : bytes) (mode : Z) : SE FS unit :=
  sys_atomic (OpOpen p)
    (fun fs => match fs !! p with Some f => <[p := mkFile [] (f_mode f)]> fs | None => <[p := mkFile [] mode]> fs end) ;;
  r ← attempt (WriteString p data);
  c ← attempt (Close p);
  match r with Err e => fail e | Ok _ => of_result c end.

(** [joinPath] of package os. *)
Definition os_joinPath (dir name : bytes) : bytes :=
  if HasSuffix dir #"/" then dir ++ name else dir ++ #"/" ++ name.

(** [CreateTemp(dir, prefix + "*" + suffix)]: a new file, named by a number; the
    last number tried, when every one was taken. *)
Definition CreateTemp (dir prefix suffix : bytes) : SE FS bytes :=
  n ← asks (fun s => temp_number (fs_step s));
  let dir := if bool_decide (dir = []) then TempDir else dir in
  let name := os_joinPath dir prefix ++ format_udec (Z.of_N n) ++ suffix in
  OpenExclusive name mode_private ;; mret name.
End files.

(** ** Paths *)

Lemma Join_snoc l x sep : l <> [] -> Join (l ++ [x]) sep = Join l sep ++ sep ++ x.
Proof.
  induction l as [|y l IH]; [done|]. intros _. destruct l as [|z l]; [done|].
  change ((y :: z :: l) ++ [x]) with (y :: ((z :: l) ++ [x])). rewrite (Join_cons y ((z :: l) ++ [x])) by (intros E; by apply app_nil in E as [? _]).
  rewrite IH, (Join_cons y (z :: l)) by done. by rewrite <- !app_assoc.
Qed.

Lemma Split_snoc a c x : c ∉ x -> Split (a ++ [c] ++ x) c = Split a c ++ [x].
Proof.
  intros Hx. rewrite <- (Split_Join (Split a c ++ [x]) c), Join_snoc, Join_Split.
  - done.
  - apply Split_not_nil.
  - intros E. by apply app_nil in E as [_ ?].
  - apply Forall_app. split; [apply Split_pieces|by constructor].
Qed.

(** A component that names a file. *)
Definition file_name (x : bytes) : Prop := x <> [] /\ x <> #"." /\ x <> #".." /\ "/"%char ∉ x.

Lemma last_app_ne {A} (a x : list A) : x <> [] -> last (a ++ x) = last x.
Proof. destruct x as [|y x] using rev_ind; [done|]. intros _. by rewrite app_assoc, !last_snoc. Qed.

(** Cleaning a path that ends in a file name keeps the name. *)
Lemma path_Clean_last a x ps :
  file_name x -> Split (a ++ x) "/"%char = ps ++ [x] -> last (path_Clean (a ++ x)) = last x.
Proof.
  intros (H0 & H1 & H2 & _) Hps. unfold path_Clean. generalize (HasPrefix (a ++ x) #"/") as rooted. intros rooted.
  rewrite Hps, fold_left_app. cbn [fold_left]. generalize (fold_left (clean_step rooted) ps []) as st. intros st.
  unfold clean_step. rewrite !bool_decide_eq_false_2 by done. cbn [orb rev].
  assert (exists pre, Join (rev st ++ [x]) #"/" = pre ++ x) as [pre ->].
  { destruct (decide (rev st = [])) as [->|E]; [by exists []|].
    rewrite Join_snoc by done. exists (Join (rev st) #"/" ++ #"/"). by rewrite <- app_assoc. }
  rewrite bool_decide_eq_false_2 by (intros E; by apply app_nil in E as [_ ?]).
  destruct rooted; [rewrite app_assoc|]; by apply last_app_ne.
Qed.

(** Joining a file name to a directory keeps it as the last component. *)
Lemma path_Join_last d x : file_name x -> last (path_Join d x) = last x.
Proof.
  intros Hx. pose proof Hx as (H0 & _ & _ & Hs). unfold path_Join. destruct x as [|y x]; [done|].
  destruct d as [|b d].
  - apply (path_Clean_last [] (y :: x) []); [done|]. by apply Split_absent.
  - replace ((b :: d) ++ #"/" ++ y :: x) with (((b :: d) ++ #"/") ++ y :: x) by (by rewrite <- app_assoc).
    apply (path_Clean_last _ _ (Split (b :: d) "/"%char)); [done|]. rewrite <- app_assoc. by apply Split_snoc.
Qed.
