(* ===== verification/Profile.v ===== *)
(** * Protocol profiles: internal/domain/profile.go

    The AmneziaWG tunables of a node, their validation, and the text forms of
    the range types.  [valid_profile] is the abstract specification of the
    protocol matrix; [Validate] is the code. *)

From S2P Require Import Prelude GoStrings Strconv Base64 Errors.

(** ** Data *)

(** UUIDs are 128-bit numbers; uuid.Nil is 0. *)
Abbreviation uuid := N.
Definition uuid_Nil : uuid := 0%N.

(** ProtocolVersion is a string type with three known values. *)
Definition ProtocolV1 : bytes := #"v1".
Definition ProtocolV2 : bytes := #"v2".
Definition ProtocolV31 : bytes := #"v3.1".

(** type IntRange struct { Min, Max int64 } *)
Record IntRange := mkIntRange { ir_Min : Z; ir_Max : Z }.

(** type Uint16Range struct { Min, Max uint16 } *)
Record Uint16Range := mkU16 { u16_Min : Z; u16_Max : Z }.

#[export] Instance IntRange_eq_dec : EqDecision IntRange.
Proof. solve_decision. Defined.
#[export] Instance Uint16Range_eq_dec : EqDecision Uint16Range.
Proof. solve_decision. Defined.

(** type ProtocolProfile struct *)
Record ProtocolProfile := mkProfile {
  pp_ID : uuid;
  pp_Name : bytes;
  pp_ProtocolVersion : bytes;
  pp_Jc : Z; pp_Jmin : Z; pp_Jmax : Z;
  pp_S1 : Z; pp_S2 : Z; pp_S3 : Z; pp_S4 : Z;
  pp_H1 : IntRange; pp_H2 : IntRange; pp_H3 : IntRange; pp_H4 : IntRange;
  pp_I1 : bytes; pp_I2 : bytes; pp_I3 : bytes; pp_I4 : bytes; pp_I5 : bytes;
  pp_HeaderProtectionKey : bytes;
  pp_ContentPaddingAddition : Uint16Range;
  pp_RekeyAfterTime : Uint16Range;
  pp_RekeyTimeout : Uint16Range;
  pp_RejectAfterTime : Uint16Range;
  pp_KeepaliveTimeout : Uint16Range;
  pp_MaxHandshakeAttempts : Uint16Range;
  pp_PersistentKeepalive : Uint16Range;
  pp_RandomTrailers : bool;
  pp_DisableCookies : bool;
  pp_ListenPortPolicy : bytes;
  pp_CreatedAt : Z }.

(** The limits of the protocol matrix. *)
Definition AWGStringMax : Z := 5 * 1024 - 1.
Definition JcMax : Z := 10.
Definition JunkSizeMin : Z := 1.
Definition JunkSizeMax : Z := 1280.
Definition S1Max : Z := 1132.
Definition S2Max : Z := 1188.
Definition S3Max : Z := 64.
Definition S4Max : Z := 32.

(** ** Ranges *)

(** The five errors of ParseIntRange, with the text or the bounds they quote. *)
Inductive RangeError :=
| EmptyRange
| InvalidLowerBound (s : bytes)
| InvalidUpperBound (s : bytes)
| LowerAboveUpper (lo hi : Z)
| InvalidInteger (s : bytes).

(** func ParseIntRange *)
Definition ParseIntRange (s : bytes) : result RangeError IntRange :=
  let s := TrimSpace s in
  if bool_decide (s = []) then Err EmptyRange
  else
    match IndexByte s "-" with
    | Some (S i) =>
        match ParseInt10 (TrimSpace (take (S i) s)) with
        | None => Err (InvalidLowerBound (take (S i) s))
        | Some lo =>
            match ParseInt10 (TrimSpace (drop (S (S i)) s)) with
            | None => Err (InvalidUpperBound (drop (S (S i)) s))
            | Some hi => if hi <? lo then Err (LowerAboveUpper lo hi)
                         else Ok (mkIntRange lo hi)
            end
        end
    | _ =>
        match ParseInt10 s with
        | Some v => Ok (mkIntRange v v)
        | None => Err (InvalidInteger s)
        end
    end.

(** func (r IntRange) String() *)
Definition IntRange_String (r : IntRange) : bytes :=
  if ir_Min r =? ir_Max r then FormatInt (ir_Min r)
  else FormatInt (ir_Min r) ++ #"-" ++ FormatInt (ir_Max r).

(** func (r Uint16Range) String() *)
Definition Uint16Range_String (r : Uint16Range) : bytes :=
  if u16_Min r =? u16_Max r then FormatInt (u16_Min r)
  else FormatInt (u16_Min r) ++ #"-" ++ FormatInt (u16_Max r).

(** func (r Uint16Range) IsZero() *)
Definition Uint16Range_IsZero (r : Uint16Range) : bool :=
  (u16_Min r =? 0) && (u16_Max r =? 0).

(** func (r Uint16Range) valid() *)
Definition Uint16Range_valid (r : Uint16Range) : bool := u16_Min r <=? u16_Max r.

(** func isRange *)
Definition isRange (r : IntRange) : bool := negb (ir_Min r =? ir_Max r).

(** func rangesOverlap *)
Definition rangesOverlap (a b : IntRange) : bool :=
  (ir_Min a <=? ir_Max b) && (ir_Min b <=? ir_Max a).

(** func SupportsV2Fields *)
Definition SupportsV2Fields (p : ProtocolProfile) : bool :=
  bool_decide (pp_ProtocolVersion p = ProtocolV2)
  || bool_decide (pp_ProtocolVersion p = ProtocolV31).

(** func IsV31 *)
Definition IsV31 (p : ProtocolProfile) : bool :=
  bool_decide (pp_ProtocolVersion p = ProtocolV31).

(** func validBase64Key *)
Definition validBase64Key (s : bytes) : bool :=
  if bool_decide (TrimSpace s = []) then false
  else match b64_DecodeString (TrimSpace s) with
       | Some decoded => bool_decide (length decoded = 32%nat)
       | None => false
       end.

(** func hasV31OnlyValues *)
Definition hasV31OnlyValues (p : ProtocolProfile) : bool :=
  negb (bool_decide (pp_HeaderProtectionKey p = []))
  || negb (Uint16Range_IsZero (pp_ContentPaddingAddition p))
  || negb (Uint16Range_IsZero (pp_RekeyAfterTime p))
  || negb (Uint16Range_IsZero (pp_RekeyTimeout p))
  || negb (Uint16Range_IsZero (pp_RejectAfterTime p))
  || negb (Uint16Range_IsZero (pp_KeepaliveTimeout p))
  || negb (Uint16Range_IsZero (pp_MaxHandshakeAttempts p))
  || negb (Uint16Range_IsZero (pp_PersistentKeepalive p))
  || pp_RandomTrailers p || pp_DisableCookies p.

(** ** Special junk packets *)

Definition tag_msg (tag : bytes) (text : bytes) : bytes := #"<" ++ tag ++ #"> " ++ text.

(** The switch of validateSpecialJunk on the fields of one tag: the bytes the
    tag adds to the fixed output, or the error text. *)
Definition junk_tag (fields : list bytes) : result bytes Z :=
  match fields with
  | [] => Err #"special-junk tag must not be empty"
  | tag :: args =>
      if bool_decide (tag = #"b") then
        match args with
        | [arg] =>
            let raw := TrimPrefix arg #"0x" in
            if bool_decide (raw = []) || negb (Z.of_nat (length raw) mod 2 =? 0)
            then Err #"<b> requires a non-empty even-length hex argument"
            else match hex_DecodeString raw with
                 | Some decoded => Ok (Z.of_nat (length decoded))
                 | None => Err #"<b> contains invalid hex"
                 end
        | _ => Err #"<b> requires exactly one hex argument"
        end
      else if bool_decide (tag = #"t") then
        match args with
        | [] => Ok 4
        | _ => Err #"<t> does not accept arguments"
        end
      else if bool_decide (tag ∈ [ #"r"; #"rc"; #"rd"; #"dz"]) then
        match args with
        | [arg] =>
            match Atoi arg with
            | Some n =>
                if n <? 0 then Err (tag_msg tag #"size must be a non-negative integer")
                else if JunkSizeMax <? n
                then Err (tag_msg tag (#"size must be <= " ++ FormatInt JunkSizeMax))
                else Ok n
            | None => Err (tag_msg tag #"size must be a non-negative integer")
            end
        | _ => Err (tag_msg tag #"requires exactly one size argument")
        end
      else if bool_decide (tag ∈ [ #"d"; #"ds"]) then
        match args with
        | [] => Ok 0
        | _ => Err (tag_msg tag #"does not accept arguments")
        end
      else Err (#"unknown special-junk tag <" ++ tag ++ #">")
  end.

(** The loop of validateSpecialJunk; [None] when the fuel is spent, [Some None]
    for Go's nil, [Some (Some msg)] for an error. *)
Fixpoint junk_loop (fuel : nat) (remaining : bytes) (totalFixed tagCount : Z)
    : option (option bytes) :=
  match fuel with
  | O => None
  | S fuel =>
      match IndexByte remaining "<" with
      | None =>
          Some (if tagCount =? 0
                then Some #"special-junk value must contain at least one supported tag"
                else None)
      | Some start =>
          match IndexByte (drop start remaining) ">" with
          | None => Some (Some #"special-junk tag is missing closing '>'")
          | Some endRel =>
              let fin := (start + endRel)%nat in
              match junk_tag (Fields (drop (S start) (take fin remaining))) with
              | Err msg => Some (Some msg)
              | Ok n =>
                  if JunkSizeMax <? totalFixed + n
                  then Some (Some (#"special-junk fixed output must be <= "
                                   ++ FormatInt JunkSizeMax ++ #" bytes"))
                  else junk_loop fuel (drop (S fin) remaining) (totalFixed + n) (tagCount + 1)
              end
          end
      end
  end.

(** func validateSpecialJunk; [None] is nil.  Every round removes a tag of two
    bytes or more, so the length of the text is fuel enough
    ([junk_loop_total]) and the default is never used. *)
Definition validateSpecialJunk (spec : bytes) : option bytes :=
  default (Some []) (junk_loop (S (length spec)) spec 0 0).

(** ** Validate *)

Definition when (b : bool) (e : ValidationError) : ValidationErrors :=
  if b then [e] else [].

(** The closure checkInt of Validate. *)
Definition checkInt (field : bytes) (v lo hi : Z) : ValidationErrors :=
  when ((v <? lo) || (hi <? v))
    (mkVE field #"out_of_range"
       (#"must be in [" ++ FormatInt lo ++ #", " ++ FormatInt hi ++ #"], got " ++ FormatInt v)).

(** One round of the loop over I1-I5. *)
Definition checkJunk (name v : bytes) : ValidationErrors :=
  if AWGStringMax <? Z.of_nat (length v) then
    [mkVE name #"too_long" (#"must be at most " ++ FormatInt AWGStringMax ++ #" bytes, got "
                            ++ FormatInt (Z.of_nat (length v)))]
  else if negb (bool_decide (v = [])) then
    match validateSpecialJunk v with
    | Some msg => [mkVE name #"invalid_obfuscation" msg]
    | None => []
    end
  else [].

(** One round of the loop over H1-H4. *)
Definition checkHeader (version name : bytes) (r : IntRange) : ValidationErrors :=
  when ((ir_Min r <? 0) || (ir_Max r <? 0) || (0xFFFFFFFF <? ir_Max r))
    (mkVE name #"out_of_range" #"H values must fit in uint32")
  ++ when (ir_Max r <? ir_Min r) (mkVE name #"invalid" #"min > max")
  ++ when (bool_decide (version = ProtocolV1) && negb (ir_Min r =? ir_Max r))
       (mkVE name #"unsupported" #"H ranges require v2 or v3.1; v1 requires single values").

Definition checkPadding (name : bytes) (v : Z) : ValidationErrors :=
  when (v <? 12) (mkVE name #"header_protection_padding"
                    #"must be at least 12 when HeaderProtectionKey is enabled").

Definition checkU16 (name : bytes) (r : Uint16Range) : ValidationErrors :=
  when (negb (Uint16Range_valid r)) (mkVE name #"invalid" #"range min must be <= max").

(** func (p ProtocolProfile) Validate(); an empty list is Go's nil. *)
Definition Validate (p : ProtocolProfile) : ValidationErrors :=
  when (bool_decide (TrimSpace (pp_Name p) = [])) (mkVE #"name" #"required" #"name is required")
  ++
  if negb (bool_decide (pp_ProtocolVersion p ∈ [ProtocolV1; ProtocolV2; ProtocolV31])) then
    [mkVE #"protocol_version" #"unsupported" #"must be 'v1', 'v2', or 'v3.1'"]
  else
    checkInt #"jc" (pp_Jc p) 0 JcMax
    ++ (if (pp_Jmin p =? 0) && (pp_Jmax p =? 0)
        then when (0 <? pp_Jc p)
               (mkVE #"jmin" #"required" #"jmin/jmax are required when jc > 0")
        else checkInt #"jmin" (pp_Jmin p) JunkSizeMin JunkSizeMax
             ++ checkInt #"jmax" (pp_Jmax p) JunkSizeMin JunkSizeMax)
    ++ when (pp_Jmax p <? pp_Jmin p) (mkVE #"jmin" #"invalid" #"jmin must be <= jmax")
    ++ checkInt #"s1" (pp_S1 p) 0 S1Max
    ++ checkInt #"s2" (pp_S2 p) 0 S2Max
    ++ (if SupportsV2Fields p then
          checkInt #"s3" (pp_S3 p) 0 S3Max
          ++ checkInt #"s4" (pp_S4 p) 0 S4Max
          ++ checkJunk #"i1" (pp_I1 p) ++ checkJunk #"i2" (pp_I2 p)
          ++ checkJunk #"i3" (pp_I3 p) ++ checkJunk #"i4" (pp_I4 p)
          ++ checkJunk #"i5" (pp_I5 p)
        else
          when (negb (pp_S3 p =? 0) || negb (pp_S4 p =? 0))
            (mkVE #"s3" #"unsupported" #"S3/S4 require v2 or v3.1")
          ++ when (negb (bool_decide (pp_I1 p = [])) || negb (bool_decide (pp_I2 p = []))
                   || negb (bool_decide (pp_I3 p = [])) || negb (bool_decide (pp_I4 p = []))
                   || negb (bool_decide (pp_I5 p = [])))
               (mkVE #"i1" #"unsupported" #"I1-I5 require v2 or v3.1"))
    ++ checkHeader (pp_ProtocolVersion p) #"h1" (pp_H1 p)
    ++ checkHeader (pp_ProtocolVersion p) #"h2" (pp_H2 p)
    ++ checkHeader (pp_ProtocolVersion p) #"h3" (pp_H3 p)
    ++ checkHeader (pp_ProtocolVersion p) #"h4" (pp_H4 p)
    ++ when (rangesOverlap (pp_H1 p) (pp_H2 p) || rangesOverlap (pp_H1 p) (pp_H3 p)
             || rangesOverlap (pp_H1 p) (pp_H4 p) || rangesOverlap (pp_H2 p) (pp_H3 p)
             || rangesOverlap (pp_H2 p) (pp_H4 p) || rangesOverlap (pp_H3 p) (pp_H4 p))
         (mkVE #"h1" #"overlap" #"H1, H2, H3, H4 must be pairwise disjoint")
    ++ (if IsV31 p then
          when (negb (validBase64Key (pp_HeaderProtectionKey p)))
            (mkVE #"header_protection_key" #"invalid"
               #"must be a base64-encoded 32-byte key for v3.1")
          ++ checkPadding #"s1" (pp_S1 p) ++ checkPadding #"s2" (pp_S2 p)
          ++ checkPadding #"s3" (pp_S3 p) ++ checkPadding #"s4" (pp_S4 p)
          ++ checkU16 #"content_padding_addition" (pp_ContentPaddingAddition p)
          ++ checkU16 #"rekey_after_time" (pp_RekeyAfterTime p)
          ++ checkU16 #"rekey_timeout" (pp_RekeyTimeout p)
          ++ checkU16 #"reject_after_time" (pp_RejectAfterTime p)
          ++ checkU16 #"keepalive_timeout" (pp_KeepaliveTimeout p)
          ++ checkU16 #"max_handshake_attempts" (pp_MaxHandshakeAttempts p)
          ++ checkU16 #"persistent_keepalive" (pp_PersistentKeepalive p)
          ++ when (pp_RandomTrailers p
                   && (isRange (pp_H1 p) || isRange (pp_H2 p) || isRange (pp_H3 p)))
               (mkVE #"random_trailers" #"unsafe_header_range"
                  #"RandomTrailers with ranged H1-H3 is disabled until upstream packet classification is verified safe")
        else
          when (hasV31OnlyValues p)
            (mkVE #"header_protection_key" #"unsupported"
               #"V3.1 parameters require protocol_version 'v3.1'"))
    ++ when (negb (bool_decide (pp_ListenPortPolicy p ∈ [[]; #"fixed"; #"managed"])))
         (mkVE #"listen_port_policy" #"unsupported" #"must be 'fixed' or 'managed'").

(** ** Specifications *)

Definition in_range (x : Z) (r : IntRange) : Prop := ir_Min r <= x <= ir_Max r.

(** What one tag means: its fixed output size in bytes. *)
Inductive tag_size : list bytes -> Z -> Prop :=
| ts_bytes arg decoded :
    TrimPrefix arg #"0x" <> [] -> hex_DecodeString (TrimPrefix arg #"0x") = Some decoded ->
    tag_size [ #"b"; arg] (Z.of_nat (length decoded))
| ts_time : tag_size [ #"t"] 4
| ts_random tag arg n :
    tag ∈ [ #"r"; #"rc"; #"rd"; #"dz"] -> Atoi arg = Some n -> 0 <= n <= JunkSizeMax ->
    tag_size [tag; arg] n
| ts_data tag : tag ∈ [ #"d"; #"ds"] -> tag_size [tag] 0.

(** The tags of a special-junk text, in order, each with the fields between
    its angle brackets; text outside the tags is ignored. *)
Inductive junk_text : bytes -> list (list bytes) -> Prop :=
| jt_end s : "<"%char ∉ s -> junk_text s []
| jt_tag pre body rest tags :
    "<"%char ∉ pre -> ">"%char ∉ body -> junk_text rest tags ->
    junk_text (pre ++ "<"%char :: body ++ ">"%char :: rest) (Fields body :: tags).

(** A special-junk text the protocol accepts: at least one tag, all known, and
    a fixed output that fits the largest junk packet. *)
Definition junk_ok (s : bytes) : Prop :=
  exists tags sizes, junk_text s tags /\ tags <> [] /\ Forall2 tag_size tags sizes
                     /\ sumZ sizes <= JunkSizeMax.

Definition junk_field_ok (s : bytes) : Prop :=
  Z.of_nat (length s) <= AWGStringMax /\ (s = [] \/ junk_ok s).

(** The protocol matrix. *)
Record valid_profile (p : ProtocolProfile) : Prop := {
  vp_name : TrimSpace (pp_Name p) <> [];
  vp_version : pp_ProtocolVersion p ∈ [ProtocolV1; ProtocolV2; ProtocolV31];
  vp_jc : 0 <= pp_Jc p <= JcMax;
  vp_junk : (pp_Jmin p = 0 /\ pp_Jmax p = 0 /\ pp_Jc p = 0)
            \/ 1 <= pp_Jmin p <= pp_Jmax p /\ pp_Jmax p <= JunkSizeMax;
  vp_s12 : 0 <= pp_S1 p <= S1Max /\ 0 <= pp_S2 p <= S2Max;
  vp_v2 : SupportsV2Fields p = true ->
          0 <= pp_S3 p <= S3Max /\ 0 <= pp_S4 p <= S4Max
          /\ Forall junk_field_ok [pp_I1 p; pp_I2 p; pp_I3 p; pp_I4 p; pp_I5 p];
  vp_v1 : SupportsV2Fields p = false ->
          pp_S3 p = 0 /\ pp_S4 p = 0
          /\ Forall (fun i => i = []) [pp_I1 p; pp_I2 p; pp_I3 p; pp_I4 p; pp_I5 p];
  vp_headers : Forall (fun r => 0 <= ir_Min r <= ir_Max r /\ ir_Max r < 2 ^ 32)
                 [pp_H1 p; pp_H2 p; pp_H3 p; pp_H4 p];
  vp_single : pp_ProtocolVersion p = ProtocolV1 ->
              Forall (fun r => ir_Min r = ir_Max r) [pp_H1 p; pp_H2 p; pp_H3 p; pp_H4 p];
  vp_disjoint : forall i j a b,
      [pp_H1 p; pp_H2 p; pp_H3 p; pp_H4 p] !! i = Some a ->
      [pp_H1 p; pp_H2 p; pp_H3 p; pp_H4 p] !! j = Some b ->
      i <> j -> forall x, ~ (in_range x a /\ in_range x b);
  vp_v31 : IsV31 p = true ->
           (exists key, b64_DecodeString (TrimSpace (pp_HeaderProtectionKey p)) = Some key
                        /\ length key = 32%nat)
           /\ Forall (fun s => 12 <= s) [pp_S1 p; pp_S2 p; pp_S3 p; pp_S4 p]
           /\ Forall (fun r => u16_Min r <= u16_Max r)
                [pp_ContentPaddingAddition p; pp_RekeyAfterTime p; pp_RekeyTimeout p;
                 pp_RejectAfterTime p; pp_KeepaliveTimeout p; pp_MaxHandshakeAttempts p;
                 pp_PersistentKeepalive p]
           /\ (pp_RandomTrailers p = true ->
               Forall (fun r => ir_Min r = ir_Max r) [pp_H1 p; pp_H2 p; pp_H3 p]);
  vp_not_v31 : IsV31 p = false -> hasV31OnlyValues p = false;
  vp_policy : pp_ListenPortPolicy p ∈ [[]; #"fixed"; #"managed"] }.

(** ** Ranges: parsing and printing *)

Lemma IntRange_String_solid r : solid (IntRange_String r).
Proof.
  unfold IntRange_String. case_match; [apply FormatInt_solid|].
  apply solid_app; apply FormatInt_solid.
Qed.

Lemma Uint16Range_String_solid r : solid (Uint16Range_String r).
Proof.
  unfold Uint16Range_String. case_match; [apply FormatInt_solid|].
  apply solid_app; apply FormatInt_solid.
Qed.

#[export] Hint Resolve IntRange_String_solid Uint16Range_String_solid : awg.

Lemma FormatInt_minus z : 0 <= z -> "-"%char ∉ FormatInt z.
Proof. intros. apply FormatInt_notin; [done|code_lia]. Qed.

Lemma ParseIntRange_single z :
  in_int64 z -> ParseIntRange (FormatInt z) = Ok (mkIntRange z z).
Proof.
  intros Hz. unfold ParseIntRange. rewrite TrimSpace_solid by apply FormatInt_solid.
  rewrite bool_decide_false by apply solid_not_nil, FormatInt_solid.
  destruct (decide (0 <= z)) as [Hp|Hn].
  - rewrite (proj2 (IndexByte_None _ _) (FormatInt_minus z Hp)).
    by rewrite ParseInt10_FormatInt.
  - assert (IndexByte (FormatInt z) "-" = Some 0%nat) as ->.
    { unfold FormatInt. destruct (Z.ltb_spec z 0); [done|lia]. }
    by rewrite ParseInt10_FormatInt.
Qed.

Lemma ParseIntRange_pair lo hi :
  in_int64 lo -> in_int64 hi -> 0 <= lo ->
  ParseIntRange (FormatInt lo ++ #"-" ++ FormatInt hi) =
  if hi <? lo then Err (LowerAboveUpper lo hi) else Ok (mkIntRange lo hi).
Proof.
  intros Hlo Hhi Hp. unfold ParseIntRange.
  rewrite TrimSpace_solid by (apply solid_app; apply FormatInt_solid).
  rewrite bool_decide_false
    by (apply solid_not_nil, solid_app; apply FormatInt_solid).
  change (#"-" ++ FormatInt hi) with ("-"%char :: FormatInt hi).
  rewrite IndexByte_app by by apply FormatInt_minus.
  pose proof (solid_not_nil _ (FormatInt_solid lo)).
  destruct (length (FormatInt lo)) as [|n] eqn:Hl; [by apply length_zero_iff_nil in Hl|].
  rewrite <- Hl, take_app_length.
  rewrite drop_app_ge by lia. replace (S (length (FormatInt lo)) - _)%nat with 1%nat by lia.
  simpl drop. rewrite drop_0, !TrimSpace_solid by apply FormatInt_solid.
  by rewrite !ParseInt10_FormatInt.
Qed.

Lemma ParseIntRange_negative lo hi :
  lo < 0 -> exists e, ParseIntRange (FormatInt lo ++ #"-" ++ FormatInt hi) = Err e.
Proof.
  intros Hn. unfold ParseIntRange.
  rewrite TrimSpace_solid by (apply solid_app; apply FormatInt_solid).
  rewrite bool_decide_false
    by (apply solid_not_nil, solid_app; apply FormatInt_solid).
  assert (FormatInt lo = "-"%char :: format_udec (- lo)) as ->.
  { unfold FormatInt. destruct (Z.ltb_spec lo 0); [done|lia]. }
  cbn [app IndexByte Ascii.eqb Bool.eqb].
  change (list_ascii_of_string "-" ++ FormatInt hi) with ("-"%char :: FormatInt hi).
  rewrite ParseInt10_inner_minus. eauto.
Qed.

(** A range printed with [String()] is read back by ParseIntRange exactly
    when it is a single int64 value or an ordered range of non-negative
    values: those are the ranges the text form can carry. *)
Theorem ParseIntRange_String r :
  in_int64 (ir_Min r) -> in_int64 (ir_Max r) ->
  (ParseIntRange (IntRange_String r) = Ok r
   <-> ir_Min r = ir_Max r \/ 0 <= ir_Min r <= ir_Max r).
Proof.
  destruct r as [lo hi]; simpl. intros Hlo Hhi. unfold IntRange_String.
  cbn [ir_Min ir_Max].
  destruct (Z.eqb_spec lo hi) as [<-|Hne].
  { rewrite ParseIntRange_single by done. tauto. }
  destruct (decide (0 <= lo)) as [Hp|Hn].
  - rewrite ParseIntRange_pair by done. destruct (Z.ltb_spec hi lo).
    + split; [done|lia].
    + split; [lia|done].
  - destruct (ParseIntRange_negative lo hi) as [e ->]; [lia|]. split; [done|lia].
Qed.

(** Witness: the H1 range of the bootstrap profile. *)
Lemma ParseIntRange_String_witness :
  ParseIntRange (IntRange_String (mkIntRange 1820352565 1967349318))
  = Ok (mkIntRange 1820352565 1967349318).
Proof.
  apply (ParseIntRange_String (mkIntRange 1820352565 1967349318));
    unfold in_int64, min_int64, max_int64; simpl; lia.
Defined.

(** Everything ParseIntRange accepts is an ordered range of int64 values
    whose text form is accepted again and denotes the same range. *)
Theorem ParseIntRange_stable s r :
  ParseIntRange s = Ok r ->
  ir_Min r <= ir_Max r /\ in_int64 (ir_Min r) /\ in_int64 (ir_Max r)
  /\ ParseIntRange (IntRange_String r) = Ok r.
Proof.
  unfold ParseIntRange at 1. case_match; [done|].
  destruct (IndexByte (TrimSpace s) "-") as [[|i]|] eqn:Hi; intros Hr; repeat case_match;
    simplify_eq; bool_to_prop;
    repeat match goal with H : ParseInt10 _ = Some _ |- _ =>
      pose proof (ParseInt10_range _ _ H); revert H end; intros; simpl;
    unfold IntRange_String; cbn [ir_Min ir_Max]; rewrite ?Z.eqb_refl, ?ParseIntRange_single by done;
    try done.
  split_and!; [done..|].
  assert (0 <= z) as Hz.
  { eapply ParseInt10_nonneg; [|done]. intros Hin.
    assert (Cut (TrimSpace s) "-" = Some (take (S i) (TrimSpace s), drop (S (S i)) (TrimSpace s)))
      as Hc by (unfold Cut; by rewrite Hi).
    apply Cut_Some in Hc as [_ Hc]. exact (Hc (TrimSpace_incl _ _ Hin)). }
  case_match; bool_to_prop; subst; [by rewrite ParseIntRange_single|].
  rewrite ParseIntRange_pair by done. by destruct (Z.ltb_spec z0 z); [lia|].
Qed.

(** ** Special junk: the loop against its grammar *)

Lemma junk_tag_spec fields n : junk_tag fields = Ok n <-> tag_size fields n.
Proof.
  split.
  - unfold junk_tag. destruct fields as [|tag args]; [done|]. intros H.
    repeat case_match; simplify_eq; bool_to_prop; subst; by constructor.
  - destruct 1 as [arg decoded Hne Hd| |tag arg n Ht Hn Hr|tag Ht].
    + unfold junk_tag. rewrite bool_decide_true, (bool_decide_false (TrimPrefix _ _ = [])) by done.
      pose proof (hex_DecodeString_length _ _ Hd) as Hl.
      rewrite (proj2 (Z.eqb_eq _ 0)); [by rewrite Hd|].
      rewrite Hl, Z.mul_comm, Z.mod_mul; lia.
    + done.
    + unfold junk_tag. rewrite (bool_decide_true (tag ∈ _)) by done.
      rewrite !(bool_decide_false (tag = _)) by (intros ->; set_solver).
      rewrite Hn. destruct (Z.ltb_spec n 0), (Z.ltb_spec JunkSizeMax n); [lia..|done].
    + unfold junk_tag. rewrite !(bool_decide_false (tag = _)) by (intros ->; set_solver).
      rewrite (bool_decide_false (tag ∈ _)), bool_decide_true; [done..|].
      intros ?. set_solver.
Qed.

Lemma tag_size_nonneg fields n : tag_size fields n -> 0 <= n.
Proof. destruct 1; lia. Qed.

Lemma junk_loop_no_tag f s t n :
  "<"%char ∉ s ->
  junk_loop (S f) s t n =
  Some (if n =? 0 then Some #"special-junk value must contain at least one supported tag"
        else None).
Proof. intros H. simpl. by rewrite (proj2 (IndexByte_None _ _) H). Qed.

Lemma junk_loop_open f pre tl t n :
  "<"%char ∉ pre -> ">"%char ∉ tl ->
  junk_loop (S f) (pre ++ "<"%char :: tl) t n
  = Some (Some #"special-junk tag is missing closing '>'").
Proof.
  intros H1 H2. simpl. rewrite IndexByte_app by done. rewrite drop_app_length.
  by rewrite (proj2 (IndexByte_None _ _)) by set_solver.
Qed.

Lemma junk_loop_tag f pre body rest t n :
  "<"%char ∉ pre -> ">"%char ∉ body ->
  junk_loop (S f) (pre ++ "<"%char :: body ++ ">"%char :: rest) t n =
  match junk_tag (Fields body) with
  | Err msg => Some (Some msg)
  | Ok k => if JunkSizeMax <? t + k
            then Some (Some (#"special-junk fixed output must be <= "
                             ++ FormatInt JunkSizeMax ++ #" bytes"))
            else junk_loop f rest (t + k) (n + 1)
  end.
Proof.
  intros H1 H2. cbn [junk_loop]. rewrite IndexByte_app by done. rewrite drop_app_length.
  change ("<"%char :: body ++ ">"%char :: rest) with (("<"%char :: body) ++ ">"%char :: rest).
  rewrite IndexByte_app by set_solver.
  replace (take _ _) with (pre ++ "<"%char :: body).
  2: { rewrite take_app_ge by lia. f_equal.
       replace (length pre + length ("<"%char :: body) - length pre)%nat
         with (length ("<"%char :: body)) by lia. by rewrite take_app_length. }
  replace (drop (S (length pre + _)) _) with rest.
  2: { rewrite drop_app_ge by lia.
       rewrite drop_app_ge by (simpl; lia).
       by replace (_ - _ - _)%nat with 1%nat by (simpl; lia). }
  replace (drop (S (length pre)) _) with body; [done|].
  rewrite drop_app_ge by lia. by replace (S (length pre) - length pre)%nat with 1%nat by lia.
Qed.

Lemma junk_text_no_tag s tags : "<"%char ∉ s -> junk_text s tags -> tags = [].
Proof. destruct 2; [done|set_solver]. Qed.

Lemma junk_text_tag_inv pre tl tags :
  "<"%char ∉ pre -> junk_text (pre ++ "<"%char :: tl) tags ->
  exists body rest tags', tl = (body ++ ">"%char :: rest) /\ (">"%char ∉ body)
    /\ tags = (Fields body :: tags') /\ junk_text rest tags'.
Proof.
  intros Hp H. inversion H as [s Hs E|pre' body rest tags' H1 H2 H3 E]; subst.
  - set_solver.
  - apply first_sep_inj in E as [-> <-]; [|done..]. eauto 10.
Qed.

(** The junk texts that may follow a prefix of [n] tags and [t] fixed bytes. *)
Definition junk_rest (s : bytes) (t n : Z) : Prop :=
  exists tags sizes, junk_text s tags /\ Forall2 tag_size tags sizes
                     /\ t + sumZ sizes <= JunkSizeMax /\ (tags = [] -> n <> 0).

Lemma junk_rest_tag pre body rest t n k :
  "<"%char ∉ pre -> ">"%char ∉ body -> tag_size (Fields body) k -> 0 <= n ->
  (junk_rest (pre ++ "<"%char :: body ++ ">"%char :: rest) t n
   <-> junk_rest rest (t + k) (n + 1)).
Proof.
  intros Hp Hb Hk Hn. split.
  - intros (tags & sizes & Ht & Hs & Hle & _).
    apply junk_text_tag_inv in Ht as (body' & rest' & tags' & E & Hb' & -> & Ht'); [|done].
    apply first_sep_inj in E as [<- <-]; [|done..].
    inversion Hs as [|? k' ? sizes' Hk' Hs']; subst. simpl in Hle.
    assert (k' = k) as -> by (apply junk_tag_spec in Hk', Hk; congruence).
    exists tags', sizes'. split_and!; [done..|lia|lia].
  - intros (tags & sizes & Ht & Hs & Hle & _). exists (Fields body :: tags), (k :: sizes).
    split_and!; [by constructor|by constructor|simpl; lia|done].
Qed.

Lemma sumZ_nonneg l : Forall (fun x => 0 <= x) l -> 0 <= sumZ l.
Proof. induction 1; simpl; lia. Qed.

Lemma junk_rest_bound s t n : junk_rest s t n -> t <= JunkSizeMax.
Proof.
  intros (tags & sizes & _ & Hs & Hle & _).
  assert (0 <= sumZ sizes); [|lia]. apply sumZ_nonneg.
  apply Forall_forall. intros x Hx. apply list_elem_of_lookup in Hx as [i Hi].
  destruct (Forall2_lookup_r _ _ _ _ _ Hs Hi) as (f & _ & Hf). by eapply tag_size_nonneg.
Qed.

(** The loop ends within as many rounds as there are bytes, and accepts exactly
    the grammar. *)
Lemma junk_loop_spec fuel s t n :
  (length s < fuel)%nat -> 0 <= n -> t <= JunkSizeMax ->
  exists r, junk_loop fuel s t n = Some r /\ (r = None <-> junk_rest s t n).
Proof.
  revert s t n. induction fuel as [|fuel IH]; intros s t n Hf Hn Ht; [lia|].
  destruct (first_sep_cases s "<") as [Hs|(pre & tl & -> & Hp)].
  { rewrite junk_loop_no_tag by done. eexists; split; [done|].
    destruct (Z.eqb_spec n 0) as [->|Hne]; split; try done.
    - intros (tags & sizes & Hj & _ & _ & H). by destruct (H (junk_text_no_tag _ _ Hs Hj)).
    - intros _. exists [], []. split_and!; [by constructor|constructor|simpl; lia|done]. }
  destruct (first_sep_cases tl ">") as [Hc|(body & rest & -> & Hb)].
  { rewrite junk_loop_open by done. eexists; split; [done|]. split; [done|].
    intros (tags & sizes & Hj & _).
    apply junk_text_tag_inv in Hj as (body & rest & tags' & -> & _); [set_solver|done]. }
  rewrite junk_loop_tag by done. destruct (junk_tag (Fields body)) as [k|msg] eqn:Hk.
  - apply junk_tag_spec in Hk as Hk'.
    setoid_rewrite (junk_rest_tag pre body rest t n k); [|done..].
    destruct (Z.ltb_spec JunkSizeMax (t + k)) as [Hbig|Hok].
    + eexists; split; [done|]. split; [done|]. intros H%junk_rest_bound. lia.
    + apply IH; [rewrite length_app in Hf; simpl in Hf; rewrite length_app in Hf; simpl in Hf; lia|lia|done].
  - eexists; split; [done|]. split; [done|]. intros (tags & sizes & Hj & Hs & _).
    apply junk_text_tag_inv in Hj as (body' & rest' & tags' & E & Hb' & -> & _); [|done].
    apply first_sep_inj in E as [<- <-]; [|done..].
    inversion Hs as [|? k ? ? Hk' _]; subst. apply junk_tag_spec in Hk'. congruence.
Qed.

Lemma junk_ok_rest s : junk_ok s <-> junk_rest s 0 0.
Proof.
  split.
  - intros (tags & sizes & ? & ? & ? & ?). exists tags, sizes. split_and!; try done.
  - intros (tags & sizes & ? & ? & ? & Hn). exists tags, sizes. split_and!; try done.
    intros E. by apply Hn in E.
Qed.

Lemma junk_loop_total s : is_Some (junk_loop (S (length s)) s 0 0).
Proof.
  destruct (junk_loop_spec (S (length s)) s 0 0) as (r & -> & _); [lia|done|done|]. done.
Qed.

Lemma validateSpecialJunk_spec s : validateSpecialJunk s = None <-> junk_ok s.
Proof.
  rewrite junk_ok_rest. unfold validateSpecialJunk.
  destruct (junk_loop_spec (S (length s)) s 0 0) as (r & -> & Hr); [lia|done|done|]. done.
Qed.

(** C37: the hand-written scanner of special-junk texts terminates on every
    input and accepts exactly the grammar of tags whose fixed output fits the
    largest junk packet: at least one tag, every tag known and with the right
    arguments, and sizes that sum up to at most 1280 bytes. *)
Theorem validateSpecialJunk_grammar s :
  is_Some (junk_loop (S (length s)) s 0 0)
  /\ (validateSpecialJunk s = None <-> junk_ok s).
Proof. split; [apply junk_loop_total|apply validateSpecialJunk_spec]. Qed.

(** ** Validate against the protocol matrix *)

Lemma when_nil b e : when b e = [] <-> b = false.
Proof. by destruct b. Qed.

Lemma checkInt_nil f v lo hi : checkInt f v lo hi = [] <-> lo <= v <= hi.
Proof. unfold checkInt. rewrite when_nil. lia. Qed.

Lemma checkJunk_nil name v : checkJunk name v = [] <-> junk_field_ok v.
Proof.
  unfold checkJunk, junk_field_ok. rewrite <- validateSpecialJunk_spec.
  destruct (Z.ltb_spec AWGStringMax (Z.of_nat (length v))); [split; [done|lia]|].
  case_bool_decide as Hv; simpl; [tauto|].
  destruct (validateSpecialJunk v); naive_solver.
Qed.

Lemma checkHeader_nil version name r :
  checkHeader version name r = [] <->
  (0 <= ir_Min r <= ir_Max r /\ ir_Max r < 2 ^ 32)
  /\ (version = ProtocolV1 -> ir_Min r = ir_Max r).
Proof.
  unfold checkHeader. rewrite !app_nil, !when_nil.
  case_bool_decide; simpl; [|naive_solver lia].
  destruct (Z.eqb_spec (ir_Min r) (ir_Max r)); naive_solver lia.
Qed.

Lemma checkPadding_nil name v : checkPadding name v = [] <-> 12 <= v.
Proof. unfold checkPadding. rewrite when_nil. lia. Qed.

Lemma checkU16_nil name r : checkU16 name r = [] <-> u16_Min r <= u16_Max r.
Proof. unfold checkU16, Uint16Range_valid. rewrite when_nil. lia. Qed.

Lemma validBase64Key_spec s :
  validBase64Key s = true <->
  exists key, b64_DecodeString (TrimSpace s) = Some key /\ length key = 32%nat.
Proof.
  unfold validBase64Key. case_bool_decide as Hs.
  - rewrite Hs. split; [done|]. by intros (key & [= <-] & ?).
  - destruct (b64_DecodeString (TrimSpace s)) as [key|]; [|naive_solver].
    rewrite bool_decide_eq_true. naive_solver.
Qed.

(** For non-empty ranges the overlap test is the existence of a common value. *)
Lemma rangesOverlap_false a b :
  ir_Min a <= ir_Max a -> ir_Min b <= ir_Max b ->
  (rangesOverlap a b = false <-> forall x, ~ (in_range x a /\ in_range x b)).
Proof.
  intros Ha Hb. unfold rangesOverlap, in_range. split.
  - intros. lia.
  - intros H. pose proof (H (Z.max (ir_Min a) (ir_Min b))). lia.
Qed.

Lemma isRange_false r : isRange r = false <-> ir_Min r = ir_Max r.
Proof. unfold isRange. lia. Qed.

Lemma orb_false_and a b : a || b = false <-> a = false /\ b = false.
Proof. apply orb_false_iff. Qed.

(** The six overlap tests are pairwise disjointness of the four ranges. *)
Lemma headers_disjoint h1 h2 h3 h4 :
  Forall (fun r => ir_Min r <= ir_Max r) [h1; h2; h3; h4] ->
  (rangesOverlap h1 h2 || rangesOverlap h1 h3 || rangesOverlap h1 h4
   || rangesOverlap h2 h3 || rangesOverlap h2 h4 || rangesOverlap h3 h4 = false
   <-> forall i j a b, [h1; h2; h3; h4] !! i = Some a -> [h1; h2; h3; h4] !! j = Some b ->
       i <> j -> forall x, ~ (in_range x a /\ in_range x b)).
Proof.
  rewrite !Forall_cons. intros (H1 & H2 & H3 & H4 & _).
  rewrite !orb_false_and, !rangesOverlap_false by done. split.
  - intros (((((H12 & H13) & H14) & H23) & H24) & H34) i j a b Ha Hb Hij x [Hxa Hxb].
    destruct i as [|[|[|[|i]]]], j as [|[|[|[|j]]]]; simplify_eq/=;
      match goal with
      | H : forall x, ~ (in_range x ?r /\ in_range x ?s), A : in_range ?x ?r, B : in_range ?x ?s |- _ =>
          exact (H x (conj A B))
      end.
  - intros H. split_and!;
      [apply (H 0 1)%nat|apply (H 0 2)%nat|apply (H 0 3)%nat
      |apply (H 1 2)%nat|apply (H 1 3)%nat|apply (H 2 3)%nat]; done.
Qed.

Lemma SupportsV2Fields_V1 p :
  SupportsV2Fields p = true -> pp_ProtocolVersion p <> ProtocolV1.
Proof. unfold SupportsV2Fields. intros H E. rewrite E in H. done. Qed.

(** The junk-size part of Validate. *)
Lemma junk_sizes_nil p :
  0 <= pp_Jc p ->
  ((if (pp_Jmin p =? 0) && (pp_Jmax p =? 0)
    then when (0 <? pp_Jc p) (mkVE #"jmin" #"required" #"jmin/jmax are required when jc > 0")
    else checkInt #"jmin" (pp_Jmin p) JunkSizeMin JunkSizeMax
         ++ checkInt #"jmax" (pp_Jmax p) JunkSizeMin JunkSizeMax) = []
   /\ (pp_Jmax p <? pp_Jmin p) = false
   <-> (pp_Jmin p = 0 /\ pp_Jmax p = 0 /\ pp_Jc p = 0)
       \/ 1 <= pp_Jmin p <= pp_Jmax p /\ pp_Jmax p <= JunkSizeMax).
Proof.
  intros Hjc. unfold JunkSizeMin, JunkSizeMax.
  destruct ((pp_Jmin p =? 0) && (pp_Jmax p =? 0)) eqn:E; bool_to_prop.
  - rewrite when_nil. lia.
  - rewrite app_nil, !checkInt_nil. lia.
Qed.

(** The fields that depend on V2 support. *)
Lemma v2_fields_nil p :
  (if SupportsV2Fields p then
     checkInt #"s3" (pp_S3 p) 0 S3Max
     ++ checkInt #"s4" (pp_S4 p) 0 S4Max
     ++ checkJunk #"i1" (pp_I1 p) ++ checkJunk #"i2" (pp_I2 p)
     ++ checkJunk #"i3" (pp_I3 p) ++ checkJunk #"i4" (pp_I4 p)
     ++ checkJunk #"i5" (pp_I5 p)
   else
     when (negb (pp_S3 p =? 0) || negb (pp_S4 p =? 0))
       (mkVE #"s3" #"unsupported" #"S3/S4 require v2 or v3.1")
     ++ when (negb (bool_decide (pp_I1 p = [])) || negb (bool_decide (pp_I2 p = []))
              || negb (bool_decide (pp_I3 p = [])) || negb (bool_decide (pp_I4 p = []))
              || negb (bool_decide (pp_I5 p = [])))
          (mkVE #"i1" #"unsupported" #"I1-I5 require v2 or v3.1")) = []
  <-> (SupportsV2Fields p = true ->
       0 <= pp_S3 p <= S3Max /\ 0 <= pp_S4 p <= S4Max
       /\ Forall junk_field_ok [pp_I1 p; pp_I2 p; pp_I3 p; pp_I4 p; pp_I5 p])
      /\ (SupportsV2Fields p = false ->
          pp_S3 p = 0 /\ pp_S4 p = 0
          /\ Forall (fun i => i = []) [pp_I1 p; pp_I2 p; pp_I3 p; pp_I4 p; pp_I5 p]).
Proof.
  rewrite !Forall_cons, !Forall_nil.
  destruct (SupportsV2Fields p).
  - rewrite !app_nil, !checkInt_nil, !checkJunk_nil.
    split; [intros H; split; [intros _; tauto|done]|intros [H _]; specialize (H eq_refl); tauto].
  - rewrite !app_nil, !when_nil, !orb_false_and, !negb_false_iff, !bool_decide_eq_true, !Z.eqb_eq.
    split; [intros H; split; [done|intros _; tauto]|intros [_ H]; specialize (H eq_refl); tauto].
Qed.

(** The V3.1 gate. *)
Lemma v31_fields_nil p :
  (if IsV31 p then
     when (negb (validBase64Key (pp_HeaderProtectionKey p)))
       (mkVE #"header_protection_key" #"invalid"
          #"must be a base64-encoded 32-byte key for v3.1")
     ++ checkPadding #"s1" (pp_S1 p) ++ checkPadding #"s2" (pp_S2 p)
     ++ checkPadding #"s3" (pp_S3 p) ++ checkPadding #"s4" (pp_S4 p)
     ++ checkU16 #"content_padding_addition" (pp_ContentPaddingAddition p)
     ++ checkU16 #"rekey_after_time" (pp_RekeyAfterTime p)
     ++ checkU16 #"rekey_timeout" (pp_RekeyTimeout p)
     ++ checkU16 #"reject_after_time" (pp_RejectAfterTime p)
     ++ checkU16 #"keepalive_timeout" (pp_KeepaliveTimeout p)
     ++ checkU16 #"max_handshake_attempts" (pp_MaxHandshakeAttempts p)
     ++ checkU16 #"persistent_keepalive" (pp_PersistentKeepalive p)
     ++ when (pp_RandomTrailers p
              && (isRange (pp_H1 p) || isRange (pp_H2 p) || isRange (pp_H3 p)))
          (mkVE #"random_trailers" #"unsafe_header_range"
             #"RandomTrailers with ranged H1-H3 is disabled until upstream packet classification is verified safe")
   else
     when (hasV31OnlyValues p)
       (mkVE #"header_protection_key" #"unsupported"
          #"V3.1 parameters require protocol_version 'v3.1'")) = []
  <-> (IsV31 p = true ->
       (exists key, b64_DecodeString (TrimSpace (pp_HeaderProtectionKey p)) = Some key
                    /\ length key = 32%nat)
       /\ Forall (fun s => 12 <= s) [pp_S1 p; pp_S2 p; pp_S3 p; pp_S4 p]
       /\ Forall (fun r => u16_Min r <= u16_Max r)
            [pp_ContentPaddingAddition p; pp_RekeyAfterTime p; pp_RekeyTimeout p;
             pp_RejectAfterTime p; pp_KeepaliveTimeout p; pp_MaxHandshakeAttempts p;
             pp_PersistentKeepalive p]
       /\ (pp_RandomTrailers p = true ->
           Forall (fun r => ir_Min r = ir_Max r) [pp_H1 p; pp_H2 p; pp_H3 p]))
      /\ (IsV31 p = false -> hasV31OnlyValues p = false).
Proof.
  rewrite !Forall_cons, !Forall_nil. rewrite <- validBase64Key_spec.
  destruct (IsV31 p).
  - rewrite !app_nil, !when_nil, !checkPadding_nil, !checkU16_nil, negb_false_iff.
    destruct (pp_RandomTrailers p); simpl; rewrite ?orb_false_and, ?isRange_false;
      (split; [intros H; split; [intros _; split_and!; try done; tauto|done]
              |intros [H _]; specialize (H eq_refl); tauto]).
  - rewrite when_nil. split; [done|tauto].
Qed.

(** A validated profile of an older version has no V3.1 value set. *)
Lemma Validate_legacy p : Validate p = [] -> IsV31 p = false -> hasV31OnlyValues p = false.
Proof.
  unfold Validate. rewrite app_nil. intros [_ H] Hv. destruct (negb _) in H; [done|].
  rewrite Hv, !app_nil, !when_nil in H. tauto.
Qed.

(** A validated profile has one of the versions, and its V3.1 values are complete. *)
Lemma Validate_v31 p :
  Validate p = [] ->
  pp_ProtocolVersion p ∈ [ProtocolV1; ProtocolV2; ProtocolV31]
  /\ (IsV31 p = true ->
      pp_HeaderProtectionKey p <> []
      /\ Forall (fun r => u16_Min r <= u16_Max r)
           [pp_ContentPaddingAddition p; pp_RekeyAfterTime p; pp_RekeyTimeout p;
            pp_RejectAfterTime p; pp_KeepaliveTimeout p; pp_MaxHandshakeAttempts p;
            pp_PersistentKeepalive p]).
Proof.
  unfold Validate. rewrite app_nil. intros [_ H]. case_bool_decide as Hv; [|done]. split; [done|]. intros E.
  cbn [negb] in H. rewrite !app_nil, v31_fields_nil in H. destruct_and! H.
  match goal with H : IsV31 p = true -> _ |- _ => destruct (H E) as ((key & Hk & Hl) & _ & Hr & _) end. split; [|done].
  intros Hn. rewrite Hn in Hk. vm_compute in Hk. by injection Hk as <-.
Qed.

(** C36: Validate accepts a profile, reporting no field error at all, exactly
    when the profile obeys the protocol matrix: the size limits of its version,
    junk texts of the grammar, header ranges that fit uint32 and share no
    value, and for V3.1 a 32-byte header key, the padding minimum, ordered
    timing ranges and no random trailers over ranged headers. *)
Theorem Validate_spec p : Validate p = [] <-> valid_profile p.
Proof.
  unfold Validate. rewrite app_nil, when_nil, bool_decide_eq_false.
  case_bool_decide as Hv; simpl negb; cbv iota;
    [|split; [by intros [_ ?]|by intros []]].
  rewrite !app_nil, when_nil, v2_fields_nil, v31_fields_nil, !checkHeader_nil, !checkInt_nil,
    !when_nil, negb_false_iff, bool_decide_eq_true.
  split.
  - intros (Hn & Hjc & Hj1 & Hj2 & Hs1 & Hs2 & [Hv2 Hv1] & [H1 O1] & [H2 O2] & [H3 O3]
            & [H4 O4] & Hd & [Hv31 Hn31] & Hp).
    rewrite headers_disjoint in Hd by (rewrite !Forall_cons, Forall_nil; split_and!; lia || done).
    constructor; try done; [by apply junk_sizes_nil; [lia|]| |];
      rewrite !Forall_cons, Forall_nil; auto 10.
  - intros [Hn _ Hjc Hj Hs Hv2 Hv1 Hh Ho Hd Hv31 Hn31 Hp].
    apply (junk_sizes_nil p) in Hj as [Hj1 Hj2]; [|lia].
    rewrite headers_disjoint by (eapply Forall_impl; [exact Hh|simpl; lia]).
    rewrite !Forall_cons in Hh, Ho. destruct Hs, Hh as (? & ? & ? & ? & _).
    split_and!; try done; try lia; intros E; by destruct (Ho E) as (? & ? & ? & ? & _).
Qed.
