(* ===== verification/Netip.v ===== *)
(** * Netip: the part of Go's [net/netip] the control plane computes with

    Addresses keep their numeric value as an integer of their width; an IPv6
    address carries its zone.  A [Prefix] is an address with a bit count, -1
    when the prefix is invalid. *)

From S2P Require Import Prelude GoStrings Strconv.

(** ** Addresses *)

Inductive Addr : Type :=
| AInvalid
| A4 (z : Z)
| A6 (z : Z) (zone : bytes).

#[export] Instance Addr_eq_dec : EqDecision Addr.
Proof. solve_decision. Defined.

Definition Addr_IsValid (a : Addr) : bool := match a with AInvalid => false | _ => true end.
Definition Is4 (a : Addr) : bool := match a with A4 _ => true | _ => false end.

Definition BitLen (a : Addr) : Z :=
  match a with AInvalid => 0 | A4 _ => 32 | A6 _ _ => 128 end.

Definition addr_num (a : Addr) : Z :=
  match a with AInvalid => 0 | A4 z => z | A6 z _ => z end.

Definition addr_zone (a : Addr) : bytes := match a with A6 _ zn => zn | _ => [] end.

(** The address with the same family (and zone) and another value. *)
Definition with_num (a : Addr) (z : Z) : Addr :=
  match a with AInvalid => AInvalid | A4 _ => A4 z | A6 _ zn => A6 z zn end.

(** [Next] and [Prev] return the zero [Addr] when they leave the family. *)
Definition Next (a : Addr) : Addr :=
  if addr_num a + 1 <? 2 ^ BitLen a then with_num a (addr_num a + 1) else AInvalid.
Definition Prev (a : Addr) : Addr :=
  if addr_num a =? 0 then AInvalid else with_num a (addr_num a - 1).

Definition cmpZ (x y : Z) : Z := if x <? y then -1 else if y <? x then 1 else 0.

(** [Compare] orders by bit length, then by value, then by zone. *)
Definition Compare (a b : Addr) : Z :=
  if negb (BitLen a =? BitLen b) then cmpZ (BitLen a) (BitLen b)
  else if negb (addr_num a =? addr_num b) then cmpZ (addr_num a) (addr_num b)
  else if bytes_ltb (addr_zone a) (addr_zone b) then -1
  else if bytes_ltb (addr_zone b) (addr_zone a) then 1 else 0.

(** *** The sixteen-byte form *)

(** The [n] big-endian bytes of [z]. *)
Fixpoint be_bytes (n : nat) (z : Z) : list Z :=
  match n with
  | O => []
  | S n => be_bytes n (z / 256) ++ [z mod 256]
  end.

Definition of_be (l : list Z) : Z := fold_left (fun acc b => acc * 256 + b) l 0.

(** An IPv4 address is carried as [::ffff:a.b.c.d]. *)
Definition v4_mapped : Z := 0xffff * 2 ^ 32.

Definition As16 (a : Addr) : list Z :=
  match a with
  | AInvalid => be_bytes 16 0
  | A4 z => be_bytes 16 (v4_mapped + z)
  | A6 z _ => be_bytes 16 z
  end.

Definition AddrFrom16 (l : list Z) : Addr := A6 (of_be l) [].

Definition Unmap (a : Addr) : Addr :=
  match a with
  | A6 z _ => if Z.shiftr z 32 =? 0xffff then A4 (z mod 2 ^ 32) else a
  | _ => a
  end.

(** ** Prefixes *)

Record Prefix : Type := mkPrefix { pf_addr : Addr; pf_bits : Z }.

#[export] Instance Prefix_eq_dec : EqDecision Prefix.
Proof. solve_decision. Defined.

Definition WithoutZone (a : Addr) : Addr := match a with A6 z _ => A6 z [] | _ => a end.

Definition PrefixFrom (a : Addr) (bits : Z) : Prefix :=
  if Addr_IsValid a && (0 <=? bits) && (bits <=? BitLen a)
  then mkPrefix (WithoutZone a) bits
  else mkPrefix (WithoutZone a) (-1).

Definition Prefix_IsValid (p : Prefix) : bool := 0 <=? pf_bits p.

Definition host_bits (p : Prefix) : Z := BitLen (pf_addr p) - pf_bits p.

Definition Masked (p : Prefix) : Prefix :=
  if Prefix_IsValid p
  then mkPrefix (with_num (pf_addr p)
                   (Z.shiftl (Z.shiftr (addr_num (pf_addr p)) (host_bits p)) (host_bits p)))
                (pf_bits p)
  else mkPrefix AInvalid (-1).

Definition Prefix_Contains (p : Prefix) (a : Addr) : bool :=
  Prefix_IsValid p && bool_decide (addr_zone a = [])
  && negb (BitLen a =? 0) && (BitLen (pf_addr p) =? BitLen a)
  && (Z.shiftr (Z.lxor (addr_num a) (addr_num (pf_addr p))) (host_bits p) =? 0).

(** ** Text *)

Definition hex_char (d : Z) : ascii :=
  if d <? 10 then digit_byte d else ascii_of_N (Z.to_N (87 + d)).

(** A 16-bit group in hexadecimal without leading zeros. *)
Definition appendHex (x : Z) : bytes :=
  (if 0x1000 <=? x then [hex_char (x / 0x1000 mod 16)] else [])
  ++ (if 0x100 <=? x then [hex_char (x / 0x100 mod 16)] else [])
  ++ (if 0x10 <=? x then [hex_char (x / 0x10 mod 16)] else [])
  ++ [hex_char (x mod 16)].

Definition v6u16 (z : Z) (i : nat) : Z := z / 2 ^ (16 * (7 - Z.of_nat i)) mod 2 ^ 16.

(** The end of the run of zero groups that starts at [i]. *)
Fixpoint zero_end (fuel : nat) (z : Z) (j : nat) : nat :=
  match fuel with
  | O => j
  | S fuel => if (j <? 8)%nat && (v6u16 z j =? 0) then zero_end fuel z (S j) else j
  end.

(** The first longest run of two or more zero groups; (255, 255) if none. *)
Definition zero_run (z : Z) : nat * nat :=
  fold_left (fun se i => let j := zero_end 8 z i in
                         if (2 <=? j - i)%nat && (snd se - fst se <? j - i)%nat then (i, j) else se)
    (seq 0 8) (255, 255)%nat.

Fixpoint emit6 (fuel i : nat) (z : Z) (run : nat * nat) : bytes :=
  match fuel with
  | O => []
  | S fuel =>
      if (i <? 8)%nat then
        if (i =? fst run)%nat then
          #"::" ++ (if (8 <=? snd run)%nat then [] else
                    appendHex (v6u16 z (snd run)) ++ emit6 fuel (S (snd run)) z run)
        else (if (0 <? i)%nat then #":" else []) ++ appendHex (v6u16 z i) ++ emit6 fuel (S i) z run
      else []
  end.

Definition string4 (z : Z) : bytes :=
  FormatInt (z / 2 ^ 24 mod 256) ++ #"." ++ FormatInt (z / 2 ^ 16 mod 256) ++ #"."
  ++ FormatInt (z / 2 ^ 8 mod 256) ++ #"." ++ FormatInt (z mod 256).

(** func (ip Addr) String() *)
Definition Addr_String (a : Addr) : bytes :=
  match a with
  | AInvalid => #"invalid IP"
  | A4 z => string4 z
  | A6 z zn =>
      (if Z.shiftr z 32 =? 0xffff then #"::ffff:" ++ string4 (z mod 2 ^ 32) else emit6 8 0 z (zero_run z))
      ++ (if bool_decide (zn = []) then [] else #"%" ++ zn)
  end.

(** func (p Prefix) String() *)
Definition Prefix_String (p : Prefix) : bytes :=
  if Prefix_IsValid p then Addr_String (pf_addr p) ++ #"/" ++ FormatInt (pf_bits p)
  else #"invalid Prefix".

(** ** Well-formedness *)

(** A value [net/netip] can hold. *)
Definition addr_ok (a : Addr) : Prop := 0 <= addr_num a < 2 ^ BitLen a.

(** A valid prefix, as [PrefixFrom] and the parsers build them. *)
Definition prefix_ok (p : Prefix) : Prop :=
  addr_ok (pf_addr p) /\ Addr_IsValid (pf_addr p) = true /\ addr_zone (pf_addr p) = []
  /\ 0 <= pf_bits p <= BitLen (pf_addr p).

#[export] Instance prefix_ok_dec p : Decision (prefix_ok p).
Proof. unfold prefix_ok, addr_ok. apply _. Defined.

(** ** Lemmas *)

Lemma PrefixFrom_ok a bits :
  addr_ok a -> Prefix_IsValid (PrefixFrom a bits) = true -> prefix_ok (PrefixFrom a bits).
Proof.
  unfold PrefixFrom, prefix_ok, addr_ok. intros Ha.
  destruct (Addr_IsValid a && _ && _) eqn:E; [|done]. intros _. bool_to_prop.
  by destruct a.
Qed.

Lemma cmpZ_le x y : (cmpZ x y <= 0) <-> x <= y.
Proof. unfold cmpZ. case_match; [|case_match]; bool_to_prop; lia. Qed.

Lemma cmpZ_ge x y : (cmpZ x y >= 0) <-> y <= x.
Proof. unfold cmpZ. case_match; [|case_match]; bool_to_prop; lia. Qed.

(** Within one family and without zones, [Compare] is the order of the values. *)
Lemma Compare_num a x y :
  Addr_IsValid a = true -> addr_zone a = [] ->
  Compare (with_num a x) (with_num a y) = cmpZ x y.
Proof.
  intros Hv Hz. unfold Compare, cmpZ. destruct a; simpl in *; try done; subst; simpl;
    (destruct (x =? y) eqn:E; simpl; [|done]); bool_to_prop; subst; by rewrite Z.ltb_irrefl.
Qed.

Lemma with_num_id a : with_num a (addr_num a) = a.
Proof. by destruct a. Qed.

Lemma addr_num_with a x : Addr_IsValid a = true -> addr_num (with_num a x) = x.
Proof. by destruct a. Qed.

Lemma BitLen_with a x : BitLen (with_num a x) = BitLen a.
Proof. by destruct a. Qed.

Lemma zone_with a x : addr_zone (with_num a x) = addr_zone a.
Proof. by destruct a. Qed.

Lemma with_with a x y : with_num (with_num a x) y = with_num a y.
Proof. by destruct a. Qed.

Lemma BitLen_pos a : Addr_IsValid a = true -> 0 < BitLen a.
Proof. by destruct a. Qed.

(** Two addresses of one family and zone differ by their value only. *)
Lemma same_family a b :
  BitLen a = BitLen b -> addr_zone a = addr_zone b -> with_num a (addr_num b) = b.
Proof. by destruct a, b; simpl; intros; subst. Qed.

Lemma shiftr_lxor_0 x y h :
  0 <= h -> Z.shiftr (Z.lxor x y) h = 0 <-> Z.shiftr x h = Z.shiftr y h.
Proof. intros Hh. rewrite Z.shiftr_lxor. apply Z.lxor_eq_0_iff. Qed.

(** A prefix contains exactly the zone-free addresses of its family whose value
    lies in the aligned block of [2^host_bits] around its address. *)
Lemma Prefix_Contains_num p x :
  prefix_ok p ->
  Prefix_Contains p (with_num (pf_addr p) x) = true <->
  x / 2 ^ host_bits p = addr_num (pf_addr p) / 2 ^ host_bits p.
Proof.
  intros (Ha & Hv & Hz & Hb). unfold Prefix_Contains, Prefix_IsValid.
  assert (0 <= host_bits p) by (unfold host_bits; lia).
  rewrite BitLen_with, zone_with, Z.eqb_refl, addr_num_with, !andb_true_iff by done.
  rewrite bool_decide_eq_true, Z.leb_le, negb_true_iff, Z.eqb_neq, Z.eqb_eq.
  rewrite shiftr_lxor_0 by done. rewrite !Z.shiftr_div_pow2 by done.
  pose proof (BitLen_pos _ Hv). intuition lia.
Qed.

Lemma Prefix_Contains_family p a :
  Prefix_Contains p a = true ->
  BitLen (pf_addr p) = BitLen a /\ addr_zone a = [] /\ Addr_IsValid a = true.
Proof.
  unfold Prefix_Contains. intros. bool_to_prop. split_and!; [done..|]. by destruct a.
Qed.

(** *** Big-endian bytes *)

Lemma be_bytes_length n z : length (be_bytes n z) = n.
Proof. revert z. induction n as [|n IH]; intros z; simpl; [done|]. rewrite length_app, IH. simpl. lia. Qed.

Lemma of_be_snoc l b : of_be (l ++ [b]) = of_be l * 256 + b.
Proof. unfold of_be. by rewrite fold_left_app. Qed.

Lemma of_be_bytes n z : 0 <= z < 256 ^ Z.of_nat n -> of_be (be_bytes n z) = z.
Proof.
  revert z. induction n as [|n IH]; intros z Hz.
  - simpl in *. unfold of_be. simpl. lia.
  - simpl. rewrite of_be_snoc, IH.
    + pose proof (Z.div_mod z 256). lia.
    + rewrite Nat2Z.inj_succ, Z.pow_succ_r in Hz by lia.
      split; [apply Z.div_pos; lia|]. apply Z.div_lt_upper_bound; lia.
Qed.

Lemma be_bytes_range n z : Forall (fun b => 0 <= b < 256) (be_bytes n z).
Proof.
  revert z. induction n as [|n IH]; intros z; simpl; [constructor|].
  apply Forall_app. split; [apply IH|]. constructor; [|constructor]. apply Z.mod_pos_bound. lia.
Qed.

(** *** Printed addresses *)

(** The bytes of a printed address or prefix. *)
Definition ip_byte (c : ascii) : bool :=
  let c := code c in
  ((48 <=? c) && (c <=? 57)) || ((97 <=? c) && (c <=? 102)) || (c =? 46) || (c =? 58) || (c =? 47).

Lemma ip_byte_digits s : Forall (fun c => 48 <= code c <= 57) s -> Forall (fun c => ip_byte c = true) s.
Proof.
  intros H. eapply Forall_impl; [exact H|]. intros c Hc. cbv beta in Hc. unfold ip_byte. cbv zeta.
  rewrite (proj2 (Z.leb_le 48 _)), (proj2 (Z.leb_le _ 57)) by lia. done.
Qed.

Lemma ip_byte_FormatInt n : 0 <= n -> Forall (fun c => ip_byte c = true) (FormatInt n).
Proof.
  intros Hn. unfold FormatInt. rewrite (proj2 (Z.ltb_ge _ _)) by lia.
  apply ip_byte_digits. by apply format_udec_spec.
Qed.

Lemma ip_byte_hex d : 0 <= d < 16 -> ip_byte (hex_char d) = true.
Proof.
  intros Hd. unfold hex_char. destruct (d <? 10) eqn:E; bool_to_prop; unfold ip_byte; cbv zeta.
  - rewrite code_digit_byte by lia. rewrite (proj2 (Z.leb_le 48 _)), (proj2 (Z.leb_le _ 57)) by lia. done.
  - unfold code. rewrite N_ascii_embedding by lia. rewrite Z2N.id by lia.
    rewrite (proj2 (Z.leb_le 97 _)), (proj2 (Z.leb_le _ 102)) by lia. rewrite orb_true_r. done.
Qed.

Lemma ip_byte_appendHex x : Forall (fun c => ip_byte c = true) (appendHex x).
Proof.
  assert (H : forall y, ip_byte (hex_char (y mod 16)) = true) by (intros; apply ip_byte_hex, Z.mod_pos_bound; lia).
  unfold appendHex. repeat (apply Forall_app; split); repeat case_match; repeat constructor; apply H.
Qed.

Lemma ip_byte_emit6 fuel i z run : Forall (fun c => ip_byte c = true) (emit6 fuel i z run).
Proof.
  revert i. induction fuel as [|fuel IH]; intros i; cbn [emit6]; [constructor|].
  case_match; [|constructor]. case_match; apply Forall_app; (split; [repeat case_match; by repeat constructor|]).
  - case_match; [constructor|]. apply Forall_app. split; [apply ip_byte_appendHex|apply IH].
  - apply Forall_app. split; [apply ip_byte_appendHex|apply IH].
Qed.

Lemma ip_byte_string4 z : Forall (fun c => ip_byte c = true) (string4 z).
Proof.
  unfold string4. repeat (apply Forall_app; split); try (apply ip_byte_FormatInt, Z.mod_pos_bound; lia);
    by repeat constructor.
Qed.

Lemma ip_byte_Addr a :
  Addr_IsValid a = true -> addr_zone a = [] -> Forall (fun c => ip_byte c = true) (Addr_String a).
Proof.
  destruct a as [|z|z zn]; cbn [Addr_IsValid addr_zone Addr_String]; intros Hv Hz; [done|apply ip_byte_string4|]. subst.
  rewrite bool_decide_eq_true_2, app_nil_r by done. case_match; [|apply ip_byte_emit6].
  apply Forall_app. split; [by repeat constructor|apply ip_byte_string4].
Qed.

Lemma ip_byte_solid c : ip_byte c = true -> solid_byte c /\ c <> nl /\ c <> ","%char.
Proof.
  unfold ip_byte, solid_byte. intros H.
  rewrite !orb_true_iff, !andb_true_iff, !Z.leb_le, !Z.eqb_eq in H.
  split; [lia|]. split; intros ->; revert H; eval_codes; lia.
Qed.

(** The text of a valid prefix is one item of a config list. *)
Lemma Prefix_String_item p :
  prefix_ok p -> solid (Prefix_String p) /\ (nl ∉ Prefix_String p) /\ (","%char ∉ Prefix_String p).
Proof.
  intros (_ & Hv & Hz & Hb). unfold Prefix_String, Prefix_IsValid. rewrite (proj2 (Z.leb_le _ _)) by lia.
  assert (Hall : Forall (fun c => ip_byte c = true) (Addr_String (pf_addr p) ++ #"/" ++ FormatInt (pf_bits p))).
  { repeat (apply Forall_app; split); [by apply ip_byte_Addr|by repeat constructor|apply ip_byte_FormatInt; lia]. }
  assert (Hne : Addr_String (pf_addr p) ++ #"/" ++ FormatInt (pf_bits p) <> []).
  { intros Hc. apply app_nil in Hc as [_ Hc]. by apply app_nil in Hc as [? _]. }
  split_and!.
  - apply solid_Forall; [done|]. eapply Forall_impl; [exact Hall|]. intros c Hc. by apply ip_byte_solid.
  - intros Hc. eapply Forall_forall in Hall; [|exact Hc]. by apply ip_byte_solid in Hall as (_ & ? & _).
  - intros Hc. eapply Forall_forall in Hall; [|exact Hc]. by apply ip_byte_solid in Hall as (_ & _ & ?).
Qed.

Example string_v6 : Addr_String (A6 0x20010db8000000000000000000000001 []) = #"2001:db8::1".
Proof. by vm_compute. Qed.
Example string_v6_zero : Addr_String (A6 0 []) = #"::".
Proof. by vm_compute. Qed.
Example string_v6_single : Addr_String (A6 0x00010000000200030004000500060007 []) = #"1:0:2:3:4:5:6:7".
Proof. by vm_compute. Qed.
