(* ===== verification/NetText.v ===== *)
(** * NetText: reading network addresses (Go's net/netip and net)

    [netip.ParseAddr] and [netip.ParsePrefix] for both families, zones and embedded
    IPv4 addresses included, and [net.SplitHostPort] and [net.JoinHostPort].  The
    parsers' error texts are not kept: their callers only wrap them. *)

From S2P Require Import Prelude GoStrings Strconv Netip.

(** The text before and after the last [c]. *)
Definition CutLast (s : bytes) (c : ascii) : option (bytes * bytes) :=
  match Cut (rev s) c with
  | Some (after, before) => Some (rev before, rev after)
  | None => None
  end.

(** ** Addresses *)

(** One field of a dotted quad: a byte without leading zeros. *)
Definition octet (s : bytes) : option Z :=
  match s with
  | "0"%char :: _ :: _ => None
  | _ => match parse_udec s with Some z => if z <=? 255 then Some z else None | None => None end
  end.

(** [parseIPv4Fields]: exactly four fields. *)
Definition ipv4_fields (s : bytes) : option (list Z) :=
  match Split s "."%char with
  | [a; b; c; d] => a ← octet a; b ← octet b; c ← octet c; d ← octet d; Some [a; b; c; d]
  | _ => None
  end.

Definition parseIPv4 (s : bytes) : option Addr := A4 ∘ of_be <$> ipv4_fields s.

(** The leading hexadecimal digits of a text, at most four of them. *)
Fixpoint hex_group (fuel : nat) (acc : Z) (s : bytes) : option (Z * bytes) :=
  match s with
  | c :: rest =>
      match hex_digit c with
      | Some d => match fuel with O => None | S fuel => hex_group fuel (acc * 16 + d) rest end
      | None => Some (acc, s)
      end
  | [] => Some (acc, s)
  end.

(** The loop of [parseIPv6]: [ip] holds the bytes so far, [ellipsis] the place of
    [::].  The value is the bytes, the ellipsis and the unread text. *)
Fixpoint ipv6_loop (fuel : nat) (ip : list Z) (ellipsis : option nat) (s : bytes) : option (list Z * option nat * bytes) :=
  match fuel with
  | O => Some (ip, ellipsis, s)
  | S fuel =>
      '(acc, rest) ← hex_group 4 0 s;
      if bool_decide (length rest = length s) then None
      else if HasPrefix rest #"." then
        if bool_decide (ellipsis = None) && negb (bool_decide (length ip = 12%nat)) then None
        else if bool_decide (12 < length ip)%nat then None
        else v4 ← ipv4_fields s; Some (ip ++ v4, ellipsis, [])
      else
        let ip := ip ++ [acc / 256; acc mod 256] in
        match rest with
        | [] => Some (ip, ellipsis, [])
        | c :: rest =>
            if negb (Ascii.eqb c ":"%char) then None
            else match rest with
                 | [] => None
                 | d :: rest' =>
                     if Ascii.eqb d ":"%char then
                       match ellipsis with
                       | Some _ => None
                       | None => if bool_decide (rest' = []) then Some (ip, Some (length ip), [])
                                 else ipv6_loop fuel ip (Some (length ip)) rest'
                       end
                     else ipv6_loop fuel ip ellipsis rest
                 end
        end
  end.

(** Fill the ellipsis with zeros. *)
Definition ipv6_expand (ip : list Z) (ellipsis : option nat) : option (list Z) :=
  if bool_decide (length ip < 16)%nat then
    e ← ellipsis; Some (take e ip ++ replicate (16 - length ip) 0 ++ drop e ip)
  else if bool_decide (ellipsis = None) then Some ip else None.

Definition parseIPv6 (s : bytes) : option Addr :=
  '(s, zone) ← match Cut s "%"%char with
               | Some (_, []) => None
               | Some (s, zone) => Some (s, zone)
               | None => Some (s, [])
               end;
  let '(ellipsis, s') := if HasPrefix s #"::" then (Some O, drop 2 s) else (None, s) in
  if bool_decide (ellipsis = Some O) && bool_decide (s' = []) then Some (A6 0 zone)
  else
    '(ip, ellipsis, rest) ← ipv6_loop 8 [] ellipsis s';
    if negb (bool_decide (rest = [])) then None
    else ip ← ipv6_expand ip ellipsis; Some (A6 (of_be ip) zone).

(** The first [.], [:] or [%] decides the family. *)
Fixpoint family_mark (s : bytes) : option ascii :=
  match s with
  | [] => None
  | c :: s => if Ascii.eqb c "."%char || Ascii.eqb c ":"%char || Ascii.eqb c "%"%char then Some c else family_mark s
  end.

Definition ParseAddr (s : bytes) : option Addr :=
  match family_mark s with
  | Some "."%char => parseIPv4 s
  | Some ":"%char => parseIPv6 s
  | _ => None
  end.

Definition ParsePrefix (s : bytes) : option Prefix :=
  '(ip, bits) ← CutLast s "/"%char;
  ip ← ParseAddr ip;
  if negb (bool_decide (addr_zone ip = [])) then None
  else if match bits with c :: _ :: _ => negb ((49 <=? code c) && (code c <=? 57)) | _ => false end then None
  else
    n ← Atoi bits;
    if (n <? 0) || (BitLen ip <? n) then None else Some (PrefixFrom ip n).

(** ** Hosts and ports *)

Definition has_byte (s : bytes) (c : ascii) : bool := match IndexByte s c with Some _ => true | None => false end.

Definition SplitHostPort (hostport : bytes) : option (bytes * bytes) :=
  '(before, port) ← CutLast hostport ":"%char;
  if HasPrefix hostport #"[" then
    '(host, after) ← Cut (drop 1 hostport) "]"%char;
    (* the closing bracket stands just before the last colon *)
    if negb (bool_decide (after = #":" ++ port)) then None
    else if has_byte (drop 1 hostport) "["%char || has_byte after "]"%char then None
    else Some (host, port)
  else if has_byte before ":"%char then None
  else if has_byte hostport "["%char || has_byte hostport "]"%char then None
  else Some (before, port).

Definition JoinHostPort (host port : bytes) : bytes :=
  if has_byte host ":"%char then #"[" ++ host ++ #"]:" ++ port else host ++ #":" ++ port.

Example parse_examples :
  ParsePrefix #"10.8.0.0/24" = Some (mkPrefix (A4 0x0a080000) 24)
  /\ ParsePrefix #"10.08.0.0/24" = None /\ ParsePrefix #"10.8.0.0/024" = None /\ ParsePrefix #"10.8.0.0/33" = None
  /\ ParsePrefix #"fd00::1:2/64" = Some (mkPrefix (A6 (0xfd00 * 2 ^ 112 + 0x10002) []) 64)
  /\ ParseAddr #"::ffff:1.2.3.4" = Some (A6 (0xffff * 2 ^ 32 + 0x01020304) [])
  /\ ParseAddr #"fe80::1%eth0" = Some (A6 (0xfe80 * 2 ^ 112 + 1) #"eth0")
  /\ ParseAddr #"::" = Some (A6 0 []) /\ ParseAddr #"1:2:3:4:5:6:7::" = Some (A6 0x00010002000300040005000600070000 [])
  /\ ParseAddr #"1:2:3:4:5:6:7:8::" = None /\ ParseAddr #"1::2::3" = None /\ ParseAddr #"12345::" = None
  /\ ParseAddr #"1:2:3:4:5:6:7:8:9" = None
  /\ SplitHostPort #"vpn.example:443" = Some (#"vpn.example", #"443")
  /\ SplitHostPort #"[fd00::1]:443" = Some (#"fd00::1", #"443")
  /\ SplitHostPort #"fd00::1" = None /\ SplitHostPort #"[fd00::1]" = None /\ SplitHostPort #"[a]b:1" = None
  /\ SplitHostPort #"host:" = Some (#"host", []).
Proof. vm_compute. split_and!; reflexivity. Qed.

(** ** Bounds *)

Abbreviation byte_range := (fun b => 0 <= b < 256).

Lemma parse_udec_nonneg s z : parse_udec s = Some z -> 0 <= z.
Proof. destruct s as [|c s]; [done|]. by apply parse_digits_nonneg. Qed.

Lemma octet_range s z : octet s = Some z -> 0 <= z < 256.
Proof.
  intros H. assert (parse_udec s = Some z /\ z <= 255) as [Hn Hb].
  { revert H. unfold octet. assert (Hg : (match parse_udec s with Some z => if z <=? 255 then Some z else None | None => None end)
      = Some z -> parse_udec s = Some z /\ z <= 255).
    { destruct (parse_udec s) as [n|]; [|done]. case_match; intros; simplify_eq. by bool_to_prop. }
    destruct s as [|c [|d s]]; [exact Hg|exact Hg || (destruct c as [[] [] [] [] [] [] [] []]; exact Hg)|].
    destruct c as [[] [] [] [] [] [] [] []]; first [exact Hg|done]. }
  apply parse_udec_nonneg in Hn. lia.
Qed.

Lemma ipv4_fields_range s l : ipv4_fields s = Some l -> length l = 4%nat /\ Forall byte_range l.
Proof.
  unfold ipv4_fields. intros H. destruct (Split s "."%char) as [|a [|b [|c [|d [|]]]]]; try done.
  repeat (apply bind_Some in H as (? & ?%octet_range & H)). injection H as <-. split; [done|]. repeat (constructor; [done|]). constructor.
Qed.

Lemma hex_group_range fuel acc s a r :
  0 <= acc -> hex_group fuel acc s = Some (a, r) -> 0 <= a < (acc + 1) * 16 ^ Z.of_nat fuel.
Proof.
  revert acc s. induction fuel as [|fuel IH]; intros acc s Hacc; destruct s as [|c s]; cbn [hex_group].
  - intros [= <- <-]. lia.
  - destruct (hex_digit c); [done|]. intros [= <- <-]. lia.
  - intros [= <- <-]. rewrite Nat2Z.inj_succ, Z.pow_succ_r by lia. nia.
  - destruct (hex_digit c) as [d|] eqn:E; rewrite Nat2Z.inj_succ, Z.pow_succ_r by lia.
    + apply hex_digit_range in E. intros H. apply IH in H; [|lia]. nia.
    + intros [= <- <-]. nia.
Qed.

Lemma of_be_range l : Forall byte_range l -> 0 <= of_be l < 256 ^ Z.of_nat (length l).
Proof.
  induction l as [|b l IH] using rev_ind; intros H; [done|].
  apply Forall_app in H as [Hl Hb]. inversion_clear Hb as [|? ? Hb' _]. specialize (IH Hl).
  rewrite of_be_snoc, length_app, Nat2Z.inj_add, Z.pow_add_r by lia. change (256 ^ Z.of_nat (length [b])) with 256. lia.
Qed.

Lemma ipv6_loop_range fuel ip e s ip' e' r :
  Forall byte_range ip -> (length ip + 2 * fuel <= 16)%nat ->
  ipv6_loop fuel ip e s = Some (ip', e', r) -> Forall byte_range ip' /\ (length ip' <= 16)%nat.
Proof.
  revert ip e s. induction fuel as [|fuel IH]; intros ip e s Hip Hlen; cbn [ipv6_loop].
  { intros [= <- <- <-]. split; [done|lia]. }
  intros H. apply bind_Some in H as ([acc rest] & Hg & H). apply (hex_group_range 4) in Hg; [|lia].
  change ((0 + 1) * 16 ^ Z.of_nat 4) with 65536 in Hg.
  case_bool_decide; [done|]. destruct (HasPrefix rest #".").
  { destruct (_ && _) eqn:E; [done|]. case_bool_decide; [done|].
    apply bind_Some in H as (v4 & [Hl Hv]%ipv4_fields_range & H). injection H as <- <- <-.
    split; [by apply Forall_app|]. rewrite length_app. lia. }
  assert (Hip' : Forall byte_range (ip ++ [acc / 256; acc mod 256])).
  { apply Forall_app. split; [done|]. pose proof (Z.mod_pos_bound acc 256). pose proof (Z.div_lt_upper_bound acc 256 256).
    pose proof (Z.div_pos acc 256). repeat constructor; lia. }
  assert (Hl' : length (ip ++ [acc / 256; acc mod 256]) = (length ip + 2)%nat) by (by rewrite length_app).
  destruct rest as [|c rest]; [injection H as <- <- <-; split; [done|lia]|].
  destruct (negb _); [done|]. destruct rest as [|d rest]; [done|].
  destruct (Ascii.eqb d ":"%char).
  - destruct e; [done|]. case_bool_decide.
    + injection H as <- <- <-. split; [done|lia].
    + eapply IH; [| |exact H]; [done|lia].
  - eapply IH; [| |exact H]; [done|lia].
Qed.

Lemma ipv6_expand_range ip e l :
  Forall byte_range ip -> (length ip <= 16)%nat -> ipv6_expand ip e = Some l -> Forall byte_range l /\ length l = 16%nat.
Proof.
  intros Hip Hlen. unfold ipv6_expand. case_bool_decide as Hs; [|case_bool_decide; [|done]; intros [= <-]; split; [done|lia]].
  destruct e as [e|]; [|done]. intros [= <-]. split.
  - rewrite !Forall_app. split_and!; [by apply Forall_take| |by apply Forall_drop]. apply Forall_replicate. lia.
  - rewrite !length_app, length_take, length_drop, length_replicate. lia.
Qed.

Lemma ParseAddr_ok s a : ParseAddr s = Some a -> addr_ok a /\ Addr_IsValid a = true.
Proof.
  assert (H4 : parseIPv4 s = Some a -> addr_ok a /\ Addr_IsValid a = true).
  { unfold parseIPv4. intros H. apply fmap_Some in H as (l & [Hl Hr]%ipv4_fields_range & ->). split; [|done].
    apply of_be_range in Hr. rewrite Hl in Hr. exact Hr. }
  assert (H6 : parseIPv6 s = Some a -> addr_ok a /\ Addr_IsValid a = true).
  { unfold parseIPv6. intros H. apply bind_Some in H as ([t zone] & _ & H).
    destruct (if HasPrefix t #"::" then _ else _) as [e t']. case_match; [by injection H as <-|].
    apply bind_Some in H as ([[ip e'] rest] & Hl & H). apply ipv6_loop_range in Hl as [Hr Hn]; [|constructor|simpl; lia].
    destruct (negb _); [done|]. apply bind_Some in H as (l & Hx & H). injection H as <-.
    apply ipv6_expand_range in Hx as [Hr' Hn']; [|done..]. split; [|done]. apply of_be_range in Hr'. rewrite Hn' in Hr'. exact Hr'. }
  unfold ParseAddr. destruct (family_mark s) as [c|]; [|done].
  destruct c as [[] [] [] [] [] [] [] []]; first [exact H4|exact H6|done].
Qed.

Lemma ParsePrefix_ok s p : ParsePrefix s = Some p -> prefix_ok p.
Proof.
  unfold ParsePrefix. intros H. apply bind_Some in H as ([ip bits] & _ & H).
  apply bind_Some in H as (a & [Ha Hv]%ParseAddr_ok & H). destruct (negb _) eqn:Hz; [done|].
  match type of H with (if ?b then _ else _) = _ => destruct b; [done|] end.
  apply bind_Some in H as (n & _ & H). destruct (_ || _) eqn:E; [done|]. injection H as <-. bool_to_prop.
  apply PrefixFrom_ok; [done|]. unfold PrefixFrom. rewrite Hv, (proj2 (Z.leb_le 0 n)), (proj2 (Z.leb_le n _)) by lia.
  unfold Prefix_IsValid. simpl. by apply Z.leb_le.
Qed.

(** ** Round trips *)

Lemma octet_FormatInt z : 0 <= z < 256 -> octet (FormatInt z) = Some z.
Proof.
  intros Hz. assert (H : forall n : nat, (n < 256)%nat -> octet (FormatInt (Z.of_nat n)) = Some (Z.of_nat n)).
  { intros n Hn. apply (proj1 (Forall_forall (fun n => octet (FormatInt (Z.of_nat n)) = Some (Z.of_nat n)) (seq 0 256)));
      [|apply elem_of_seq; lia]. apply (bool_decide_unpack _). by vm_compute. }
  rewrite <- (Z2Nat.id z) by lia. apply H. lia.
Qed.

Lemma be4 z : 0 <= z < 2 ^ 32 -> of_be [z / 2 ^ 24 mod 256; z / 2 ^ 16 mod 256; z / 2 ^ 8 mod 256; z mod 256] = z.
Proof.
  intros Hz. unfold of_be. cbn [fold_left].
  change (2 ^ 32) with 4294967296 in Hz. change (2 ^ 24) with 16777216. change (2 ^ 16) with 65536. change (2 ^ 8) with 256.
  Z.to_euclidean_division_equations. lia.
Qed.

(** A printed IPv4 address reads back. *)
Lemma parseIPv4_string4 z : 0 <= z < 2 ^ 32 -> parseIPv4 (string4 z) = Some (A4 z).
Proof.
  intros Hz. unfold parseIPv4, ipv4_fields, string4.
  assert (Hn : forall x, 0 <= x -> "."%char ∉ FormatInt x).
  { intros x Hx. apply FormatInt_notin; [done|]. code_lia. }
  assert (Hm : forall x, 0 <= x mod 256 < 256) by (intros; apply Z.mod_pos_bound; lia).
  change (#".") with ["."%char]. cbn [app].
  rewrite !Split_app by (apply Hn, Hm). rewrite Split_absent by (apply Hn, Hm).
  rewrite !octet_FormatInt by apply Hm. cbn [mbind option_bind fmap option_fmap option_map compose].
  by rewrite be4.
Qed.

Lemma CutLast_app a c b : c ∉ b -> CutLast (a ++ c :: b) c = Some (a, b).
Proof.
  intros Hb. unfold CutLast. rewrite rev_app_distr. cbn [rev]. rewrite <- app_assoc. cbn [app].
  rewrite Cut_app, !rev_involutive; [done|]. intros Hin. apply Hb.
  by apply list_elem_of_In, in_rev, list_elem_of_In in Hin.
Qed.

Lemma family_mark_digits ds s : Forall (fun c => 48 <= code c <= 57) ds -> family_mark (ds ++ "."%char :: s) = Some "."%char.
Proof.
  induction 1 as [|c ds Hc _ IH]; [done|]. cbn [app family_mark].
  assert (Hne : forall x, ~ (48 <= code x <= 57) -> Ascii.eqb c x = false).
  { intros x Hx. destruct (Ascii.eqb_spec c x) as [->|]; done. }
  rewrite !Hne by code_lia. exact IH.
Qed.

Lemma ParseAddr_string4 z : 0 <= z < 2 ^ 32 -> ParseAddr (string4 z) = Some (A4 z).
Proof.
  intros Hz. unfold ParseAddr. assert (family_mark (string4 z) = Some "."%char) as ->; [|by apply parseIPv4_string4].
  unfold string4, FormatInt. pose proof (Z.mod_pos_bound (z / 2 ^ 24) 256 ltac:(lia)).
  destruct (Z.ltb_spec (z / 2 ^ 24 mod 256) 0); [lia|]. change (#".") with ["."%char]. cbn [app].
  apply family_mark_digits. apply format_udec_spec. lia.
Qed.

(** A printed IPv4 prefix reads back. *)
Lemma ParsePrefix_String4 z bits :
  0 <= z < 2 ^ 32 -> 0 <= bits <= 32 -> ParsePrefix (Prefix_String (mkPrefix (A4 z) bits)) = Some (mkPrefix (A4 z) bits).
Proof.
  intros Hz Hb. unfold Prefix_String, Prefix_IsValid. cbn [pf_bits pf_addr]. rewrite (proj2 (Z.leb_le 0 bits)) by lia.
  unfold ParsePrefix. change (#"/") with ["/"%char]. cbn [app Addr_String].
  rewrite CutLast_app by (apply FormatInt_notin; [lia|code_lia]). cbn [mbind option_bind].
  rewrite ParseAddr_string4 by done. cbn [mbind option_bind addr_zone]. rewrite bool_decide_eq_true_2 by done. cbn [negb].
  assert (match FormatInt bits with c :: _ :: _ => negb ((49 <=? code c) && (code c <=? 57)) | _ => false end = false) as ->.
  { assert (Hall : forall n : nat, (n < 33)%nat ->
      (match FormatInt (Z.of_nat n) with c :: _ :: _ => negb ((49 <=? code c) && (code c <=? 57)) | _ => false end) = false).
    { intros n Hn. apply (proj1 (Forall_forall (fun n => (match FormatInt (Z.of_nat n) with
        c :: _ :: _ => negb ((49 <=? code c) && (code c <=? 57)) | _ => false end) = false) (seq 0 33)));
        [|apply elem_of_seq; lia]. apply (bool_decide_unpack _). by vm_compute. }
    rewrite <- (Z2Nat.id bits) by lia. apply Hall. lia. }
  unfold Atoi. rewrite ParseInt10_FormatInt by (unfold in_int64, min_int64, max_int64; lia).
  cbn [mbind option_bind BitLen]. destruct (Z.ltb_spec bits 0); [lia|]. destruct (Z.ltb_spec 32 bits); [lia|]. cbn [orb].
  unfold PrefixFrom. cbn [Addr_IsValid BitLen]. by rewrite (proj2 (Z.leb_le 0 bits)), (proj2 (Z.leb_le bits 32)) by lia.
Qed.

Lemma has_byte_false s c : c ∉ s -> has_byte s c = false.
Proof. intros H. unfold has_byte. by rewrite (proj2 (IndexByte_None s c)). Qed.
Lemma has_byte_true s c : c ∈ s -> has_byte s c = true.
Proof. intros H. unfold has_byte. destruct (IndexByte s c) eqn:E; [done|]. by apply IndexByte_None in E. Qed.

(** A host and a port put together come apart again. *)
Lemma SplitHostPort_Join host port :
  ("["%char ∉ host) -> ("]"%char ∉ host) -> (":"%char ∉ port) -> ("["%char ∉ port) -> ("]"%char ∉ port) ->
  SplitHostPort (JoinHostPort host port) = Some (host, port).
Proof.
  intros H1 H2 P0 P1 P2. unfold JoinHostPort. destruct (has_byte host ":"%char) eqn:Hc; unfold SplitHostPort.
  - change (#"[" ++ host ++ #"]:" ++ port) with ("["%char :: (host ++ "]"%char :: ":"%char :: port)).
    assert (CutLast ("["%char :: (host ++ "]"%char :: ":"%char :: port)) ":"%char
            = Some ("["%char :: (host ++ ["]"%char]), port)) as ->.
    { rewrite <- (CutLast_app _ ":"%char) by done. f_equal. cbn [app]. by rewrite <- app_assoc. }
    cbn [mbind option_bind]. assert (forall t, HasPrefix ("["%char :: t) #"[" = true) as -> by (by intros []).
    assert (Hd : forall t : bytes, drop 1 ("["%char :: t) = t) by done. rewrite !Hd.
    rewrite (Cut_app host "]"%char) by done. cbn [mbind option_bind].
    rewrite bool_decide_eq_true_2 by done. cbn [negb].
    rewrite !has_byte_false; [done|..]; rewrite ?elem_of_app, ?elem_of_cons; intros ?; destruct_or?; done.
  - change (host ++ #":" ++ port) with (host ++ ":"%char :: port). rewrite CutLast_app by done. cbn [mbind option_bind].
    assert (HasPrefix (host ++ ":"%char :: port) #"[" = false) as ->.
    { destruct host as [|c host]; [done|].
      change (Ascii.eqb "["%char c && HasPrefix (host ++ ":"%char :: port) [] = false).
      destruct (Ascii.eqb_spec "["%char c) as [<-|]; [set_solver|done]. }
    rewrite Hc. rewrite !has_byte_false; [done|..]; rewrite ?elem_of_app, ?elem_of_cons; intros ?; destruct_or?; done.
Qed.
