(* ===== verification/Ipam.v ===== *)
(** * Ipam: deterministic address allocation over a pool ([internal/ipam])

    [Allocate] is the code's loop, one [alloc_step] per iteration, with the
    loop counter kept as a wrapping 64-bit [int].  The theorems say which
    address it finds, when it reports an exhausted pool, and for which pools
    its loop has no bound. *)

From S2P Require Import Prelude GoStrings Errors Netip.

(** ** Model *)

(** [Reserved]: the interface the allocator consults. *)
Record Reserved : Type := mkReserved { IsReserved : Addr -> bool }.

(** [reservedSet] is a map keyed by address; membership is all that is read. *)
Definition NewReservedSet (addrs : list Addr) : Reserved :=
  mkReserved (fun a => bool_decide (a ∈ addrs)).

Record Allocation : Type := mkAllocation { Address : Addr; NextCursor : Addr }.

Definition firstHost (p : Prefix) : Addr :=
  let a := pf_addr p in
  if Is4 a then
    if 31 <=? pf_bits p then a else Next a
  else a.

(** [byte(1<<shift) - 1], in [uint8] arithmetic. *)
Definition ones_byte (shift : Z) : Z := ((Z.shiftl 1 shift) mod 256 - 1) mod 256.

(** The byte loop of [lastHost]: [n] is [i+1]. *)
Fixpoint fill_host (n : nat) (addr : list Z) (bits : Z) : list Z :=
  match n with
  | O => addr
  | S i =>
      if 0 <? bits then
        let shift := if bits <? 8 then bits else 8 in
        fill_host i (<[i := Z.lor (addr !!! i) (ones_byte shift)]> addr) (bits - shift)
      else addr
  end.

Definition lastHost (p : Prefix) : result error Addr :=
  let a := pf_addr p in
  let bits := BitLen a - pf_bits p in
  if bits <? 0 then Err (EMsg #"ipam: prefix wider than address")
  else
    let addr := As16 a in
    let last := AddrFrom16 (fill_host (length addr) addr bits) in
    Ok (if Is4 a then
          let last := Unmap last in
          if pf_bits p <? 31 then Prev last else last
        else last).

Definition compareAddr (x y : Addr) : Z := Compare x y.

Definition isUsable (p : Prefix) (a : Addr) : bool :=
  if negb (Prefix_Contains p a) then false
  else match lastHost p with
       | Err _ => false
       | Ok last =>
           let first := firstHost p in
           (compareAddr a first >=? 0) && (compareAddr a last <=? 0)
       end.

Definition addrCount (p : Prefix) : Z :=
  let bits := BitLen (pf_addr p) - pf_bits p in
  if 31 <=? bits then max_int64
  else
    let n := Z.shiftl 1 bits in
    let n := if Is4 (pf_addr p) && (pf_bits p <? 31) then n - 2 else n in
    if n <? 0 then 0 else n.

(** [reserved == nil || !reserved.IsReserved(a)] *)
Definition not_reserved (reserved : option Reserved) (a : Addr) : bool :=
  match reserved with None => true | Some r => negb (IsReserved r a) end.

(** The address after [a], back to [first] when it leaves [pool] or passes
    [last]: the statement the loop performs at two places. *)
Definition advance (pool : Prefix) (first last a : Addr) : Addr :=
  let next := Next a in
  if negb (Prefix_Contains pool next) || (0 <? compareAddr next last) then first else next.

(** One test of the loop condition and, when it holds, one run of the body. *)
Definition alloc_step (pool : Prefix) (first last : Addr) (reserved : option Reserved)
    (st : Addr * Z) : (Addr * Z) + result error Allocation :=
  let '(a, steps) := st in
  if steps <=? addrCount pool then
    if isUsable pool a && not_reserved reserved a
    then inr (Ok (mkAllocation a (advance pool first last a)))
    else inl (advance pool first last a, wrap_int64 (steps + 1))
  else inr (Err (ESentinel ErrPoolExhausted)).

(** Iterations after which a loop that has not returned never will: one per
    address of the pool, one for a cursor outside the usable range, and the
    final test. *)
Definition alloc_fuel (p : Prefix) : positive := Z.to_pos (2 ^ host_bits p + 2).

(** The address the loop starts from. *)
Definition start_cursor (pool : Prefix) (cursor : Addr) : Addr :=
  if negb (Addr_IsValid cursor) || negb (Prefix_Contains pool cursor)
  then firstHost pool else cursor.

(** [None]: the loop is still running after [alloc_fuel] iterations. *)
Definition Allocate (pool : Prefix) (cursor : Addr) (reserved : option Reserved)
    : option (result error Allocation) :=
  if negb (Prefix_IsValid pool) then Some (Err (EMsg #"ipam: invalid pool"))
  else
    let pool := Masked pool in
    let cursor := start_cursor pool cursor in
    let first := firstHost pool in
    match lastHost pool with
    | Err e => Some (Err e)
    | Ok last =>
        match iter_until (alloc_step pool first last reserved) (alloc_fuel pool) (cursor, 0) with
        | inr r => Some r
        | inl _ => None
        end
    end.

(** ** Specification *)

(** The usable range of a masked pool, as numbers. *)
Definition skips_ends (p : Prefix) : bool := Is4 (pf_addr p) && (pf_bits p <? 31).
Definition usable_lo (p : Prefix) : Z :=
  addr_num (pf_addr p) + (if skips_ends p then 1 else 0).
Definition usable_hi (p : Prefix) : Z :=
  addr_num (pf_addr p) + 2 ^ host_bits p - 1 - (if skips_ends p then 1 else 0).

(** The addresses a pool can hand out: every address of the block, less the
    network and broadcast addresses of an IPv4 block wider than /31. *)
Definition usable (p : Prefix) (a : Addr) : Prop :=
  exists x, a = with_num (pf_addr p) x /\ usable_lo (Masked p) <= x <= usable_hi (Masked p).

(** The value [k] places after [z] in the cyclic order of the usable range. *)
Definition next_num (p : Prefix) (z : Z) : Z :=
  if z <? usable_hi p then z + 1 else usable_lo p.
Fixpoint orbit (p : Prefix) (k : nat) (z : Z) : Z :=
  match k with O => z | S k => orbit p k (next_num p z) end.

(** A pool whose addresses form an aligned block, as [Masked] leaves it. *)
Definition masked_ok (p : Prefix) : Prop :=
  prefix_ok p /\ addr_num (pf_addr p) mod 2 ^ host_bits p = 0.

(** ** The byte loop of [lastHost] *)

Lemma lor_ones a n : 0 <= n -> Z.lor a (Z.ones n) = a / 2 ^ n * 2 ^ n + (2 ^ n - 1).
Proof.
  intros Hn. rewrite <- Z.shiftr_div_pow2, <- Z.shiftl_mul_pow2 by done.
  rewrite <- Z.ldiff_ones_r by done.
  replace (2 ^ n - 1) with (Z.ones n) by (rewrite Z.ones_equiv; lia).
  rewrite Z.add_nocarry_lxor; apply Z.bits_inj'; intros m Hm;
    rewrite ?Z.lor_spec, ?Z.lxor_spec, ?Z.land_spec, Z.ldiff_spec, ?Z.bits_0;
    by destruct (Z.testbit a m), (Z.testbit (Z.ones n) m).
Qed.

Lemma ones_byte_ones s : 0 <= s <= 8 -> ones_byte s = Z.ones s.
Proof.
  intros Hs. assert (s = 0 \/ s = 1 \/ s = 2 \/ s = 3 \/ s = 4 \/ s = 5 \/ s = 6 \/ s = 7 \/ s = 8)
    as Hc by lia.
  by repeat (destruct Hc as [->|Hc]; [done|]); subst.
Qed.

(** The loop never touches the bytes at or beyond its start index. *)
Lemma fill_host_app n l r bits :
  length l = n -> fill_host n (l ++ r) bits = fill_host n l bits ++ r.
Proof.
  revert l r bits. induction n as [|i IH]; intros l r bits Hl; simpl; [done|].
  destruct (0 <? bits); [|done].
  destruct l as [|b l _] using rev_ind; [done|].
  rewrite length_app in Hl. simpl in Hl. assert (length l = i) by lia.
  assert (Hget : forall r', (l ++ b :: r') !!! i = b).
  { intros r'. rewrite lookup_total_app_r by lia. by replace (i - length l)%nat with O by lia. }
  assert (Hset : forall r' v, <[i:=v]> (l ++ b :: r') = l ++ v :: r').
  { intros r' v. rewrite insert_app_r_alt by lia. by replace (i - length l)%nat with O by lia. }
  rewrite <- app_assoc. cbn [app]. rewrite !Hget, !Hset.
  rewrite (IH l (_ :: r)), (IH l [_]) by done. by rewrite <- app_assoc.
Qed.

(** Filling the host part of the bytes is filling the low bits of the number. *)
Lemma of_be_fill_host n l bits :
  length l = n -> 0 <= bits <= 8 * Z.of_nat n -> Forall (fun b => 0 <= b < 256) l ->
  of_be (fill_host n l bits) = of_be l / 2 ^ bits * 2 ^ bits + (2 ^ bits - 1).
Proof.
  revert l bits. induction n as [|i IH]; intros l bits Hl Hb Hr.
  - replace bits with 0 by lia. simpl. rewrite Z.div_1_r. lia.
  - destruct l as [|b l _] using rev_ind; [done|].
    rewrite length_app in Hl. simpl in Hl. assert (length l = i) by lia.
    apply Forall_app in Hr as [Hr Hrb]. inversion Hrb as [|? ? Hb256]; subst.
    cbn [fill_host]. destruct (0 <? bits) eqn:E; bool_to_prop; cycle 1.
    { replace bits with 0 by lia. simpl. rewrite Z.div_1_r. lia. }
    rewrite lookup_total_app_r by lia. rewrite insert_app_r_alt by lia.
    rewrite Nat.sub_diag. cbn [list_lookup_total list_insert insert lookup_total].
    rewrite fill_host_app, of_be_snoc, of_be_snoc by done.
    destruct (bits <? 8) eqn:E8; bool_to_prop.
    + rewrite Z.sub_diag, IH by (done || lia). simpl (2 ^ 0). rewrite Z.div_1_r.
      rewrite ones_byte_ones, lor_ones by lia.
      replace 256 with (2 ^ (8 - bits) * 2 ^ bits) by (rewrite <- Z.pow_add_r by lia; by replace (8 - bits + bits) with 8 by lia).
      replace (of_be l * (2 ^ (8 - bits) * 2 ^ bits) + b)
        with (b + (of_be l * 2 ^ (8 - bits)) * 2 ^ bits) by ring.
      rewrite Z.div_add by lia. ring_simplify. lia.
    + rewrite IH by (done || lia). rewrite ones_byte_ones, lor_ones by lia.
      replace (2 ^ bits) with (2 ^ 8 * 2 ^ (bits - 8)) by (rewrite <- Z.pow_add_r by lia; f_equal; lia).
      rewrite <- Z.div_div by lia. change (2 ^ 8) with 256.
      rewrite Z.div_add_l by lia. rewrite (Z.div_small b 256) by lia.
      rewrite Z.add_0_r. ring.
Qed.

Lemma fill16 z bits :
  0 <= z < 2 ^ 128 -> 0 <= bits <= 128 ->
  of_be (fill_host (length (be_bytes 16 z)) (be_bytes 16 z) bits)
  = z / 2 ^ bits * 2 ^ bits + (2 ^ bits - 1).
Proof.
  intros Hz Hb. rewrite be_bytes_length, of_be_fill_host, of_be_bytes; try done; try lia.
  apply be_bytes_range.
Qed.

Lemma v4_mapped_unmap z zn : 0 <= z < 2 ^ 32 -> Unmap (A6 (v4_mapped + z) zn) = A4 z.
Proof.
  intros Hz. unfold Unmap, v4_mapped. rewrite Z.shiftr_div_pow2 by lia.
  rewrite Z.div_add_l, Z.div_small by lia. simpl (_ =? _).
  rewrite Z.add_comm, Z.mod_add, Z.mod_small by lia. done.
Qed.

Lemma mapped_fill z h :
  0 <= h <= 32 ->
  (v4_mapped + z) / 2 ^ h * 2 ^ h = v4_mapped + z / 2 ^ h * 2 ^ h.
Proof.
  intros Hh. assert (v4_mapped = 0xffff * 2 ^ (32 - h) * 2 ^ h) as ->.
  { rewrite <- Z.mul_assoc, <- Z.pow_add_r by lia. by replace (32 - h + h) with 32 by lia. }
  rewrite Z.div_add_l by lia. ring.
Qed.

(** ** The pool as an interval of numbers *)

Lemma masked_ok_Masked p : prefix_ok p -> masked_ok (Masked p).
Proof.
  intros (Ha & Hv & Hz & Hb). unfold Masked, Prefix_IsValid.
  rewrite (proj2 (Z.leb_le _ _)) by lia.
  assert (Hh : 0 <= host_bits p) by (unfold host_bits; lia).
  assert (Hp : 0 < 2 ^ host_bits p) by lia.
  unfold addr_ok in Ha. rewrite Z.shiftr_div_pow2, Z.shiftl_mul_pow2 by done.
  set (q := addr_num (pf_addr p) / 2 ^ host_bits p).
  assert (0 <= q) by (apply Z.div_pos; lia).
  assert (q * 2 ^ host_bits p <= addr_num (pf_addr p))
    by (rewrite Z.mul_comm; apply Z.mul_div_le; lia).
  unfold masked_ok, prefix_ok, addr_ok, host_bits. simpl.
  rewrite addr_num_with, BitLen_with, zone_with by done.
  fold (host_bits p). split_and!; try lia; try done; [by destruct (pf_addr p)|].
  apply Z.mod_mul. lia.
Qed.

Lemma Masked_family p :
  prefix_ok p -> forall x, with_num (pf_addr (Masked p)) x = with_num (pf_addr p) x.
Proof.
  intros (Ha & Hv & Hz & Hb) x. unfold Masked, Prefix_IsValid.
  rewrite (proj2 (Z.leb_le _ _)) by lia. apply with_with.
Qed.

Section pool.
Context (p : Prefix) (Hp : masked_ok p).

Lemma pool_valid : Addr_IsValid (pf_addr p) = true.
Proof. apply Hp. Qed.

Lemma pool_host_bits : 0 <= host_bits p <= BitLen (pf_addr p).
Proof. destruct Hp as [(? & ? & ? & ?) _]. unfold host_bits. lia. Qed.

Lemma block_bound : 0 <= addr_num (pf_addr p)
  /\ addr_num (pf_addr p) + 2 ^ host_bits p <= 2 ^ BitLen (pf_addr p).
Proof.
  destruct Hp as [(Ha & _ & _ & Hb) Hm]. pose proof pool_host_bits. unfold addr_ok in Ha.
  split; [lia|]. replace (BitLen (pf_addr p)) with (host_bits p + pf_bits p) in * by (unfold host_bits; lia).
  apply Z.mod_divide in Hm as [q Hq]; [|lia]. rewrite Hq in *.
  rewrite Z.pow_add_r in * by lia. set (HH := 2 ^ host_bits p) in *. set (Q := 2 ^ pf_bits p) in *.
  assert (0 < HH) by (unfold HH; lia). assert (q < Q) by nia. nia.
Qed.

Lemma skips_ends_wide : skips_ends p = true -> 4 <= 2 ^ host_bits p.
Proof.
  unfold skips_ends, host_bits. intros. bool_to_prop. destruct (pf_addr p); simpl in *; try done.
  apply (Z.pow_le_mono_r 2 2 (32 - pf_bits p)); lia.
Qed.

(** The usable range is never empty. *)
Lemma usable_range : addr_num (pf_addr p) <= usable_lo p <= usable_hi p
  /\ usable_hi p <= addr_num (pf_addr p) + 2 ^ host_bits p - 1.
Proof.
  pose proof pool_host_bits. pose proof skips_ends_wide. unfold usable_lo, usable_hi.
  destruct (skips_ends p); [specialize (H0 eq_refl)|]; lia.
Qed.

Lemma firstHost_num : firstHost p = with_num (pf_addr p) (usable_lo p).
Proof.
  pose proof block_bound as Hb. pose proof skips_ends_wide as Hw.
  unfold firstHost, usable_lo, skips_ends in *. destruct (Is4 (pf_addr p)) eqn:E4; simpl in *.
  - rewrite Z.ltb_antisym in *. destruct (31 <=? pf_bits p); simpl in *.
    + by rewrite Z.add_0_r, with_num_id.
    + specialize (Hw eq_refl). unfold Next. rewrite (proj2 (Z.ltb_lt _ _)) by lia. done.
  - by rewrite Z.add_0_r, with_num_id.
Qed.

Lemma block_fill :
  addr_num (pf_addr p) / 2 ^ host_bits p * 2 ^ host_bits p = addr_num (pf_addr p).
Proof.
  destruct Hp as [_ Hm]. pose proof pool_host_bits.
  pose proof (Z.div_mod (addr_num (pf_addr p)) (2 ^ host_bits p)). lia.
Qed.

(** The byte loop computes the upper end of the usable range. *)
Lemma lastHost_num : lastHost p = Ok (with_num (pf_addr p) (usable_hi p)).
Proof.
  pose proof block_bound as Hb. pose proof pool_host_bits as Hh. pose proof block_fill as Hf.
  pose proof skips_ends_wide as Hw. destruct Hp as [(_ & Hv & Hz & _) _].
  unfold lastHost, usable_hi. fold (host_bits p). rewrite (proj2 (Z.ltb_ge _ _)) by lia.
  unfold skips_ends in *. f_equal. destruct (pf_addr p) as [|z|z zn] eqn:Ea; [done|..];
    cbn [As16 Is4 BitLen addr_num addr_zone with_num andb] in *; subst; unfold AddrFrom16.
  - rewrite fill16 by (change v4_mapped with 281470681743360; lia).
    rewrite mapped_fill, Hf, <- Z.add_assoc, v4_mapped_unmap by lia. destruct (pf_bits p <? 31).
    + specialize (Hw eq_refl). unfold Prev. cbn [addr_num with_num].
      rewrite (proj2 (Z.eqb_neq _ _)) by lia. f_equal. lia.
    + f_equal. lia.
  - rewrite fill16, Hf by lia. f_equal. lia.
Qed.

Lemma contains_num x :
  Prefix_Contains p (with_num (pf_addr p) x) = true <->
  addr_num (pf_addr p) <= x <= addr_num (pf_addr p) + 2 ^ host_bits p - 1.
Proof.
  pose proof block_fill as Hf. pose proof pool_host_bits.
  rewrite Prefix_Contains_num by apply Hp.
  set (H' := 2 ^ host_bits p) in *. assert (0 < H') by (unfold H'; lia).
  set (q := addr_num (pf_addr p) / H') in *. split.
  - intros Hx. pose proof (Z.div_mod x H'). pose proof (Z.mod_pos_bound x H'). nia.
  - intros Hx. symmetry. apply Z.div_unique with (x - q * H'); lia.
Qed.

(** The order of the pool's addresses is the order of their numbers. *)
Lemma compareAddr_num x y :
  compareAddr (with_num (pf_addr p) x) (with_num (pf_addr p) y) = cmpZ x y.
Proof. destruct Hp as [(_ & Hv & Hz & _) _]. by apply Compare_num. Qed.

Lemma isUsable_num x :
  isUsable p (with_num (pf_addr p) x) = true <-> usable_lo p <= x <= usable_hi p.
Proof.
  pose proof usable_range. unfold isUsable. rewrite lastHost_num, firstHost_num, !compareAddr_num.
  destruct (Prefix_Contains p _) eqn:E; simpl.
  - rewrite andb_true_iff, Z.geb_leb, !Z.leb_le, cmpZ_le, <- Z.ge_le_iff, cmpZ_ge. lia.
  - split; [done|]. intros Hx. rewrite (proj2 (contains_num x)) in E by lia. done.
Qed.

Lemma advance_num x :
  addr_num (pf_addr p) <= x <= addr_num (pf_addr p) + 2 ^ host_bits p - 1 ->
  advance p (firstHost p) (with_num (pf_addr p) (usable_hi p)) (with_num (pf_addr p) x)
  = with_num (pf_addr p) (next_num p x).
Proof.
  intros Hx. pose proof usable_range. pose proof block_bound as Hbb. unfold advance, next_num.
  rewrite firstHost_num. unfold Next. rewrite BitLen_with, addr_num_with, with_with by apply pool_valid.
  destruct (x + 1 <? 2 ^ BitLen (pf_addr p)) eqn:E1; bool_to_prop.
  - rewrite compareAddr_num. pose proof (cmpZ_le (x + 1) (usable_hi p)) as Hc.
    destruct (x <? usable_hi p) eqn:E; bool_to_prop.
    + rewrite (proj2 (contains_num (x + 1))) by lia. by rewrite (proj2 (Z.ltb_ge _ _)) by lia.
    + by rewrite (proj2 (Z.ltb_lt _ _)), orb_true_r by lia.
  - rewrite (proj2 (Z.ltb_ge x (usable_hi p))) by lia.
    unfold Prefix_Contains. simpl. by rewrite andb_false_r.
Qed.
End pool.

(** ** The search *)

Lemma orbit_S p k z : orbit p (S k) z = next_num p (orbit p k z).
Proof. revert z. induction k as [|k IH]; intros z; [done|]. cbn [orbit]. by rewrite <- IH. Qed.

Lemma orbit_add p j k z : orbit p (j + k) z = orbit p k (orbit p j z).
Proof. revert z. induction j as [|j IH]; intros z; [done|]. simpl. apply IH. Qed.

Lemma orbit_up p k z : z + Z.of_nat k <= usable_hi p -> orbit p k z = z + Z.of_nat k.
Proof.
  revert z. induction k as [|k IH]; intros z Hk; simpl; [lia|].
  unfold next_num. rewrite (proj2 (Z.ltb_lt _ _)) by lia. rewrite IH; lia.
Qed.

Section search.
Context (p : Prefix) (Hp : masked_ok p) (reserved : option Reserved).

Local Abbreviation addr x := (with_num (pf_addr p) x).
Local Abbreviation in_block z :=
  (addr_num (pf_addr p) <= z <= addr_num (pf_addr p) + 2 ^ host_bits p - 1).

Definition free_num (z : Z) : bool := isUsable p (addr z) && not_reserved reserved (addr z).

Local Abbreviation step := (alloc_step p (firstHost p) (addr (usable_hi p)) reserved).

Lemma next_num_in z : in_block z -> usable_lo p <= next_num p z <= usable_hi p.
Proof.
  intros Hz. pose proof (usable_range p Hp). unfold next_num, usable_lo in *.
  destruct (z <? usable_hi p) eqn:E; bool_to_prop; [|lia].
  destruct (skips_ends p); lia.
Qed.

Lemma orbit_in_block k z : in_block z -> in_block (orbit p k z).
Proof.
  intros Hz. induction k as [|k IH]; [done|]. rewrite orbit_S.
  pose proof (next_num_in _ IH). pose proof (usable_range p Hp). lia.
Qed.

(** Every usable number is met within [usable_hi - usable_lo + 1] steps. *)
Lemma orbit_reaches z y :
  in_block z -> usable_lo p <= y <= usable_hi p ->
  exists k, orbit p k z = y /\ Z.of_nat k <= usable_hi p - usable_lo p + 1.
Proof.
  intros Hz Hy. pose proof (usable_range p Hp).
  assert (usable_lo p - 1 <= z <= usable_hi p + 1) as Hz'.
  { unfold usable_lo, usable_hi in *. destruct (skips_ends p); lia. }
  destruct (decide (z <= y)).
  - exists (Z.to_nat (y - z)). rewrite orbit_up; lia.
  - set (j := Z.to_nat (usable_hi p - z)).
    exists (j + (1 + Z.to_nat (y - usable_lo p)))%nat. split; [|unfold j; lia].
    rewrite !orbit_add. assert (orbit p 1 (orbit p j z) = usable_lo p) as ->.
    { simpl. unfold next_num. rewrite (proj2 (Z.ltb_ge _ _)); [done|].
      destruct (decide (z <= usable_hi p)); [rewrite orbit_up; unfold j; lia|].
      replace j with 0%nat by (unfold j; lia). simpl. lia. }
    rewrite orbit_up; lia.
Qed.

Lemma step_num z s :
  in_block z ->
  step (addr z, s) =
  if s <=? addrCount p then
    if free_num z then inr (Ok (mkAllocation (addr z) (addr (next_num p z))))
    else inl (addr (next_num p z), wrap_int64 (s + 1))
  else inr (Err (ESentinel ErrPoolExhausted)).
Proof. intros Hz. unfold alloc_step, free_num. by rewrite advance_num. Qed.

Lemma addrCount_cases :
  (31 <= host_bits p /\ addrCount p = max_int64)
  \/ (host_bits p < 31 /\ addrCount p = usable_hi p - usable_lo p + 1 /\ 0 < addrCount p < 2 ^ 31).
Proof.
  pose proof (usable_range p Hp). pose proof (pool_host_bits p Hp).
  unfold addrCount. fold (host_bits p) (skips_ends p). destruct (31 <=? host_bits p) eqn:E; bool_to_prop.
  { by left. }
  right. split; [done|]. rewrite Z.shiftl_mul_pow2, Z.mul_1_l by lia.
  assert (2 ^ host_bits p <= 2 ^ 30) by (apply Z.pow_le_mono_r; lia).
  unfold usable_lo, usable_hi in *. destruct (skips_ends p);
    (rewrite (proj2 (Z.ltb_ge _ _)); [|lia]); lia.
Qed.

(** Nothing free among the first [k] candidates: the loop is still running,
    [k] places further, as long as its counter allows. *)
Lemma loop_runs k z s :
  in_block z -> 0 <= s -> s + Z.of_nat k <= addrCount p + 1 -> addrCount p < max_int64 ->
  (forall j, (j < k)%nat -> free_num (orbit p j z) = false) ->
  iter_nat step k (addr z, s) = inl (addr (orbit p k z), s + Z.of_nat k).
Proof.
  revert z s. induction k as [|k IH]; intros z s Hz Hs Hc Hm Hf.
  { cbn [iter_nat orbit]. by rewrite Z.add_0_r. }
  cbn [iter_nat]. rewrite step_num by done. rewrite (proj2 (Z.leb_le _ _)) by lia.
  pose proof (Hf 0%nat ltac:(lia)) as H0. cbn [orbit] in H0. rewrite H0.
  pose proof (next_num_in _ Hz). pose proof (usable_range p Hp).
  rewrite wrap_int64_id by (unfold in_int64, min_int64; unfold max_int64 in *; lia).
  rewrite IH; try lia.
  - cbn [orbit]. do 2 f_equal. lia.
  - intros j Hj. apply (Hf (S j)). lia.
Qed.

(** With a saturated counter bound the loop test never fails. *)
Lemma loop_runs_saturated k z s :
  in_block z -> s <= max_int64 -> addrCount p = max_int64 ->
  (forall j, (j < k)%nat -> free_num (orbit p j z) = false) ->
  exists s', s' <= max_int64 /\ iter_nat step k (addr z, s) = inl (addr (orbit p k z), s').
Proof.
  revert z s. induction k as [|k IH]; intros z s Hz Hs Hc Hf; [by exists s|].
  cbn [iter_nat]. rewrite step_num by done. rewrite Hc, (proj2 (Z.leb_le _ _)) by lia.
  pose proof (Hf 0%nat ltac:(lia)) as H0. cbn [orbit] in H0. rewrite H0.
  pose proof (next_num_in _ Hz). pose proof (usable_range p Hp).
  apply IH; [lia| |done|intros j Hj; apply (Hf (S j)); lia].
  unfold wrap_int64, max_int64. pose proof (Z.mod_pos_bound (s + 1 + 2 ^ 63) (2 ^ 64)). lia.
Qed.

(** The loop returns the first free candidate. *)
Lemma loop_found k z :
  in_block z -> Z.of_nat k <= usable_hi p - usable_lo p + 1 ->
  (forall j, (j < k)%nat -> free_num (orbit p j z) = false) ->
  free_num (orbit p k z) = true ->
  iter_nat step (S k) (addr z, 0) =
  inr (Ok (mkAllocation (addr (orbit p k z)) (addr (next_num p (orbit p k z))))).
Proof.
  intros Hz Hk Hf Hg. replace (S k) with (k + 1)%nat by lia. rewrite iter_nat_add.
  pose proof (orbit_in_block k z Hz) as Ho.
  destruct addrCount_cases as [[_ Hc]|(_ & Hc & Hb)].
  - destruct (loop_runs_saturated k z 0 Hz ltac:(by unfold max_int64) Hc Hf) as (s' & Hs' & ->).
    cbn [iter_nat]. rewrite step_num, Hc, (proj2 (Z.leb_le _ _)), Hg by (done || lia). done.
  - rewrite loop_runs by (done || (unfold max_int64 in *; lia)). cbn [iter_nat].
    rewrite step_num, (proj2 (Z.leb_le _ _)), Hg by (done || lia). done.
Qed.

(** A bounded counter runs out when nothing is free. *)
Lemma loop_exhausted z :
  in_block z -> addrCount p < max_int64 ->
  (forall j, free_num (orbit p j z) = false) ->
  iter_nat step (Z.to_nat (addrCount p + 2)) (addr z, 0) = inr (Err (ESentinel ErrPoolExhausted)).
Proof.
  intros Hz Hm Hf. destruct addrCount_cases as [[_ Hc]|(_ & Hc & Hb)]; [lia|].
  replace (Z.to_nat (addrCount p + 2)) with (Z.to_nat (addrCount p + 1) + 1)%nat by lia.
  rewrite iter_nat_add, loop_runs by (done || lia). cbn [iter_nat].
  rewrite step_num by (apply orbit_in_block; lia). by rewrite (proj2 (Z.leb_gt _ _)) by lia.
Qed.
End search.

(** ** [Allocate] *)

(** The number the search starts from, and the [k]-th candidate after it. *)
Definition start_num (pool : Prefix) (cursor : Addr) : Z :=
  addr_num (start_cursor (Masked pool) cursor).
Definition candidate (pool : Prefix) (cursor : Addr) (k : nat) : Addr :=
  with_num (pf_addr pool) (orbit (Masked pool) k (start_num pool cursor)).

Lemma start_cursor_num p cursor :
  masked_ok p ->
  start_cursor p cursor = with_num (pf_addr p) (addr_num (start_cursor p cursor))
  /\ addr_num (pf_addr p) <= addr_num (start_cursor p cursor)
     <= addr_num (pf_addr p) + 2 ^ host_bits p - 1.
Proof.
  intros Hp. pose proof (usable_range p Hp) as Hr. unfold start_cursor.
  destruct (negb (Addr_IsValid cursor) || negb (Prefix_Contains p cursor)) eqn:E.
  - rewrite (firstHost_num p Hp), addr_num_with by apply Hp. split; [done|lia].
  - bool_to_prop. match goal with H : Prefix_Contains _ _ = true |- _ => rename H into Hc end.
    destruct (Prefix_Contains_family _ _ Hc) as (Hb & Hz & _).
    assert (with_num (pf_addr p) (addr_num cursor) = cursor) as Hw.
    { apply same_family; [done|]. rewrite Hz. apply Hp. }
    split; [done|]. apply (contains_num p Hp). by rewrite Hw.
Qed.

Lemma free_num_spec pool reserved z :
  prefix_ok pool ->
  free_num (Masked pool) reserved z = true <->
  usable pool (with_num (pf_addr pool) z) /\ not_reserved reserved (with_num (pf_addr pool) z) = true.
Proof.
  intros Hpool. pose proof (masked_ok_Masked _ Hpool) as Hp.
  unfold free_num. rewrite andb_true_iff, (isUsable_num _ Hp), !Masked_family by done.
  split; intros [Hu Hn]; (split; [|done]); [by exists z|].
  destruct Hu as (x & Hx & Hr). replace z with x; [done|].
  apply (f_equal addr_num) in Hx. rewrite !addr_num_with in Hx by apply Hpool. done.
Qed.

(** [Allocate] of a valid pool is its loop on the masked pool. *)
Lemma Allocate_loop pool cursor reserved :
  prefix_ok pool ->
  let p := Masked pool in
  Allocate pool cursor reserved =
  match iter_nat (alloc_step p (firstHost p) (with_num (pf_addr p) (usable_hi p)) reserved)
          (Z.to_nat (2 ^ host_bits p + 2)) (with_num (pf_addr p) (start_num pool cursor), 0) with
  | inr r => Some r
  | inl _ => None
  end.
Proof.
  intros Hpool p. pose proof (masked_ok_Masked _ Hpool) as Hp. fold p in Hp.
  unfold Allocate. replace (Prefix_IsValid pool) with true
    by (symmetry; apply Z.leb_le; apply Hpool).
  cbn [negb]. fold p. rewrite (lastHost_num p Hp), iter_until_nat.
  destruct (start_cursor_num p cursor Hp) as [Hs _]. unfold start_num. fold p. rewrite <- Hs.
  unfold alloc_fuel. pose proof (pool_host_bits p Hp).
  replace (Pos.to_nat (Z.to_pos (2 ^ host_bits p + 2))) with (Z.to_nat (2 ^ host_bits p + 2)); [done|].
  rewrite <- (Z2Pos.id (2 ^ host_bits p + 2)) at 1 by lia. apply Z2Nat.inj_pos.
Qed.

Lemma Masked_host_bits pool : prefix_ok pool -> host_bits (Masked pool) = host_bits pool.
Proof.
  intros (_ & _ & _ & Hb). unfold Masked, Prefix_IsValid.
  rewrite (proj2 (Z.leb_le _ _)) by lia. unfold host_bits. simpl. by rewrite BitLen_with.
Qed.

Lemma free_none pool reserved :
  prefix_ok pool -> (forall a, usable pool a -> not_reserved reserved a = false) ->
  forall z, free_num (Masked pool) reserved z = false.
Proof.
  intros Hpool Hall z. destruct (free_num _ _ z) eqn:E; [|done].
  apply free_num_spec in E as [Hu Hn]; [|done]. by rewrite Hall in Hn.
Qed.

Lemma Allocate_search pool cursor reserved :
  prefix_ok pool ->
  (exists a, usable pool a /\ not_reserved reserved a = true) ->
  exists k,
    Allocate pool cursor reserved
      = Some (Ok (mkAllocation (candidate pool cursor k) (candidate pool cursor (S k))))
    /\ free_num (Masked pool) reserved (orbit (Masked pool) k (start_num pool cursor)) = true
    /\ forall j, (j < k)%nat ->
         free_num (Masked pool) reserved (orbit (Masked pool) j (start_num pool cursor)) = false.
Proof.
  intros Hpool (a & (y & -> & Hy) & Hn). pose proof (masked_ok_Masked _ Hpool) as Hp.
  destruct (start_cursor_num _ cursor Hp) as [_ Hz]. fold (start_num pool cursor) in Hz.
  destruct (first_true (fun k => free_num (Masked pool) reserved (orbit (Masked pool) k (start_num pool cursor)))
    (Z.to_nat (usable_hi (Masked pool) - usable_lo (Masked pool) + 1))) as (k & Hk & Hg & Hmin).
  { destruct (orbit_reaches _ Hp _ y Hz Hy) as (k & Hk & Hle). exists k. split; [lia|].
    rewrite Hk. apply free_num_spec; [done|]. split; [by exists y|done]. }
  exists k. split_and!; [|done..]. pose proof (usable_range _ Hp). pose proof (pool_host_bits _ Hp).
  rewrite Allocate_loop by done. unfold candidate. rewrite orbit_S, <- !(Masked_family pool Hpool).
  by rewrite (iter_nat_mono _ (S k) _ _ _ (loop_found _ Hp reserved k _ Hz ltac:(lia) Hmin Hg)) by lia.
Qed.

Lemma isUsable_usable pool a :
  prefix_ok pool -> isUsable (Masked pool) a = true -> usable pool a.
Proof.
  intros Hpool Hu. pose proof (masked_ok_Masked _ Hpool) as Hp.
  assert (Hc : Prefix_Contains (Masked pool) a = true).
  { unfold isUsable in Hu. by destruct (Prefix_Contains (Masked pool) a). }
  apply Prefix_Contains_family in Hc as (Hb & Hz & _).
  assert (Ha : with_num (pf_addr (Masked pool)) (addr_num a) = a).
  { apply same_family; [done|]. rewrite Hz. apply Hp. }
  rewrite <- Ha in Hu. apply (isUsable_num _ Hp) in Hu.
  exists (addr_num a). split; [|done]. by rewrite <- (Masked_family pool Hpool), Ha.
Qed.

(** Whatever [Allocate] returns is usable and not reserved. *)
Lemma Allocate_Ok pool cursor reserved al :
  prefix_ok pool -> Allocate pool cursor reserved = Some (Ok al) ->
  usable pool (Address al) /\ not_reserved reserved (Address al) = true.
Proof.
  intros Hpool. rewrite Allocate_loop by done. destruct (iter_nat _ _ _) eqn:E; [done|]. intros [= ->].
  apply iter_nat_inr in E as ([a n] & Hs). unfold alloc_step in Hs. destruct (_ <=? _); [|done].
  destruct (isUsable _ a && _) eqn:Eu; [|done]. injection Hs as <-. bool_to_prop.
  split; [by apply isUsable_usable|done].
Qed.

Lemma Allocate_error pool cursor reserved e :
  Allocate pool cursor reserved = Some (Err e) -> e = ESentinel ErrPoolExhausted \/ exists m, e = EMsg m.
Proof.
  unfold Allocate. destruct (negb _); [intros [= <-]; eauto|]. cbv zeta.
  destruct (lastHost _) as [last|e'] eqn:El.
  - rewrite iter_until_nat. destruct (iter_nat _ _ _) as [?|r] eqn:Ei; [done|]. intros [= ->].
    apply iter_nat_inr in Ei as ([a n] & H). unfold alloc_step in H.
    destruct (_ <=? _); [|injection H as <-; by left]. by destruct (_ && _).
  - intros [= <-]. right. unfold lastHost in El. repeat case_match; simplify_eq; eauto.
Qed.

Lemma usable_valid pool a :
  prefix_ok pool -> usable pool a -> addr_ok a /\ Addr_IsValid a = true /\ addr_zone a = [].
Proof.
  intros Hpool (x & -> & Hx). pose proof (masked_ok_Masked _ Hpool) as Hp.
  pose proof (usable_range _ Hp). pose proof (block_bound _ Hp) as Hb.
  destruct Hpool as (Ha & Hv & Hz & Hbits). unfold addr_ok. rewrite addr_num_with, BitLen_with, zone_with by done.
  assert (BitLen (pf_addr (Masked pool)) = BitLen (pf_addr pool)) as HB.
  { unfold Masked, Prefix_IsValid. rewrite (proj2 (Z.leb_le _ _)) by lia. apply BitLen_with. }
  rewrite HB in Hb. split_and!; [lia|lia|by destruct (pf_addr pool)|done].
Qed.

(** C6: (Completeness and determinism of the allocator.) Whenever a valid pool
    has a usable address that is not reserved, [Allocate] returns, and what it
    returns is the first usable unreserved address met when going cyclically
    round the pool from the cursor, with the address after it as the next
    cursor.  This covers a cursor outside the pool, on the network or on the
    broadcast address, and pools of every size of both families. *)
Theorem Allocate_first_free pool cursor reserved :
  prefix_ok pool ->
  (exists a, usable pool a /\ not_reserved reserved a = true) ->
  exists k,
    Allocate pool cursor reserved
      = Some (Ok (mkAllocation (candidate pool cursor k) (candidate pool cursor (S k))))
    /\ usable pool (candidate pool cursor k)
    /\ not_reserved reserved (candidate pool cursor k) = true
    /\ forall j, (j < k)%nat ->
         ~ (usable pool (candidate pool cursor j)
            /\ not_reserved reserved (candidate pool cursor j) = true).
Proof.
  intros Hpool Hex. destruct (Allocate_search pool cursor reserved Hpool Hex) as (k & Hk & Hg & Hmin).
  exists k. apply free_num_spec in Hg as [Hu Hn]; [|done]. split_and!; [done..|].
  intros j Hj Hc. apply free_num_spec in Hc; [|done]. by rewrite (Hmin j Hj) in Hc.
Qed.

Lemma Allocate_first_free_witness :
  exists k, Allocate (mkPrefix (A4 0x0a080000) 30) AInvalid
              (Some (NewReservedSet [A4 0x0a080001]))
            = Some (Ok (mkAllocation (candidate (mkPrefix (A4 0x0a080000) 30) AInvalid k)
                                     (candidate (mkPrefix (A4 0x0a080000) 30) AInvalid (S k)))).
Proof.
  destruct (Allocate_first_free (mkPrefix (A4 0x0a080000) 30) AInvalid
              (Some (NewReservedSet [A4 0x0a080001]))) as (k & Hk & _).
  - apply (bool_decide_unpack _). vm_compute. exact I.
  - exists (A4 0x0a080002). split; [|reflexivity]. exists 0x0a080002.
    split; [reflexivity|]. vm_compute. split; discriminate.
  - exists k. exact Hk.
Defined.

(** (Exhaustion.) For a pool of fewer than 2^31 addresses the loop always
    ends, and [Allocate] reports an exhausted pool exactly when every usable
    address is reserved. *)
Theorem Allocate_exhausted pool cursor reserved :
  prefix_ok pool -> host_bits pool < 31 ->
  Allocate pool cursor reserved = Some (Err (ESentinel ErrPoolExhausted)) <->
  forall a, usable pool a -> not_reserved reserved a = false.
Proof.
  intros Hpool Hh. pose proof (masked_ok_Masked _ Hpool) as Hp.
  destruct (start_cursor_num _ cursor Hp) as [_ Hz]. fold (start_num pool cursor) in Hz.
  split.
  - intros He a Ha. destruct (not_reserved reserved a) eqn:En; [|done].
    destruct (Allocate_search pool cursor reserved Hpool) as (k & Hal & _); [by exists a|].
    rewrite Hal in He. discriminate He.
  - intros Hall. assert (Hc : addrCount (Masked pool) < max_int64 /\ addrCount (Masked pool) + 2 <= 2 ^ host_bits (Masked pool) + 2).
    { pose proof (usable_range _ Hp). destruct (addrCount_cases _ Hp) as [[? _]|(_ & -> & ?)]; [|unfold max_int64; lia].
      pose proof (Masked_host_bits _ Hpool). lia. }
    rewrite Allocate_loop by done.
    rewrite (iter_nat_mono _ _ _ _ _ (loop_exhausted _ Hp reserved _ Hz (proj1 Hc) (fun j => free_none _ _ Hpool Hall _)));
      [done|lia].
Qed.

Lemma Allocate_exhausted_witness :
  Allocate (mkPrefix (A4 0x0a080000) 30) (A4 0x0a080003)
    (Some (NewReservedSet [A4 0x0a080001; A4 0x0a080002])) = Some (Err (ESentinel ErrPoolExhausted)).
Proof.
  apply (Allocate_exhausted (mkPrefix (A4 0x0a080000) 30) (A4 0x0a080003)
    (Some (NewReservedSet [A4 0x0a080001; A4 0x0a080002]))).
  - apply (bool_decide_unpack _). vm_compute. exact I.
  - vm_compute. reflexivity.
  - intros a (x & -> & Hx).
    assert (usable_lo (Masked (mkPrefix (A4 0x0a080000) 30)) = 0x0a080001) as H1 by (vm_compute; reflexivity).
    assert (usable_hi (Masked (mkPrefix (A4 0x0a080000) 30)) = 0x0a080002) as H2 by (vm_compute; reflexivity).
    rewrite H1, H2 in Hx.
    assert (x = 0x0a080001 \/ x = 0x0a080002) as [-> | ->] by lia; vm_compute; reflexivity.
Defined.

(** (Unbounded search.) A pool of 2^31 addresses or more saturates the
    counter bound at [math.MaxInt], which the wrapping 64-bit counter never
    exceeds: when all usable addresses of such a pool are reserved, the loop is
    still running after any number of iterations, so [Allocate] never returns
    [ErrPoolExhausted]. *)
Theorem Allocate_saturated_diverges pool cursor reserved :
  prefix_ok pool -> 31 <= host_bits pool ->
  (forall a, usable pool a -> not_reserved reserved a = false) ->
  let p := Masked pool in
  exists last, lastHost p = Ok last /\
  forall n, exists st,
    iter_nat (alloc_step p (firstHost p) last reserved) n (start_cursor p cursor, 0) = inl st.
Proof.
  intros Hpool Hh Hall p. pose proof (masked_ok_Masked _ Hpool) as Hp. fold p in Hp.
  exists (with_num (pf_addr p) (usable_hi p)). split; [by apply lastHost_num|]. intros n.
  destruct (start_cursor_num p cursor Hp) as [Hs Hz].
  destruct (loop_runs_saturated p Hp reserved n _ 0 Hz) as (s & _ & Hr); [done| | |].
  - destruct (addrCount_cases p Hp) as [[_ ?]|(Hlt & _)]; [done|].
    unfold p in Hlt. rewrite Masked_host_bits in Hlt; [lia|done].
  - intros j _. by apply free_none.
  - rewrite <- Hs in Hr. by eexists.
Qed.

Lemma Allocate_saturated_diverges_witness :
  exists last, lastHost (Masked (mkPrefix (A6 0 []) 64)) = Ok last /\
  forall n, exists st,
    iter_nat (alloc_step (Masked (mkPrefix (A6 0 []) 64)) (firstHost (Masked (mkPrefix (A6 0 []) 64)))
                last (Some (mkReserved (fun _ => true)))) n
      (start_cursor (Masked (mkPrefix (A6 0 []) 64)) AInvalid, 0) = inl st.
Proof.
  apply (Allocate_saturated_diverges (mkPrefix (A6 0 []) 64) AInvalid (Some (mkReserved (fun _ => true)))).
  - apply (bool_decide_unpack _). vm_compute. exact I.
  - vm_compute. discriminate.
  - reflexivity.
Defined.
