(* ===== verification/AwgConfig.v ===== *)
(** * AwgConfig: reading and patching AmneziaWG config text ([awg/config.go])

    [InterfaceValue] looks a key up in the [[Interface]] section,
    [WithInterfaceValue] inserts one that is missing,
    [PreserveInterfacePrivateKey] carries the runtime's private key into a
    rendered config, [sanitizeSyncConf] drops blank special-junk lines.  The
    first part holds the facts about "key = value" lines that the renderer and
    the config parser share. *)

From S2P Require Import Prelude GoStrings.

(** ** Model *)

(** [line == "" || strings.HasPrefix(line, "#")] *)
Definition skipped (line : bytes) : bool := bool_decide (line = []) || HasPrefix line #"#".

(** [strings.HasPrefix(line, "[") && strings.HasSuffix(line, "]")] *)
Definition bracketed (line : bytes) : bool := HasPrefix line #"[" && HasSuffix line #"]".

(** One turn of the loop of [InterfaceValue]: the section after the line, or
    the value the function returns. *)
Definition iv_step (want section raw : bytes) : bytes + bytes :=
  let line := TrimSpace raw in
  if skipped line then inl section
  else if bracketed line then inl (ToLower (TrimSpace (Trim line #"[]")))
  else if negb (bool_decide (section = #"interface")) then inl section
  else match Cut line "="%char with
       | None => inl section
       | Some (k, v) =>
           if bool_decide (ToLower (TrimSpace k) = want) then inr (TrimSpace v) else inl section
       end.

Fixpoint iv_run (want section : bytes) (lines : list bytes) : bytes + bytes :=
  match lines with
  | [] => inl section
  | raw :: lines =>
      match iv_step want section raw with
      | inl section => iv_run want section lines
      | inr v => inr v
      end
  end.

Definition InterfaceValue (config key : bytes) : bytes :=
  match iv_run (ToLower (TrimSpace key)) [] (Split config nl) with
  | inl _ => []
  | inr v => v
  end.

Definition interface_line (line : bytes) : bool := EqualFold (TrimSpace line) #"[Interface]".

(** The loop of [WithInterfaceValue]: insert after the first [[Interface]] line. *)
Fixpoint insert_after_header (insert : bytes) (lines : list bytes) : option (list bytes) :=
  match lines with
  | [] => None
  | line :: rest =>
      if interface_line line then Some (line :: insert :: rest)
      else cons line <$> insert_after_header insert rest
  end.

Definition WithInterfaceValue (config key value : bytes) : bytes :=
  if bool_decide (TrimSpace value = []) || negb (bool_decide (InterfaceValue config key = []))
  then config
  else
    let insert := key ++ #" = " ++ value ++ [nl] in
    match insert_after_header insert (SplitAfter config nl) with
    | Some out => concat out
    | None => #"[Interface]" ++ [nl] ++ key ++ #" = " ++ value ++ [nl] ++ config
    end.

Definition PreserveInterfacePrivateKey (config currentConfig : bytes) : bytes :=
  let value := InterfaceValue currentConfig #"PrivateKey" in
  if EqualFold (TrimSpace value) #"(redacted)" then config
  else WithInterfaceValue config #"PrivateKey" value.

Definition isEmptySpecialJunkLine (raw : bytes) : bool :=
  let line := TrimSpace raw in
  if skipped line then false
  else match Cut line "="%char with
       | None => false
       | Some (key, value) =>
           if bool_decide (ToLower (TrimSpace key) ∈ [ #"i1"; #"i2"; #"i3"; #"i4"; #"i5" ])
           then bool_decide (TrimSpace value = [])
           else false
       end.

Definition sanitizeSyncConf (config : bytes) : bytes :=
  concat (filter (fun raw => isEmptySpecialJunkLine raw = false) (SplitAfter config nl)).

(** ** Key = value lines *)

Definition kv_line (k v : bytes) : bytes := k ++ #" = " ++ v.

(** A key a config line can start with. *)
Definition key_ok (k : bytes) : Prop :=
  solid k /\ (nl ∉ k) /\ ("="%char ∉ k) /\ head k <> Some "#"%char /\ head k <> Some "["%char.

#[export] Instance solid_dec s : Decision (solid s).
Proof.
  refine (cast_if (decide (solidb s = true))); [by apply solidb_solid|].
  abstract (intros [(c & Hc & Sc) (d & Hd & Sd)]; apply n; unfold solidb; rewrite Hc, Hd;
    by rewrite !bool_decide_eq_true_2).
Defined.

#[export] Instance key_ok_dec k : Decision (key_ok k).
Proof. unfold key_ok. apply _. Defined.

#[export] Instance line_ok_dec k : Decision (line_ok k).
Proof. unfold line_ok. apply _. Defined.

Lemma HasPrefix_single s c : HasPrefix s [c] = true <-> head s = Some c.
Proof.
  destruct s as [|d s]; cbn [HasPrefix head]; [split; done|].
  rewrite andb_true_iff, ascii_eqb_true. split; [intros [-> _]; done|]. intros [= ->].
  split; [done|]. by destruct s.
Qed.

Lemma skipped_false s : s <> [] -> head s <> Some "#"%char -> skipped s = false.
Proof.
  intros Hs Hh. unfold skipped. rewrite bool_decide_eq_false_2 by done. simpl.
  destruct (HasPrefix s #"#") eqn:E; [|done]. by apply HasPrefix_single in E.
Qed.

Lemma bracketed_false s : head s <> Some "["%char -> bracketed s = false.
Proof.
  intros Hh. unfold bracketed. destruct (HasPrefix s #"[") eqn:E; [|done].
  by apply HasPrefix_single in E.
Qed.

Section kv.
Context (k v : bytes) (Hk : key_ok k) (Hv : solid v).

Lemma kv_solid : solid (kv_line k v).
Proof. by apply solid_app; [apply Hk|]. Qed.

Lemma kv_head : head (kv_line k v) = head k.
Proof. destruct Hk as [Hs _]. unfold kv_line. by destruct k; [apply solid_not_nil in Hs|]. Qed.

Lemma kv_TrimSpace : TrimSpace (kv_line k v) = kv_line k v.
Proof. apply TrimSpace_solid, kv_solid. Qed.

Lemma kv_skipped : skipped (kv_line k v) = false.
Proof.
  apply skipped_false; [apply solid_not_nil, kv_solid|]. rewrite kv_head. apply Hk.
Qed.

Lemma kv_bracketed : bracketed (kv_line k v) = false.
Proof. apply bracketed_false. rewrite kv_head. apply Hk. Qed.

Lemma kv_Cut : Cut (kv_line k v) "="%char = Some (k ++ #" ", #" " ++ v).
Proof.
  unfold kv_line. change #" = " with (#" " ++ "="%char :: #" "). rewrite <- app_assoc, app_assoc.
  apply Cut_app. rewrite elem_of_app. intros [?|?]; [by destruct Hk as (_ & _ & ? & _)|].
  set_solver.
Qed.

Lemma kv_key : TrimSpace (k ++ #" ") = k.
Proof. change #" " with [ " "%char ]. rewrite TrimSpace_snoc by done. apply TrimSpace_solid, Hk. Qed.

Lemma kv_value : TrimSpace (#" " ++ v) = v.
Proof. change (#" " ++ v) with (" "%char :: v). rewrite TrimSpace_cons by done. by apply TrimSpace_solid. Qed.

Lemma kv_no_nl : nl ∉ v -> nl ∉ kv_line k v.
Proof.
  destruct Hk as (_ & Hn & _). unfold kv_line. rewrite !elem_of_app. intros Hnv [?|[Hc|?]]; try done.
  revert Hc. apply (bool_decide_unpack _). by vm_compute.
Qed.
End kv.

(** ** Scanning lines *)

Lemma iv_run_app want sec a b :
  iv_run want sec (a ++ b) =
  match iv_run want sec a with inl sec => iv_run want sec b | inr v => inr v end.
Proof.
  revert sec. induction a as [|l a IH]; intros sec; [done|]. cbn [app iv_run].
  destruct (iv_step want sec l); [apply IH|done].
Qed.

(** The trailing newline of a line is white space. *)
Lemma TrimSpace_nl s : TrimSpace (s ++ [nl]) = TrimSpace s.
Proof. by apply TrimSpace_snoc. Qed.

Lemma iv_step_kv want k v :
  key_ok k -> solid v ->
  iv_step want #"interface" (kv_line k v)
  = if bool_decide (ToLower k = want) then inr v else inl #"interface".
Proof.
  intros Hk Hv. unfold iv_step.
  by rewrite kv_TrimSpace, kv_skipped, kv_bracketed, kv_Cut, kv_key, kv_value by done.
Qed.

(** The bytes that fold to [d]. *)
Definition folds_to (d : ascii) : list ascii :=
  filter (fun c => lower_byte c = d) (ascii_of_nat <$> seq 0 256).

Lemma folds_to_spec c d : lower_byte c = d -> c ∈ folds_to d.
Proof.
  intros H. unfold folds_to. apply list_elem_of_filter. split; [done|].
  apply list_elem_of_fmap. exists (nat_of_ascii c). split; [by rewrite ascii_nat_embedding|].
  apply elem_of_seq. pose proof (nat_ascii_bounded c). lia.
Qed.

(** All texts that fold to [l]. *)
Fixpoint spellings (l : bytes) : list bytes :=
  match l with
  | [] => [[]]
  | d :: l => folds_to d ≫= fun c => cons c <$> spellings l
  end.

Lemma spellings_spec s l : lower_byte <$> s = l -> s ∈ spellings l.
Proof.
  revert l. induction s as [|c s IH]; intros l <-; cbn [fmap list_fmap spellings]; [set_solver|].
  apply list_elem_of_bind. exists c. split; [|by apply folds_to_spec].
  apply list_elem_of_fmap. exists s. split; [done|]. by apply IH.
Qed.

Definition opens_interface (s : bytes) : bool :=
  negb (skipped s) && bracketed s && bool_decide (ToLower (TrimSpace (Trim s #"[]")) = #"interface").

(** Every spelling of [[Interface]] opens the interface section. *)
Lemma interface_spelling s :
  EqualFold s #"[Interface]" = true ->
  skipped s = false /\ bracketed s = true /\ ToLower (TrimSpace (Trim s #"[]")) = #"interface".
Proof.
  unfold EqualFold. intros H. apply bool_decide_eq_true, spellings_spec in H.
  assert (Hall : forallb opens_interface (spellings (lower_byte <$> #"[Interface]")) = true)
    by (vm_compute; reflexivity).
  rewrite forallb_forall in Hall. apply list_elem_of_In, Hall in H.
  unfold opens_interface in H. by bool_to_prop.
Qed.

Lemma iv_step_interface want sec h :
  interface_line h = true -> iv_step want sec h = inl #"interface".
Proof.
  intros H. apply interface_spelling in H as (H1 & H2 & H3). unfold iv_step. by rewrite H1, H2, H3.
Qed.

(** ** Insertion *)

(** A line that opens the interface section in a spelling the patcher does not
    look for, such as [[ Interface ]]. *)
Definition odd_header (raw : bytes) : bool :=
  let line := TrimSpace raw in
  negb (skipped line) && bracketed line
  && bool_decide (ToLower (TrimSpace (Trim line #"[]")) = #"interface")
  && negb (interface_line raw).

(** The config has an [[Interface]] line that ends with a newline, and none in
    an odd spelling: what the renderer, [awg showconf] and the provisioner
    produce. *)
Definition well_sectioned (config : bytes) : Prop :=
  (exists l, l ∈ removelast (Split config nl) /\ interface_line l = true)
  /\ Forall (fun l => odd_header l = false) (Split config nl).

#[export] Instance well_sectioned_dec config : Decision (well_sectioned config).
Proof.
  refine (cast_if_and (decide (Exists (fun l => interface_line l = true) (removelast (Split config nl))))
            (decide (Forall (fun l => odd_header l = false) (Split config nl)))).
  - abstract (split; [apply Exists_exists in e as (l & ? & ?); by exists l|done]).
  - abstract (by intros [_ ?]).
  - abstract (intros [(l & ? & ?) _]; apply n; apply Exists_exists; by exists l).
Defined.

Lemma insert_after_header_spec ins a h b :
  Forall (fun l => interface_line l = false) a -> interface_line h = true ->
  insert_after_header ins (a ++ h :: b) = Some (a ++ h :: ins :: b).
Proof.
  intros Ha Hh. induction Ha as [|x a Hx Ha IH]; simpl; [by rewrite Hh|]. by rewrite Hx, IH.
Qed.

(** The first line a boolean test accepts. *)
Lemma first_split {A} (f : A -> bool) l :
  (exists x, x ∈ l /\ f x = true) ->
  exists a x b, l = a ++ x :: b /\ Forall (fun y => f y = false) a /\ f x = true.
Proof.
  induction l as [|y l IH]; intros (x & Hx & Hf); [by apply elem_of_nil in Hx|].
  destruct (f y) eqn:Ey; [by exists [], y, l|].
  destruct IH as (a & z & b & -> & Ha & Hz).
  { exists x. apply elem_of_cons in Hx as [->|Hx]; [congruence|done]. }
  exists (y :: a), z, b. split; [done|]. split; [by constructor|done].
Qed.

(** A config with an [[Interface]] line, split around its first one. *)
Lemma well_sectioned_split config :
  well_sectioned config ->
  exists a h b r,
    config = unlines (a ++ h :: b) ++ r /\ Forall (fun l => nl ∉ l) (a ++ h :: b) /\ (nl ∉ r)
    /\ SplitAfter config nl = ((fun l => l ++ [nl]) <$> (a ++ h :: b)) ++ [r]
    /\ Forall (fun l => interface_line l = false /\ odd_header l = false) a /\ interface_line h = true.
Proof.
  intros [Hex Hodd]. destruct (text_lines config) as (ls & r & Hc & Hls & Hr & Hs & Ha).
  rewrite Hs, removelast_last in *. apply first_split in Hex as (a & h & b & -> & Hna & Hh).
  exists a, h, b, r. split_and!; try done. apply Forall_app in Hodd as [Hodd _].
  apply Forall_app in Hodd as [Hodd _]. apply Forall_and. split; done.
Qed.

(** With no interface header among the lines, the section never becomes the
    interface section and no value is returned. *)
Lemma iv_run_outside want sec a :
  sec <> #"interface" -> Forall (fun l => interface_line l = false /\ odd_header l = false) a ->
  exists sec', iv_run want sec a = inl sec'.
Proof.
  intros Hsec Ha. revert sec Hsec. induction Ha as [|l a [Hi Ho] Ha IH]; intros sec Hsec; [by exists sec|].
  cbn [iv_run]. unfold iv_step. unfold odd_header in Ho. rewrite Hi in Ho.
  destruct (skipped (TrimSpace l)); [by apply IH|]. destruct (bracketed (TrimSpace l)).
  - apply IH. simpl in Ho. intros E. by rewrite bool_decide_eq_true_2 in Ho.
  - rewrite bool_decide_eq_false_2 by done. by apply IH.
Qed.

(** The lines of a patched config are the old lines with the new one after the
    first header. *)
Lemma WithInterfaceValue_lines config key value :
  well_sectioned config -> key_ok key -> TrimSpace value <> [] -> (nl ∉ value) -> InterfaceValue config key = [] ->
  exists a h b r,
    Split config nl = (a ++ h :: b) ++ [r]
    /\ Split (WithInterfaceValue config key value) nl = (a ++ h :: kv_line key value :: b) ++ [r]
    /\ Forall (fun l => interface_line l = false /\ odd_header l = false) a /\ interface_line h = true.
Proof.
  intros Hw Hk Hs Hn Hv. destruct (well_sectioned_split _ Hw) as (a & h & b & r & Hc & Hls & Hr & Ha & Hna & Hh).
  exists a, h, b, r. split; [by rewrite Hc, Split_unlines_last|].
  split; [|done]. unfold WithInterfaceValue. rewrite Hv.
  rewrite bool_decide_eq_false_2 by done. cbn [orb negb].
  rewrite bool_decide_eq_true_2 by done. cbn [negb].
  rewrite Ha, fmap_app, fmap_cons, <- app_assoc. cbn [app].
  rewrite insert_after_header_spec.
  - rewrite concat_app. cbn [concat]. rewrite concat_app. cbn [concat]. rewrite app_nil_r.
    rewrite <- (Split_unlines_last (a ++ h :: kv_line key value :: b) r).
    + f_equal. rewrite unlines_app, !unlines_cons. unfold unlines, kv_line.
      rewrite <- !app_assoc. cbn [app]. by rewrite <- !app_assoc.
    + apply Forall_app in Hls as [? Hb]. inversion_clear Hb. apply Forall_app. split; [done|].
      constructor; [done|]. constructor; [by apply kv_no_nl|done].
    + done.
  - apply Forall_fmap. eapply Forall_impl; [exact Hna|]. intros l [Hl _]. simpl.
    unfold interface_line in *. by rewrite TrimSpace_nl.
  - unfold interface_line in *. by rewrite TrimSpace_nl.
Qed.

Lemma iv_run_patched want sec a h b key value :
  Forall (fun l => interface_line l = false /\ odd_header l = false) a -> interface_line h = true ->
  key_ok key -> solid value -> sec <> #"interface" ->
  iv_run want sec (a ++ h :: kv_line key value :: b) =
  if bool_decide (ToLower key = want) then inr value else iv_run want sec (a ++ h :: b).
Proof.
  intros Ha Hh Hk Hv Hsec. rewrite !iv_run_app.
  destruct (iv_run_outside want sec a Hsec Ha) as (sec' & ->).
  cbn [iv_run]. rewrite !iv_step_interface, iv_step_kv by done. by case_bool_decide.
Qed.

Lemma InterfaceValue_patched config key value key' :
  well_sectioned config -> key_ok key -> line_ok value -> InterfaceValue config key = [] ->
  InterfaceValue (WithInterfaceValue config key value) key' =
  if bool_decide (ToLower key = ToLower (TrimSpace key')) then value else InterfaceValue config key'.
Proof.
  intros Hw Hk Hv He.
  assert (Ht : TrimSpace value <> []) by (rewrite TrimSpace_solid by apply Hv; apply solid_not_nil, Hv).
  destruct (WithInterfaceValue_lines _ _ _ Hw Hk Ht (proj2 Hv) He) as (a & h & b & r & Hs & Hs' & Ha & Hh).
  unfold InterfaceValue at 1. rewrite Hs', <- app_assoc. cbn [app].
  rewrite iv_run_patched by (done || apply Hv). case_bool_decide; [done|].
  unfold InterfaceValue. by rewrite Hs, <- app_assoc.
Qed.

(** A value is a part of one line. *)
Lemma iv_run_no_nl want sec ls v :
  iv_run want sec ls = inr v -> Forall (fun l => nl ∉ l) ls -> nl ∉ v.
Proof.
  intros H Hls. revert sec H. induction Hls as [|l ls Hl Hls IH]; intros sec; simpl; [done|].
  destruct (iv_step _ sec l) as [sec'|v'] eqn:E; [apply IH|]. intros [= <-].
  unfold iv_step in E. destruct (skipped _); [done|]. destruct (bracketed _); [done|].
  destruct (negb _); [done|]. destruct (Cut (TrimSpace l) "="%char) as [[k x]|] eqn:Ec; [|done].
  case_bool_decide; [|done]. injection E as <-. intros Hin. apply Hl.
  apply TrimSpace_incl in Hin. apply Cut_Some in Ec as [Ec _].
  apply TrimSpace_incl. rewrite Ec. set_solver.
Qed.

Lemma InterfaceValue_no_nl config key : nl ∉ InterfaceValue config key.
Proof.
  unfold InterfaceValue. destruct (iv_run _ _ _) as [?|v] eqn:E; [set_solver|].
  eapply iv_run_no_nl; [exact E|apply Split_pieces].
Qed.

Lemma WithInterfaceValue_present config key value :
  InterfaceValue config key <> [] -> WithInterfaceValue config key value = config.
Proof.
  intros H. unfold WithInterfaceValue. by rewrite (bool_decide_eq_false_2 _ H), orb_true_r.
Qed.

(** (Insert/lookup.) On a config with a terminated [[Interface]] line,
    inserting a missing key makes a lookup of that key, in any letter case and
    with any surrounding blanks, return the inserted value, leaves every other
    key's lookup unchanged, and makes any later insertion of the key a no-op. *)
Theorem WithInterfaceValue_lookup config key value :
  well_sectioned config -> key_ok key -> line_ok value -> InterfaceValue config key = [] ->
  (forall key', InterfaceValue (WithInterfaceValue config key value) key' =
     if bool_decide (ToLower key = ToLower (TrimSpace key')) then value
     else InterfaceValue config key')
  /\ forall value', WithInterfaceValue (WithInterfaceValue config key value) key value'
                    = WithInterfaceValue config key value.
Proof.
  intros Hw Hk Hv He. split; [intros; by apply InterfaceValue_patched|].
  intros value'. apply WithInterfaceValue_present. rewrite InterfaceValue_patched by done.
  rewrite (TrimSpace_solid key) by apply Hk. rewrite bool_decide_eq_true_2 by done.
  apply solid_not_nil, Hv.
Qed.

Lemma WithInterfaceValue_lookup_witness :
  let config := #"# note" ++ [nl] ++ #"[interface]" ++ [nl] ++ #"ListenPort = 51820" ++ [nl] in
  InterfaceValue (WithInterfaceValue config #"PrivateKey" #"abc=") #" PRIVATEkey" = #"abc=".
Proof.
  intros config.
  destruct (WithInterfaceValue_lookup config #"PrivateKey" #"abc=") as [H _].
  - apply (bool_decide_unpack _). vm_compute. exact I.
  - apply (bool_decide_unpack _). vm_compute. exact I.
  - apply (bool_decide_unpack _). vm_compute. exact I.
  - vm_compute. reflexivity.
  - rewrite H. vm_compute. reflexivity.
Defined.

(** (Private key survives a sync.) Patching a rendered config with the
    running interface's config makes its private key the rendered one when there
    is one, otherwise the running one, and never the redaction marker of a
    sanitized config; no other key of the interface changes. *)
Theorem PreserveInterfacePrivateKey_spec config current :
  let cur := InterfaceValue current #"PrivateKey" in
  well_sectioned config -> (cur = [] \/ line_ok cur) ->
  InterfaceValue (PreserveInterfacePrivateKey config current) #"PrivateKey"
  = (if bool_decide (InterfaceValue config #"PrivateKey" = [])
     then if EqualFold cur #"(redacted)" then [] else cur
     else InterfaceValue config #"PrivateKey")
  /\ forall key', ToLower (TrimSpace key') <> #"privatekey" ->
       InterfaceValue (PreserveInterfacePrivateKey config current) key' = InterfaceValue config key'.
Proof.
  intros cur Hw Hcur. unfold PreserveInterfacePrivateKey. fold cur.
  assert (TrimSpace cur = cur) as -> by (destruct Hcur as [->|[? _]]; [done|by apply TrimSpace_solid]).
  case_bool_decide as E; [|rewrite WithInterfaceValue_present by done; by case_match].
  destruct (EqualFold cur #"(redacted)"); [done|].
  destruct Hcur as [->|Hc]; [done|].
  assert (Hk : key_ok #"PrivateKey") by (apply (bool_decide_unpack _); by vm_compute).
  split; [by rewrite InterfaceValue_patched|]. intros key' Hne. rewrite InterfaceValue_patched by done.
  by rewrite bool_decide_eq_false_2 by (change (ToLower #"PrivateKey") with #"privatekey"; congruence).
Qed.

Lemma PreserveInterfacePrivateKey_spec_witness :
  let config := #"[Interface]" ++ [nl] ++ #"ListenPort = 51820" ++ [nl] in
  let current := #"[Interface]" ++ [nl] ++ #"PrivateKey = abc=" ++ [nl] in
  InterfaceValue (PreserveInterfacePrivateKey config current) #"PrivateKey" = #"abc=".
Proof.
  intros config current.
  destruct (PreserveInterfacePrivateKey_spec config current) as [H _].
  - apply (bool_decide_unpack _). vm_compute. exact I.
  - right. apply (bool_decide_unpack _). vm_compute. exact I.
  - rewrite H. vm_compute. reflexivity.
Defined.

(** A config with the running private key carried into it any number of times. *)
Inductive carried (cfg : bytes) : bytes -> Prop :=
| carried_refl : carried cfg cfg
| carried_step c current : carried cfg c -> carried cfg (PreserveInterfacePrivateKey c current).

Lemma carried_trans a b c : carried a b -> carried b c -> carried a c.
Proof. intros Hab Hbc. induction Hbc; [done|]. by constructor. Qed.

Lemma PreserveInterfacePrivateKey_cases c current :
  let v := InterfaceValue current #"PrivateKey" in
  PreserveInterfacePrivateKey c current = c
  \/ (PreserveInterfacePrivateKey c current = WithInterfaceValue c #"PrivateKey" v
      /\ TrimSpace v <> [] /\ (nl ∉ v) /\ InterfaceValue c #"PrivateKey" = []).
Proof.
  intros v. unfold PreserveInterfacePrivateKey. cbv zeta. fold v. destruct (EqualFold _ _); [by left|].
  destruct (decide (TrimSpace v = [])) as [E|E].
  { left. unfold WithInterfaceValue. by rewrite bool_decide_eq_true_2. }
  destruct (decide (InterfaceValue c #"PrivateKey" = [])) as [E'|E']; [|left; by apply WithInterfaceValue_present].
  right. split_and!; [done|done|apply InterfaceValue_no_nl|done].
Qed.

(** An [[Interface]] line without its newline swallows the inserted pair: the
    result has neither the section nor the key. *)
Theorem WithInterfaceValue_unterminated_header :
  WithInterfaceValue #"[Interface]" #"PrivateKey" #"abc=" = #"[Interface]PrivateKey = abc=" ++ [nl]
  /\ InterfaceValue (WithInterfaceValue #"[Interface]" #"PrivateKey" #"abc=") #"PrivateKey" = [].
Proof. by vm_compute. Qed.

(** ** Sanitizing *)

Lemma isEmpty_nl l : isEmptySpecialJunkLine (l ++ [nl]) = isEmptySpecialJunkLine l.
Proof. unfold isEmptySpecialJunkLine. by rewrite TrimSpace_nl. Qed.

Lemma Forall_sublist_filter {A} (P Q : A -> Prop) `{!forall x, Decision (Q x)} l :
  Forall P l -> Forall P (filter Q l).
Proof. rewrite !Forall_forall. intros Hl x Hx. apply list_elem_of_filter in Hx as [_ Hx]. by apply Hl. Qed.

Lemma sanitize_lines config : exists ls r,
  Split config nl = ls ++ [r]
  /\ Split (sanitizeSyncConf config) nl =
     filter (fun l => isEmptySpecialJunkLine l = false) ls
     ++ [if isEmptySpecialJunkLine r then [] else r].
Proof.
  destruct (text_lines config) as (ls & r & Hc & Hls & Hr & Hs & Ha). exists ls, r. split; [done|].
  unfold sanitizeSyncConf. rewrite Ha, filter_app, concat_app.
  assert (concat (filter (fun l => isEmptySpecialJunkLine l = false) ((fun l => l ++ [nl]) <$> ls))
          = unlines (filter (fun l => isEmptySpecialJunkLine l = false) ls)) as ->.
  { clear. unfold unlines. induction ls as [|l ls IH]; [done|]. rewrite fmap_cons, !filter_cons.
    rewrite isEmpty_nl. case_decide; [|done]. rewrite fmap_cons. cbn [concat]. by rewrite IH. }
  rewrite filter_cons, filter_nil.
  destruct (isEmptySpecialJunkLine r); rewrite ?decide_False, ?decide_True by done; simpl;
    rewrite ?app_nil_r.
  - rewrite <- (app_nil_r (unlines _)), Split_unlines_last; [done|by apply Forall_sublist_filter|set_solver].
  - rewrite Split_unlines_last; [done|by apply Forall_sublist_filter|done].
Qed.

(** A key that starts with a bracket is not a special-junk key, so a blank
    special-junk line is never taken for a section header. *)
Lemma junk_not_bracketed l :
  isEmptySpecialJunkLine l = true -> bracketed (TrimSpace l) = false.
Proof.
  unfold isEmptySpecialJunkLine. destruct (skipped (TrimSpace l)); [done|].
  destruct (Cut (TrimSpace l) "="%char) as [[k v]|] eqn:E; [|done].
  apply Cut_Some in E as [-> _]. case_bool_decide as Hk; [|done]. intros _.
  apply bracketed_false. destruct k as [|c k]; [done|]. simpl. intros [= ->].
  destruct (TrimSpace_prefix "["%char k) as [t Ht]; [by apply (bool_decide_unpack _); vm_compute|].
  destruct (TrimSpace ("["%char :: k)) as [|d x]; [set_solver|]. injection Ht as <- _.
  assert (head (ToLower ("["%char :: x)) = Some "["%char) as Hh by (by destruct x as [|? [|??]]).
  repeat (apply elem_of_cons in Hk as [Hk|Hk]; [by rewrite Hk in Hh|]). by apply elem_of_nil in Hk.
Qed.

(** A blank special-junk line only ever answers a lookup of its own key. *)
Lemma iv_step_junk want sec l :
  isEmptySpecialJunkLine l = true -> want ∉ [ #"i1"; #"i2"; #"i3"; #"i4"; #"i5" ] ->
  iv_step want sec l = inl sec.
Proof.
  intros Hj Hw. unfold iv_step. rewrite (junk_not_bracketed _ Hj). revert Hj. unfold isEmptySpecialJunkLine.
  destruct (skipped (TrimSpace l)); [done|]. intros Hj.
  destruct (negb (bool_decide (sec = #"interface"))); [done|].
  destruct (Cut (TrimSpace l) "="%char) as [[k v]|]; [|done].
  case_bool_decide as Hk; [|done]. rewrite bool_decide_eq_false_2; [done|]. intros <-. by apply Hw.
Qed.

Lemma filter_keeps_all {A} (Q : A -> Prop) `{!forall x, Decision (Q x)} l :
  Forall Q l -> filter Q l = l.
Proof. induction 1 as [|x l Hx Hl IH]; [done|]. by rewrite filter_cons_True, IH. Qed.

Lemma iv_run_filter want sec ls :
  want ∉ [ #"i1"; #"i2"; #"i3"; #"i4"; #"i5" ] ->
  iv_run want sec (filter (fun l => isEmptySpecialJunkLine l = false) ls) = iv_run want sec ls.
Proof.
  intros Hw. revert sec. induction ls as [|l ls IH]; intros sec; [done|].
  rewrite filter_cons. case_decide as E; cbn [iv_run].
  - destruct (iv_step want sec l); [apply IH|done].
  - apply not_false_is_true in E. rewrite iv_step_junk by done. apply IH.
Qed.

(** (What reaches [awg syncconf].) The sanitized config has no blank
    special-junk line left, so sanitizing twice changes nothing more, every
    other line is kept in order, and the lookup of every key but I1-I5 is what
    it was. *)
Theorem sanitizeSyncConf_spec config :
  Forall (fun l => isEmptySpecialJunkLine l = false) (Split (sanitizeSyncConf config) nl)
  /\ sanitizeSyncConf (sanitizeSyncConf config) = sanitizeSyncConf config
  /\ (exists rest, filter (fun l => isEmptySpecialJunkLine l = false) (Split config nl) ++ rest
                   = Split (sanitizeSyncConf config) nl /\ (rest = [] \/ rest = [[]]))
  /\ forall key, ToLower (TrimSpace key) ∉ [ #"i1"; #"i2"; #"i3"; #"i4"; #"i5" ] ->
       InterfaceValue (sanitizeSyncConf config) key = InterfaceValue config key.
Proof.
  assert (Hclean : Forall (fun l => isEmptySpecialJunkLine l = false) (Split (sanitizeSyncConf config) nl)).
  { destruct (sanitize_lines config) as (ls & r & _ & ->). apply Forall_app. split.
    - apply Forall_forall. intros x Hx. by apply list_elem_of_filter in Hx as [? _].
    - constructor; [|constructor]. by destruct (isEmptySpecialJunkLine r) eqn:?. }
  split; [done|]. split; [|split].
  - unfold sanitizeSyncConf at 1. rewrite filter_keeps_all; [apply concat_SplitAfter|].
    destruct (text_lines (sanitizeSyncConf config)) as (ls & r & _ & _ & _ & Hs & ->).
    rewrite Hs in Hclean. apply Forall_app in Hclean as [H1 H2]. apply Forall_app. split; [|done].
    apply Forall_fmap. eapply Forall_impl; [exact H1|]. intros l Hl. simpl. by rewrite isEmpty_nl.
  - destruct (sanitize_lines config) as (ls & r & -> & ->). rewrite filter_app, filter_cons, filter_nil.
    destruct (isEmptySpecialJunkLine r); rewrite ?decide_False, ?decide_True by done.
    + exists [[]]. rewrite app_nil_r. split; [done|by right].
    + exists []. rewrite app_nil_r. split; [done|by left].
  - intros key Hkey. unfold InterfaceValue. destruct (sanitize_lines config) as (ls & r & -> & ->).
    rewrite !iv_run_app, iv_run_filter by done. destruct (iv_run _ _ ls); [|done]. cbn [iv_run].
    destruct (isEmptySpecialJunkLine r) eqn:E; [|done]. by rewrite (iv_step_junk _ _ r).
Qed.
