(* ===== verification/Sorting.v ===== *)
(** * Sorting: Go's [sort.Slice] by a string key

    [sort.Slice] promises a sorted permutation; the order of elements with equal
    keys is not specified.  The model is an insertion sort, and the lemmas show
    that for distinct keys every sorted permutation is that list. *)

From Stdlib Require Import Permutation Sorted.
From S2P Require Import Prelude GoStrings.

Section sort.
Context {A : Type} (less : A -> A -> bool).

Fixpoint sort_insert (x : A) (l : list A) : list A :=
  match l with
  | [] => [x]
  | y :: l => if less y x then y :: sort_insert x l else x :: y :: l
  end.

Fixpoint sort_Slice (l : list A) : list A :=
  match l with
  | [] => []
  | x :: l => sort_insert x (sort_Slice l)
  end.

Lemma sort_insert_perm x l : Permutation (sort_insert x l) (x :: l).
Proof.
  induction l as [|y l IH]; simpl; [done|]. destruct (less y x); [|done].
  rewrite IH. apply perm_swap.
Qed.

Lemma sort_Slice_perm l : Permutation (sort_Slice l) l.
Proof. induction l as [|x l IH]; simpl; [done|]. by rewrite sort_insert_perm, IH. Qed.
End sort.

(** ** The order of byte strings *)

Lemma bytes_ltb_irrefl a : bytes_ltb a a = false.
Proof.
  induction a as [|x a IH]; simpl; [done|]. rewrite Z.ltb_irrefl, IH. apply andb_false_r.
Qed.

Lemma bytes_ltb_trans a b c : bytes_ltb a b = true -> bytes_ltb b c = true -> bytes_ltb a c = true.
Proof.
  revert b c. induction a as [|x a IH]; intros [|y b] [|z c]; simpl; try done.
  rewrite !orb_true_iff, !andb_true_iff, !ascii_eqb_true, !Z.ltb_lt.
  intros [?|[-> ?]] [?|[-> ?]]; [left; lia|by left|by left|]. right. split; [done|]. by eapply IH.
Qed.

Lemma bytes_ltb_total a b : a <> b -> bytes_ltb a b = true \/ bytes_ltb b a = true.
Proof.
  revert b. induction a as [|x a IH]; intros [|y b] Hne; simpl; try (by left); try (by right).
  rewrite !orb_true_iff, !andb_true_iff, !ascii_eqb_true, !Z.ltb_lt.
  destruct (decide (x = y)) as [->|Hxy].
  - destruct (IH b) as [?|?]; [congruence| |]; [left|right]; by right.
  - assert (code x <> code y) by (intros ?; by apply Hxy, code_inj). lia.
Qed.

Section keyed.
Context {A : Type} (key : A -> bytes).

Local Abbreviation less := (fun x y => bytes_ltb (key x) (key y)).

(** Strictly increasing keys. *)
Definition key_sorted (l : list A) : Prop := StronglySorted (fun x y => less x y = true) l.

Lemma sort_insert_sorted x l :
  Forall (fun y => key y <> key x) l -> key_sorted l -> key_sorted (sort_insert less x l).
Proof.
  intros Hne Hs. induction Hs as [|y l Hs IH Hy]; simpl; [repeat constructor|].
  inversion_clear Hne as [|? ? Hyx Hne']. destruct (bytes_ltb (key y) (key x)) eqn:E.
  - constructor; [by apply IH|]. rewrite sort_insert_perm. by constructor.
  - assert (bytes_ltb (key x) (key y) = true) as Hxy.
    { destruct (bytes_ltb_total (key x) (key y)); [congruence|done|congruence]. }
    constructor; [by constructor|]. constructor; [done|].
    eapply Forall_impl; [exact Hy|]. simpl. intros z Hz. by eapply bytes_ltb_trans.
Qed.

Lemma sort_Slice_sorted l : NoDup (key <$> l) -> key_sorted (sort_Slice less l).
Proof.
  induction l as [|x l IH]; simpl; intros Hnd; [constructor|].
  apply NoDup_cons in Hnd as [Hx Hnd]. apply sort_insert_sorted; [|by apply IH].
  rewrite sort_Slice_perm. apply Forall_forall. intros y Hy E. apply Hx.
  apply list_elem_of_fmap. by exists y.
Qed.

(** Strictly sorted lists with the same elements are equal. *)
Lemma key_sorted_unique l l' : key_sorted l -> key_sorted l' -> Permutation l l' -> l = l'.
Proof.
  intros Hs. revert l'. induction Hs as [|x l Hs IH Hx]; intros l' Hs' Hp.
  { by apply Permutation_nil in Hp. }
  destruct l' as [|y l']; [by apply Permutation_sym, Permutation_nil in Hp|].
  inversion_clear Hs' as [|? ? Hs1 Hy].
  assert (x = y) as <-.
  { destruct (decide (bytes_ltb (key x) (key x) = true)) as [H|_]; [by rewrite bytes_ltb_irrefl in H|].
    assert (x ∈ y :: l') as Hin by (rewrite <- Hp; constructor).
    assert (y ∈ x :: l) as Hin' by (rewrite Hp; constructor).
    apply elem_of_cons in Hin as [?|Hin]; [done|]. apply elem_of_cons in Hin' as [?|Hin']; [done|].
    eapply Forall_forall in Hx; [|exact Hin']. eapply Forall_forall in Hy; [|exact Hin].
    pose proof (bytes_ltb_trans _ _ _ Hx Hy) as Hc. by rewrite bytes_ltb_irrefl in Hc. }
  f_equal. apply IH; [done|]. by eapply Permutation_cons_inv.
Qed.

(** With distinct keys the sorted list depends on the elements only. *)
Lemma sort_Slice_unique l l' :
  NoDup (key <$> l) -> Permutation l l' -> sort_Slice less l = sort_Slice less l'.
Proof.
  intros Hnd Hp. apply key_sorted_unique.
  - by apply sort_Slice_sorted.
  - apply sort_Slice_sorted. by rewrite <- Hp.
  - by rewrite !sort_Slice_perm.
Qed.
End keyed.
