(* ===== verification/Interleave.v ===== *)
(** * Interleave: threads over a shared state

    A goroutine is a sequence of atomic actions on a shared state - database
    statements, calls of an executor - with local computation in between: the free
    monad [prog] of such actions.  [run] executes one without interruption; [cstep]
    interleaves any number of them, lets them start and lets them die between any two
    actions.  [rg] is a rely-guarantee triple for one thread and [rg_sound] the theorem
    that threads which each keep their triple keep the invariant together. *)

From S2P Require Import Prelude.

Section prog.
(** The shared state, and what the outside supplies to one action: a context and the
    clock. *)
Context {S E : Type}.

Inductive prog (A : Type) : Type :=
| Ret (a : A)
| Act {X : Type} (m : E -> S -> X * S) (k : X -> prog A).
Arguments Ret {A} a.
Arguments Act {A X} m k.

Fixpoint prog_bind {A B} (f : A -> prog B) (p : prog A) : prog B :=
  match p with
  | Ret a => f a
  | Act m k => Act m (fun x => prog_bind f (k x))
  end.

#[global] Instance prog_MRet : MRet prog := @Ret.
#[global] Instance prog_MBind : MBind prog := fun A B f p => prog_bind f p.

(** One action. *)
Definition act {X} (m : E -> S -> X * S) : prog X := Act m Ret.

(** Without interruption, under one environment. *)
Fixpoint run {A} (e : E) (p : prog A) (s : S) : A * S :=
  match p with
  | Ret a => (a, s)
  | Act m k => let '(x, s') := m e s in run e (k x) s'
  end.

Lemma run_bind {A B} e (f : A -> prog B) (p : prog A) s :
  run e (p ≫= f) s = let '(a, s') := run e p s in run e (f a) s'.
Proof.
  revert s. induction p as [a|X m k IH]; intros s; [done|].
  cbn. destruct (m e s) as [x s']. apply IH.
Qed.

(** Without interruption by other threads, each action under an environment of its own:
    the outcome and how many actions it took. *)
Definition tail_from (n : nat) (es : nat -> E) : nat -> E := fun i => es (n + i)%nat.

Fixpoint run_in {A} (es : nat -> E) (p : prog A) (s : S) : A * S * nat :=
  match p with
  | Ret a => (a, s, O)
  | Act m k =>
      let '(x, s1) := m (es O) s in
      let '(a, s2, n) := run_in (tail_from 1 es) (k x) s1 in (a, s2, Datatypes.S n)
  end.

Lemma run_in_bind {A B} es (f : A -> prog B) (p : prog A) s b s2 n :
  run_in es (p ≫= f) s = (b, s2, n) ->
  exists a s1 n1 n2, run_in es p s = (a, s1, n1) /\ run_in (tail_from n1 es) (f a) s1 = (b, s2, n2) /\ n = (n1 + n2)%nat.
Proof.
  revert es s n. induction p as [a|X m k IH]; intros es s n H.
  - by exists a, s, O, n.
  - cbn in H. destruct (m (es O) s) as [x s1] eqn:Em.
    destruct (run_in (tail_from 1 es) (prog_bind f (k x)) s1) as [[b' s2'] n'] eqn:Er. injection H as <- <- <-.
    apply IH in Er as (a & s3 & n1 & n2 & H1 & H2 & ->). exists a, s3, (Datatypes.S n1), n2. cbn. rewrite Em, H1. by split_and!.
Qed.

Lemma run_in_act {X} es (m : E -> S -> X * S) s x s' n :
  run_in es (act m) s = (x, s', n) -> m (es O) s = (x, s') /\ n = 1%nat.
Proof. unfold act. cbn. destruct (m (es O) s) as [x1 s1]. by intros [= -> -> <-]. Qed.

Lemma run_in_ret {A} es (a b : A) s s' n : run_in es (mret a) s = (b, s', n) -> b = a /\ s' = s /\ n = O.
Proof. by intros [= <- <- <-]. Qed.

(** Under one environment throughout it is [run]. *)
Lemma run_in_const {A} e (p : prog A) s : fst (run_in (fun _ => e) p s) = run e p s.
Proof.
  revert s. induction p as [a|X m k IH]; intros s; [done|]. cbn. destruct (m e s) as [x s1].
  change (tail_from 1 (fun _ => e)) with (fun _ : nat => e). rewrite <- IH. by destruct (run_in _ (k x) s1) as [[a s2] n].
Qed.

(** The same actions under a changed environment. *)
Fixpoint relabel {A} (f : E -> E) (p : prog A) : prog A :=
  match p with
  | Ret a => Ret a
  | Act m k => Act (fun e => m (f e)) (fun x => relabel f (k x))
  end.

Lemma run_relabel {A} f e (p : prog A) s : run e (relabel f p) s = run (f e) p s.
Proof. revert s. induction p as [a|X m k IH]; intros s; [done|]. cbn. by destruct (m (f e) s). Qed.

(** ** Systems of threads *)

Section system.
(** Threads are of kinds; [spawns] says which programs a thread of a kind may start. *)
Context {K : Type} (kind : nat -> K) (spawns : K -> prog unit -> Prop).

Abbreviation config := (gmap nat (prog unit) * S)%type.

(** A thread runs its next action; or starts a program, giving up whatever it was
    doing; or dies. *)
Inductive cstep : config -> config -> Prop :=
| cstep_act i e {X} (m : E -> S -> X * S) k x ts s s' :
    ts !! i = Some (Act m k) -> m e s = (x, s') -> cstep (ts, s) (<[i := k x]> ts, s')
| cstep_spawn i p ts s : spawns (kind i) p -> cstep (ts, s) (<[i := p]> ts, s)
| cstep_die i ts s : cstep (ts, s) (delete i ts, s).

(** Schedules: which thread runs its next action when, and what is started. *)
Inductive move : Type := Go (i : nat) (e : E) | Start (i : nat) (p : prog unit).

Definition play_move (c : config) (mv : move) : config :=
  let '(ts, s) := c in
  match mv with
  | Go i e =>
      match ts !! i with
      | Some (Act m k) => let '(x, s') := m e s in (<[i := k x]> ts, s')
      | _ => c
      end
  | Start i p => (<[i := p]> ts, s)
  end.

Definition play (moves : list move) (c : config) : config := fold_left play_move moves c.

Lemma play_steps moves c :
  Forall (fun mv => match mv with Go _ _ => True | Start i p => spawns (kind i) p end) moves -> rtc cstep c (play moves c).
Proof.
  intros H. revert c. induction H as [|mv moves Hmv H IH]; intros c; [apply rtc_refl|].
  etrans; [|apply IH]. destruct c as [ts s]. destruct mv as [i e|i p]; cbn.
  - destruct (ts !! i) as [[|X m k]|] eqn:Hl; [apply rtc_refl| |apply rtc_refl]. destruct (m e s) as [x s'] eqn:Hm.
    apply rtc_once. by eapply cstep_act.
  - apply rtc_once. by constructor.
Qed.

(** ** Rely and guarantee *)

(** [I] holds between any two actions; a thread of kind [k] changes the state only
    within [G k] and copes with whatever the others do. *)
Context (I : S -> Prop) (G : K -> S -> S -> Prop).

Definition others (i : nat) (s s' : S) : Prop := exists j, j <> i /\ G (kind j) s s'.

(** An assertion the other threads do not invalidate. *)
Definition stable (i : nat) (P : S -> Prop) : Prop :=
  forall s s', I s -> I s' -> others i s s' -> P s -> P s'.

Fixpoint rg {A} (i : nat) (p : prog A) (P : S -> Prop) (Q : A -> S -> Prop) : Prop :=
  match p with
  | Ret a => forall s, I s -> P s -> Q a s
  | @Act _ X m k =>
      exists P' : X -> S -> Prop,
        (forall e s x s', I s -> P s -> m e s = (x, s') -> I s' /\ G (kind i) s s' /\ P' x s')
        /\ (forall x, stable i (P' x))
        /\ forall x, rg i (k x) (P' x) Q
  end.

Lemma rg_pre {A} i (p : prog A) (P P' : S -> Prop) Q :
  (forall s, I s -> P s -> P' s) -> rg i p P' Q -> rg i p P Q.
Proof.
  intros HP. destruct p as [a|X m k]; cbn.
  - intros H s Hi Hp. by apply H, HP.
  - intros (P1 & Hm & Hst & Hk). exists P1. split_and!; [|done..]. intros e s x s' Hi Hp. by apply Hm, HP.
Qed.

Lemma rg_post {A} i (p : prog A) P (Q Q' : A -> S -> Prop) :
  (forall a s, I s -> Q a s -> Q' a s) -> rg i p P Q -> rg i p P Q'.
Proof.
  intros HQ. revert P. induction p as [a|X m k IH]; cbn; intros P.
  - intros H s Hi Hp. apply HQ; [done|]. by apply H.
  - intros (P1 & Hm & Hst & Hk). exists P1. split_and!; [done..|]. intros x. by apply IH.
Qed.

(** Triples with the same program and postcondition combine. *)
Lemma rg_union {A} i (p : prog A) (Ix : Type) (P : Ix -> S -> Prop) Q :
  (forall a, rg i p (P a) Q) -> rg i p (fun s => exists a, P a s) Q.
Proof.
  revert Ix P. induction p as [a|X m k IH]; cbn; intros Ix P H.
  - intros s Hi [x Hp]. by apply (H x).
  - set (good := fun aP : Ix * (X -> S -> Prop) =>
      (forall e s x s', I s -> P aP.1 s -> m e s = (x, s') -> I s' /\ G (kind i) s s' /\ aP.2 x s')
      /\ (forall x, stable i (aP.2 x)) /\ forall x, rg i (k x) (aP.2 x) Q).
    exists (fun x s => exists g : {aP | good aP}, (`g).2 x s). split_and!.
    + intros e s x s' Hi [a Ha] Hx. destruct (H a) as (P' & Hm & Hst & Hk). destruct (Hm e s x s' Hi Ha Hx) as (? & ? & ?).
      split_and!; [done..|]. by exists (exist good (a, P') (conj Hm (conj Hst Hk))).
    + intros x s s' Hi Hi' Ho [[aP Hg] Hp]. exists (exist good aP Hg).
      exact (proj1 (proj2 Hg) x s s' Hi Hi' Ho Hp).
    + intros x. apply (IH x _ (fun (g : {aP | good aP}) => (`g).2 x)). intros [aP Hg]. apply Hg.
Qed.

(** A precondition that implies a fact about no state. *)
Lemma rg_pure_pre {A} i (p : prog A) (P : S -> Prop) Q (X : Prop) :
  (forall s, P s -> X) -> (X -> rg i p P Q) -> rg i p P Q.
Proof.
  intros HX H. apply (rg_pre i p P (fun s => exists _ : X, P s)); [intros s _ Hp; exists (HX s Hp); done|].
  by apply (rg_union i p X (fun _ => P)).
Qed.

Lemma rg_ret {A} i (a : A) (P : S -> Prop) Q : (forall s, I s -> P s -> Q a s) -> rg i (mret a) P Q.
Proof. done. Qed.

Lemma rg_act {X} i (m : E -> S -> X * S) (P : S -> Prop) (Q : X -> S -> Prop) :
  (forall e s x s', I s -> P s -> m e s = (x, s') -> I s' /\ G (kind i) s s' /\ Q x s') ->
  (forall x, stable i (Q x)) -> rg i (act m) P Q.
Proof. intros Hm Hst. exists Q. split_and!; [done|done|]. by intros x s. Qed.

Lemma rg_bind {A B} i (p : prog A) (f : A -> prog B) P (Q : A -> S -> Prop) (R : B -> S -> Prop) :
  rg i p P Q -> (forall a, rg i (f a) (Q a) R) -> rg i (p ≫= f) P R.
Proof.
  intros Hp Hf. revert P Hp. induction p as [a|X m k IH]; intros P.
  - intros Hp. by eapply rg_pre; [|apply Hf].
  - intros (P1 & Hm & Hst & Hk). exists P1. split_and!; [done..|]. intros x. by apply IH.
Qed.

(** A triple holds whatever the environments are. *)
Lemma rg_relabel {A} i f (p : prog A) P (Q : A -> S -> Prop) : rg i p P Q -> rg i (relabel f p) P Q.
Proof.
  revert P. induction p as [a|X m k IH]; intros P; [done|]. intros (P1 & Hm & Hst & Hk). exists P1. split_and!; [|done|].
  - intros e. apply Hm.
  - intros x. by apply IH.
Qed.

(** What is known of a thread between its actions. *)
Definition thread_ok (s : S) (i : nat) (p : prog unit) : Prop :=
  exists (P : S -> Prop) Q, P s /\ stable i P /\ rg i p P Q.

(** Threads that keep their triples keep the invariant, however they are
    interleaved. *)
Lemma rg_sound s0 c :
  (forall i p, spawns (kind i) p -> exists Q, rg i p (fun _ => True) Q) ->
  I s0 -> rtc cstep (∅, s0) c -> I (snd c) /\ map_Forall (thread_ok (snd c)) (fst c).
Proof.
  intros Hsp H0 Hr.
  assert (Hstart : forall c : config, c = (∅, s0) -> I (snd c) /\ map_Forall (thread_ok (snd c)) (fst c))
    by (intros ? ->; split; [done|apply map_Forall_empty]).
  specialize (Hstart _ eq_refl). revert Hstart. generalize dependent (∅ : gmap nat (prog unit), s0). intros c0 Hr.
  induction Hr as [c|c1 c2 c3 Hs Hr IH]; [done|]. intros [Hi Ht]. apply IH. clear IH Hr H0 c3.
  destruct Hs as [i e X m k x ts s s' Hl Hm|i p ts s Hp|i ts s]; cbn [fst snd] in *.
  - destruct (Ht i _ Hl) as (P & Q & HP & Hst & P1 & Hact & Hst1 & Hk).
    destruct (Hact e s x s' Hi HP Hm) as (Hi' & Hg & HP1). split; [done|].
    intros j q [[<- <-]|[Hne Hq]]%lookup_insert_Some; [by exists (P1 x), Q|].
    destruct (Ht j q Hq) as (Pj & Qj & HPj & Hstj & Hrg). exists Pj, Qj. split_and!; [|done..].
    apply (Hstj s s'); [done..| |done]. by exists i.
  - split; [done|]. intros j q [[<- <-]|[Hne Hq]]%lookup_insert_Some; [|by apply Ht].
    destruct (Hsp i p Hp) as (Q & HQ). exists (fun _ => True), Q. by split_and!.
  - split; [done|]. intros j q [_ Hq]%lookup_delete_Some. by apply Ht.
Qed.
End system.
End prog.
Arguments prog S E A : clear implicits.
Arguments Ret {S E A} a.
Arguments Act {S E A X} m k.
Arguments Go {S E} i e.
Arguments Start {S E} i p.
