(* ===== verification/Float64.v ===== *)
(** * Float64: Go's float64

    The arithmetic of IEEE 754 binary64 with rounding to nearest even, taken from
    the Standard Library's executable specification, and what the rate limiter
    needs of it: how positive numbers are ordered, that rounding never passes a
    representable number, and that integers up to 2^53 are exact. *)

From Stdlib Require Import SpecFloat.
From S2P Require Import Prelude.

Local Abbreviation prec := 53.
Local Abbreviation emax := 1024.

Abbreviation float64 := spec_float.

Definition f_add : float64 -> float64 -> float64 := SFadd prec emax.
Definition f_sub : float64 -> float64 -> float64 := SFsub prec emax.
Definition f_mul : float64 -> float64 -> float64 := SFmul prec emax.
Definition f_div : float64 -> float64 -> float64 := SFdiv prec emax.
Definition f_lt (x y : float64) : bool := SFltb x y.
Definition f_le (x y : float64) : bool := SFleb x y.

(** [float64(n)] *)
Definition f_of_int (n : Z) : float64 := binary_normalize prec emax n 0 false.

(** [int64(f)] truncates; what happens to a number out of range depends on the
    machine and is an argument. *)
Definition f_trunc (out_of_range : float64 -> Z) (x : float64) : Z :=
  match x with
  | S754_zero _ => 0
  | S754_finite s m e =>
      let z := (if s then -1 else 1) * (Z.shiftl (Zpos m) e) in
      if (min_int64 <=? z) && (z <=? max_int64) then z else out_of_range x
  | _ => out_of_range x
  end.

Definition f_one : float64 := f_of_int 1.

(** ** Rounding *)

Lemma digits_log2 m : Zpos (digits2_pos m) = Z.log2 (Zpos m) + 1.
Proof. destruct m as [p|p|]; cbn; [..|done]; induction p; cbn in *; lia. Qed.

Lemma Zdigits2_log2 m : 0 < m -> Zdigits2 m = Z.log2 m + 1.
Proof. destruct m; [lia| |lia]. intros _. apply digits_log2. Qed.

(** A positive number below a power of two, by its digits. *)
Lemma digits_le m k : 0 <= m -> 0 <= k -> m < 2 ^ k <-> Zdigits2 m <= k.
Proof.
  intros Hm Hk. destruct (Z.eq_dec m 0) as [->|Hne]; [cbn; split; [lia|]; intros; apply Z.pow_pos_nonneg; lia|].
  rewrite Zdigits2_log2, Z.log2_lt_pow2 by lia. lia.
Qed.

Lemma digits_ge m k : 0 <= m -> 0 <= k -> 2 ^ k <= m <-> k < Zdigits2 m.
Proof. intros Hm Hk. pose proof (digits_le m k Hm Hk). lia. Qed.

Lemma shr_1_spec q r s : 0 <= q -> shr_1 (Build_shr_record q r s) = Build_shr_record (q / 2) (Z.odd q) (r || s).
Proof. intros H. rewrite <- Z.div2_div. destruct q as [|[p|p|]|]; done. Qed.

Lemma iter_pos_nat {A} (f : A -> A) p x : SpecFloat.iter_pos f p x = Nat.iter (Pos.to_nat p) f x.
Proof.
  revert x. induction p as [p IH|p IH|]; intros x; cbn [SpecFloat.iter_pos]; [rewrite !IH..|done].
  - rewrite Pos2Nat.inj_xI, Nat.iter_succ_r, <- Nat.iter_add. f_equal. lia.
  - rewrite Pos2Nat.inj_xO, <- Nat.iter_add. f_equal. lia.
Qed.

(** Shifting right keeps the quotient and whether anything was lost. *)
Lemma shr_iter m n r s : 0 <= m ->
  exists r' s', Nat.iter n shr_1 (Build_shr_record m r s) = Build_shr_record (m / 2 ^ Z.of_nat n) r' s'
    /\ (r' || s' = false <-> r || s = false /\ m mod 2 ^ Z.of_nat n = 0).
Proof.
  intros Hm. induction n as [|n (r' & s' & E & H)].
  { exists r, s. cbn [Nat.iter]. rewrite Z.div_1_r, Z.mod_1_r. tauto. }
  cbn [Nat.iter nat_rect]. change (nat_rect (fun _ => shr_record) ?x (fun _ => shr_1) n) with (Nat.iter n shr_1 x).
  rewrite E, shr_1_spec by (apply Z.div_pos; [done|apply Z.pow_pos_nonneg; lia]).
  exists (Z.odd (m / 2 ^ Z.of_nat n)), (r' || s'). assert (0 < 2 ^ Z.of_nat n) by (apply Z.pow_pos_nonneg; lia).
  rewrite Nat2Z.inj_succ, Z.pow_succ_r, Z.mul_comm, <- Z.div_div, Z.rem_mul_r by lia. split; [done|].
  rewrite orb_false_iff, H, <- Z.negb_even, negb_false_iff, Z.even_spec. pose proof (Z.mod_pos_bound m (2 ^ Z.of_nat n)).
  pose proof (Z.mod_pos_bound (m / 2 ^ Z.of_nat n) 2). pose proof (Z.div_mod (m / 2 ^ Z.of_nat n) 2).
  assert ((exists k, m / 2 ^ Z.of_nat n = 2 * k) <-> (m / 2 ^ Z.of_nat n) mod 2 = 0) as ->.
  { split; [intros [k ->]; by rewrite Z.mul_comm, Z.mod_mul|]. intros. exists (m / 2 ^ Z.of_nat n / 2). lia. }
  split; [intros (-> & ? & ->); split; [done|lia]|]. intros [? Hz]. assert ((m / 2 ^ Z.of_nat n) mod 2 = 0) by nia.
  split_and!; [done|done|nia].
Qed.

(** [q'] is [m / 2^n] or, when that is not exact, possibly one more. *)
Definition rounded (m n : Z) (exact : bool) (q' : Z) : Prop :=
  q' = m / 2 ^ n \/ (q' = m / 2 ^ n + 1 /\ (exact = false \/ m mod 2 ^ n <> 0)).

Definition is_exact (l : location) : bool := match l with loc_Exact => true | _ => false end.

Lemma shr_round m e l : 0 <= m -> e <= fexp prec emax (Zdigits2 m + e) ->
  let E := fexp prec emax (Zdigits2 m + e) in
  exists rec, shr_fexp prec emax m e l = (rec, E)
    /\ rounded m (E - e) (is_exact l) (round_nearest_even (shr_m rec) (loc_of_shr_record rec)).
Proof.
  intros Hm He E. unfold shr_fexp. fold E.
  assert (exists r s, shr_record_of_loc m l = Build_shr_record m r s /\ (r || s = false <-> is_exact l = true)) as (r & s & -> & Hx).
  { destruct l as [|[]]; cbn; eauto 10 with bool; eexists _, _; split; done. }
  destruct (shr_iter m (Z.to_nat (E - e)) r s Hm) as (r' & s' & Hi & Hr).
  exists (Build_shr_record (m / 2 ^ (E - e)) r' s'). rewrite Z2Nat.id in Hi, Hr by lia. split.
  { unfold shr. destruct (E - e) as [|p|p] eqn:En; [| |lia].
    - cbn in Hi. cbn. rewrite Z.div_1_r in *. f_equal; [done|lia].
    - rewrite iter_pos_nat. change (Z.to_nat (Z.pos p)) with (Pos.to_nat p) in Hi. rewrite Hi. f_equal. lia. }
  cbn [shr_m]. unfold rounded. destruct r', s'; cbn [loc_of_shr_record round_nearest_even] in *.
  - right. split; [done|]. destruct (is_exact l); [right|by left]. intros H. destruct Hr as [_ Hr]. assert (true = false); [|done].
    apply Hr. split; [by apply Hx|done].
  - destruct (Z.even _); [by left|]. right. split; [done|]. destruct (is_exact l); [right|by left]. intros H.
    assert (true = false); [|done]. apply Hr. split; [by apply Hx|done].
  - by left.
  - by left.
Qed.

(** The sign and validity of what a rounding yields. *)
Definition f_valid (x : float64) : bool := valid_binary prec emax x.

Lemma fexp_max e : fexp prec emax e = Z.max (e - 53) (-1074).
Proof. done. Qed.

Lemma canonical m e : canonical_mantissa prec emax m e = true <-> fexp prec emax (Zdigits2 (Zpos m) + e) = e.
Proof. unfold canonical_mantissa. cbn [Zdigits2]. by rewrite Z.eqb_eq. Qed.

(** Shifting the canonical mantissa, and the one bit a carry added. *)
Lemma shr_id q E : 0 <= q -> fexp prec emax (Zdigits2 q + E) <= E ->
  shr_fexp prec emax q E loc_Exact = (Build_shr_record q false false, E).
Proof. intros Hq H. unfold shr_fexp, shr. cbn [shr_record_of_loc]. by destruct (_ - E) eqn:En; [|lia|]. Qed.

Lemma shr_carry E : -1074 <= E ->
  shr_fexp prec emax (2 ^ 53) E loc_Exact = (Build_shr_record (2 ^ 52) false false, E + 1).
Proof.
  intros H. unfold shr_fexp. change (Zdigits2 (2 ^ 53)) with 54. rewrite fexp_max.
  replace (Z.max (54 + E - 53) (-1074) - E) with 1 by lia. done.
Qed.

(** The mantissa after rounding: at most 2^53. *)
Lemma rounded_bound m e exact q' : 0 <= m -> e <= fexp prec emax (Zdigits2 m + e) ->
  let E := fexp prec emax (Zdigits2 m + e) in
  rounded m (E - e) exact q' ->
  0 <= q' <= 2 ^ 53 /\ (-1074 < E -> 0 < m -> 2 ^ 52 <= q').
Proof.
  intros Hm He E Hq. assert (Hn : 0 <= E - e) by (unfold E; lia).
  assert (0 < 2 ^ (E - e)) by (apply Z.pow_pos_nonneg; lia).
  assert (0 <= m / 2 ^ (E - e) < 2 ^ 53) as Hb.
  { split; [apply Z.div_pos; lia|]. apply Z.div_lt_upper_bound; [lia|]. rewrite <- Z.pow_add_r by lia.
    apply digits_le; [lia..|]. unfold E. rewrite fexp_max. lia. }
  split; [unfold rounded in Hq; lia|]. intros HE Hpos.
  assert (2 ^ 52 <= m / 2 ^ (E - e)); [|unfold rounded in Hq; lia].
  apply Z.div_le_lower_bound; [lia|]. rewrite <- Z.pow_add_r by lia. apply digits_ge; [lia..|].
  unfold E in *. rewrite fexp_max in *. lia.
Qed.

(** Rounding yields a valid number of the given sign, never a NaN: zero, a
    mantissa at the exponent [E], the carry into the next one, or infinity. *)
Lemma round_aux_cases s m e l : 0 <= m -> e <= fexp prec emax (Zdigits2 m + e) ->
  let E := fexp prec emax (Zdigits2 m + e) in
  exists q', rounded m (E - e) (is_exact l) q' /\ 0 <= q' <= 2 ^ 53
    /\ binary_round_aux prec emax s m e l
       = (if q' =? 0 then S754_zero s
         else if q' =? 2 ^ 53 then (if E + 1 <=? 971 then S754_finite s (2 ^ 52) (E + 1) else S754_infinity s)
         else (if E <=? 971 then S754_finite s (Z.to_pos q') E else S754_infinity s))
    /\ f_valid (binary_round_aux prec emax s m e l) = true.
Proof.
  intros Hm He E. destruct (shr_round m e l Hm He) as (rec & Hs & Hr). fold E in Hs, Hr.
  set (q' := round_nearest_even (shr_m rec) (loc_of_shr_record rec)) in *. exists q'.
  destruct (rounded_bound m e _ q' Hm He Hr) as [Hb Hnorm]. fold E in Hnorm.
  assert (HE : -1074 <= E) by (unfold E; rewrite fexp_max; lia).
  unfold binary_round_aux. rewrite Hs. fold q'. split; [done|]. split; [done|].
  destruct (Z.eqb_spec q' 0) as [E0|N0].
  { rewrite E0, shr_id by (cbn; rewrite ?fexp_max; lia). done. }
  destruct (Z.eqb_spec q' (2 ^ 53)) as [E1|N1].
  { rewrite E1, shr_carry by done. cbn [shr_m]. change (2 ^ 52) with (Zpos (2 ^ 52)). cbn match.
    change (emax - prec) with 971. split; [done|]. destruct (Z.leb_spec (E + 1) 971); [|done].
    cbn [f_valid valid_binary]. unfold f_valid, valid_binary, bounded. apply andb_true_iff. split; [|by apply Z.leb_le].
    apply canonical. change (Zdigits2 (Z.pos (2 ^ 52))) with 53. rewrite fexp_max. lia. }
  assert (Hd : Zdigits2 q' <= 53) by (apply digits_le; lia).
  rewrite shr_id by (rewrite ?fexp_max; lia). cbn [shr_m]. destruct q' as [|p|p] eqn:Eq; [done| |lia]. cbn match.
  change (emax - prec) with 971. split; [done|]. destruct (Z.leb_spec E 971); [|done].
  unfold f_valid, valid_binary, bounded. apply andb_true_iff. split; [|by apply Z.leb_le].
  apply canonical. rewrite fexp_max. destruct (Z.eq_dec E (-1074)) as [->|HE']; [lia|].
  assert (0 < m) as Hpos. { destruct (Z.eq_dec m 0) as [->|]; [|lia]. exfalso. unfold E in HE', HE. rewrite fexp_max in *. cbn in *. unfold rounded in Hr. cbn in Hr. lia. }
  assert (52 < Zdigits2 (Z.pos p)) by (apply digits_ge; [lia..|]; apply Hnorm; lia). lia.
Qed.

Lemma shift_pos m p : Zpos (Pos.iter xO m p) = Zpos m * 2 ^ Zpos p.
Proof.
  change (2 ^ Z.pos p) with (Z.pow_pos 2 p). unfold Z.pow_pos. revert m.
  induction p as [|p IH] using Pos.peano_ind; intros m; [cbn; lia|].
  rewrite !Pos.iter_succ. specialize (IH m). lia.
Qed.

Lemma shl_align_spec m e E :
  snd (shl_align m e E) = Z.min e E /\ Zpos (fst (shl_align m e E)) = Zpos m * 2 ^ (e - Z.min e E).
Proof.
  unfold shl_align. destruct (E - e) as [|p|p] eqn:En; cbn [fst snd].
  1,2: replace (Z.min e E) with e by lia; rewrite Z.sub_diag; lia.
  replace (Z.min e E) with E by lia. rewrite shift_pos. split; [done|]. do 2 f_equal. lia.
Qed.

Lemma digits_shift m k : 0 < m -> 0 <= k -> Zdigits2 (m * 2 ^ k) = Zdigits2 m + k.
Proof.
  intros Hm Hk. assert (0 < 2 ^ k) by (apply Z.pow_pos_nonneg; lia). rewrite !Zdigits2_log2 by nia.
  rewrite Z.log2_mul_pow2 by lia. lia.
Qed.

(** [binary_round] first makes the mantissa long enough. *)
Lemma round_aux s m e : exists m' e',
  binary_round prec emax s m e = binary_round_aux prec emax s (Zpos m') e' loc_Exact
  /\ e' = Z.min e (fexp prec emax (Zdigits2 (Zpos m) + e)) /\ Zpos m' = Zpos m * 2 ^ (e - e') /\ e' <= fexp prec emax (Zdigits2 (Zpos m') + e')
  /\ fexp prec emax (Zdigits2 (Zpos m') + e') = fexp prec emax (Zdigits2 (Zpos m) + e).
Proof.
  unfold binary_round. change (Z.pos (digits2_pos m)) with (Zdigits2 (Zpos m)).
  set (E := fexp prec emax (Zdigits2 (Zpos m) + e)). destruct (shl_align_spec m e E) as [Hs Hf].
  destruct (shl_align m e E) as [m' e']. cbn [fst snd] in *. exists m', e'. rewrite <- Hs in Hf.
  assert (Zdigits2 (Zpos m') + e' = Zdigits2 (Zpos m) + e) as Hd by (rewrite Hf, digits_shift by lia; lia).
  split_and!; [done|done|done| |]; rewrite Hd; [fold E; lia|done].
Qed.

(** ** Numbers that are not negative *)

(** Zero, a positive number or plus infinity; in particular not a NaN. *)
Definition nonneg (x : float64) : Prop :=
  match x with
  | S754_nan => False
  | S754_zero _ => True
  | S754_infinity s | S754_finite s _ _ => s = false
  end /\ f_valid x = true.

Lemma round_aux_nonneg m e l : 0 <= m -> e <= fexp prec emax (Zdigits2 m + e) ->
  nonneg (binary_round_aux prec emax false m e l).
Proof.
  intros Hm He. destruct (round_aux_cases false m e l Hm He) as (q' & _ & _ & E & Hv). split; [|done]. rewrite E.
  repeat case_match; done.
Qed.

Lemma round_nonneg m e : nonneg (binary_round prec emax false m e).
Proof. destruct (round_aux false m e) as (m' & e' & -> & _ & _ & H & _). by apply round_aux_nonneg. Qed.

Lemma normalize_nonneg m e : 0 <= m -> nonneg (binary_normalize prec emax m e false).
Proof. destruct m; [done|intros _; apply round_nonneg|lia]. Qed.

Lemma f_of_int_nonneg n : 0 <= n -> nonneg (f_of_int n).
Proof. apply normalize_nonneg. Qed.

Lemma f_add_nonneg x y : nonneg x -> nonneg y -> nonneg (f_add x y).
Proof.
  intros [Hx Vx] [Hy Vy]. unfold f_add. destruct x as [sx|sx| |sx mx ex], y as [sy|sy| |sy my ey]; subst; try done.
  - by destruct sx, sy.
  - cbn [SFadd cond_Zopp]. apply normalize_nonneg. lia.
Qed.

(** The exponent of a valid number, and of a product. *)
Lemma valid_exp s m e : f_valid (S754_finite s m e) = true ->
  -1074 <= e <= 971 /\ Zdigits2 (Zpos m) <= 53 /\ (e = -1074 \/ Zdigits2 (Zpos m) = 53).
Proof.
  unfold f_valid, valid_binary, bounded. rewrite andb_true_iff, canonical, Z.leb_le, fexp_max.
  change (emax - prec) with 971. lia.
Qed.

Lemma f_mul_nonneg x y : nonneg x -> nonneg y -> (forall s, x <> S754_infinity s) -> (forall s, x <> S754_zero s) -> nonneg (f_mul x y).
Proof.
  intros [Hx Vx] [Hy Vy] Hi Hz. unfold f_mul.
  destruct x as [sx|sx| |sx mx ex], y as [sy|sy| |sy my ey]; subst; try done;
    try (by exfalso; eapply Hi); try (by exfalso; eapply Hz).
  cbn [SFmul xorb]. apply round_aux_nonneg; [lia|]. apply valid_exp in Vx, Vy. rewrite fexp_max.
  pose proof (Pos2Z.is_pos (digits2_pos mx)). pose proof (Pos2Z.is_pos (digits2_pos my)).
  assert (Zdigits2 (Z.pos (mx * my)) >= Zdigits2 (Zpos mx) + Zdigits2 (Zpos my) - 1); [|cbn [Zdigits2] in *; lia].
  rewrite !Zdigits2_log2 by lia. rewrite Pos2Z.inj_mul. pose proof (Z.log2_mul_below (Zpos mx) (Zpos my) eq_refl eq_refl). lia.
Qed.

(** ** Order *)

(** A finite number that is not negative, in units of the least positive one. *)
Definition units (x : float64) : Z :=
  match x with S754_finite _ m e => Zpos m * 2 ^ (e + 1074) | _ => 0 end.

Definition finite (x : float64) : Prop := match x with S754_infinity _ | S754_nan => False | _ => True end.

Lemma units_lt m1 e1 m2 e2 : f_valid (S754_finite false m1 e1) = true -> f_valid (S754_finite false m2 e2) = true ->
  e1 < e2 -> Zpos m1 * 2 ^ (e1 + 1074) < Zpos m2 * 2 ^ (e2 + 1074).
Proof.
  intros V1%valid_exp V2%valid_exp He.
  assert (Zpos m1 < 2 ^ 53) by (apply digits_le; lia). assert (2 ^ 52 <= Zpos m2) by (apply digits_ge; lia).
  replace (e2 + 1074) with ((e1 + 1074) + 1 + (e2 - e1 - 1)) by lia. remember (e1 + 1074) as a.
  rewrite !(Z.pow_add_r 2) by lia. subst a. assert (0 < 2 ^ (e1 + 1074)) by (apply Z.pow_pos_nonneg; lia).
  assert (0 < 2 ^ (e2 - e1 - 1)) by (apply Z.pow_pos_nonneg; lia).
  apply Z.lt_le_trans with (2 ^ 53 * 2 ^ (e1 + 1074)); [nia|]. change (2 ^ 1) with 2. change (2 ^ 53) with (2 ^ 52 * 2).
  assert (2 ^ 52 <= Zpos m2 * 2 ^ (e2 - e1 - 1)) by nia. nia.
Qed.

Lemma compare_units x y : nonneg x -> nonneg y -> finite x -> finite y -> SFcompare x y = Some (units x ?= units y).
Proof.
  intros [Hx Vx] [Hy Vy] Fx Fy. destruct x as [sx|sx| |sx mx ex], y as [sy|sy| |sy my ey]; subst; try done; cbn [SFcompare units].
  - f_equal. symmetry. apply Z.compare_lt_iff. assert (0 < 2 ^ (ey + 1074)); [|nia]. apply Z.pow_pos_nonneg; [lia|]. apply valid_exp in Vy. lia.
  - f_equal. symmetry. apply Z.compare_gt_iff. assert (0 < 2 ^ (ex + 1074)); [|nia]. apply Z.pow_pos_nonneg; [lia|]. apply valid_exp in Vx. lia.
  - f_equal. destruct (Z.compare_spec ex ey) as [->|Hlt|Hgt]; symmetry.
    + assert (0 < 2 ^ (ey + 1074)) by (apply Z.pow_pos_nonneg; [lia|]; apply valid_exp in Vy; lia).
      change (Pos.compare_cont Eq mx my) with (Zpos mx ?= Zpos my).
      destruct (Z.compare_spec (Zpos mx) (Zpos my)) as [->|?|?]; [apply Z.compare_refl|apply Z.compare_lt_iff|apply Z.compare_gt_iff]; nia.
    + apply Z.compare_lt_iff. by apply units_lt.
    + apply Z.compare_gt_iff. by apply units_lt.
Qed.

Lemma f_le_units x y : nonneg x -> nonneg y -> finite x -> finite y -> f_le x y = true <-> units x <= units y.
Proof.
  intros. unfold f_le, SFleb. rewrite compare_units by done.
  destruct (Z.compare_spec (units x) (units y)); split; (done || lia).
Qed.

(** Two numbers with the same value are the same. *)
Lemma units_inj m1 e1 m2 e2 : f_valid (S754_finite false m1 e1) = true -> f_valid (S754_finite false m2 e2) = true ->
  Zpos m1 * 2 ^ (e1 + 1074) = Zpos m2 * 2 ^ (e2 + 1074) -> m1 = m2 /\ e1 = e2.
Proof.
  intros V1 V2 H. assert (e1 = e2) as <-.
  { destruct (Z.lt_trichotomy e1 e2) as [Hl|[?|Hl]]; [|done|];
      [pose proof (units_lt m1 e1 m2 e2 V1 V2 Hl)|pose proof (units_lt m2 e2 m1 e1 V2 V1 Hl)]; lia. }
  split; [|done]. apply valid_exp in V1. assert (0 < 2 ^ (e1 + 1074)) by (apply Z.pow_pos_nonneg; lia). nia.
Qed.

(** ** Rounding against a representable number *)

Section bounded.
Context (m : positive) (e : Z) (mx : positive) (ex : Z).
Context (He : -1074 <= e) (Hx : f_valid (S754_finite false mx ex) = true).

(** A number not below [m * 2^e] has at least the exponent it is rounded at. *)
Lemma round_exp : Zpos m * 2 ^ (e + 1074) <= Zpos mx * 2 ^ (ex + 1074) -> fexp prec emax (Zdigits2 (Zpos m) + e) <= ex.
Proof using He Hx.
  intros H. apply valid_exp in Hx as (Hr & Hd & Hn). rewrite fexp_max.
  assert (Zdigits2 (Zpos m * 2 ^ (e + 1074)) <= Zdigits2 (Zpos mx * 2 ^ (ex + 1074))) as Hle.
  { assert (0 < 2 ^ (e + 1074)) by (apply Z.pow_pos_nonneg; lia).
    rewrite !Zdigits2_log2 by lia. pose proof (Z.log2_le_mono _ _ H). lia. }
  rewrite !digits_shift in Hle by lia. lia.
Qed.

(** The mantissa [q] at exponent [E] against a multiple of [2^E]. *)
Lemma quotient_le n q' exact : 0 <= n -> e + n <= ex -> Zpos m * 2 ^ (e + 1074) <= Zpos mx * 2 ^ (ex + 1074) ->
  rounded (Zpos m) n exact q' -> exact = true -> q' * 2 ^ (e + n + 1074) <= Zpos mx * 2 ^ (ex + 1074).
Proof using He.
  intros Hn HE H Hq ->. replace (ex + 1074) with ((ex - (e + n)) + (e + n + 1074)) in * by lia.
  rewrite (Z.pow_add_r 2 (ex - (e + n))), Z.mul_assoc in * by lia.
  replace (e + n + 1074) with (n + (e + 1074)) in * by lia. rewrite (Z.pow_add_r 2 n (e + 1074)) in * by lia.
  assert (0 < 2 ^ n) by (apply Z.pow_pos_nonneg; lia). assert (0 < 2 ^ (e + 1074)) by (apply Z.pow_pos_nonneg; lia).
  set (X := Zpos mx * 2 ^ (ex - (e + n))) in *. set (A := 2 ^ (e + 1074)) in *.
  assert (Zpos m <= X * 2 ^ n) as HX by nia. assert (q' * 2 ^ n <= X * 2 ^ n); [|nia].
  pose proof (Z.div_mod (Zpos m) (2 ^ n)). pose proof (Z.mod_pos_bound (Zpos m) (2 ^ n)).
  destruct Hq as [->|[-> [?|Hne]]]; [nia|done|].
  assert (Zpos m / 2 ^ n < X); [|nia]. apply Z.div_lt_upper_bound; [lia|].
  destruct (Z.eq_dec (Zpos m) (X * 2 ^ n)) as [E|]; [|lia]. exfalso. apply Hne. rewrite E. apply Z.mod_mul. lia.
Qed.
End bounded.

(** The result stays within the number, so it is finite. *)
Lemma round_le m e mx ex : -1074 <= e -> f_valid (S754_finite false mx ex) = true ->
  Zpos m * 2 ^ (e + 1074) <= Zpos mx * 2 ^ (ex + 1074) ->
  let r := binary_round prec emax false m e in finite r /\ units r <= Zpos mx * 2 ^ (ex + 1074).
Proof.
  intros He Hx H r. subst r. destruct (round_aux false m e) as (m' & e' & -> & He' & Hm' & Hf & Hfe).
  pose proof (round_exp m e mx ex He Hx H) as HE. rewrite <- Hfe in HE.
  assert (-1074 <= e') as Hlo by (rewrite He', fexp_max; lia).
  assert (Zpos m' * 2 ^ (e' + 1074) = Zpos m * 2 ^ (e + 1074)) as Hv.
  { rewrite Hm', <- Z.mul_assoc, <- Z.pow_add_r by lia. do 2 f_equal. lia. }
  destruct (round_aux_cases false (Zpos m') e' loc_Exact ltac:(lia) Hf) as (q' & Hq & Hb & -> & _).
  set (E := fexp prec emax (Zdigits2 (Zpos m') + e')) in *.
  pose proof (quotient_le m' e' mx ex Hlo (E - e') q' _ ltac:(lia) ltac:(lia) ltac:(lia) Hq eq_refl) as Hle.
  replace (e' + (E - e') + 1074) with (E + 1074) in Hle by lia.
  destruct (Z.eqb_spec q' 0); [split; [done|]; cbn; lia|].
  assert (ex <= 971) by (apply valid_exp in Hx; lia). assert (-1074 <= E) by (unfold E; rewrite fexp_max; lia).
  destruct (Z.eqb_spec q' (2 ^ 53)) as [Eq|].
  - subst q'. assert (E + 1 <= ex).
    { apply valid_exp in Hx as (? & Hd & _). assert (Zpos mx < 2 ^ 53) by (apply digits_le; lia).
      destruct (Z.eq_dec E ex) as [->|]; [|lia]. assert (0 < 2 ^ (ex + 1074)) by (apply Z.pow_pos_nonneg; lia). nia. }
    rewrite (proj2 (Z.leb_le _ _)) by lia. split; [done|]. cbn [units]. change (Zpos (2 ^ 52)) with (2 ^ 52).
    replace (E + 1 + 1074) with (E + 1074 + 1) by lia. rewrite (Z.pow_add_r 2 (E + 1074)) by lia. lia.
  - rewrite (proj2 (Z.leb_le _ _)) by lia. split; [done|]. cbn [units]. by rewrite Z2Pos.id by lia.
Qed.

(** A number that is representable is not changed. *)
Lemma round_exact m e mx ex : -1074 <= e -> f_valid (S754_finite false mx ex) = true ->
  Zpos m * 2 ^ (e + 1074) = Zpos mx * 2 ^ (ex + 1074) -> binary_round prec emax false m e = S754_finite false mx ex.
Proof.
  intros He Hx H. destruct (round_le m e mx ex He Hx ltac:(lia)) as [Hfin _].
  destruct (round_nonneg m e) as [Hn Hv]. destruct (round_aux false m e) as (m' & e' & Er & He' & Hm' & Hf & Hfe).
  rewrite Er in *. pose proof (round_exp m e mx ex He Hx ltac:(lia)) as HE. rewrite <- Hfe in HE.
  assert (-1074 <= e') as Hlo by (rewrite He', fexp_max; lia).
  assert (Zpos m' * 2 ^ (e' + 1074) = Zpos mx * 2 ^ (ex + 1074)) as Hv'.
  { rewrite <- H, Hm', <- Z.mul_assoc, <- Z.pow_add_r by lia. do 2 f_equal. lia. }
  destruct (round_aux_cases false (Zpos m') e' loc_Exact ltac:(lia) Hf) as (q' & Hq & Hb & Eq & _).
  set (E := fexp prec emax (Zdigits2 (Zpos m') + e')) in *. rewrite Eq in *. clear Eq.
  assert (Zpos m' = Zpos mx * 2 ^ (ex - e')) as Hmm.
  { replace (ex + 1074) with (ex - e' + (e' + 1074)) in Hv' by lia. rewrite (Z.pow_add_r 2 (ex - e')) in Hv' by lia.
    assert (0 < 2 ^ (e' + 1074)) by (apply Z.pow_pos_nonneg; lia). nia. }
  assert (Zpos m' = Zpos mx * 2 ^ (ex - E) * 2 ^ (E - e')) as HmE.
  { rewrite Hmm, <- Z.mul_assoc, <- Z.pow_add_r by lia. do 2 f_equal. lia. }
  assert (0 < 2 ^ (E - e')) by (apply Z.pow_pos_nonneg; lia).
  assert (q' = Zpos mx * 2 ^ (ex - E)) as Hq'.
  { destruct Hq as [->|[_ [[=]|Hne]]]; [rewrite HmE; apply Z.div_mul; lia|]. destruct Hne. rewrite HmE. apply Z.mod_mul. lia. }
  assert (0 < 2 ^ (ex - E)) by (apply Z.pow_pos_nonneg; lia).
  destruct (Z.eqb_spec q' 0); [nia|]. assert (-1074 <= E) by (unfold E; rewrite fexp_max; lia).
  assert (q' * 2 ^ (E + 1074) = Zpos mx * 2 ^ (ex + 1074)) as Hval.
  { rewrite Hq', <- Z.mul_assoc, <- Z.pow_add_r by lia. do 2 f_equal. lia. }
  destruct (Z.eqb_spec q' (2 ^ 53)) as [E53|]; destruct (_ <=? 971) eqn:Hle; try done;
    edestruct (units_inj _ _ mx ex Hv Hx) as [-> ->]; try done.
  - change (Zpos (2 ^ 52)) with (2 ^ 52). rewrite <- Hval, E53. replace (E + 1 + 1074) with (E + 1074 + 1) by lia.
    rewrite (Z.pow_add_r 2 (E + 1074)) by lia. lia.
  - rewrite Z2Pos.id by lia. done.
Qed.

(** ** Integers, and subtracting one *)

Lemma int_valid n : 1 <= n <= 2 ^ 53 -> exists m e,
  f_valid (S754_finite false m e) = true /\ f_of_int n = S754_finite false m e /\ Zpos m * 2 ^ (e + 1074) = n * 2 ^ 1074.
Proof.
  intros Hn. assert (exists m e, f_valid (S754_finite false m e) = true /\ Zpos m * 2 ^ (e + 1074) = n * 2 ^ 1074) as (m & e & Hv & Hu).
  { destruct (Z.eq_dec n (2 ^ 53)) as [->|Hne]; [exists (2 ^ 52)%positive, 1; by split|].
    pose proof (digits_le n 53 ltac:(lia) ltac:(lia)) as Hd. assert (0 < Zdigits2 n) by (apply (digits_ge n 0); lia).
    assert (0 < 2 ^ (53 - Zdigits2 n)) by (apply Z.pow_pos_nonneg; lia).
    exists (Z.to_pos (n * 2 ^ (53 - Zdigits2 n))), (Zdigits2 n - 53). split.
    - unfold f_valid, valid_binary, bounded. apply andb_true_iff. split; [|apply Z.leb_le; lia].
      apply canonical. rewrite Z2Pos.id, digits_shift, fexp_max by lia. lia.
    - rewrite Z2Pos.id, <- Z.mul_assoc, <- Z.pow_add_r by lia. do 2 f_equal. lia. }
  exists m, e. split_and!; [done| |done]. unfold f_of_int. destruct n as [|p|p]; try lia. cbn [binary_normalize].
  apply round_exact; [lia|done|]. rewrite Hu. done.
Qed.

Lemma f_one_eq : f_one = S754_finite false (2 ^ 52) (-52).
Proof. reflexivity. Qed.

(** The exact difference, before rounding. *)
Lemma f_sub_one_exact m e : f_valid (S754_finite false m e) = true ->
  exists d z, f_sub (S754_finite false m e) f_one = binary_normalize prec emax d z false /\ -1074 <= z
    /\ d * 2 ^ (z + 1074) = Zpos m * 2 ^ (e + 1074) - 2 ^ 1074.
Proof.
  intros Hv. apply valid_exp in Hv as (Hr & _). rewrite f_one_eq. unfold f_sub. cbn [SFsub cond_Zopp].
  set (z := Z.min e (-52)). destruct (shl_align_spec m e z) as [_ ->]. destruct (shl_align_spec (2 ^ 52) (-52) z) as [_ ->].
  replace (Z.min e z) with z by lia. replace (Z.min (-52) z) with z by lia. eexists _, z. split_and!; [done|lia|].
  rewrite Z.mul_sub_distr_r, <- !Z.mul_assoc, <- !Z.pow_add_r by lia. f_equal; [do 2 f_equal; lia|].
  change (Zpos (2 ^ 52)) with (2 ^ 52). rewrite <- Z.pow_add_r by lia. f_equal. lia.
Qed.

(** Taking one from a number that is at least one stays between zero and it. *)
Lemma f_sub_one x : nonneg x -> finite x -> f_le f_one x = true ->
  let r := f_sub x f_one in nonneg r /\ finite r /\ units r <= units x.
Proof.
  intros Hx Fx Hle r. apply f_le_units in Hle; [|done..|done]. destruct x as [s|s| |s m e]; [|done..|].
  { exfalso. revert Hle. rewrite f_one_eq. cbn. lia. }
  destruct Hx as [Hs Hv]. subst s. assert (units f_one = 2 ^ 1074) as Hone by reflexivity. rewrite Hone in Hle. cbn [units] in Hle.
  destruct (f_sub_one_exact m e Hv) as (d & z & Er & Hz & Hd). subst r. rewrite Er.
  assert (0 < 2 ^ (z + 1074)) by (apply Z.pow_pos_nonneg; lia). assert (0 <= d) as Hd0 by nia.
  split; [by apply normalize_nonneg|]. destruct d as [|d|d]; [cbn [binary_normalize units]; split; [done|]; lia| |lia].
  cbn [binary_normalize]. apply round_le; [done|done|]. rewrite Hd. lia.
Qed.

Lemma f_sub_one_int n : 1 <= n <= 2 ^ 53 -> f_sub (f_of_int n) f_one = f_of_int (n - 1).
Proof.
  intros Hn. destruct (int_valid n Hn) as (m & e & Hv & -> & Hu).
  destruct (f_sub_one_exact m e Hv) as (d & z & -> & Hz & Hd). rewrite Hu in Hd.
  assert (0 < 2 ^ (z + 1074)) by (apply Z.pow_pos_nonneg; lia).
  destruct (Z.eq_dec n 1) as [->|Hne]; [assert (d = 0) as -> by lia; done|].
  destruct (int_valid (n - 1) ltac:(lia)) as (m' & e' & Hv' & -> & Hu').
  destruct d as [|d|d]; [lia| |lia]. cbn [binary_normalize]. apply round_exact; [done|done|lia].
Qed.

Lemma f_one_le_int n : 0 <= n <= 2 ^ 53 -> f_le f_one (f_of_int n) = (1 <=? n).
Proof.
  intros Hn. destruct (Z.leb_spec 1 n) as [H1|H0].
  - destruct (int_valid n ltac:(lia)) as (m & e & Hv & E & Hu). apply f_le_units; [by split| |done| |].
    + apply f_of_int_nonneg. lia.
    + by rewrite E.
    + rewrite E. cbn [units]. rewrite Hu. assert (units f_one = 2 ^ 1074) as -> by reflexivity. lia.
  - by assert (n = 0) as -> by lia.
Qed.

(** ** Products and quotients *)

Lemma f_lt_zero x : f_lt (f_of_int 0) x = true -> (forall s, x <> S754_zero s) /\ x <> S754_nan /\ (f_valid x = true -> nonneg x).
Proof. destruct x as [[]|[]| |[] m e]; done. Qed.

Lemma f_mul_positive x y : nonneg x -> nonneg y -> (forall s, x <> S754_zero s) -> (forall s, y <> S754_zero s) -> nonneg (f_mul x y).
Proof.
  intros Hx Hy Nx Ny. destruct x as [sx|[]| |sx mx ex]; try by destruct Hx.
  - by destruct (Nx sx).
  - destruct Hy as [Hy Vy], y as [sy|[]| |[] my ey]; try done. by destruct (Ny sy).
  - apply f_mul_nonneg; done.
Qed.

(** A quotient of positive numbers, rounded. *)
Lemma div_core_nonneg m1 e1 m e :
  nonneg (let '(q, z, l) := SFdiv_core_binary prec emax (Zpos m1) e1 (Zpos m) e in binary_round_aux prec emax false q z l).
Proof.
  unfold SFdiv_core_binary. set (d1 := Zdigits2 (Zpos m1)). set (d2 := Zdigits2 (Zpos m)).
  assert (0 < d1 /\ 0 < d2) as [Hd1 Hd2] by done.
  set (e' := Z.min (fexp prec emax (d1 + e1 - (d2 + e))) (e1 - e)).
  assert (e' <= fexp prec emax (d1 + e1 - (d2 + e)) /\ e' <= e1 - e) as [He' He1] by (unfold e'; lia). clearbody e'.
  assert (Hs : (match e1 - e - e' with Z0 => Zpos m1 | Zpos _ => Z.shiftl (Zpos m1) (e1 - e - e') | Zneg _ => 0 end)
               = Zpos m1 * 2 ^ (e1 - e - e')).
  { assert (0 <= e1 - e - e') by lia. destruct (e1 - e - e') eqn:E; [cbn; lia| |lia]. apply Z.shiftl_mul_pow2. lia. }
  rewrite Hs. pose proof (Z.div_eucl_eq (Zpos m1 * 2 ^ (e1 - e - e')) (Zpos m) ltac:(lia)) as Hq.
  assert (fst (Z.div_eucl (Zpos m1 * 2 ^ (e1 - e - e')) (Zpos m)) = Zpos m1 * 2 ^ (e1 - e - e') / Zpos m) as Hf by done.
  destruct (Z.div_eucl _ _) as [q r]. cbn [fst] in Hf. subst q. set (q := _ / _).
  assert (0 < 2 ^ (e1 - e - e')) by (apply Z.pow_pos_nonneg; lia). assert (0 <= q) by (apply Z.div_pos; lia).
  apply round_aux_nonneg; [done|]. assert (d1 + (e1 - e - e') - d2 <= Zdigits2 q); [|rewrite fexp_max in *; lia].
  destruct (Z.le_gt_cases (d1 + (e1 - e - e') - d2) 0) as [?|Hgt]; [assert (0 <= Zdigits2 q) by (clearbody q; by destruct q); lia|].
  cut (d1 + (e1 - e - e') - d2 - 1 < Zdigits2 q); [lia|]. apply digits_ge; [done|lia|]. apply Z.div_le_lower_bound; [lia|].
  assert (Zpos m < 2 ^ d2) by (apply digits_le; fold d2; lia).
  assert (2 ^ (d1 - 1 + (e1 - e - e')) <= Zpos m1 * 2 ^ (e1 - e - e')).
  { rewrite Z.pow_add_r by lia. assert (2 ^ (d1 - 1) <= Zpos m1) by (apply digits_ge; fold d1; lia). nia. }
  transitivity (2 ^ (d1 - 1 + (e1 - e - e'))); [|done].
  replace (d1 - 1 + (e1 - e - e')) with (d2 + (d1 + (e1 - e - e') - d2 - 1)) by lia.
  rewrite (Z.pow_add_r 2 d2) by lia. assert (0 < 2 ^ (d1 + (e1 - e - e') - d2 - 1)) by (apply Z.pow_pos_nonneg; lia). nia.
Qed.

Lemma f_div_nonneg x m e : nonneg x -> f_valid (S754_finite false m e) = true -> nonneg (f_div x (S754_finite false m e)).
Proof.
  intros [Hx Vx] Vm. unfold f_div. destruct x as [s|s| |s m1 e1]; subst; try done. cbn [SFdiv xorb]. apply div_core_nonneg.
Qed.

(** ** Negative numbers *)

Lemma round_aux_opp m e l : binary_round_aux prec emax true m e l = SFopp (binary_round_aux prec emax false m e l).
Proof.
  unfold binary_round_aux. destruct (shr_fexp _ _ m e l) as [r1 e1]. destruct (shr_fexp _ _ _ e1 _) as [r2 e2].
  destruct (shr_m r2); [done| |done]. by destruct (e2 <=? _).
Qed.

Lemma round_opp m e : binary_round prec emax true m e = SFopp (binary_round prec emax false m e).
Proof. unfold binary_round. destruct (shl_align m e _). apply round_aux_opp. Qed.

Lemma f_of_int_opp n : 0 < n -> f_of_int (- n) = SFopp (f_of_int n).
Proof. destruct n; [lia| |lia]. intros _. apply round_opp. Qed.

Lemma f_div_opp x m e : f_div (SFopp x) (S754_finite false m e) = SFopp (f_div x (S754_finite false m e)).
Proof.
  destruct x as [[]|[]| |s m1 e1]; try done. unfold f_div. cbn [SFdiv SFopp]. destruct (SFdiv_core_binary _ _ _ _ _ _) as [[q z] l].
  destruct s; cbn [negb xorb]; rewrite round_aux_opp; [|done]. by destruct (binary_round_aux _ _ false _ _ _) as [[]|[]| |[]].
Qed.

(** A sum of two numbers that are not positive. *)
Lemma f_add_nonpos x y : nonneg x -> nonneg y -> f_lt (f_of_int 0) (f_add (SFopp x) (SFopp y)) = false.
Proof.
  intros [Hx Vx] [Hy Vy]. unfold f_add.
  destruct x as [[]|sx| |sx mx ex], y as [[]|sy| |sy my ey]; subst; try done. cbn [SFopp SFadd negb cond_Zopp].
  set (d := - Zpos (fst (shl_align mx ex _)) + - Zpos (fst (shl_align my ey _))).
  assert (exists p, d = Zneg p) as [p ->] by (exists (Z.to_pos (- d)); lia). cbn [binary_normalize]. rewrite round_opp.
  destruct (round_nonneg p (Z.min ex ey)) as [Hn _]. destruct (binary_round _ _ _ _ _) as [[]|s| |s m e]; subst; done.
Qed.
