(* ===== verification/NumText.v ===== *)
(** * NumText: fractions and durations written as text

    Go's [strconv.ParseFloat] to 64 bits and [time.ParseDuration], which read two
    of the settings: the accepted syntax, the rounding, the overflow checks of the
    64-bit arithmetic; that every accepted text gives a well-formed value, and that
    whole numbers are read exactly. *)

From Stdlib Require Import SpecFloat.
From S2P Require Import Prelude GoStrings Strconv Float64.

Definition has_underscore (s : bytes) : bool := in_cutset s "_"%char.

(** ** [strconv.ParseFloat(s, 64)] *)

(** Infinities, with a sign and in any case, and a NaN without a sign. *)
Definition special (s : bytes) : option float64 :=
  let '(neg, r) := split_sign s in
  let l := lower_byte <$> r in
  if bool_decide (l = #"inf") || bool_decide (l = #"infinity") then Some (S754_infinity neg)
  else if bool_decide (lower_byte <$> s = #"nan") then Some S754_nan
  else None.

(** The digits around one point; underscores are skipped and checked at the end.
    Every digit counts: the mantissa, the digits after the point, whether there
    was a digit, and what follows. *)
Fixpoint mantissa_loop (hex : bool) (m frac : Z) (sawdot sawdigits : bool) (s : bytes) : Z * Z * bool * bytes :=
  match s with
  | [] => (m, frac, sawdigits, [])
  | c :: rest =>
      if Ascii.eqb c "_" then mantissa_loop hex m frac sawdot sawdigits rest
      else if Ascii.eqb c "." then
        if sawdot then (m, frac, sawdigits, s) else mantissa_loop hex m frac true sawdigits rest
      else
        match (if hex then hex_digit c else digit c) with
        | Some d => mantissa_loop hex (m * (if hex then 16 else 10) + d) (if sawdot then frac + 1 else frac) sawdot true rest
        | None => (m, frac, sawdigits, s)
        end
  end.

(** The digits of an exponent; it stops growing at five digits. *)
Fixpoint exponent_loop (e : Z) (s : bytes) : Z * bytes :=
  match s with
  | [] => (e, [])
  | c :: rest =>
      if Ascii.eqb c "_" then exponent_loop e rest
      else match digit c with
           | Some d => exponent_loop (if e <? 10000 then e * 10 + d else e) rest
           | None => (e, s)
           end
  end.

(** An exponent with its sign, which a digit must follow. *)
Definition read_exponent (s : bytes) : option (Z * bytes) :=
  let '(neg, r) := split_sign s in
  match r with
  | c :: _ =>
      _ ← digit c;
      let '(e, rest) := exponent_loop 0 r in Some (if neg then - e else e, rest)
  | [] => None
  end.

(** Sign, hexadecimal or not, mantissa and exponent (of two or of ten) of a text
    that is a number as a whole. *)
Definition readFloat (s : bytes) : option (bool * bool * Z * Z) :=
  let '(neg, t) := split_sign s in
  let '(hex, digits) :=
    match t with
    | z :: x :: ((_ :: _) as r) => if Ascii.eqb z "0" && Ascii.eqb (lower_byte x) "x" then (true, r) else (false, t)
    | _ => (false, t)
    end in
  let '(m, frac, sawdigits, rest) := mantissa_loop hex 0 0 false false digits in
  if negb sawdigits then None else
  '(e, rest) ←
    match rest with
    | c :: r =>
        if Ascii.eqb (lower_byte c) (if hex then "p" else "e") then read_exponent r
        else if hex then None else Some (0, rest)
    | [] => if hex then None else Some (0, rest)
    end;
  match rest with
  | _ :: _ => None
  | [] =>
      if has_underscore t && negb (underscoreOK t) then None
      else Some (neg, hex, m, e - (if hex then 4 * frac else frac))
  end.

(** The float64 nearest to [m * 10^e] for [0 <= m], ties to even. *)
Definition round_decimal (m e : Z) : float64 :=
  if 0 <=? e then binary_normalize 53 1024 (m * 10 ^ e) 0 false
  else
    match m with
    | Z0 => S754_zero false
    | _ =>
        let '(q, z, l) := SFdiv_core_binary 53 1024 m 0 (10 ^ (- e)) 0 in
        binary_round_aux 53 1024 false q z l
    end.

(** [None] for bad syntax and for a number that rounds to an infinity. *)
Definition ParseFloat (s : bytes) : option float64 :=
  match special s with
  | Some x => Some x
  | None =>
      match readFloat s with
      | None => None
      | Some (neg, hex, m, e) =>
          match (if hex : bool then binary_normalize 53 1024 m e false else round_decimal m e) with
          | S754_infinity _ => None
          | x => Some (if neg : bool then SFopp x else x)
          end
      end
  end.

(** ** [time.ParseDuration] *)

(** [leadingInt]: [None] when the number exceeds 2^63. *)
Fixpoint leadingInt (x : Z) (s : bytes) : option (Z * bytes) :=
  match s with
  | [] => Some (x, [])
  | c :: rest =>
      match digit c with
      | None => Some (x, s)
      | Some d =>
          if 2 ^ 63 / 10 <? x then None
          else if 2 ^ 63 <? x * 10 + d then None
          else leadingInt (x * 10 + d) rest
      end
  end.

(** [leadingFraction]: digits that do not fit are dropped. *)
Fixpoint leadingFraction (x : Z) (scale : float64) (overflow : bool) (s : bytes) : Z * float64 * bytes :=
  match s with
  | [] => (x, scale, [])
  | c :: rest =>
      match digit c with
      | None => (x, scale, s)
      | Some d =>
          if overflow then leadingFraction x scale true rest
          else if max_int64 / 10 <? x then leadingFraction x scale true rest
          else if 2 ^ 63 <? x * 10 + d then leadingFraction x scale true rest
          else leadingFraction (x * 10 + d) (f_mul scale (f_of_int 10)) false rest
      end
  end.

(** The units in nanoseconds; the micro sign and the Greek letter mu are two
    bytes each. *)
Definition unitMap : list (bytes * Z) :=
  [ (#"ns", 1); (#"us", 1000);
    ([ascii_of_N 0xC2; ascii_of_N 0xB5; "s"%char], 1000);
    ([ascii_of_N 0xCE; ascii_of_N 0xBC; "s"%char], 1000);
    (#"ms", 1000000); (#"s", 1000000000); (#"m", 60000000000); (#"h", 3600000000000) ].

Definition unit_of (u : bytes) : option Z := snd <$> find (fun e => bool_decide (e.1 = u)) unitMap.

(** Up to the next digit or point. *)
Fixpoint unit_text (s : bytes) : bytes * bytes :=
  match s with
  | [] => ([], [])
  | c :: rest =>
      if Ascii.eqb c "." || bool_decide (is_Some (digit c)) then ([], s)
      else let '(u, r) := unit_text rest in (c :: u, r)
  end.

Section durations.
(** [uint64(f)] of a number outside the range. *)
Context (out_of_range : float64 -> Z).

(** One number with its unit: its nanoseconds, at most 2^63, and the rest. *)
Definition duration_part (s : bytes) : option (Z * bytes) :=
  '(v, s1) ← leadingInt 0 s;
  let pre := bool_decide (length s1 < length s)%nat in
  let '(f, scale, s3, post) :=
    match s1 with
    | c :: s2 =>
        if Ascii.eqb c "." then
          let '(f, scale, s3) := leadingFraction 0 f_one false s2 in (f, scale, s3, bool_decide (length s3 < length s2)%nat)
        else (0, f_one, s1, false)
    | [] => (0, f_one, s1, false)
    end in
  if negb pre && negb post then None else
  let '(u, rest) := unit_text s3 in
  unit ← unit_of u;
  if 2 ^ 63 / unit <? v then None else
  let v := v * unit in
  if 0 <? f then
    let v := (v + f_trunc out_of_range (f_mul (f_of_int f) (f_div (f_of_int unit) scale))) mod 2 ^ 64 in
    if 2 ^ 63 <? v then None else Some (v, rest)
  else Some (v, rest).

(** The sum of the parts, modulo 2^64; every part is a byte or more. *)
Fixpoint duration_parts (fuel : nat) (d : Z) (s : bytes) : option Z :=
  match s, fuel with
  | [], _ => Some d
  | _, O => None
  | _, S fuel =>
      '(v, rest) ← duration_part s;
      let d := (d + v) mod 2 ^ 64 in
      if 2 ^ 63 <? d then None else duration_parts fuel d rest
  end.

Definition ParseDuration (s : bytes) : option Z :=
  let '(neg, t) := split_sign s in
  match t with
  | [] => None
  | _ =>
      if bool_decide (t = #"0") then Some 0 else
      d ← duration_parts (length t) 0 t;
      if neg then Some (- d) else if max_int64 <? d then None else Some d
  end.
End durations.

(** ** Fractions *)

Lemma f_valid_opp x : f_valid (SFopp x) = f_valid x.
Proof. by destruct x. Qed.

Lemma round_decimal_nonneg m e : 0 <= m -> nonneg (round_decimal m e).
Proof.
  intros Hm. unfold round_decimal. destruct (Z.leb_spec 0 e) as [He|He].
  - apply normalize_nonneg. assert (0 < 10 ^ e) by (apply Z.pow_pos_nonneg; lia). nia.
  - destruct m as [|m|m]; [done| |lia]. assert (0 < 10 ^ (- e)) by (apply Z.pow_pos_nonneg; lia).
    destruct (10 ^ (- e)) as [|p|p]; [lia| |lia]. apply div_core_nonneg.
Qed.

Lemma mantissa_nonneg hex m frac sawdot sawdigits s : 0 <= m -> 0 <= (mantissa_loop hex m frac sawdot sawdigits s).1.1.1.
Proof.
  revert m frac sawdot sawdigits. induction s as [|c s IH]; intros m frac sawdot sawdigits Hm; cbn [mantissa_loop]; [done|].
  destruct (Ascii.eqb c "_"); [by apply IH|]. destruct (Ascii.eqb c "."); [destruct sawdot; [done|by apply IH]|].
  destruct hex.
  - destruct (hex_digit c) as [d|] eqn:E; [|done]. apply hex_digit_range in E. apply IH. lia.
  - destruct (digit c) as [d|] eqn:E; [|done]. apply digit_range in E. apply IH. lia.
Qed.

Lemma readFloat_nonneg s neg hex m e : readFloat s = Some (neg, hex, m, e) -> 0 <= m.
Proof.
  unfold readFloat. destruct (split_sign s) as [n t]. destruct (match t with [] => _ | _ => _ end) as [h digits].
  pose proof (mantissa_nonneg h 0 0 false false digits ltac:(done)) as Hm.
  destruct (mantissa_loop h 0 0 false false digits) as [[[m0 frac] saw] rest]. cbn [fst] in Hm.
  destruct saw; [|done]. cbn [negb]. destruct (match rest with [] => _ | _ => _ end) as [[e0 r0]|]; [|done].
  cbn [mbind option_bind]. destruct r0; [|done]. destruct (_ && _); [done|]. intros. by simplify_eq.
Qed.

(** What is read is a float64 in its canonical form. *)
Lemma ParseFloat_valid s x : ParseFloat s = Some x -> f_valid x = true.
Proof.
  unfold ParseFloat. destruct (special s) as [y|] eqn:Es.
  { intros [= <-]. unfold special in Es. destruct (split_sign s). repeat case_match; by simplify_eq. }
  destruct (readFloat s) as [[[[neg hex] m] e]|] eqn:Er; [|done]. apply readFloat_nonneg in Er.
  assert (nonneg (if hex then binary_normalize 53 1024 m e false else round_decimal m e)) as [_ Hv]
    by (destruct hex; [by apply normalize_nonneg|by apply round_decimal_nonneg]).
  set (r := if hex then _ else _) in *. clearbody r. destruct r; intros [= <-]; destruct neg; (done || by rewrite f_valid_opp).
Qed.

(** A NaN is written in any case, without a sign. *)
Lemma ParseFloat_nan s : lower_byte <$> s = #"nan" -> ParseFloat s = Some S754_nan.
Proof.
  intros Hs. unfold ParseFloat, special. rewrite Hs. destruct s as [|c s]; [done|]. cbn [fmap list_fmap] in Hs.
  assert (split_sign (c :: s) = (false, c :: s)) as ->.
  { cbn [split_sign]. destruct (Ascii.eqb_spec c "-") as [->|_]; [done|]. by destruct (Ascii.eqb_spec c "+") as [->|_]. }
  cbn [fmap list_fmap]. by rewrite Hs.
Qed.

Definition decimal (s : bytes) : Prop := Forall (fun c => 48 <= code c <= 57) s.

Lemma mantissa_decimal m frac saw s v :
  decimal s -> parse_digits m s = Some v -> mantissa_loop false m frac false saw s = (v, frac, saw || bool_decide (s <> []), []).
Proof.
  intros Hs. revert m saw. induction Hs as [|c s Hc Hs IH]; intros m saw H; cbn [mantissa_loop].
  { cbn in H. simplify_eq. by rewrite orb_false_r. }
  assert (Ascii.eqb c "_" = false) as -> by (apply ascii_eqb_false, digit_char_ne; [done|code_lia]).
  assert (Ascii.eqb c "." = false) as -> by (apply ascii_eqb_false, digit_char_ne; [done|code_lia]).
  cbn [parse_digits] in H. destruct (digit c) as [d|]; [|done]. cbn [mbind option_bind] in H.
  rewrite (IH _ true H). rewrite (bool_decide_eq_true_2 (c :: s <> [])) by done. by rewrite orb_true_r.
Qed.

Lemma decimal_ne c s x : decimal (c :: s) -> ~ (48 <= code x <= 57) -> Ascii.eqb c x = false.
Proof. intros H%Forall_inv Hx. apply ascii_eqb_false. by apply digit_char_ne. Qed.

Lemma decimal_sign s : decimal s -> split_sign s = (false, s).
Proof. intros H. destruct s as [|c s]; [done|]. cbn. rewrite !(decimal_ne c s) by (done || code_lia). done. Qed.

Lemma lower_byte_digit c : 48 <= code c <= 57 -> lower_byte c = c.
Proof. intros H. unfold lower_byte. destruct (_ && _) eqn:E; [lia|done]. Qed.

Lemma decimal_lower s : decimal s -> lower_byte <$> s = s.
Proof. induction 1 as [|c s Hc Hs IH]; cbn; [done|]. by rewrite lower_byte_digit, IH. Qed.

Lemma special_decimal s : decimal s -> special s = None.
Proof.
  intros H. unfold special. rewrite (decimal_sign s H), (decimal_lower s H).
  assert (forall t, ~ decimal t -> bool_decide (s = t) = false) as Hne.
  { intros t Ht. apply bool_decide_eq_false. by intros ->. }
  rewrite !Hne; [done|..]; intros Hd%Forall_inv; revert Hd; code_lia.
Qed.

Lemma has_underscore_decimal s : decimal s -> has_underscore s = false.
Proof.
  unfold has_underscore, in_cutset. induction 1 as [|c s Hc Hs IH]; [done|]. cbn [existsb]. rewrite IH, orb_false_r.
  apply ascii_eqb_false. intros <-. revert Hc. code_lia.
Qed.

Lemma readFloat_decimal s v : decimal s -> s <> [] -> parse_digits 0 s = Some v -> readFloat s = Some (false, false, v, 0).
Proof.
  intros Hs Hne Hv. unfold readFloat. rewrite (decimal_sign s Hs).
  assert (match s with
          | z :: x :: ((_ :: _) as r) => if Ascii.eqb z "0" && Ascii.eqb (lower_byte x) "x" then (true, r) else (false, s)
          | _ => (false, s)
          end = (false, s)) as ->.
  { destruct s as [|z [|x [|y r]]]; try done. assert (Hx := Hs). apply Forall_inv_tail in Hx.
    rewrite lower_byte_digit by (by apply Forall_inv in Hx). rewrite (decimal_ne x (y :: r)) by (done || code_lia). by rewrite andb_false_r. }
  rewrite (mantissa_decimal 0 0 false s v Hs Hv), (bool_decide_eq_true_2 _ Hne). cbn [orb negb mbind option_bind].
  by rewrite has_underscore_decimal.
Qed.

(** A whole number is read as Go converts the integer. *)
Lemma ParseFloat_whole n : 0 <= n ->
  ParseFloat (format_udec n) = match f_of_int n with S754_infinity _ => None | x => Some x end.
Proof.
  intros Hn. destruct (format_udec_spec n Hn) as (Hp & Hne & Hd). unfold ParseFloat.
  rewrite special_decimal, (readFloat_decimal _ n) by done. unfold round_decimal. by rewrite Z.mul_1_r.
Qed.

(** ** Durations *)

Lemma leadingInt_shrinks x s v rest : leadingInt x s = Some (v, rest) -> exists p, s = p ++ rest /\ decimal p.
Proof.
  revert x. induction s as [|c s IH]; intros x; cbn [leadingInt]; [intros [= <- <-]; by exists []; split; [|constructor]|].
  unfold digit. destruct (_ && _) eqn:E; [|intros [= <- <-]; by exists []; split; [|constructor]].
  destruct (_ <? _); [done|]. destruct (_ <? _); [done|]. intros (p & -> & Hp)%IH. exists (c :: p). split; [done|].
  constructor; [lia|done].
Qed.

Lemma leadingFraction_shrinks x scale o s : (length (leadingFraction x scale o s).2 <= length s)%nat.
Proof.
  revert x scale o. induction s as [|c s IH]; intros x scale o; cbn [leadingFraction length]; [done|].
  destruct (digit c); [|done]. repeat case_match; apply Nat.le_le_succ_r, IH.
Qed.

Lemma unit_text_parts s u rest : unit_text s = (u, rest) -> s = u ++ rest.
Proof.
  revert u rest. induction s as [|c s IH]; intros u rest; cbn [unit_text]; [by intros [= <- <-]|].
  destruct (_ || _); [by intros [= <- <-]|]. destruct (unit_text s) as [u' r']. intros [= <- <-]. cbn. f_equal. by apply IH.
Qed.

Lemma unit_of_nonempty : unit_of [] = None.
Proof. reflexivity. Qed.

Lemma duration_part_shrinks oor s v rest : duration_part oor s = Some (v, rest) -> (length rest < length s)%nat.
Proof.
  unfold duration_part. destruct (leadingInt 0 s) as [[v0 s1]|] eqn:El; [|done]. cbn [mbind option_bind].
  apply leadingInt_shrinks in El as (p & -> & _). rewrite length_app.
  destruct (match s1 with [] => _ | _ => _ end) as [[[f scale] s3] post] eqn:Ef.
  assert (length s3 <= length s1)%nat as Hs3.
  { destruct s1 as [|c s2]; [by simplify_eq|]. destruct (Ascii.eqb c "."); [|by simplify_eq].
    pose proof (leadingFraction_shrinks 0 f_one false s2) as Hl. destruct (leadingFraction _ _ _ _) as [[f' sc'] s3'].
    simplify_eq. cbn in *. lia. }
  destruct (_ && _); [done|]. destruct (unit_text s3) as [u r] eqn:Eu. apply unit_text_parts in Eu as ->.
  rewrite length_app in Hs3. destruct u as [|c u]; [by rewrite unit_of_nonempty|]. cbn [length] in *.
  destruct (unit_of _) as [k|]; [|done]. cbn [mbind option_bind]. repeat case_match; intros; simplify_eq; lia.
Qed.

(** The loop ends: a step for every byte is enough. *)
Lemma duration_parts_fuel oor fuel d s : (length s <= fuel)%nat -> duration_parts oor fuel d s = duration_parts oor (length s) d s.
Proof.
  revert d s. induction fuel as [fuel IH] using lt_wf_ind. intros d s Hf.
  destruct s as [|c s]; [by destruct fuel|]. destruct fuel as [|fuel]; [cbn in Hf; lia|]. cbn [length] in Hf. cbn [duration_parts length].
  destruct (duration_part oor (c :: s)) as [[v rest]|] eqn:E; [|done]. cbn [mbind option_bind].
  apply duration_part_shrinks in E. cbn [length] in E. destruct (_ <? _); [done|].
  rewrite (IH fuel) by lia. destruct (decide (length s < S fuel)%nat); [|lia]. by rewrite (IH (length s)) by lia.
Qed.

Lemma duration_parts_range oor fuel d s r : 0 <= d <= 2 ^ 63 -> duration_parts oor fuel d s = Some r -> 0 <= r <= 2 ^ 63.
Proof.
  revert d s. induction fuel as [|fuel IH]; intros d [|c s] Hd; cbn [duration_parts]; try done; try by intros [= <-].
  destruct (duration_part oor (c :: s)) as [[v rest]|]; [|done]. cbn [mbind option_bind].
  destruct (Z.ltb_spec (2 ^ 63) ((d + v) mod 2 ^ 64)); [done|]. apply IH. split; [|done]. by apply Z.mod_pos_bound.
Qed.

(** A duration fits in 64 bits. *)
Lemma ParseDuration_range oor s d : ParseDuration oor s = Some d -> in_int64 d.
Proof.
  unfold ParseDuration, in_int64, min_int64, max_int64. destruct (split_sign s) as [neg t]. destruct t as [|c t]; [done|].
  destruct (bool_decide _); [by intros [= <-]|].
  destruct (duration_parts _ _ _ _) as [r|] eqn:E; [|done]. apply duration_parts_range in E; [|done]. cbn [mbind option_bind].
  destruct neg; [intros [= <-]; lia|]. case_match; [done|]. intros. simplify_eq. lia.
Qed.

(** What holds of every unit. *)
Definition unit_ok (e : bytes * Z) : Prop :=
  unit_text e.1 = (e.1, []) /\ 0 < e.2
  /\ match e.1 with c :: _ => digit c = None /\ Ascii.eqb c "." = false | [] => False end.

Lemma units_ok : Forall unit_ok unitMap.
Proof. repeat constructor; vm_compute; done. Qed.

Lemma unit_of_ok u k : unit_of u = Some k -> unit_ok (u, k).
Proof.
  unfold unit_of. destruct (find _ unitMap) as [[u' k']|] eqn:E; [|done]. intros [= <-].
  apply find_some in E as [Hin Hu]. apply bool_decide_eq_true in Hu. cbn in Hu. subst u'.
  apply list_elem_of_In in Hin. by apply (proj1 (Forall_forall _ _) units_ok) in Hin.
Qed.

Lemma leadingInt_decimal x ds v c r :
  decimal ds -> 0 <= x -> parse_digits x ds = Some v -> v <= 2 ^ 63 -> digit c = None -> leadingInt x (ds ++ c :: r) = Some (v, c :: r).
Proof.
  intros Hd. revert x. induction Hd as [|a ds Ha Hd IH]; intros x Hx Hp Hv Hc.
  { cbn in Hp. simplify_eq. cbn [app leadingInt]. by rewrite Hc. }
  cbn [app leadingInt]. cbn [parse_digits] in Hp. destruct (digit a) as [d|] eqn:Ed; [|done]. cbn [mbind option_bind] in Hp.
  apply digit_range in Ed. pose proof (parse_digits_le (x * 10 + d) ds v ltac:(lia) Hp) as Hle.
  assert ((2 ^ 63 / 10 <? x) = false) as -> by (apply Z.ltb_ge, Z.div_le_lower_bound; lia).
  assert ((2 ^ 63 <? x * 10 + d) = false) as -> by (apply Z.ltb_ge; lia). apply IH; [lia|done..].
Qed.

Lemma duration_part_whole oor n u k :
  0 <= n -> unit_of u = Some k -> n * k <= 2 ^ 63 -> duration_part oor (format_udec n ++ u) = Some (n * k, []).
Proof.
  intros Hn Hu Hk. destruct (unit_of_ok u k Hu) as (Ht & Hpos & Hh). cbn [fst snd] in *. destruct u as [|c r]; [done|].
  destruct Hh as [Hc Hdot]. destruct (format_udec_spec n Hn) as (Hp & Hne & Hd). unfold duration_part.
  rewrite (leadingInt_decimal 0 _ n) by (done || nia). cbn [mbind option_bind]. rewrite Hdot.
  rewrite bool_decide_eq_true_2 by (rewrite length_app; destruct (format_udec n); [done|cbn; lia]).
  cbn [negb andb]. rewrite Ht, Hu. cbn [mbind option_bind].
  assert ((2 ^ 63 / k <? n) = false) as -> by (apply Z.ltb_ge, Z.div_le_lower_bound; lia). done.
Qed.

(** A whole number of a unit is that many of it, also below zero. *)
Lemma ParseDuration_whole oor z u k :
  unit_of u = Some k -> in_int64 (z * k) -> ParseDuration oor (FormatInt z ++ u) = Some (z * k).
Proof.
  intros Hu Hz. destruct (unit_of_ok u k Hu) as (_ & Hpos & Hh). cbn [fst snd] in *. unfold in_int64, min_int64, max_int64 in Hz.
  assert (forall n, 0 <= n -> n * k <= 2 ^ 63 ->
    exists c t, format_udec n ++ u = c :: t /\ 48 <= code c <= 57 /\ bool_decide (c :: t = #"0") = false
      /\ duration_parts oor (length (c :: t)) 0 (c :: t) = Some (n * k)) as Hparts.
  { intros n Hn Hk. pose proof (duration_part_whole oor n u k Hn Hu Hk) as Hp.
    destruct (format_udec n) as [|c t] eqn:Ef; [by destruct (format_udec_spec n Hn) as (_ & ? & _)|].
    apply format_udec_head in Ef; [|done]. exists c, (t ++ u). split_and!; [done|lia..| |].
    - apply bool_decide_eq_false. intros [= -> Ht]. destruct t; [by destruct u|done].
    - cbn [duration_parts length app] in *. rewrite Hp. cbn [mbind option_bind]. rewrite Z.add_0_l, Z.mod_small by nia.
      assert ((2 ^ 63 <? n * k) = false) as -> by (apply Z.ltb_ge; lia). by destruct (length _). }
  unfold ParseDuration, FormatInt. destruct (Z.ltb_spec z 0) as [Hneg|Hpos'].
  - destruct (Hparts (- z) ltac:(lia) ltac:(nia)) as (c & t & E & _ & H0 & Hd). cbn [app split_sign Ascii.eqb]. rewrite E.
    cbn [Bool.eqb]. rewrite H0, Hd. cbn [mbind option_bind]. f_equal. lia.
  - destruct (Hparts z ltac:(lia) ltac:(lia)) as (c & t & E & Hc & H0 & Hd). rewrite E. cbn [split_sign].
    assert (Ascii.eqb c "-" = false) as -> by (apply ascii_eqb_false, digit_char_ne; [done|code_lia]).
    assert (Ascii.eqb c "+" = false) as -> by (apply ascii_eqb_false, digit_char_ne; [done|code_lia]).
    rewrite H0, Hd. cbn [mbind option_bind]. unfold max_int64. destruct (Z.ltb_spec (2 ^ 63 - 1) (z * k)); [lia|done].
Qed.
