(* ===== verification/RateLimit.v ===== *)
(** * RateLimit: the token bucket ([internal/ratelimit/ratelimit.go])

    The limiter keeps one bucket of tokens per key, as float64 numbers that are
    refilled with the time that has passed.  The clock is an argument of a call; a
    multiplication and the addition that follows it are rounded separately. *)

From Stdlib Require Import SpecFloat.
From S2P Require Import Prelude GoStrings Float64.

(** [Limiter.Allow]: whether a call for a key passes, and the time to wait in
    nanoseconds. *)
Class Limiter (L : Type) : Type := { Allow : Z -> bytes -> L -> (bool * Z) * L }.

Record bucket : Type := mkBucket { b_tokens : float64; b_last : Z }.

Record TokenBucket : Type := mkTokenBucket {
  tb_Capacity : Z;
  tb_RefillRate : float64;
  tb_buckets : gmap bytes bucket }.

Definition NewTokenBucket (capacity : Z) (refillPerSec : float64) : TokenBucket :=
  mkTokenBucket capacity refillPerSec ∅.

Definition min64 (a b : float64) : float64 := if f_lt a b then a else b.

Definition Second : Z := 1000000000.

(** [now.Sub(last)], which saturates, and [Duration.Seconds]. *)
Definition time_Sub (now last : Z) : Z := Z.max min_int64 (Z.min max_int64 (now - last)).
Definition Seconds (d : Z) : float64 :=
  f_add (f_of_int (Z.quot d Second)) (f_div (f_of_int (Z.rem d Second)) (f_of_int Second)).

Definition refill (t : TokenBucket) (now : Z) (b : bucket) : bucket :=
  let elapsed := Seconds (time_Sub now (b_last b)) in
  if f_lt (f_of_int 0) elapsed
  then mkBucket (min64 (f_of_int (tb_Capacity t)) (f_add (b_tokens b) (f_mul elapsed (tb_RefillRate t)))) now
  else b.

Definition fresh_bucket (t : TokenBucket) (now : Z) : bucket := mkBucket (f_of_int (tb_Capacity t)) now.

Definition set_bucket (t : TokenBucket) (key : bytes) (b : bucket) : TokenBucket :=
  mkTokenBucket (tb_Capacity t) (tb_RefillRate t) (<[key := b]> (tb_buckets t)).

Section limiter.
(** [time.Duration(f)] of a number outside the int64 range. *)
Context (out_of_range : float64 -> Z).

Definition wait_for (t : TokenBucket) (tokens : float64) : Z :=
  let missing := f_sub f_one tokens in
  f_trunc out_of_range (f_mul (f_div missing (tb_RefillRate t)) (f_of_int Second)).

Definition bucket_Allow (now : Z) (key : bytes) (t : TokenBucket) : (bool * Z) * TokenBucket :=
  let b := refill t now (default (fresh_bucket t now) (tb_buckets t !! key)) in
  if f_le f_one (b_tokens b)
  then ((true, 0), set_bucket t key (mkBucket (f_sub (b_tokens b) f_one) (b_last b)))
  else ((false, wait_for t (b_tokens b)), set_bucket t key b).

#[export] Instance TokenBucket_Limiter : Limiter TokenBucket := {| Allow := bucket_Allow |}.

(** ** The tokens of a bucket *)

(** Between zero and the capacity, and a number. *)
Definition tokens_ok (capacity : Z) (x : float64) : Prop :=
  nonneg x /\ finite x /\ f_le x (f_of_int capacity) = true.

Definition limiter_ok (t : TokenBucket) : Prop :=
  map_Forall (fun _ b => tokens_ok (tb_Capacity t) (b_tokens b)) (tb_buckets t).

(** The documented conditions on the settings, for a capacity that a float64
    holds exactly. *)
Definition settings_ok (t : TokenBucket) : Prop :=
  0 <= tb_Capacity t <= 2 ^ 53 /\ f_valid (tb_RefillRate t) = true /\ f_lt (f_of_int 0) (tb_RefillRate t) = true.

Lemma capacity_ok c : 0 <= c <= 2 ^ 53 -> nonneg (f_of_int c) /\ finite (f_of_int c).
Proof.
  intros Hc. split; [apply f_of_int_nonneg; lia|]. destruct (Z.eq_dec c 0) as [->|]; [done|].
  destruct (int_valid c ltac:(lia)) as (m & e & _ & -> & _). done.
Qed.

Lemma f_le_refl x : nonneg x -> finite x -> f_le x x = true.
Proof. intros. apply f_le_units; [done..|lia]. Qed.

(** The smaller of the capacity and anything that is not negative. *)
Lemma min64_ok c x : 0 <= c <= 2 ^ 53 -> nonneg x -> tokens_ok c (min64 (f_of_int c) x).
Proof.
  intros Hc Hx. destruct (capacity_ok c Hc) as [Nc Fc]. unfold min64, tokens_ok. destruct (f_lt (f_of_int c) x) eqn:E.
  { split_and!; [done|done|by apply f_le_refl]. }
  assert (finite x) as Fx. { destruct x as [|s| |]; [done| |by destruct Hx|done]. destruct Hx as [-> _]. by destruct (f_of_int c). }
  split_and!; [done|done|]. apply f_le_units; [done..|]. unfold f_lt, SFltb in E. rewrite compare_units in E by done.
  destruct (Z.compare_spec (units (f_of_int c)) (units x)); (done || lia).
Qed.

Lemma Seconds_nonneg d : 0 <= d -> nonneg (Seconds d).
Proof.
  intros Hd. unfold Seconds. apply f_add_nonneg; [apply f_of_int_nonneg, Z.quot_pos; [lia|done]|].
  apply (f_div_nonneg _ _ _ (f_of_int_nonneg _ (Z.rem_nonneg d Second ltac:(done) Hd))). done.
Qed.

(** Time that stands still or runs backwards refills nothing. *)
Lemma Seconds_nonpos d : d <= 0 -> f_lt (f_of_int 0) (Seconds d) = false.
Proof.
  intros Hd. destruct (Z.eq_dec d 0) as [->|Hne]; [done|]. unfold Seconds.
  replace d with (- (- d)) by lia. rewrite Z.quot_opp_l, Z.rem_opp_l by done. set (a := - d).
  assert (exists x, nonneg x /\ f_of_int (- (a ÷ Second)) = SFopp x) as (x & Hx & ->).
  { destruct (Z.eq_dec (a ÷ Second) 0) as [->|]; [by exists (S754_zero true)|].
    assert (0 <= a ÷ Second) by (apply Z.quot_pos; [lia|done]). rewrite f_of_int_opp by lia. eexists. split; [|done]. apply f_of_int_nonneg. lia. }
  assert (exists y, nonneg y /\ f_of_int (- (Z.rem a Second)) = SFopp y) as (y & Hy & ->).
  { destruct (Z.eq_dec (Z.rem a Second) 0) as [->|]; [by exists (S754_zero true)|].
    assert (0 <= Z.rem a Second) by (apply Z.rem_nonneg; [done|lia]). rewrite f_of_int_opp by lia. eexists. split; [|done]. apply f_of_int_nonneg. lia. }
  change (f_of_int Second) with (S754_finite false 8388608000000000 (-23)). rewrite f_div_opp.
  apply f_add_nonpos; [done|]. by apply f_div_nonneg.
Qed.

Lemma refill_still t now b : now <= b_last b -> refill t now b = b.
Proof. intros H. unfold refill. rewrite Seconds_nonpos; [done|]. unfold time_Sub, min_int64, max_int64. lia. Qed.

Lemma refill_ok t now b : settings_ok t -> tokens_ok (tb_Capacity t) (b_tokens b) -> tokens_ok (tb_Capacity t) (b_tokens (refill t now b)).
Proof.
  intros (Hc & Hv & Hr) Hb. destruct (Z.le_gt_cases now (b_last b)) as [Hle|Hgt]; [by rewrite refill_still|].
  unfold refill. destruct (f_lt _ (Seconds _)) eqn:El; [|done]. cbn [b_tokens]. apply min64_ok; [done|].
  apply f_lt_zero in El as (Nz & _ & _), Hr as (Rz & _ & Hr).
  apply f_add_nonneg; [by destruct Hb|]. apply f_mul_positive; [|by auto|done..].
  apply Seconds_nonneg. unfold time_Sub, min_int64, max_int64. lia.
Qed.

Lemma Allow_ok now key t : settings_ok t -> limiter_ok t ->
  settings_ok (snd (bucket_Allow now key t)) /\ limiter_ok (snd (bucket_Allow now key t)).
Proof.
  intros Hs Ht. unfold bucket_Allow. set (b0 := default _ _).
  assert (tokens_ok (tb_Capacity t) (b_tokens b0)) as Hb0.
  { unfold b0. destruct (tb_buckets t !! key) as [b|] eqn:E; [by apply (Ht key)|]. cbn.
    destruct Hs as [Hc _]. destruct (capacity_ok _ Hc). split_and!; [done..|by apply f_le_refl]. }
  pose proof (refill_ok t now b0 Hs Hb0) as Hb. set (b := refill t now b0) in *.
  destruct (f_le f_one (b_tokens b)) eqn:E; cbn [snd]; (split; [exact Hs|]); apply map_Forall_insert_2; try done.
  cbn [b_tokens]. destruct Hb as (Nb & Fb & Lb). destruct (f_sub_one _ Nb Fb E) as (Nr & Fr & Lr).
  destruct Hs as [Hc _]. destruct (capacity_ok _ Hc). cbn [tb_Capacity set_bucket].
  split_and!; [done..|]. apply f_le_units; [done..|]. apply f_le_units in Lb; [|done..]. lia.
Qed.

(** ** Calls in any order *)

(** The answers to a sequence of calls, with their keys. *)
Fixpoint allow_all (calls : list (Z * bytes)) (t : TokenBucket) : list (bytes * bool) * TokenBucket :=
  match calls with
  | [] => ([], t)
  | (now, key) :: rest =>
      let '((ok, _), t1) := bucket_Allow now key t in
      let '(answers, t2) := allow_all rest t1 in ((key, ok) :: answers, t2)
  end.

(** (The limiter's state.) With a capacity and refill rate as documented, after any
    calls for any keys, whatever the clock does in between - standing still, jumping
    forward by years or running backwards - every bucket holds a number of tokens
    between zero and the capacity: rounding never takes it out of these bounds and
    it is never a NaN. *)
Theorem limiter_invariant capacity rate calls :
  settings_ok (NewTokenBucket capacity rate) ->
  map_Forall (fun _ b => f_le (f_of_int 0) (b_tokens b) = true /\ f_le (b_tokens b) (f_of_int capacity) = true)
    (tb_buckets (snd (allow_all calls (NewTokenBucket capacity rate)))).
Proof.
  intros Hs. assert (forall t, settings_ok t -> limiter_ok t ->
    limiter_ok (snd (allow_all calls t)) /\ tb_Capacity (snd (allow_all calls t)) = tb_Capacity t) as H.
  { clear. induction calls as [|[now key] rest IH]; intros t Hs Ht; [done|]. cbn [allow_all].
    destruct (Allow_ok now key t Hs Ht) as [Hs1 Ht1].
    assert (tb_Capacity (snd (bucket_Allow now key t)) = tb_Capacity t) as Hc by (unfold bucket_Allow; by destruct (f_le _ _)).
    destruct (bucket_Allow now key t) as [[ok w] t1]. cbn [snd] in *. specialize (IH t1 Hs1 Ht1).
    destruct (allow_all rest t1) as [answers t2]. cbn [snd] in *. by rewrite <- Hc. }
  destruct (H _ Hs (map_Forall_empty _)) as [Hok Hc]. intros key b Hb. destruct (Hok key b Hb) as ([Nb Vb] & Fb & Lb).
  rewrite Hc in Lb. split; [|exact Lb]. by destruct (b_tokens b) as [|s| |s m e]; subst.
Qed.

(** ** Bursts *)

(** [key] has [j] tokens left at a clock that stands at [now]. *)
Definition left_over (now : Z) (key : bytes) (j : nat) (t : TokenBucket) : Prop :=
  Z.of_nat j <= 2 ^ 53
  /\ (exists last, now <= last /\ tb_buckets t !! key = Some (mkBucket (f_of_int (Z.of_nat j)) last)
      \/ tb_buckets t !! key = None /\ tb_Capacity t = Z.of_nat j).

Lemma Allow_left now key j t : left_over now key j t ->
  fst (fst (bucket_Allow now key t)) = bool_decide (0 < j)%nat /\ left_over now key (j - 1) (snd (bucket_Allow now key t)).
Proof.
  intros [Hj (last & H)]. unfold bucket_Allow.
  assert (exists last, now <= last
    /\ refill t now (default (fresh_bucket t now) (tb_buckets t !! key)) = mkBucket (f_of_int (Z.of_nat j)) last) as (l & Hl & ->).
  { destruct H as [[Hl ->]|[-> Hc]]; cbn [default from_option id].
    - exists last. by rewrite refill_still.
    - exists now. rewrite refill_still by (cbn; lia). unfold fresh_bucket. rewrite Hc. split; [lia|done]. }
  cbn [b_tokens b_last]. rewrite f_one_le_int by lia. destruct (Z.leb_spec 1 (Z.of_nat j)); cbn [fst snd].
  - rewrite bool_decide_eq_true_2 by lia. split; [done|]. split; [lia|]. exists l. left. split; [done|].
    cbn [tb_buckets set_bucket]. rewrite lookup_insert_eq, f_sub_one_int by lia. do 3 f_equal. lia.
  - rewrite bool_decide_eq_false_2 by lia. split; [done|]. split; [lia|]. exists l. left. split; [done|].
    cbn [tb_buckets set_bucket]. rewrite lookup_insert_eq. do 3 f_equal. lia.
Qed.

Lemma Allow_other now key key' j t : key' <> key -> left_over now key j t -> left_over now key j (snd (bucket_Allow now key' t)).
Proof.
  intros Hne [Hj (last & H)]. split; [done|]. exists last. unfold bucket_Allow.
  destruct (f_le f_one _); cbn [snd tb_buckets set_bucket tb_Capacity]; by rewrite lookup_insert_ne.
Qed.

(** The answers that concern one key. *)
Definition answers_for (key : bytes) (answers : list (bytes * bool)) : list bool :=
  snd <$> filter (fun a => a.1 = key) answers.

Definition passes (n j : nat) : list bool := replicate (n `min` j) true ++ replicate (n - j) false.

Lemma burst_answers now key keys j t : left_over now key j t ->
  answers_for key (fst (allow_all (pair now <$> keys) t)) = passes (length (filter (.= key) keys)) j.
Proof.
  revert j t. induction keys as [|k keys IH]; intros j t H; [done|]. cbn [fmap list_fmap allow_all].
  destruct (decide (k = key)) as [->|Hne].
  - destruct (Allow_left now key j t H) as [Ha H1]. destruct (bucket_Allow now key t) as [[ok w] t1]. cbn [fst snd] in *.
    specialize (IH _ _ H1). destruct (allow_all _ t1) as [answers t2]. cbn [fst] in *. unfold answers_for in *.
    rewrite !filter_cons_True by done. cbn [fmap list_fmap length snd]. rewrite IH, Ha. unfold passes.
    destruct j as [|j]; cbn [bool_decide Nat.sub]; [by rewrite !Nat.min_0_r, Nat.sub_0_r|].
    rewrite bool_decide_eq_true_2 by lia. by rewrite Nat.sub_0_r.
  - pose proof (Allow_other now key k j t Hne H) as H1. destruct (bucket_Allow now k t) as [[ok w] t1]. cbn [snd] in H1.
    specialize (IH _ _ H1). destruct (allow_all _ t1) as [answers t2]. cbn [fst] in *. unfold answers_for in *.
    by rewrite !filter_cons_False.
Qed.

(** (Bursts.) In a burst of calls at one moment, for any keys in any order, every
    key passes exactly its first [capacity] calls and no more, whatever the other
    keys do. *)
Theorem limiter_burst capacity rate now keys key :
  Z.of_nat capacity <= 2 ^ 53 ->
  answers_for key (fst (allow_all (pair now <$> keys) (NewTokenBucket (Z.of_nat capacity) rate)))
  = passes (length (filter (.= key) keys)) capacity.
Proof. intros Hc. apply burst_answers. split; [done|]. exists now. right. by split; [apply lookup_empty|]. Qed.

(** ** A rate that is not a number *)

(** (A NaN rate locks out.) Nothing refuses a refill rate that is a NaN; with it a
    key that has been used is refused by every call from the first moment later. *)
Lemma refill_nan t now b : tb_RefillRate t = S754_nan -> f_lt (f_of_int 0) (Seconds (time_Sub now (b_last b))) = true ->
  b_tokens (refill t now b) = S754_nan.
Proof.
  intros Hr El. unfold refill. rewrite El, Hr. cbn [b_tokens]. unfold f_mul, f_add.
  replace (SFmul 53 1024 _ S754_nan) with S754_nan by (by destruct (Seconds _)).
  replace (SFadd 53 1024 _ S754_nan) with S754_nan by (by destruct (b_tokens b)).
  unfold min64, f_lt, SFltb. by destruct (f_of_int (tb_Capacity t)).
Qed.

Theorem nan_rate_locks now key t b :
  tb_RefillRate t = S754_nan -> tb_buckets t !! key = Some b ->
  b_tokens b = S754_nan \/ f_lt (f_of_int 0) (Seconds (time_Sub now (b_last b))) = true ->
  let '((ok, _), t') := bucket_Allow now key t in
  ok = false /\ exists b', tb_buckets t' !! key = Some b' /\ b_tokens b' = S754_nan.
Proof.
  intros Hr Hb Hn. unfold bucket_Allow. rewrite Hb. cbn [default from_option id].
  assert (b_tokens (refill t now b) = S754_nan) as E.
  { destruct (f_lt (f_of_int 0) (Seconds (time_Sub now (b_last b)))) eqn:El; [by apply refill_nan|].
    destruct Hn as [Hn|[=]]. unfold refill. by rewrite El. }
  rewrite E. cbn match. split; [done|]. eexists. cbn [set_bucket tb_buckets]. by rewrite lookup_insert_eq.
Qed.
End limiter.

(** Two keys sharing a burst of a limiter with two tokens, and the refill. *)
Definition demo_limiter : TokenBucket := NewTokenBucket 2 f_one.
Definition demo_calls : list (Z * bytes) :=
  [(0, #"a"); (0, #"a"); (0, #"b"); (0, #"a"); (700000000, #"a"); (1000000000, #"a"); (900000000, #"a")].

Lemma limiter_invariant_witness :
  map_Forall (fun _ b => f_le (f_of_int 0) (b_tokens b) = true /\ f_le (b_tokens b) (f_of_int 2) = true)
    (tb_buckets (snd (allow_all (fun _ => 0) demo_calls demo_limiter)))
  /\ snd <$> fst (allow_all (fun _ => 0) demo_calls demo_limiter) = [true; true; true; false; false; true; false].
Proof.
  split; [|vm_compute; reflexivity]. apply (limiter_invariant (fun _ => 0) 2 f_one demo_calls).
  split; [vm_compute; split; discriminate|]. split; vm_compute; reflexivity.
Defined.

Lemma limiter_burst_witness :
  answers_for #"a" (fst (allow_all (fun _ => 0) (pair 5 <$> [ #"a"; #"b"; #"a"; #"a"; #"b" ]) demo_limiter)) = [true; true; false].
Proof. exact (limiter_burst (fun _ => 0) 2 f_one 5 [ #"a"; #"b"; #"a"; #"a"; #"b" ] #"a" ltac:(vm_compute; discriminate)). Defined.
