(* ===== verification/Render.v ===== *)
(** * Render: AmneziaWG configuration text ([internal/render])

    [Server] and [Client] append the same pieces in the same order as the
    code's string builder.  The theorems say that the server text depends on
    the set of peers only and that the text is a sequence of well-formed
    config lines. *)

From S2P Require Import Prelude GoStrings Strconv Sorting Errors Profile AwgConfig.

(** ** Model *)

Record Interface : Type := mkInterface {
  if_PrivateKey : bytes;
  if_Address : list bytes;
  if_ListenPort : Z;
  if_MTU : Z;
  if_DNS : list bytes;
  if_PostUp : bytes;
  if_PostDown : bytes }.

Record PeerEntry : Type := mkPeerEntry {
  pe_PublicKey : bytes;
  pe_PresharedKey : bytes;
  pe_AllowedIPs : list bytes;
  pe_Endpoint : bytes;
  pe_Keepalive : Z;
  pe_Comment : bytes }.

#[export] Instance PeerEntry_eq_dec : EqDecision PeerEntry.
Proof. solve_decision. Defined.

Record ClientArgs : Type := mkClientArgs {
  ca_ClientPrivateKey : bytes;
  ca_ClientAddress : list bytes;
  ca_DNS : list bytes;
  ca_MTU : Z;
  ca_ServerPublicKey : bytes;
  ca_ServerEndpoint : bytes;
  ca_PresharedKey : bytes;
  ca_AllowedIPs : list bytes;
  ca_Keepalive : Z }.

(** [fmt.Fprintf(b, "K = %s\n", v)] *)
Definition Fprintf_kv (k v : bytes) : bytes := k ++ #" = " ++ v ++ [nl].

(** [if c { ... }] around a write. *)
Definition write_if (c : bool) (s : bytes) : bytes := if c then s else [].

(** [len(l) > 0], [s != ""] *)
Definition nonempty {A} (l : list A) : bool := match l with [] => false | _ => true end.

Definition writeSpecialJunk (key value : bytes) (includeEmpty : bool) : bytes :=
  if negb (nonempty value) && negb includeEmpty then [] else Fprintf_kv key value.

Definition writeUint16Range (key : bytes) (value : Uint16Range) : bytes :=
  if Uint16Range_IsZero value then [] else Fprintf_kv key (Uint16Range_String value).

Definition awgBool (v : bool) : bytes := if v then #"on" else #"off".

Definition writeProfile (p : ProtocolProfile) (includeEmptySpecialJunk : bool) : bytes :=
  Fprintf_kv #"Jc" (FormatInt (pp_Jc p))
  ++ Fprintf_kv #"Jmin" (FormatInt (pp_Jmin p))
  ++ Fprintf_kv #"Jmax" (FormatInt (pp_Jmax p))
  ++ Fprintf_kv #"S1" (FormatInt (pp_S1 p))
  ++ Fprintf_kv #"S2" (FormatInt (pp_S2 p))
  ++ write_if (SupportsV2Fields p)
       (Fprintf_kv #"S3" (FormatInt (pp_S3 p)) ++ Fprintf_kv #"S4" (FormatInt (pp_S4 p)))
  ++ Fprintf_kv #"H1" (IntRange_String (pp_H1 p))
  ++ Fprintf_kv #"H2" (IntRange_String (pp_H2 p))
  ++ Fprintf_kv #"H3" (IntRange_String (pp_H3 p))
  ++ Fprintf_kv #"H4" (IntRange_String (pp_H4 p))
  ++ write_if (SupportsV2Fields p)
       (writeSpecialJunk #"I1" (pp_I1 p) includeEmptySpecialJunk
        ++ writeSpecialJunk #"I2" (pp_I2 p) includeEmptySpecialJunk
        ++ writeSpecialJunk #"I3" (pp_I3 p) includeEmptySpecialJunk
        ++ writeSpecialJunk #"I4" (pp_I4 p) includeEmptySpecialJunk
        ++ writeSpecialJunk #"I5" (pp_I5 p) includeEmptySpecialJunk)
  ++ write_if (IsV31 p)
       (write_if (nonempty (pp_HeaderProtectionKey p))
          (Fprintf_kv #"HeaderProtectionKey" (pp_HeaderProtectionKey p))
        ++ writeUint16Range #"ContentPaddingAddition" (pp_ContentPaddingAddition p)
        ++ writeUint16Range #"RekeyAfterTime" (pp_RekeyAfterTime p)
        ++ writeUint16Range #"RekeyTimeout" (pp_RekeyTimeout p)
        ++ writeUint16Range #"RejectAfterTime" (pp_RejectAfterTime p)
        ++ writeUint16Range #"KeepaliveTimeout" (pp_KeepaliveTimeout p)
        ++ writeUint16Range #"MaxHandshakeAttempts" (pp_MaxHandshakeAttempts p)
        ++ Fprintf_kv #"RandomTrailers" (awgBool (pp_RandomTrailers p))
        ++ Fprintf_kv #"DisableCookies" (awgBool (pp_DisableCookies p))).

(** One [[Peer]] block of the server config. *)
Definition peer_block (p : PeerEntry) : bytes :=
  [nl] ++ #"[Peer]" ++ [nl]
  ++ write_if (nonempty (pe_Comment p)) (#"# " ++ pe_Comment p ++ [nl])
  ++ Fprintf_kv #"PublicKey" (pe_PublicKey p)
  ++ write_if (nonempty (pe_PresharedKey p)) (Fprintf_kv #"PresharedKey" (pe_PresharedKey p))
  ++ write_if (nonempty (pe_AllowedIPs p)) (Fprintf_kv #"AllowedIPs" (Join (pe_AllowedIPs p) #", "))
  ++ write_if (nonempty (pe_Endpoint p)) (Fprintf_kv #"Endpoint" (pe_Endpoint p))
  ++ write_if (0 <? pe_Keepalive p) (Fprintf_kv #"PersistentKeepalive" (FormatInt (pe_Keepalive p))).

(** The interface section of the server config. *)
Definition interface_block (i : Interface) (profile : ProtocolProfile) : bytes :=
  #"# Generated by awg-rest. Do not edit by hand." ++ [nl] ++ #"[Interface]" ++ [nl]
  ++ concat (Fprintf_kv #"Address" <$> if_Address i)
  ++ write_if (0 <? if_ListenPort i) (Fprintf_kv #"ListenPort" (FormatInt (if_ListenPort i)))
  ++ write_if (nonempty (if_PrivateKey i)) (Fprintf_kv #"PrivateKey" (if_PrivateKey i))
  ++ write_if (0 <? if_MTU i) (Fprintf_kv #"MTU" (FormatInt (if_MTU i)))
  ++ write_if (nonempty (if_DNS i)) (Fprintf_kv #"DNS" (Join (if_DNS i) #", "))
  ++ write_if (nonempty (if_PostUp i)) (Fprintf_kv #"PostUp" (if_PostUp i))
  ++ write_if (nonempty (if_PostDown i)) (Fprintf_kv #"PostDown" (if_PostDown i))
  ++ writeProfile profile false.

(** The [less] function [Server] sorts with. *)
Definition peer_less (p q : PeerEntry) : bool := bytes_ltb (pe_PublicKey p) (pe_PublicKey q).

Definition Server (i : Interface) (profile : ProtocolProfile) (peers : list PeerEntry) : bytes :=
  interface_block i profile ++ concat (peer_block <$> sort_Slice peer_less peers).

Definition amneziaIPv4DefaultRoute : bytes := #"0.0.0.0/0".
Definition amneziaIPv6DefaultRoute : bytes := #"::/0".

Definition amneziaFullTunnelAllowedIPs : list bytes :=
  [amneziaIPv4DefaultRoute; amneziaIPv6DefaultRoute].

Definition Client (args : ClientArgs) (profile : ProtocolProfile) : bytes :=
  #"[Interface]" ++ [nl]
  ++ write_if (nonempty (ca_ClientPrivateKey args)) (Fprintf_kv #"PrivateKey" (ca_ClientPrivateKey args))
  ++ concat (Fprintf_kv #"Address" <$> ca_ClientAddress args)
  ++ write_if (nonempty (ca_DNS args)) (Fprintf_kv #"DNS" (Join (ca_DNS args) #", "))
  ++ write_if (0 <? ca_MTU args) (Fprintf_kv #"MTU" (FormatInt (ca_MTU args)))
  ++ writeProfile profile true
  ++ [nl] ++ #"[Peer]" ++ [nl]
  ++ Fprintf_kv #"PublicKey" (ca_ServerPublicKey args)
  ++ write_if (nonempty (ca_PresharedKey args)) (Fprintf_kv #"PresharedKey" (ca_PresharedKey args))
  ++ (let allowed := if nonempty (ca_AllowedIPs args) then ca_AllowedIPs args
                     else amneziaFullTunnelAllowedIPs in
      Fprintf_kv #"AllowedIPs" (Join allowed #", "))
  ++ Fprintf_kv #"Endpoint" (ca_ServerEndpoint args)
  ++ (if IsV31 profile && negb (Uint16Range_IsZero (pp_PersistentKeepalive profile))
      then Fprintf_kv #"PersistentKeepalive" (Uint16Range_String (pp_PersistentKeepalive profile))
      else write_if (0 <? ca_Keepalive args)
             (Fprintf_kv #"PersistentKeepalive" (FormatInt (ca_Keepalive args)))).

Definition AmneziaClient (args : ClientArgs) (profile : ProtocolProfile) : bytes :=
  Client (mkClientArgs (ca_ClientPrivateKey args) (ca_ClientAddress args) (ca_DNS args)
            (ca_MTU args) (ca_ServerPublicKey args) (ca_ServerEndpoint args)
            (ca_PresharedKey args) amneziaFullTunnelAllowedIPs (ca_Keepalive args)) profile.

(** ** Specification: a config is sections of key/value pairs *)

Abbreviation kvs := (list (bytes * bytes)).

Definition render_kvs (l : kvs) : bytes := unlines ((fun kv => kv_line (fst kv) (snd kv)) <$> l).

Definition profile_kvs (p : ProtocolProfile) (empty : bool) : kvs :=
  let junk k v : kvs := if negb (nonempty v) && negb empty then [] else [(k, v)] in
  let u16 k r : kvs := if Uint16Range_IsZero r then [] else [(k, Uint16Range_String r)] in
  [ (#"Jc", FormatInt (pp_Jc p)); (#"Jmin", FormatInt (pp_Jmin p)); (#"Jmax", FormatInt (pp_Jmax p));
    (#"S1", FormatInt (pp_S1 p)); (#"S2", FormatInt (pp_S2 p)) ]
  ++ (if SupportsV2Fields p then [ (#"S3", FormatInt (pp_S3 p)); (#"S4", FormatInt (pp_S4 p)) ] else [])
  ++ [ (#"H1", IntRange_String (pp_H1 p)); (#"H2", IntRange_String (pp_H2 p));
       (#"H3", IntRange_String (pp_H3 p)); (#"H4", IntRange_String (pp_H4 p)) ]
  ++ (if SupportsV2Fields p
      then junk #"I1" (pp_I1 p) ++ junk #"I2" (pp_I2 p) ++ junk #"I3" (pp_I3 p)
           ++ junk #"I4" (pp_I4 p) ++ junk #"I5" (pp_I5 p)
      else [])
  ++ (if IsV31 p
      then (if nonempty (pp_HeaderProtectionKey p)
            then [ (#"HeaderProtectionKey", pp_HeaderProtectionKey p) ] else [])
           ++ u16 #"ContentPaddingAddition" (pp_ContentPaddingAddition p)
           ++ u16 #"RekeyAfterTime" (pp_RekeyAfterTime p)
           ++ u16 #"RekeyTimeout" (pp_RekeyTimeout p)
           ++ u16 #"RejectAfterTime" (pp_RejectAfterTime p)
           ++ u16 #"KeepaliveTimeout" (pp_KeepaliveTimeout p)
           ++ u16 #"MaxHandshakeAttempts" (pp_MaxHandshakeAttempts p)
           ++ [ (#"RandomTrailers", awgBool (pp_RandomTrailers p));
                (#"DisableCookies", awgBool (pp_DisableCookies p)) ]
      else []).

Definition interface_kvs (i : Interface) (profile : ProtocolProfile) : kvs :=
  (pair #"Address" <$> if_Address i)
  ++ (if 0 <? if_ListenPort i then [ (#"ListenPort", FormatInt (if_ListenPort i)) ] else [])
  ++ (if nonempty (if_PrivateKey i) then [ (#"PrivateKey", if_PrivateKey i) ] else [])
  ++ (if 0 <? if_MTU i then [ (#"MTU", FormatInt (if_MTU i)) ] else [])
  ++ (if nonempty (if_DNS i) then [ (#"DNS", Join (if_DNS i) #", ") ] else [])
  ++ (if nonempty (if_PostUp i) then [ (#"PostUp", if_PostUp i) ] else [])
  ++ (if nonempty (if_PostDown i) then [ (#"PostDown", if_PostDown i) ] else [])
  ++ profile_kvs profile false.

Definition peer_kvs (p : PeerEntry) : kvs :=
  [ (#"PublicKey", pe_PublicKey p) ]
  ++ (if nonempty (pe_PresharedKey p) then [ (#"PresharedKey", pe_PresharedKey p) ] else [])
  ++ (if nonempty (pe_AllowedIPs p) then [ (#"AllowedIPs", Join (pe_AllowedIPs p) #", ") ] else [])
  ++ (if nonempty (pe_Endpoint p) then [ (#"Endpoint", pe_Endpoint p) ] else [])
  ++ (if 0 <? pe_Keepalive p then [ (#"PersistentKeepalive", FormatInt (pe_Keepalive p)) ] else []).

Definition kv_lines (l : kvs) : list bytes := (fun kv => kv_line (fst kv) (snd kv)) <$> l.

Definition comment_lines (c : bytes) : list bytes := if nonempty c then [ #"# " ++ c ] else [].

Definition peer_lines (p : PeerEntry) : list bytes :=
  [ []; #"[Peer]" ] ++ comment_lines (pe_Comment p) ++ kv_lines (peer_kvs p).

(** A value that makes one config line: not blank, no newline. *)
Definition value_ok (v : bytes) : Prop := line_ok v.
Definition opt_value_ok (v : bytes) : Prop := v = [] \/ line_ok v.

(** An element of a comma-separated list. *)
Definition item_ok (v : bytes) : Prop := line_ok v /\ (","%char ∉ v).

(** Profiles whose texts fit a line (the validator does not enforce it, see
    [valid_profile_injects]). *)
Definition printable_profile (p : ProtocolProfile) : Prop :=
  Forall opt_value_ok [pp_I1 p; pp_I2 p; pp_I3 p; pp_I4 p; pp_I5 p; pp_HeaderProtectionKey p].

Definition printable_interface (i : Interface) : Prop :=
  Forall opt_value_ok [if_PrivateKey i; if_PostUp i; if_PostDown i]
  /\ Forall line_ok (if_Address i) /\ Forall item_ok (if_DNS i).

Definition printable_peer (p : PeerEntry) : Prop :=
  line_ok (pe_PublicKey p) /\ Forall opt_value_ok [pe_PresharedKey p; pe_Endpoint p]
  /\ Forall item_ok (pe_AllowedIPs p) /\ (nl ∉ pe_Comment p) /\ in_int64 (pe_Keepalive p).

#[export] Instance opt_value_ok_dec v : Decision (opt_value_ok v).
Proof. unfold opt_value_ok. apply _. Defined.
#[export] Instance item_ok_dec v : Decision (item_ok v).
Proof. unfold item_ok. apply _. Defined.
#[export] Instance printable_profile_dec p : Decision (printable_profile p).
Proof. unfold printable_profile. apply _. Defined.
#[export] Instance printable_interface_dec i : Decision (printable_interface i).
Proof. unfold printable_interface. apply _. Defined.
#[export] Instance printable_peer_dec p : Decision (printable_peer p).
Proof. unfold printable_peer, in_int64. apply _. Defined.

(** ** The text is its lines *)

Lemma render_kvs_app a b : render_kvs (a ++ b) = render_kvs a ++ render_kvs b.
Proof. unfold render_kvs. by rewrite fmap_app, unlines_app. Qed.

Lemma Fprintf_kv_render k v : Fprintf_kv k v = render_kvs [(k, v)].
Proof.
  unfold Fprintf_kv, render_kvs, kv_line, unlines. simpl. rewrite app_nil_r, <- !app_assoc. done.
Qed.

Lemma write_if_render c l : write_if c (render_kvs l) = render_kvs (if c then l else []).
Proof. by destruct c. Qed.

Lemma if_render (c : bool) l l' :
  (if c then render_kvs l else render_kvs l') = render_kvs (if c then l else l').
Proof. by destruct c. Qed.

Lemma Address_render l : concat (Fprintf_kv #"Address" <$> l) = render_kvs (pair #"Address" <$> l).
Proof.
  induction l as [|a l IH]; [done|]. rewrite !fmap_cons. cbn [concat].
  rewrite IH, Fprintf_kv_render. by rewrite <- render_kvs_app.
Qed.

Lemma render_nil : [] = render_kvs [].
Proof. done. Qed.

Lemma writeSpecialJunk_render k v e :
  writeSpecialJunk k v e = render_kvs (if negb (nonempty v) && negb e then [] else [(k, v)]).
Proof. unfold writeSpecialJunk. rewrite Fprintf_kv_render. by destruct (_ && _). Qed.

Lemma writeUint16Range_render k r :
  writeUint16Range k r = render_kvs (if Uint16Range_IsZero r then [] else [(k, Uint16Range_String r)]).
Proof. unfold writeUint16Range. rewrite Fprintf_kv_render. by destruct (Uint16Range_IsZero r). Qed.

#[export] Hint Rewrite Fprintf_kv_render writeSpecialJunk_render writeUint16Range_render
  Address_render write_if_render : awg_rw.

(** Collect a sequence of writes into one list of pairs. *)
Ltac merge_kvs :=
  autorewrite with awg_rw;
  repeat (rewrite <- render_kvs_app || rewrite write_if_render).

Lemma writeProfile_render p e : writeProfile p e = render_kvs (profile_kvs p e).
Proof.
  unfold writeProfile. merge_kvs. reflexivity.
Qed.

Lemma interface_block_lines i p :
  interface_block i p =
  unlines ([ #"# Generated by awg-rest. Do not edit by hand."; #"[Interface]" ]
           ++ kv_lines (interface_kvs i p)).
Proof.
  unfold interface_block. rewrite writeProfile_render. merge_kvs. rewrite unlines_app.
  change (unlines [ #"# Generated by awg-rest. Do not edit by hand."; #"[Interface]" ])
    with (#"# Generated by awg-rest. Do not edit by hand." ++ [nl] ++ #"[Interface]" ++ [nl]).
  by rewrite <- !app_assoc.
Qed.

Lemma peer_block_lines p : peer_block p = unlines (peer_lines p).
Proof.
  unfold peer_block, peer_lines. merge_kvs.
  rewrite !unlines_app. unfold comment_lines. change (unlines [ []; #"[Peer]" ]) with ([nl] ++ #"[Peer]" ++ [nl]).
  rewrite <- !app_assoc. do 3 f_equal.
  destruct (nonempty (pe_Comment p)); [|reflexivity]. cbn [write_if]. rewrite unlines_cons.
  change (unlines []) with (@nil ascii). rewrite <- !app_assoc. reflexivity.
Qed.

Definition server_lines (i : Interface) (p : ProtocolProfile) (peers : list PeerEntry) : list bytes :=
  [ #"# Generated by awg-rest. Do not edit by hand."; #"[Interface]" ]
  ++ kv_lines (interface_kvs i p) ++ concat (peer_lines <$> sort_Slice peer_less peers).

Lemma Server_lines i p peers : Server i p peers = unlines (server_lines i p peers).
Proof.
  unfold Server, server_lines. rewrite interface_block_lines, app_assoc.
  rewrite (unlines_app (_ ++ kv_lines _) (concat _)). f_equal.
  induction (sort_Slice peer_less peers) as [|x l IH]; [done|]. rewrite !fmap_cons. cbn [concat].
  by rewrite peer_block_lines, IH, unlines_app.
Qed.

(** ** Every pair makes one line *)

Definition kv_ok (kv : bytes * bytes) : Prop := key_ok (fst kv) /\ line_ok (snd kv).

Lemma FormatInt_line z : line_ok (FormatInt z).
Proof. split; [apply FormatInt_solid|]. apply FormatInt_nl. Qed.

Lemma range_line a b : line_ok (FormatInt a ++ #"-" ++ FormatInt b).
Proof.
  split; [apply solid_app; apply FormatInt_solid|]. rewrite !elem_of_app.
  intros [?|[?|?]]; [by eapply FormatInt_nl|set_solver|by eapply FormatInt_nl].
Qed.

Lemma IntRange_String_line r : line_ok (IntRange_String r).
Proof. unfold IntRange_String. case_match; [apply FormatInt_line|apply range_line]. Qed.

Lemma Uint16Range_String_line r : line_ok (Uint16Range_String r).
Proof. unfold Uint16Range_String. case_match; [apply FormatInt_line|apply range_line]. Qed.

Lemma awgBool_line b : line_ok (awgBool b).
Proof. destruct b; apply (bool_decide_unpack _); by vm_compute. Qed.

Lemma opt_value_line v : opt_value_ok v -> nonempty v = true -> line_ok v.
Proof. by intros [->|?]. Qed.

Lemma Join_line l : Forall item_ok l -> nonempty l = true -> line_ok (Join l #", ").
Proof.
  intros Hl. induction Hl as [|x l [[Hs Hn] _] Hl IH]; [done|]. intros _.
  destruct l as [|y l]; [by split|]. destruct (IH eq_refl) as [Hs' Hn'].
  rewrite Join_cons by done. split; [by apply solid_app|].
  rewrite !elem_of_app. intros [?|[?|?]]; [done|set_solver|done].
Qed.

#[export] Hint Resolve FormatInt_line IntRange_String_line Uint16Range_String_line awgBool_line
  opt_value_line Join_line : awg.

(** Split a list of pairs built from literals and conditionals. *)
Ltac each_pair tac :=
  repeat match goal with
  | |- Forall _ (_ ++ _) => apply Forall_app; split
  | |- Forall _ (if ?c then _ else _) => let E := fresh "E" in destruct c eqn:E; bool_to_prop
  | |- Forall _ [] => constructor
  | |- Forall _ (_ :: _) => constructor
  end; try tac.

Lemma profile_kvs_ok p : printable_profile p -> Forall kv_ok (profile_kvs p false).
Proof.
  intros Hp. unfold printable_profile in Hp. rewrite !Forall_cons in Hp. destruct_and! Hp.
  unfold profile_kvs. each_pair ltac:(split; [apply (bool_decide_unpack _); by vm_compute|eauto with awg]).
  all: apply opt_value_line; [done|]; cbn [snd];
    match goal with E : negb (nonempty ?v) && _ = false |- _ => by destruct (nonempty v) end.
Qed.

Lemma interface_kvs_ok i p :
  printable_interface i -> printable_profile p -> Forall kv_ok (interface_kvs i p).
Proof.
  intros (Hi & Ha & Hd) Hp. rewrite !Forall_cons in Hi. destruct_and! Hi. unfold interface_kvs.
  each_pair ltac:(split; [apply (bool_decide_unpack _); by vm_compute|eauto with awg]).
  - apply Forall_fmap. eapply Forall_impl; [exact Ha|]. intros a Hl.
    split; [apply (bool_decide_unpack _); by vm_compute|done].
  - by apply profile_kvs_ok.
Qed.

Lemma peer_kvs_ok p : printable_peer p -> Forall kv_ok (peer_kvs p).
Proof.
  intros (Hk & Ho & Ha & _). rewrite !Forall_cons in Ho. destruct_and! Ho. unfold peer_kvs.
  each_pair ltac:(split; [apply (bool_decide_unpack _); by vm_compute|eauto with awg]).
Qed.

Lemma kv_lines_nl l : Forall kv_ok l -> Forall (fun s => nl ∉ s) (kv_lines l).
Proof.
  intros Hl. apply Forall_fmap. eapply Forall_impl; [exact Hl|]. intros [k v] [Hk [Hs Hn]].
  by apply kv_no_nl.
Qed.

Lemma peer_lines_nl p : printable_peer p -> Forall (fun s => nl ∉ s) (peer_lines p).
Proof.
  intros Hp. apply Forall_app. split; [repeat constructor; set_solver|].
  apply Forall_app. split; [|by apply kv_lines_nl, peer_kvs_ok].
  destruct Hp as (_ & _ & _ & Hc & _). unfold comment_lines. destruct (nonempty _); [|constructor].
  constructor; [|constructor]. rewrite elem_of_app. intros [?|?]; [set_solver|done].
Qed.

Lemma Forall_concat_fmap {A B} (f : A -> list B) (P : B -> Prop) l :
  Forall (fun x => Forall P (f x)) l -> Forall P (concat (f <$> l)).
Proof. induction 1; [constructor|]. rewrite fmap_cons. cbn [concat]. by apply Forall_app. Qed.

Section printable.
Context (i : Interface) (p : ProtocolProfile) (peers : list PeerEntry).
Context (Hi : printable_interface i) (Hp : printable_profile p) (Hps : Forall printable_peer peers).

Lemma sorted_printable : Forall printable_peer (sort_Slice peer_less peers).
Proof. by rewrite sort_Slice_perm. Qed.

Lemma server_lines_nl : Forall (fun s => nl ∉ s) (server_lines i p peers).
Proof.
  unfold server_lines. apply Forall_app. split; [repeat constructor; set_solver|].
  apply Forall_app. split; [by apply kv_lines_nl, interface_kvs_ok|].
  apply Forall_concat_fmap. eapply Forall_impl; [apply sorted_printable|]. apply peer_lines_nl.
Qed.

Lemma Split_Server : Split (Server i p peers) nl = server_lines i p peers ++ [[]].
Proof. rewrite Server_lines. apply Split_unlines, server_lines_nl. Qed.
End printable.

(** ** Looking keys up in a rendered config *)

(** The first value of a key, compared in lower case. *)
Fixpoint kv_lookup (want : bytes) (l : kvs) : option bytes :=
  match l with
  | [] => None
  | (k, v) :: l => if bool_decide (ToLower k = want) then Some v else kv_lookup want l
  end.

Lemma iv_run_kvs want l :
  Forall kv_ok l ->
  iv_run want #"interface" (kv_lines l)
  = match kv_lookup want l with Some v => inr v | None => inl #"interface" end.
Proof.
  induction 1 as [|[k v] l [Hk [Hs _]] Hl IH]; [done|]. unfold kv_lines in *. rewrite fmap_cons.
  cbn [iv_run kv_lookup fst snd] in *. rewrite iv_step_kv by done. case_bool_decide; [done|]. apply IH.
Qed.

(** Key/value lines of another section are passed over. *)
Lemma iv_run_other want sec l :
  sec <> #"interface" -> Forall kv_ok l -> iv_run want sec (kv_lines l) = inl sec.
Proof.
  intros Hsec. induction 1 as [|[k v] l [Hk [Hs _]] Hl IH]; [done|]. unfold kv_lines in *.
  rewrite fmap_cons. cbn [iv_run fst snd] in *. unfold iv_step.
  rewrite kv_TrimSpace, kv_skipped, kv_bracketed by done. by rewrite bool_decide_eq_false_2.
Qed.

(** A comment line is skipped by every scanner, whatever it holds. *)
Lemma comment_skipped c : skipped (TrimSpace (#"# " ++ c)) = true.
Proof.
  destruct (TrimSpace_prefix "#"%char (" "%char :: c)) as [t Ht].
  { apply (bool_decide_unpack _). by vm_compute. }
  change (#"# " ++ c) with ("#"%char :: " "%char :: c).
  destruct (TrimSpace _) as [|d x]; [done|]. injection Ht as <- _. unfold skipped.
  change #"#" with [ "#"%char ]. rewrite (proj2 (HasPrefix_single ("#"%char :: x) "#"%char)) by done. apply orb_true_r.
Qed.

Lemma iv_run_peer want sec p :
  printable_peer p -> iv_run want sec (peer_lines p) = inl #"peer".
Proof.
  intros Hp. unfold peer_lines. rewrite iv_run_app.
  change (iv_run want sec [ []; #"[Peer]" ]) with (@inl bytes bytes #"peer"). cbv iota.
  rewrite iv_run_app. assert (iv_run want #"peer" (comment_lines (pe_Comment p)) = inl #"peer") as ->.
  { unfold comment_lines. destruct (nonempty _); [|done]. cbn [iv_run]. unfold iv_step.
    by rewrite comment_skipped. }
  apply iv_run_other; [done|by apply peer_kvs_ok].
Qed.

Lemma iv_run_peers want sec l :
  Forall printable_peer l ->
  exists sec', iv_run want sec (concat (peer_lines <$> l) ++ [[]]) = inl sec'.
Proof.
  intros Hl. revert sec. induction Hl as [|p l Hp Hl IH]; intros sec; [by exists sec|].
  rewrite fmap_cons. cbn [concat]. rewrite <- app_assoc, iv_run_app, iv_run_peer by done. apply IH.
Qed.

Lemma InterfaceValue_Server i p peers key :
  printable_interface i -> printable_profile p -> Forall printable_peer peers ->
  InterfaceValue (Server i p peers) key
  = default [] (kv_lookup (ToLower (TrimSpace key)) (interface_kvs i p)).
Proof.
  intros Hi Hp Hps. unfold InterfaceValue. rewrite Split_Server by done. unfold server_lines.
  rewrite <- !app_assoc, iv_run_app.
  change (iv_run _ [] [ #"# Generated by awg-rest. Do not edit by hand."; #"[Interface]" ])
    with (@inl bytes bytes #"interface"). cbv iota.
  rewrite iv_run_app, iv_run_kvs by (by apply interface_kvs_ok).
  destruct (kv_lookup _ _); [done|].
  destruct (iv_run_peers (ToLower (TrimSpace key)) #"interface" (sort_Slice peer_less peers)) as [sec' ->];
    [by apply sorted_printable|done].
Qed.

Lemma kv_lookup_absent want l : Forall (fun kv => ToLower (fst kv) <> want) l -> kv_lookup want l = None.
Proof. induction 1 as [|[k v] l Hk Hl IH]; [done|]. cbn [kv_lookup fst] in *. by rewrite bool_decide_eq_false_2. Qed.

Lemma SaveConfig_absent i p : kv_lookup #"saveconfig" (interface_kvs i p) = None.
Proof.
  apply kv_lookup_absent. unfold interface_kvs, profile_kvs.
  each_pair ltac:(by vm_compute). apply Forall_fmap, Forall_true. by vm_compute.
Qed.

Lemma PrivateKey_absent i p : if_PrivateKey i = [] -> kv_lookup #"privatekey" (interface_kvs i p) = None.
Proof.
  intros E. apply kv_lookup_absent. unfold interface_kvs, profile_kvs. rewrite E.
  each_pair ltac:(by vm_compute). apply Forall_fmap, Forall_true. by vm_compute.
Qed.

(** (The server config carries its settings.) For every setting whose text
    fits a line, looking a key up in the rendered server config returns the value
    of the first [[Interface]] pair the interface and the profile call for, and
    nothing when they call for none, whatever the peers are; in particular the
    text never sets SaveConfig. *)
Theorem Server_InterfaceValue i p peers :
  printable_interface i -> printable_profile p -> Forall printable_peer peers ->
  (forall key, InterfaceValue (Server i p peers) key
               = default [] (kv_lookup (ToLower (TrimSpace key)) (interface_kvs i p)))
  /\ InterfaceValue (Server i p peers) #"SaveConfig" = [].
Proof.
  intros Hi Hp Hps. split; [intros key; by apply InterfaceValue_Server|].
  rewrite InterfaceValue_Server by done.
  change (ToLower (TrimSpace #"SaveConfig")) with #"saveconfig". by rewrite SaveConfig_absent.
Qed.

(** A concrete rendering, used by the witnesses. *)
Definition demo_profile : ProtocolProfile :=
  mkProfile uuid_Nil #"default" ProtocolV2 4 40 70 10 20 30 12
    (mkIntRange 5 9) (mkIntRange 10 10) (mkIntRange 11 11) (mkIntRange 12 12)
    #"<r 10>" [] [] [] [] [] (mkU16 0 0) (mkU16 0 0) (mkU16 0 0) (mkU16 0 0) (mkU16 0 0) (mkU16 0 0)
    (mkU16 0 0) false false #"fixed" 0.
Definition demo_interface : Interface :=
  mkInterface #"priv=" [ #"10.8.0.1/24" ] 51820 1420 [ #"1.1.1.1" ] [] [].
Definition demo_peer (k name : bytes) : PeerEntry :=
  mkPeerEntry k #"psk=" [ #"10.8.0.2/32"; #"fd00::2/128" ] [] 25 name.

Lemma Server_InterfaceValue_witness :
  InterfaceValue (Server demo_interface demo_profile [demo_peer #"zz=" #"phone"; demo_peer #"aa=" #"lap = [x]"])
    #"h1" = #"5-9".
Proof.
  destruct (Server_InterfaceValue demo_interface demo_profile
              [demo_peer #"zz=" #"phone"; demo_peer #"aa=" #"lap = [x]"]) as [H _].
  - apply (bool_decide_unpack _). vm_compute. exact I.
  - apply (bool_decide_unpack _). vm_compute. exact I.
  - apply (bool_decide_unpack _). vm_compute. exact I.
  - rewrite H. vm_compute. reflexivity.
Defined.

(** (Content-addressable.) With distinct public keys the server config does
    not depend on the order in which the peers are listed, so equal desired
    states hash equally. *)
Theorem Server_order_independent i p peers peers' :
  NoDup (pe_PublicKey <$> peers) -> peers ≡ₚ peers' -> Server i p peers = Server i p peers'.
Proof.
  intros Hnd Hperm. unfold Server. do 3 f_equal.
  exact (sort_Slice_unique pe_PublicKey peers peers' Hnd Hperm).
Qed.

Lemma Server_order_independent_witness :
  Server demo_interface demo_profile [demo_peer #"b" #"x"; demo_peer #"a" #"y"]
  = Server demo_interface demo_profile [demo_peer #"a" #"y"; demo_peer #"b" #"x"].
Proof.
  apply (Server_order_independent demo_interface demo_profile).
  - apply (bool_decide_unpack _). vm_compute. exact I.
  - constructor.
Defined.

Lemma Server_well_sectioned i p peers :
  printable_interface i -> printable_profile p -> Forall printable_peer peers ->
  well_sectioned (Server i p peers).
Proof.
  intros Hi Hp Hps. unfold well_sectioned. rewrite Split_Server, removelast_last by done. split.
  { exists #"[Interface]". split; [|by vm_compute]. unfold server_lines. apply elem_of_app. left. set_solver. }
  assert (Hkv : forall l, Forall kv_ok l -> Forall (fun l => odd_header l = false) (kv_lines l)).
  { intros l Hl. apply Forall_fmap. eapply Forall_impl; [exact Hl|]. intros [k v] [Hk [Hs _]]. simpl.
    unfold odd_header. rewrite kv_TrimSpace, kv_skipped, kv_bracketed by done. done. }
  apply Forall_app. split; [|by repeat constructor]. unfold server_lines.
  apply Forall_app. split; [by repeat constructor|]. apply Forall_app. split; [by apply Hkv, interface_kvs_ok|].
  apply Forall_concat_fmap. eapply Forall_impl; [by apply (sorted_printable peers)|]. intros x Hx.
  unfold peer_lines. apply Forall_app. split; [by repeat constructor|].
  apply Forall_app. split; [|by apply Hkv, peer_kvs_ok].
  unfold comment_lines. destruct (nonempty _); [|constructor]. constructor; [|constructor].
  unfold odd_header. by rewrite comment_skipped.
Qed.
