(* ===== verification/Executor.v ===== *)
(** * Executor: the runtime contract of the worker ([awg/executor.go])

    The types the executors exchange, the interface-name check, and the
    [Executor] interface as a class over the runtime world, with the laws its
    clients rely on as classes of their own: what [SyncConf] applied is what
    [ShowDump] then reports ([ExecutorLaws]), and [SyncConf] is idempotent
    ([SyncLaws]). *)

From S2P Require Import Prelude GoStrings Errors Profile AwgConfig Render.

Record PeerSpec : Type := mkPeerSpec {
  ps_PublicKey : bytes;
  ps_PresharedKey : bytes;
  ps_AllowedIPs : list bytes;
  ps_Endpoint : bytes;
  ps_KeepaliveSecs : Z }.

#[export] Instance PeerSpec_eq_dec : EqDecision PeerSpec.
Proof. solve_decision. Defined.

(** [LastHandshake] is a [time.Time]: [None] is the zero time, otherwise the
    seconds since the epoch. *)
Record PeerRuntime : Type := mkPeerRuntime {
  pr_PublicKey : bytes;
  pr_PresharedKey : bytes;
  pr_Endpoint : bytes;
  pr_AllowedIPs : list bytes;
  pr_LastHandshake : option Z;
  pr_RxBytes : Z;
  pr_TxBytes : Z;
  pr_KeepaliveSecs : Z;
  pr_KeepaliveRange : bytes }.

#[export] Instance PeerRuntime_eq_dec : EqDecision PeerRuntime.
Proof. solve_decision. Defined.

Record InterfaceRuntime : Type := mkInterfaceRuntime {
  ir_PrivateKey : bytes;
  ir_PublicKey : bytes;
  ir_ListenPort : Z;
  ir_FwMark : Z }.

#[export] Instance InterfaceRuntime_eq_dec : EqDecision InterfaceRuntime.
Proof. solve_decision. Defined.

(** A context: [Some e] once it is cancelled or past its deadline. *)
Abbreviation context := (option error).

(** [type Executor interface]; each method runs against the world. *)
Class Executor (W : Type) : Type := {
  SyncConf : context -> bytes -> bytes -> W -> result error unit * W;
  SetPeer : context -> bytes -> PeerSpec -> W -> result error unit * W;
  RemovePeer : context -> bytes -> bytes -> W -> result error unit * W;
  ShowDump : context -> bytes -> W -> result error (InterfaceRuntime * list PeerRuntime) * W;
  ShowConf : context -> bytes -> W -> result error bytes * W;
  InterfaceUp : context -> bytes -> bytes -> W -> result error unit * W;
  InterfaceDown : context -> bytes -> W -> result error unit * W }.

(** The bytes an interface name may hold. *)
Definition name_byte (c : ascii) : bool :=
  let c := code c in
  ((97 <=? c) && (c <=? 122)) || ((65 <=? c) && (c <=? 90)) || ((48 <=? c) && (c <=? 57))
  || ((c =? 95) || (c =? 45) || (c =? 46)).

Definition ValidInterfaceName (name : bytes) : bool :=
  if bool_decide (name = []) || (15 <? Z.of_nat (length name)) || bool_decide (name = #".")
     || bool_decide (name = #"..")
  then false
  else forallb name_byte name.

(** What the worker relies on: an executor reads a rendered config as it is
    meant, also after the running private key has been carried over, so that the
    peers it lists afterwards are the config's peers, each once. *)
Class ExecutorLaws (W : Type) `{Executor W} : Type := {
  SyncConf_dump ctx ctx' iface i p peers config w w' ir ps w'' :
    ValidInterfaceName iface = true -> printable_interface i -> printable_profile p -> Forall printable_peer peers ->
    Forall (fun e => key_text (pe_PublicKey e)) peers ->
    carried (Server i p peers) config ->
    SyncConf ctx iface config w = (Ok tt, w') ->
    ShowDump ctx' iface w' = (Ok (ir, ps), w'') ->
    (list_to_set (pr_PublicKey <$> ps) : gset bytes) = list_to_set (pe_PublicKey <$> peers)
    /\ NoDup (pr_PublicKey <$> ps) }.

(** What the interface documents of [SyncConf] and [ShowConf]: applying a config
    again is a no-op, and the config shown after an application has its private
    key. *)
Class SyncLaws (W : Type) `{Executor W} : Type := {
  SyncConf_idempotent ctx iface config w w' :
    SyncConf ctx iface config w = (Ok tt, w') -> SyncConf ctx iface config w' = (Ok tt, w');
  ShowConf_synced ctx iface config w r w0 w1 :
    ShowConf ctx iface w = (r, w0) -> SyncConf ctx iface config w0 = (Ok tt, w1) ->
    exists current, ShowConf ctx iface w1 = (Ok current, w1)
      /\ InterfaceValue current #"PrivateKey" = InterfaceValue config #"PrivateKey" }.

(** What an interface has: the public keys of its peers, as a function of the world.
    A dump shows them; looking changes nothing; applying a config or bringing an
    interface up concerns that interface alone, and a config that was applied has
    its peers there. *)
Class RuntimeView (W : Type) `{Executor W} : Type := {
  kernel_keys : bytes -> W -> gset bytes;
  ShowDump_keys ctx iface w ir ps w' :
    ShowDump ctx iface w = (Ok (ir, ps), w') -> list_to_set (pr_PublicKey <$> ps) = kernel_keys iface w;
  ShowDump_quiet ctx iface iface' w : kernel_keys iface' (snd (ShowDump ctx iface w)) = kernel_keys iface' w;
  ShowConf_quiet ctx iface iface' w : kernel_keys iface' (snd (ShowConf ctx iface w)) = kernel_keys iface' w;
  SyncConf_other ctx iface iface' config w :
    iface' <> iface -> kernel_keys iface' (snd (SyncConf ctx iface config w)) = kernel_keys iface' w;
  InterfaceUp_other ctx iface iface' path w :
    iface' <> iface -> kernel_keys iface' (snd (InterfaceUp ctx iface path w)) = kernel_keys iface' w;
  SyncConf_keys ctx iface i p peers config w w' :
    ValidInterfaceName iface = true -> printable_interface i -> printable_profile p -> Forall printable_peer peers ->
    Forall (fun e => key_text (pe_PublicKey e)) peers ->
    carried (Server i p peers) config ->
    SyncConf ctx iface config w = (Ok tt, w') ->
    kernel_keys iface w' = list_to_set (pe_PublicKey <$> peers) }.

(** An accepted name stays inside a directory when a file name is built from
    it, and is a single shell word: no separator, no blank, no control byte. *)
Lemma ValidInterfaceName_safe name :
  ValidInterfaceName name = true ->
  (length name <= 15)%nat /\ name <> [] /\ name <> #"." /\ name <> #".."
  /\ ("/"%char ∉ name) /\ Forall solid_byte name.
Proof.
  unfold ValidInterfaceName. destruct (_ || _ || _ || _) eqn:E; [done|]. bool_to_prop.
  rewrite forallb_forall. intros Hall.
  assert (Hb : Forall (fun c => solid_byte c /\ c <> "/"%char) name).
  { apply Forall_forall. intros c Hc. apply list_elem_of_In, Hall in Hc.
    unfold name_byte in Hc. rewrite !orb_true_iff, !andb_true_iff, !Z.leb_le, !Z.eqb_eq in Hc.
    split; [unfold solid_byte; lia|]. intros ->.
    change (code "/"%char) with 47 in Hc. lia. }
  apply Forall_and in Hb as [Hs Hn]. split_and!; try done; [lia|].
  intros Hc. eapply Forall_forall in Hn; [|exact Hc]. done.
Qed.
