(* ===== verification/Dump.v ===== *)
(** * Dump: parsing the runtime dump ([awg/dump.go])

    [ParseShowDump] reads the tab-separated output of [awg show <iface> dump]: one
    interface row, whose middle fields depend on the version of the tools, and one
    row per peer.  The theorems are the round trip with the documented row format,
    the ranges of the numbers it returns, and what its errors mean to the worker. *)

From S2P Require Import Prelude GoStrings Strconv Errors Profile AwgConfig Executor.

(** ** [bufio.Scanner] with [bufio.ScanLines] and a 1 MiB buffer *)

Definition max_token : Z := 1024 * 1024.

(** A line that does not fit the buffer together with its newline. *)
Definition too_long (line : bytes) : bool := max_token <=? Z.of_nat (length line).

Definition dropCR (line : bytes) : bytes :=
  if HasSuffix line [cr] then take (length line - 1) line else line.

(** The tokens of the pieces between newlines, and whether the scanner stopped
    with [bufio.ErrTooLong]; an empty last piece is no token. *)
Fixpoint scan_pieces (pieces : list bytes) : list bytes * bool :=
  match pieces with
  | [] => ([], false)
  | line :: rest =>
      if too_long line then ([], true)
      else if bool_decide (rest = []) && bool_decide (line = []) then ([], false)
      else let '(tokens, err) := scan_pieces rest in (dropCR line :: tokens, err)
  end.

Definition ScanLines (s : bytes) : list bytes * bool := scan_pieces (Split s nl).

Definition ErrTooLong : error := EMsg #"bufio.Scanner: token too long".

(** ** Model *)

Definition noneToEmpty (s : bytes) : bytes := if bool_decide (s = #"(none)") then [] else s.

Definition splitAllowedIPs (s : bytes) : list bytes :=
  if bool_decide (s = #"(none)") || bool_decide (s = []) then []
  else filter (fun p => p <> []) (TrimSpace <$> Split s ","%char).

Section dump.
(** [strconv.Quote], and the text of the error that the named function of strconv
    returns for a text it rejects. *)
Context (Quote : bytes -> bytes) (num_error : bytes -> bytes -> bytes).

Definition validateUint16RangeText (s : bytes) : result error unit :=
  match Split s "-"%char with
  | [a; b] =>
      match ParseUint10 a 16 with
      | None => Err (EWrap #"invalid min: " (EMsg (num_error #"ParseUint" a)) [])
      | Some lo =>
          match ParseUint10 b 16 with
          | None => Err (EWrap #"invalid max: " (EMsg (num_error #"ParseUint" b)) [])
          | Some hi =>
              if hi <? lo then Err (EMsg (#"min " ++ FormatInt lo ++ #" > max " ++ FormatInt hi))
              else Ok tt
          end
      end
  | _ => Err (EMsg #"expected min-max")
  end.

(** [strconv.ParseInt(fwmarkField, 0, 64)]; the word "off" is its zero. *)
Definition parse_fwmark (field : bytes) : result error Z :=
  match ParseInt0 field with
  | Some z => Ok z
  | None =>
      if bool_decide (field = #"off") then Ok 0
      else Err (EWrap #"invalid fwmark: " (EMsg (num_error #"ParseInt" field)) [])
  end.

Definition parse_interface_row (line : bytes) : result error InterfaceRuntime :=
  match Split line tab with
  | priv :: pub :: port :: ((_ :: _) as more) =>
      match Atoi port with
      | None => Err (EWrap #"invalid listen port: " (EMsg (num_error #"Atoi" port)) [])
      | Some port =>
          fwmark ← parse_fwmark (List.last more []);
          Ok (mkInterfaceRuntime (noneToEmpty priv) (noneToEmpty pub) port fwmark)
      end
  | _ => Err (EMsg (#"invalid interface line: " ++ Quote line))
  end.

(** The keepalive field: seconds and raw text. *)
Definition parse_keepalive (field : bytes) : result error (Z * bytes) :=
  if bool_decide (field = #"off") || bool_decide (field = []) then Ok (0, [])
  else if negb (Contains field #"-") then
    match Atoi field with
    | None => Err (EWrap #"invalid keepalive: " (EMsg (num_error #"Atoi" field)) [])
    | Some ka => Ok (ka, field)
    end
  else match validateUint16RangeText field with
       | Err e => Err (EWrap #"invalid keepalive range: " e [])
       | Ok _ => Ok (0, field)
       end.

(** [time.Unix(ts, 0)] for a positive number, the zero time otherwise. *)
Definition parse_handshake (field : bytes) : option Z :=
  match ParseInt10 field with
  | Some ts => if 0 <? ts then Some ts else None
  | None => None
  end.

Definition parse_peer_row (line : bytes) : result error PeerRuntime :=
  match Split line tab with
  | pub :: psk :: endpoint :: ips :: handshake :: rxf :: txf :: keepalive :: _ =>
      match ParseInt10 rxf with
      | None => Err (EWrap #"invalid rx bytes: " (EMsg (num_error #"ParseInt" rxf)) [])
      | Some rx =>
          match ParseInt10 txf with
          | None => Err (EWrap #"invalid tx bytes: " (EMsg (num_error #"ParseInt" txf)) [])
          | Some tx =>
              ka ← parse_keepalive keepalive;
              Ok (mkPeerRuntime pub (noneToEmpty psk) (noneToEmpty endpoint) (splitAllowedIPs ips)
                    (parse_handshake handshake) rx tx (fst ka) (snd ka))
          end
      end
  | _ => Err (EMsg (#"invalid peer line: " ++ Quote line))
  end.

(** The loop over the tokens: the interface row while [iface] is [None], then
    peers; empty lines are skipped. *)
Fixpoint dump_loop (iface : option InterfaceRuntime) (peers : list PeerRuntime) (tokens : list bytes)
    (scanErr : bool) : result error (InterfaceRuntime * list PeerRuntime) :=
  match tokens with
  | [] =>
      if scanErr then Err ErrTooLong
      else Ok (default (mkInterfaceRuntime [] [] 0 0) iface, peers)
  | line :: tokens =>
      if bool_decide (line = []) then dump_loop iface peers tokens scanErr
      else match iface with
           | None => ir ← parse_interface_row line; dump_loop (Some ir) peers tokens scanErr
           | Some _ => p ← parse_peer_row line; dump_loop iface (peers ++ [p]) tokens scanErr
           end
  end.

Definition ParseShowDump (s : bytes) : result error (InterfaceRuntime * list PeerRuntime) :=
  let '(tokens, scanErr) := ScanLines s in dump_loop None [] tokens scanErr.
End dump.

(** ** The documented row format *)

(** What the tools print: empty values as "(none)"; a firewall mark as "off" or in
    hexadecimal; a keepalive as "off", as seconds, or - AmneziaWG's addition - as a
    range of seconds; [params] are the protocol parameters before the mark. *)
Definition or_none (s : bytes) : bytes := if bool_decide (s = []) then #"(none)" else s.

Definition show_fwmark (mark : Z) : bytes := if mark =? 0 then #"off" else #"0x" ++ format_uhex mark.

Inductive keepalive : Type := KeepaliveOff | KeepaliveSecs (n : Z) | KeepaliveBetween (lo hi : Z).

Definition show_keepalive (k : keepalive) : bytes :=
  match k with
  | KeepaliveOff => #"off"
  | KeepaliveSecs n => FormatInt n
  | KeepaliveBetween lo hi => FormatInt lo ++ #"-" ++ FormatInt hi
  end.

Definition keepalive_ok (k : keepalive) : Prop :=
  match k with
  | KeepaliveOff => True
  | KeepaliveSecs n => 0 <= n <= max_int64
  | KeepaliveBetween lo hi => 0 <= lo <= hi /\ hi < 65536
  end.

(** What a runtime says of a keepalive: the seconds, none for a range, and the text. *)
Definition says (p : PeerRuntime) (k : keepalive) : Prop :=
  match k with
  | KeepaliveOff => pr_KeepaliveSecs p = 0 /\ pr_KeepaliveRange p = []
  | KeepaliveSecs n => pr_KeepaliveSecs p = n /\ pr_KeepaliveRange p = show_keepalive k
  | KeepaliveBetween _ _ => pr_KeepaliveSecs p = 0 /\ pr_KeepaliveRange p = show_keepalive k
  end.

Definition interface_fields (ir : InterfaceRuntime) (params : list bytes) : list bytes :=
  or_none (ir_PrivateKey ir) :: or_none (ir_PublicKey ir) :: FormatInt (ir_ListenPort ir) :: params ++ [show_fwmark (ir_FwMark ir)].
Definition interface_row (ir : InterfaceRuntime) (params : list bytes) : bytes :=
  Join (interface_fields ir params) [tab].

Definition peer_fields (p : PeerRuntime) : list bytes :=
  [ pr_PublicKey p; or_none (pr_PresharedKey p); or_none (pr_Endpoint p);
    or_none (Join (pr_AllowedIPs p) #","); FormatInt (default 0 (pr_LastHandshake p));
    FormatInt (pr_RxBytes p); FormatInt (pr_TxBytes p);
    if bool_decide (pr_KeepaliveRange p = []) then #"off" else pr_KeepaliveRange p ].
Definition peer_row (p : PeerRuntime) : bytes := Join (peer_fields p) [tab].

Definition show_dump (ir : InterfaceRuntime) (params : list bytes) (peers : list PeerRuntime) : bytes :=
  unlines (interface_row ir params :: (peer_row <$> peers)).

(** A field of a row: no separator inside. *)
Definition plain (s : bytes) : Prop := (tab ∉ s) /\ (nl ∉ s) /\ (cr ∉ s).
(** A field whose empty value is printed as "(none)". *)
Definition field_ok (s : bytes) : Prop := plain s /\ s <> #"(none)".
Definition short (line : bytes) : Prop := Z.of_nat (length line) < max_token.

#[export] Instance plain_dec s : Decision (plain s).
Proof. unfold plain. apply _. Defined.
#[export] Instance field_ok_dec s : Decision (field_ok s).
Proof. unfold field_ok. apply _. Defined.

Record iface_ok (ir : InterfaceRuntime) (params : list bytes) : Prop := {
  io_priv : field_ok (ir_PrivateKey ir);
  io_pub : field_ok (ir_PublicKey ir);
  io_port : in_int64 (ir_ListenPort ir);
  io_params : Forall plain params;
  io_mark : 0 <= ir_FwMark ir <= max_int64;
  io_short : short (interface_row ir params) }.

Record peer_ok (p : PeerRuntime) : Prop := {
  po_pub : plain (pr_PublicKey p);
  po_psk : field_ok (pr_PresharedKey p);
  po_endpoint : field_ok (pr_Endpoint p);
  po_ips : Forall (fun a => plain a /\ a <> #"(none)" /\ a <> [] /\ TrimSpace a = a /\ (","%char ∉ a)) (pr_AllowedIPs p);
  po_handshake : match pr_LastHandshake p with Some t => 0 < t <= max_int64 | None => True end;
  po_rx : in_int64 (pr_RxBytes p);
  po_tx : in_int64 (pr_TxBytes p);
  po_keepalive : exists k, keepalive_ok k /\ says p k;
  po_short : short (peer_row p) }.

(** ** Lines and fields *)

Lemma noneToEmpty_or_none s : s <> #"(none)" -> noneToEmpty (or_none s) = s.
Proof.
  intros Hs. unfold or_none. destruct (bool_decide_reflect (s = [])) as [->|E]; [done|].
  unfold noneToEmpty. by rewrite bool_decide_eq_false_2.
Qed.

Lemma dropCR_id l : cr ∉ l -> dropCR l = l.
Proof.
  intros Hl. unfold dropCR, HasSuffix. destruct (HasPrefix (rev l) (rev [cr])) eqn:E; [|done].
  apply HasPrefix_single in E. destruct Hl. apply list_elem_of_In, in_rev.
  destruct (rev l) as [|c r]; [done|]. injection E as ->. by left.
Qed.

Lemma scan_pieces_lines ls :
  Forall (fun l => (cr ∉ l) /\ short l) ls -> scan_pieces (ls ++ [[]]) = (ls, false).
Proof.
  induction ls as [|l ls IH]; intros H; [done|]. inversion_clear H as [|? ? [Hc Hs] Hr].
  cbn [app scan_pieces]. unfold too_long. rewrite (proj2 (Z.leb_gt _ _)) by done.
  rewrite (bool_decide_eq_false_2 (ls ++ [[]] = [])) by (by destruct ls). cbn [andb].
  by rewrite IH, dropCR_id by done.
Qed.

Lemma plain_or_none s : plain s -> plain (or_none s).
Proof. intros Hs. unfold or_none. case_bool_decide; [|done]. apply (bool_decide_unpack _). by vm_compute. Qed.

Lemma plain_FormatInt z : plain (FormatInt z).
Proof.
  assert (H : forall c, code c < 33 -> c ∉ FormatInt z).
  { intros c Hc. unfold FormatInt. case_match; bool_to_prop.
    - rewrite elem_of_cons. intros [->|Hin]; [by vm_compute in Hc|].
      apply format_udec_notin in Hin; [done|lia|lia].
    - apply format_udec_notin; lia. }
  split_and!; apply H; by vm_compute.
Qed.

Lemma notin_Join c l sep : c ∉ sep -> Forall (fun x => c ∉ x) l -> c ∉ Join l sep.
Proof.
  intros Hs. induction l as [|x l IH]; intros H; [apply not_elem_of_nil|]. inversion_clear H.
  destruct l as [|y l]; [done|]. rewrite Join_cons by done. rewrite !elem_of_app. intros [?|[?|?]]; try done.
  by apply IH.
Qed.

Lemma plain_Join l sep : plain sep -> Forall plain l -> plain (Join l sep).
Proof.
  intros (?&?&?) Hl. apply Forall_and in Hl as [Ht Hl]. apply Forall_and in Hl as [Hn Hc].
  split_and!; by apply notin_Join.
Qed.

(** A row of plain fields is one line and splits into its fields. *)
Lemma row_fields l : l <> [] -> Forall plain l ->
  Split (Join l [tab]) tab = l /\ (nl ∉ Join l [tab]) /\ (cr ∉ Join l [tab]).
Proof.
  intros Hl H. apply Forall_and in H as [H1 H]. apply Forall_and in H as [H2 H3].
  split; [by apply Split_Join|]. split; apply notin_Join; try done; apply (bool_decide_unpack _); by vm_compute.
Qed.

Lemma Join_single_none l : Forall (fun a => a <> #"(none)" /\ (","%char ∉ a)) l -> Join l #"," <> #"(none)".
Proof.
  destruct l as [|x [|y l]]; [done| |]; intros H; inversion_clear H as [|? ? [Hx _] _]; [done|].
  rewrite Join_cons by done. intros He. assert (","%char ∈ #"(none)") as Hc by (rewrite <- He; set_solver).
  revert Hc. apply (bool_decide_unpack (_ ∉ _)). by vm_compute.
Qed.

Lemma splitAllowedIPs_Join l :
  Forall (fun a => plain a /\ a <> #"(none)" /\ a <> [] /\ TrimSpace a = a /\ (","%char ∉ a)) l ->
  splitAllowedIPs (or_none (Join l #",")) = l.
Proof.
  intros Hl. unfold or_none. case_bool_decide as E.
  { destruct l as [|x [|y l]]; [done| |]; inversion_clear Hl as [|? ? (_ & _ & Hx & _) _]; [done|].
    rewrite Join_cons in E by done. by destruct x. }
  unfold splitAllowedIPs. rewrite !bool_decide_eq_false_2; [|done|].
  2: { apply Join_single_none. eapply Forall_impl; [exact Hl|]. naive_solver. }
  cbn [orb]. change (#",") with [","%char]. rewrite Split_Join.
  - assert (TrimSpace <$> l = l) as ->.
    { clear E. induction Hl as [|x l Hx _ IH]; [done|]. cbn. rewrite IH. f_equal. naive_solver. }
    clear E. induction Hl as [|x l Hx _ IH]; [done|]. rewrite filter_cons_True, IH by naive_solver. done.
  - by intros ->.
  - eapply Forall_impl; [exact Hl|]. naive_solver.
Qed.

Lemma Contains_dash a b : Contains (a ++ "-"%char :: b) #"-" = true.
Proof.
  change (#"-") with ["-"%char]. induction a as [|c a IH]; [by destruct b|].
  change ((c :: a) ++ "-"%char :: b) with (c :: (a ++ "-"%char :: b)). cbn [Contains]. by rewrite IH, orb_true_r.
Qed.

(** *** Marks and keepalives *)

Lemma hex_byte_plain l : Forall hex_byte l -> plain l.
Proof.
  intros H. split_and!; intros Hin; eapply Forall_forall in H; try exact Hin; by destruct H as [d Hd]; vm_compute in Hd.
Qed.

Lemma plain_app a b : plain a -> plain b -> plain (a ++ b).
Proof. unfold plain. set_solver. Qed.

Lemma plain_fwmark z : 0 <= z -> plain (show_fwmark z).
Proof.
  intros Hz. unfold show_fwmark. destruct (z =? 0); [apply (bool_decide_unpack _); by vm_compute|].
  apply plain_app; [apply (bool_decide_unpack _); by vm_compute|]. by apply hex_byte_plain, format_uhex_spec.
Qed.

Lemma parse_fwmark_show num_error z : 0 <= z <= max_int64 -> parse_fwmark num_error (show_fwmark z) = Ok z.
Proof.
  intros Hz. unfold show_fwmark, parse_fwmark. destruct (Z.eqb_spec z 0) as [->|Hne]; [by vm_compute|]. by rewrite ParseInt0_hex.
Qed.

Lemma plain_keepalive k : plain (show_keepalive k).
Proof.
  destruct k; cbn [show_keepalive]; [apply (bool_decide_unpack _); by vm_compute|apply plain_FormatInt|].
  apply plain_app; [apply plain_FormatInt|]. apply plain_app; [apply (bool_decide_unpack _); by vm_compute|apply plain_FormatInt].
Qed.

Lemma FormatInt_not_nil z : FormatInt z <> [].
Proof. pose proof (FormatInt_solid z) as H. intros E. rewrite E in H. by apply solid_not_nil in H. Qed.

(** What the keepalive field of a row is. *)
Lemma keepalive_field p k : says p k ->
  (if bool_decide (pr_KeepaliveRange p = []) then #"off" else pr_KeepaliveRange p) = show_keepalive k.
Proof.
  destruct k as [|n|lo hi]; intros [_ Hr]; rewrite Hr; [done|..]; rewrite bool_decide_eq_false_2; try done; cbn [show_keepalive].
  - apply FormatInt_not_nil.
  - intros E. apply app_nil in E as [E _]. by apply FormatInt_not_nil in E.
Qed.

Lemma Contains_absent s : "-"%char ∉ s -> Contains s #"-" = false.
Proof.
  change (#"-") with ["-"%char]. induction s as [|c s IH]; intros H; [done|]. cbn [Contains HasPrefix].
  rewrite IH by set_solver. rewrite orb_false_r.
  destruct (HasPrefix (c :: s) ["-"%char]) eqn:E; [|done]. apply HasPrefix_single in E. injection E as ->. set_solver.
Qed.

Lemma ParseUint10_FormatInt n bits : 0 <= n < 2 ^ bits -> ParseUint10 (FormatInt n) bits = Some n.
Proof.
  intros Hn. unfold ParseUint10, FormatInt. destruct (Z.ltb_spec n 0); [lia|]. rewrite parse_udec_format by lia. cbn [mbind option_bind].
  destruct (Z.ltb_spec n (2 ^ bits)); [done|lia].
Qed.

Lemma digit_text_ne z t : 0 <= z -> (exists c r, t = c :: r /\ ~ (48 <= code c <= 57)) -> FormatInt z <> t.
Proof.
  intros Hz (c & r & -> & Hc) E. assert (c ∉ FormatInt z) as Hn by (by apply FormatInt_notin). apply Hn. rewrite E. by left.
Qed.

Lemma parse_keepalive_show num_error p k :
  keepalive_ok k -> says p k -> parse_keepalive num_error (show_keepalive k) = Ok (pr_KeepaliveSecs p, pr_KeepaliveRange p).
Proof.
  assert (Hd : ~ (48 <= code "-"%char <= 57)) by code_lia. assert (Ho : forall z, 0 <= z -> FormatInt z <> #"off").
  { intros z Hz. apply digit_text_ne; [done|]. eexists _, _. split; [reflexivity|code_lia]. }
  unfold parse_keepalive. destruct k as [|n|lo hi]; intros Hk [Hs Hr]; rewrite Hs, Hr; cbn [show_keepalive keepalive_ok] in *.
  - by vm_compute.
  - rewrite !bool_decide_eq_false_2 by (apply FormatInt_not_nil || (apply Ho; lia)). cbn [orb].
    rewrite Contains_absent by (apply FormatInt_notin; [lia|done]). cbn [negb]. unfold Atoi.
    by rewrite ParseInt10_FormatInt by (unfold in_int64, min_int64; lia).
  - rewrite !bool_decide_eq_false_2.
    2:{ intros E. apply app_nil in E as [E _]. by apply FormatInt_not_nil in E. }
    2:{ intros E. assert ("-"%char ∈ #"off") as Hin by (rewrite <- E; set_solver). revert Hin. apply (bool_decide_unpack (_ ∉ _)). by vm_compute. }
    cbn [orb]. rewrite (Contains_dash (FormatInt lo) (FormatInt hi) : Contains (FormatInt lo ++ #"-" ++ FormatInt hi) #"-" = true).
    cbn [negb]. unfold validateUint16RangeText.
    assert (Split (FormatInt lo ++ #"-" ++ FormatInt hi) "-"%char = [FormatInt lo; FormatInt hi]) as ->.
    { change (FormatInt lo ++ #"-" ++ FormatInt hi) with (Join [FormatInt lo; FormatInt hi] ["-"%char]). apply Split_Join; [done|].
      repeat constructor; apply FormatInt_notin; (lia || done). }
    rewrite !ParseUint10_FormatInt by (change (2 ^ 16) with 65536; lia). destruct (Z.ltb_spec hi lo); [lia|done].
Qed.

Lemma interface_fields_plain ir params :
  iface_ok ir params -> Forall plain (interface_fields ir params).
Proof.
  intros [[P1 _] [P2 _] _ Hps Hm _]. unfold interface_fields.
  do 3 (constructor; [auto using plain_or_none, plain_FormatInt|]). apply Forall_app.
  split; [done|]. apply Forall_singleton, plain_fwmark, Hm.
Qed.

Lemma peer_fields_plain p : peer_ok p -> Forall plain (peer_fields p).
Proof.
  intros [P1 [P2 _] [P3 _] Hips _ _ _ (k & Hk & Hs) _]. unfold peer_fields. rewrite (keepalive_field p k Hs).
  do 3 (constructor; [auto using plain_or_none|]). constructor.
  - apply plain_or_none, plain_Join; [apply (bool_decide_unpack _); by vm_compute|].
    eapply Forall_impl; [exact Hips|]. naive_solver.
  - do 3 (constructor; [apply plain_FormatInt|]). constructor; [|constructor].
    by apply plain_keepalive.
Qed.

Lemma parse_interface_row_print Quote num_error ir params :
  iface_ok ir params -> parse_interface_row Quote num_error (interface_row ir params) = Ok ir.
Proof.
  intros Hok. destruct (Hok) as [[_ N1] [_ N2] Hport _ Hm _]. unfold parse_interface_row, interface_row.
  destruct (row_fields (interface_fields ir params)) as [-> _]; [done|by apply interface_fields_plain|].
  unfold interface_fields.
  destruct (params ++ [show_fwmark (ir_FwMark ir)]) as [|x more] eqn:E; [by destruct params|]. rewrite <- E.
  unfold Atoi. rewrite ParseInt10_FormatInt by done. rewrite List.last_last, parse_fwmark_show by done. cbn [mbind result_bind].
  rewrite !noneToEmpty_or_none by done. by destruct ir.
Qed.

Lemma parse_handshake_print t :
  match t with Some t => 0 < t <= max_int64 | None => True end -> parse_handshake (FormatInt (default 0 t)) = t.
Proof.
  intros Ht. unfold parse_handshake. rewrite ParseInt10_FormatInt
    by (destruct t; cbn; unfold in_int64, min_int64, max_int64 in *; lia).
  destruct t as [t|]; [|done]. cbn. by rewrite (proj2 (Z.ltb_lt _ _)) by lia.
Qed.

Lemma parse_peer_row_print Quote num_error p :
  peer_ok p -> parse_peer_row Quote num_error (peer_row p) = Ok p.
Proof.
  intros Hok. destruct (Hok) as [_ [_ N2] [_ N3] Hips Hh Hrx Htx (k & Hk & Hs) _]. unfold parse_peer_row, peer_row.
  destruct (row_fields (peer_fields p)) as [-> _]; [done|by apply peer_fields_plain|]. unfold peer_fields.
  rewrite !ParseInt10_FormatInt, (keepalive_field p k Hs), (parse_keepalive_show num_error p k) by done.
  cbn [mbind result_bind fst snd]. rewrite !noneToEmpty_or_none, splitAllowedIPs_Join, parse_handshake_print by done.
  by destruct p.
Qed.

Lemma row_not_empty l : (1 < length l)%nat -> Join l [tab] <> [].
Proof. destruct l as [|x [|y l]]; simpl; [lia|lia|]. intros _ E. by destruct x. Qed.

Lemma dump_loop_peers Quote num_error ir ps qs :
  Forall peer_ok qs ->
  dump_loop Quote num_error (Some ir) ps (peer_row <$> qs) false = Ok (ir, ps ++ qs).
Proof.
  intros H. revert ps. induction H as [|q qs Hq _ IH]; intros ps; [cbn; by rewrite app_nil_r|].
  rewrite fmap_cons. cbn [dump_loop].
  rewrite bool_decide_eq_false_2 by (apply row_not_empty; simpl; lia).
  rewrite parse_peer_row_print by done. cbn [mbind result_bind]. rewrite IH. by rewrite <- app_assoc.
Qed.

Lemma rows_lines ir params peers :
  iface_ok ir params -> Forall peer_ok peers ->
  Forall (fun l => nl ∉ l) (interface_row ir params :: (peer_row <$> peers))
  /\ Forall (fun l => (cr ∉ l) /\ short l) (interface_row ir params :: (peer_row <$> peers)).
Proof.
  intros Hi Hp.
  destruct (row_fields (interface_fields ir params)) as (_ & Hn & Hc); [done|by apply interface_fields_plain|].
  assert (Hrows : Forall (fun p => (nl ∉ peer_row p) /\ (cr ∉ peer_row p) /\ short (peer_row p)) peers).
  { eapply Forall_impl; [exact Hp|]. intros p Hok.
    destruct (row_fields (peer_fields p)) as (_ & ? & ?); [done|by apply peer_fields_plain|].
    split_and!; [done..|apply Hok]. }
  apply Forall_and in Hrows as [Hr1 Hr2].
  split; constructor; try (by apply Forall_fmap); [done|]. split; [done|apply Hi].
Qed.

(** ** Theorems *)

(** Parsing what the tools print. *)
Lemma parse_show_dump Quote num_error ir params peers :
  iface_ok ir params -> Forall peer_ok peers ->
  ParseShowDump Quote num_error (show_dump ir params peers) = Ok (ir, peers).
Proof.
  intros Hi Hp. destruct (rows_lines ir params peers Hi Hp) as [Hn Hc].
  unfold ParseShowDump, ScanLines, show_dump. rewrite Split_unlines, scan_pieces_lines by done. cbn [dump_loop].
  rewrite bool_decide_eq_false_2 by (apply row_not_empty; unfold interface_fields; simpl; lia).
  rewrite parse_interface_row_print by done. cbn [mbind result_bind]. by rewrite dump_loop_peers.
Qed.

(** C32: (Dump round trip.) A dump in the documented format - an interface row with
    any number of protocol parameters between the port and the mark, then one row
    per peer, empty fields written "(none)" - is parsed back to exactly the interface
    and the peers it shows: keys, port, the mark from its hexadecimal text, handshakes,
    counters, keepalive seconds and ranges, whatever version of the tools printed it,
    as long as no field holds a separator or the word "(none)" and no line exceeds the
    scanner's megabyte. *)
Theorem ParseShowDump_show Quote num_error ir params peers :
  iface_ok ir params -> Forall peer_ok peers ->
  ParseShowDump Quote num_error (show_dump ir params peers) = Ok (ir, peers).
Proof. apply parse_show_dump. Qed.

Definition demo_runtime_peer : PeerRuntime :=
  mkPeerRuntime #"pk1=" #"psk=" #"203.0.113.5:51820" [ #"10.0.0.2/32"; #"fd00::2/128" ] (Some 1700000000) 12 34 0 #"25-35".
Definition demo_runtime_iface : InterfaceRuntime := mkInterfaceRuntime #"priv=" #"pub=" 51820 16.

Lemma demo_dump_ok : iface_ok demo_runtime_iface [ #"5"; #"10"; #"50" ] /\ peer_ok demo_runtime_peer.
Proof.
  assert (exists k, keepalive_ok k /\ says demo_runtime_peer k) as Hk by (exists (KeepaliveBetween 25 35); by vm_compute).
  split; constructor; try exact Hk; first [by vm_compute | apply (bool_decide_unpack _); by vm_compute].
Qed.

Lemma ParseShowDump_show_witness :
  ParseShowDump (fun b => b) (fun _ b => b)
    (show_dump demo_runtime_iface [ #"5"; #"10"; #"50" ] [demo_runtime_peer])
  = Ok (demo_runtime_iface, [demo_runtime_peer]).
Proof.
  apply (ParseShowDump_show (fun b => b) (fun _ b => b)).
  - exact (proj1 demo_dump_ok).
  - constructor; [exact (proj2 demo_dump_ok)|constructor].
Defined.

(** What a successful parse guarantees of one peer. *)
Record peer_bounds (p : PeerRuntime) : Prop := {
  pb_rx : in_int64 (pr_RxBytes p);
  pb_tx : in_int64 (pr_TxBytes p);
  pb_secs : in_int64 (pr_KeepaliveSecs p);
  pb_handshake t : pr_LastHandshake p = Some t -> 0 < t <= max_int64;
  pb_range a b : pr_KeepaliveRange p = a ++ #"-" ++ b ->
    exists lo hi, Split (pr_KeepaliveRange p) "-"%char = [a; b] /\ ParseUint10 a 16 = Some lo
      /\ ParseUint10 b 16 = Some hi /\ 0 <= lo <= hi /\ hi < 65536 /\ pr_KeepaliveSecs p = 0;
  pb_ips : Forall (fun a => a <> []) (pr_AllowedIPs p) }.

Lemma ParseUint10_range s bits v : ParseUint10 s bits = Some v -> 0 <= v < 2 ^ bits.
Proof.
  unfold ParseUint10, parse_udec. destruct s as [|c s]; [done|].
  destruct (parse_digits 0 (c :: s)) as [w|] eqn:E; cbn [mbind option_bind]; [|done].
  case_match; intros; simplify_eq. bool_to_prop. split; [|done]. by eapply parse_digits_nonneg; [|exact E].
Qed.

Lemma Split_two s c a b : Split s c = [a; b] -> s = a ++ [c] ++ b.
Proof. intros E. rewrite <- (Join_Split s c), E. done. Qed.

Lemma separator_unique (c : ascii) x y a b : c ∉ x -> c ∉ y -> a ++ [c] ++ b = x ++ [c] ++ y -> a = x /\ b = y.
Proof.
  intros Hx Hy. revert a. induction x as [|d x IH]; intros [|e a] H; simplify_eq/=.
  - done.
  - destruct Hy. set_solver.
  - destruct Hx. set_solver.
  - destruct (IH ltac:(set_solver) a) as [-> ->]; done.
Qed.

Lemma parse_keepalive_bounds num_error f secs range :
  parse_keepalive num_error f = Ok (secs, range) ->
  in_int64 secs /\ forall a b, range = a ++ #"-" ++ b ->
    exists lo hi, Split range "-"%char = [a; b] /\ ParseUint10 a 16 = Some lo
      /\ ParseUint10 b 16 = Some hi /\ 0 <= lo <= hi /\ hi < 65536 /\ secs = 0.
Proof.
  unfold parse_keepalive. destruct (_ || _) eqn:E0.
  { intros [= <- <-]. split; [by vm_compute|]. intros a b He.
    apply (f_equal length) in He. rewrite !length_app in He. change (length #"-") with 1%nat in He. simpl in He. lia. }
  destruct (Contains f #"-") eqn:Ec; cbn [negb].
  - destruct (validateUint16RangeText num_error f) as [[]|] eqn:Ev; [|done]. intros [= <- <-]. split; [by vm_compute|].
    unfold validateUint16RangeText in Ev.
    destruct (Split f "-"%char) as [|x [|y [|? ?]]] eqn:Es; try done.
    destruct (ParseUint10 x 16) as [lo|] eqn:Ex; [|done]. destruct (ParseUint10 y 16) as [hi|] eqn:Ey; [|done].
    destruct (hi <? lo) eqn:El; [done|]. bool_to_prop. intros a b He. subst f.
    pose proof (Split_pieces (a ++ #"-" ++ b) "-"%char) as Hp. rewrite Es in Hp.
    pose proof (Split_two _ _ _ _ Es) as Hxy.
    assert (a = x /\ b = y) as [-> ->].
    { inversion_clear Hp as [|? ? Hx Hp']. inversion_clear Hp' as [|? ? Hy _].
      by apply (separator_unique "-"%char). }
    pose proof (ParseUint10_range _ _ _ Ex). pose proof (ParseUint10_range _ _ _ Ey).
    exists lo, hi. change (2 ^ 16) with 65536 in *. split_and!; try done; lia.
  - destruct (Atoi f) as [ka|] eqn:Ea; [|done]. intros [= <- <-]. split; [by apply ParseInt10_range in Ea|].
    intros a b ->. by rewrite (Contains_dash a b : Contains (a ++ #"-" ++ b) #"-" = true) in Ec.
Qed.

Lemma splitAllowedIPs_nonempty s : Forall (fun a => a <> []) (splitAllowedIPs s).
Proof.
  unfold splitAllowedIPs. case_match; [constructor|]. apply Forall_forall. intros a Ha.
  by apply list_elem_of_filter in Ha as [Ha _].
Qed.

Lemma parse_peer_row_bounds Quote num_error line p :
  parse_peer_row Quote num_error line = Ok p -> peer_bounds p.
Proof.
  unfold parse_peer_row.
  destruct (Split line tab) as [|pub [|psk [|ep [|ips [|hs [|rxf [|txf [|ka rest]]]]]]]]; try done.
  destruct (ParseInt10 rxf) as [rx|] eqn:Er; [|done]. destruct (ParseInt10 txf) as [tx|] eqn:Et; [|done].
  destruct (parse_keepalive num_error ka) as [[secs range]|] eqn:Ek; [|done]. intros [= <-].
  apply ParseInt10_range in Er, Et. apply parse_keepalive_bounds in Ek as [Hs Hr].
  constructor; cbn; try done; [|apply splitAllowedIPs_nonempty].
  intros t. unfold parse_handshake. destruct (ParseInt10 hs) as [ts|] eqn:Eh; [|done]. case_match; [|done].
  intros [= <-]. bool_to_prop. apply ParseInt10_range in Eh as [? ?]. done.
Qed.

Lemma dump_loop_inv Quote num_error (P : InterfaceRuntime -> Prop) iface peers tokens err ir ps :
  (forall line i, parse_interface_row Quote num_error line = Ok i -> P i) ->
  P (default (mkInterfaceRuntime [] [] 0 0) iface) -> Forall peer_bounds peers ->
  dump_loop Quote num_error iface peers tokens err = Ok (ir, ps) -> P ir /\ Forall peer_bounds ps.
Proof.
  intros HP. revert iface peers. induction tokens as [|line tokens IH]; intros iface peers Hi Hp; cbn [dump_loop].
  { destruct err; [done|]. by intros [= <- <-]. }
  case_bool_decide; [by apply IH|]. destruct iface as [i|].
  - destruct (parse_peer_row _ _ line) as [p|] eqn:E; [|done]. cbn. apply IH; [done|].
    apply Forall_app. split; [done|]. apply Forall_singleton. by eapply parse_peer_row_bounds.
  - destruct (parse_interface_row _ _ line) as [i|] eqn:E; [|done]. cbn. apply IH; [by eapply HP|done].
Qed.

(** (Numbers of a parsed dump.) Whatever text is parsed, an accepted dump has
    its port, mark, counters and keepalive seconds in the 64-bit range of Go's
    [int]; handshakes are positive; a keepalive text with a dash is exactly two
    unsigned 16-bit numbers, the first not above the second, and leaves the
    seconds at zero; no allowed address is empty. *)
Theorem ParseShowDump_bounds Quote num_error s ir ps :
  ParseShowDump Quote num_error s = Ok (ir, ps) ->
  (in_int64 (ir_ListenPort ir) /\ in_int64 (ir_FwMark ir)) /\ Forall peer_bounds ps.
Proof.
  unfold ParseShowDump. destruct (ScanLines s) as [tokens err].
  apply (dump_loop_inv Quote num_error (fun i => in_int64 (ir_ListenPort i) /\ in_int64 (ir_FwMark i)));
    [|by vm_compute|done].
  intros line i. unfold parse_interface_row.
  destruct (Split line tab) as [|priv [|pub [|port [|m more]]]]; try done.
  destruct (Atoi port) as [pt|] eqn:Ep; [|done].
  destruct (parse_fwmark num_error _) as [fm|] eqn:Ef; [|done]. intros [= <-]. split; [by apply ParseInt10_range in Ep|].
  unfold parse_fwmark in Ef. destruct (ParseInt0 _) eqn:E0; [|by case_bool_decide; simplify_eq].
  simplify_eq. by apply ParseInt0_range in E0.
Qed.

Lemma ParseShowDump_bounds_witness :
  peer_bounds demo_runtime_peer.
Proof.
  destruct (ParseShowDump_bounds (fun b => b) (fun _ b => b)
    (show_dump demo_runtime_iface [ #"5"; #"10"; #"50" ] [demo_runtime_peer])
    demo_runtime_iface [demo_runtime_peer]) as [_ H].
  - vm_compute. reflexivity.
  - inversion H. assumption.
Defined.

(** Every rejection but that of an over-long line names what was invalid. *)
Lemma ParseShowDump_error Quote num_error s e :
  ParseShowDump Quote num_error s = Err e -> e = ErrTooLong \/ (HasPrefix (err_Error e) #"invalid " = true
    /\ forall x, errors_Is e x = false).
Proof.
  unfold ParseShowDump. destruct (ScanLines s) as [tokens err].
  generalize (@nil PeerRuntime) as peers. generalize (@None InterfaceRuntime) as iface.
  induction tokens as [|line tokens IH]; intros iface peers; cbn [dump_loop].
  { destruct err; [|done]. intros [= <-]. by left. }
  case_bool_decide; [apply IH|]. destruct iface as [i|].
  - destruct (parse_peer_row _ _ line) as [p|e'] eqn:E; [apply IH|]. intros [= <-]. right. revert E. clear.
    unfold parse_peer_row.
    destruct (Split line tab) as [|pub [|psk [|ep [|ips [|hs [|rxf [|txf [|ka rest]]]]]]]];
      try by intros [= <-].
    destruct (ParseInt10 rxf); [|by intros [= <-]]. destruct (ParseInt10 txf); [|by intros [= <-]].
    destruct (parse_keepalive num_error ka) as [?|e''] eqn:Ek; [done|]. intros [= <-]. revert Ek. clear.
    unfold parse_keepalive. destruct (_ || _); [done|]. destruct (negb _).
    { destruct (Atoi ka); [done|]. by intros [= <-]. }
    unfold validateUint16RangeText. intros. split_matches.
  - destruct (parse_interface_row _ _ line) as [i|e'] eqn:E; [apply IH|]. intros [= <-]. right. revert E. clear.
    unfold parse_interface_row.
    destruct (Split line tab) as [|priv [|pub [|port [|m more]]]]; try by intros [= <-].
    destruct (Atoi port); [|by intros [= <-]]. unfold parse_fwmark. destruct (ParseInt0 _); [done|].
    case_bool_decide; [done|]. by intros [= <-].
Qed.

(** (A null field is taken literally.) The comment of [ParseShowDump] says that
    upstream tools report empty fields as "(none)" or "(null)"; only "(none)" is
    read as empty, a preshared key reported as "(null)" becomes the key text
    "(null)". *)
Theorem ParseShowDump_null Quote num_error :
  let row psk := Join [ #"pk="; psk; #"(none)"; #"(none)"; #"0"; #"0"; #"0"; #"off" ] [tab] in
  let head := Join [ #"priv="; #"pub="; #"51820"; #"off" ] [tab] in
  let runtime psk := mkPeerRuntime #"pk=" psk [] [] None 0 0 0 [] in
  ParseShowDump Quote num_error (unlines [head; row #"(none)"])
    = Ok (mkInterfaceRuntime #"priv=" #"pub=" 51820 0, [runtime []])
  /\ ParseShowDump Quote num_error (unlines [head; row #"(null)"])
    = Ok (mkInterfaceRuntime #"priv=" #"pub=" 51820 0, [runtime #"(null)"]).
Proof. split; vm_compute; reflexivity. Qed.
