(* ===== verification/CliExecutor.v ===== *)
(** * CliExecutor: driving a Linux host with amneziawg-tools ([awg/cli_linux.go])

    The executor's world is the file system, the host that the external commands
    act on and the list of the commands run.  A command is a parameter [proc]: it
    sees the files and the host, and yields its two outputs, its error and the new
    host.  Every method of the executor is here, with its temporary files. *)

From S2P Require Import Prelude GoStrings Strconv Errors Effects Files AwgConfig Executor Dump.

Record CLIExecutor : Type := mkCLI {
  AwgBinary : bytes;
  AwgQuickBinary : bytes;
  RenderedDir : bytes;
  BootstrapConfigDir : bytes }.

Definition NewCLIExecutor : CLIExecutor :=
  mkCLI #"awg" #"awg-quick" #"/etc/amnezia/rendered" #"/etc/amnezia/bootstrap".

Definition bootstrapConfigDir (c : CLIExecutor) : bytes :=
  if bool_decide (BootstrapConfigDir c = []) then #"/etc/amnezia/bootstrap" else BootstrapConfigDir c.

(** The loop adds a comma before every element but the first. *)
Fixpoint joinCSV_loop (first : bool) (out : bytes) (xs : list bytes) : bytes :=
  match xs with
  | [] => out
  | x :: xs => joinCSV_loop false ((if first then out else out ++ #",") ++ x) xs
  end.
Definition joinCSV (xs : list bytes) : bytes := joinCSV_loop true [] xs.

(** ** The world *)

Record OS (W : Type) : Type := mkOS { os_fs : FS; os_host : W; os_log : list (bytes * list bytes) }.
Arguments mkOS {W}.
Arguments os_fs {W}.
Arguments os_host {W}.
Arguments os_log {W}.

(** What a finished command leaves: standard output, standard error, its error. *)
Record exit : Type := mkExit { x_stdout : bytes; x_stderr : bytes; x_err : option error }.

Definition on_fs {W A} (m : SE FS A) : SE (OS W) A :=
  fun s => let '(r, fs) := m (os_fs s) in (r, mkOS fs (os_host s) (os_log s)).

Section cli.
Context {W : Type} {env : FileEnv}.
Context (proc : context -> bytes -> list bytes -> gmap bytes file -> W -> exit * W).
Context (Quote : bytes -> bytes) (num_error : bytes -> bytes -> bytes) (c : CLIExecutor).

(** [defer os.Remove(name)] *)
Definition removing {A} (name : bytes) (m : SE (OS W) A) : SE (OS W) A := defer (ignored (on_fs (Remove name))) m.

(** [cmd.Run] with the two outputs going to files. *)
Definition spawn (ctx : context) (name : bytes) (args : list bytes) (out err : bytes) : SE (OS W) (option error) :=
  fun s =>
    let '(x, h) := proc ctx name args (fs_files (os_fs s)) (os_host s) in
    (Ok (x_err x),
     mkOS (mkFS (<[err := mkFile (x_stderr x) mode_private]> (<[out := mkFile (x_stdout x) mode_private]> (fs_files (os_fs s))))
             (fs_step (os_fs s)))
       h (os_log s ++ [(name, args)])).

(** The outputs are files of the temporary directory, removed on return. *)
Definition run (ctx : context) (name : bytes) (args : list bytes) : SE (OS W) (bytes * bytes) :=
  out ← on_fs (CreateTemp [] #"awg-stdout-" []);
  removing out (
    f ← attempt (on_fs (CreateTemp [] #"awg-stderr-" []));
    match f with
    | Err e => attempt (on_fs (Close out)) ;; fail e
    | Ok err =>
        removing err (
          runErr ← spawn ctx name args out err;
          attempt (on_fs (Close out)) ;;
          attempt (on_fs (Close err)) ;;
          stdout ← on_fs (ReadFile out);
          stderr ← on_fs (ReadFile err);
          match runErr with
          | Some e => fail (EWrap (#"awg: " ++ name ++ #" [" ++ Join args #" " ++ #"] failed: ") e
                              (#" (stderr=" ++ Quote stderr ++ #")"))
          | None => mret (stdout, stderr)
          end)
    end).

Definition validateInterfaceName (iface : bytes) : SE (OS W) unit :=
  if negb (ValidInterfaceName iface) then fail (EMsg (#"awg: invalid interface name " ++ Quote iface)) else mret tt.

(** The temporary file is removed on every failure but that of the rename. *)
Definition writeAtomic (path data : bytes) (mode : Z) : SE (OS W) unit :=
  let dir := path_Dir path in
  tmp ← on_fs (CreateTemp dir #".tmp-" []);
  w ← attempt (on_fs (WriteString tmp data));
  match w with
  | Err e => attempt (on_fs (Close tmp)) ;; attempt (on_fs (Remove tmp)) ;; fail e
  | Ok _ =>
      m ← attempt (on_fs (Chmod tmp mode));
      match m with
      | Err e => attempt (on_fs (Close tmp)) ;; attempt (on_fs (Remove tmp)) ;; fail e
      | Ok _ =>
          cl ← attempt (on_fs (Close tmp));
          match cl with
          | Err e => attempt (on_fs (Remove tmp)) ;; fail e
          | Ok _ => on_fs (Rename tmp path)
          end
      end
  end.

Definition preservePrivateKey (ctx : context) (iface config : bytes) : SE (OS W) bytes :=
  let from_bootstrap config :=
    b ← attempt (on_fs (ReadFile (path_Join (bootstrapConfigDir c) (iface ++ #".conf"))));
    match b with
    | Ok b => mret (PreserveInterfacePrivateKey config b)
    | Err _ => mret config
    end in
  if negb (bool_decide (InterfaceValue config #"PrivateKey" = [])) then mret config
  else
    shown ← attempt (run ctx (AwgBinary c) [ #"showconf"; iface ]);
    match shown with
    | Ok (current, _) =>
        let config := PreserveInterfacePrivateKey config current in
        if negb (bool_decide (InterfaceValue config #"PrivateKey" = [])) then mret config
        else from_bootstrap config
    | Err _ => from_bootstrap config
    end.

(** A temporary file holding [data]: closed also when the write failed. *)
Definition fill_temp (name data : bytes) : SE (OS W) unit :=
  w ← attempt (on_fs (WriteString name data));
  match w with
  | Err e => attempt (on_fs (Close name)) ;; fail e
  | Ok _ => on_fs (Close name)
  end.

Definition cli_SyncConf (ctx : context) (iface config : bytes) : SE (OS W) unit :=
  validateInterfaceName iface ;;
  config ← preservePrivateKey ctx iface config;
  wrapping #"rendered dir: " (on_fs (MkdirAll (RenderedDir c))) ;;
  let path := path_Join (RenderedDir c) (iface ++ #".conf") in
  writeAtomic path config mode_private ;;
  stripped ← run ctx (AwgQuickBinary c) [ #"strip"; path ];
  let stripped := sanitizeSyncConf (fst stripped) in
  tmp ← on_fs (CreateTemp (RenderedDir c) (iface ++ #"-stripped-") #".conf");
  removing tmp (
    fill_temp tmp stripped ;;
    run ctx (AwgBinary c) [ #"syncconf"; iface; tmp ] ;; mret tt).

(** The arguments after the preshared key's. *)
Definition set_args (p : PeerSpec) : list bytes :=
  (if bool_decide (ps_AllowedIPs p = []) then [] else [ #"allowed-ips"; joinCSV (ps_AllowedIPs p) ])
  ++ (if bool_decide (ps_Endpoint p = []) then [] else [ #"endpoint"; ps_Endpoint p ])
  ++ (if 0 <? ps_KeepaliveSecs p then [ #"persistent-keepalive"; FormatInt (ps_KeepaliveSecs p) ] else []).

Definition cli_SetPeer (ctx : context) (iface : bytes) (p : PeerSpec) : SE (OS W) unit :=
  validateInterfaceName iface ;;
  let args := [ #"set"; iface; #"peer"; ps_PublicKey p ] in
  if bool_decide (ps_PresharedKey p = [])
  then run ctx (AwgBinary c) (args ++ set_args p) ;; mret tt
  else
    f ← on_fs (CreateTemp [] #"awg-psk-" []);
    removing f (
      fill_temp f (ps_PresharedKey p) ;;
      run ctx (AwgBinary c) (args ++ [ #"preshared-key"; f ] ++ set_args p) ;; mret tt).

Definition cli_RemovePeer (ctx : context) (iface publicKey : bytes) : SE (OS W) unit :=
  validateInterfaceName iface ;;
  run ctx (AwgBinary c) [ #"set"; iface; #"peer"; publicKey; #"remove" ] ;; mret tt.

Definition cli_ShowDump (ctx : context) (iface : bytes) : SE (OS W) (InterfaceRuntime * list PeerRuntime) :=
  validateInterfaceName iface ;;
  out ← run ctx (AwgBinary c) [ #"show"; iface; #"dump" ];
  of_result (ParseShowDump Quote num_error (fst out)).

Definition cli_ShowConf (ctx : context) (iface : bytes) : SE (OS W) bytes :=
  validateInterfaceName iface ;;
  out ← run ctx (AwgBinary c) [ #"showconf"; iface ];
  mret (fst out).

Definition cli_InterfaceUp (ctx : context) (iface configPath : bytes) : SE (OS W) unit :=
  validateInterfaceName iface ;;
  link ← attempt (run ctx #"ip" [ #"link"; #"show"; iface ]);
  match link with
  | Ok _ => mret tt
  | Err _ =>
      let configPath := if bool_decide (configPath = []) then path_Join (bootstrapConfigDir c) (iface ++ #".conf")
                        else configPath in
      run ctx (AwgQuickBinary c) [ #"up"; configPath ] ;; mret tt
  end.

Definition cli_InterfaceDown (ctx : context) (iface : bytes) : SE (OS W) unit :=
  validateInterfaceName iface ;;
  link ← attempt (run ctx #"ip" [ #"link"; #"show"; iface ]);
  match link with
  | Err _ => mret tt
  | Ok _ => run ctx (AwgQuickBinary c) [ #"down"; iface ] ;; mret tt
  end.

#[export] Instance CliExecutor : Executor (OS W) := {
  SyncConf := cli_SyncConf;
  SetPeer := cli_SetPeer;
  RemovePeer := cli_RemovePeer;
  ShowDump := cli_ShowDump;
  ShowConf := cli_ShowConf;
  InterfaceUp := cli_InterfaceUp;
  InterfaceDown := cli_InterfaceDown }.
End cli.

(** ** Other platforms ([awg/cli_other.go]) *)

Definition not_implemented {W A} : W -> result error A * W := fun w => (Err (ESentinel ErrNotImplemented), w).

Definition StubExecutor (W : Type) : Executor W := {|
  SyncConf := fun _ _ _ => not_implemented;
  SetPeer := fun _ _ _ => not_implemented;
  RemovePeer := fun _ _ _ => not_implemented;
  ShowDump := fun _ _ => not_implemented;
  ShowConf := fun _ _ => not_implemented;
  InterfaceUp := fun _ _ _ => not_implemented;
  InterfaceDown := fun _ _ => not_implemented |}.
