(* ===== verification/FakeExecutor.v ===== *)
(** * FakeExecutor: the in-memory AmneziaWG host ([awg/fake.go])

    State, operations and the config parser of [FakeExecutor], proved to be an
    [Executor] that keeps the interface's laws, and the round trip from the
    rendered server config to the peers the fake host ends up with. *)

From S2P Require Import Prelude GoStrings Strconv Sorting Errors Profile AwgConfig Render Executor.

(** ** Model *)

Record fakeIface : Type := mkFakeIface {
  fi_priv : bytes;
  fi_pub : bytes;
  fi_listenPort : Z;
  fi_rendered : bytes;
  fi_peers : gmap bytes PeerRuntime }.

Record FakeExecutor : Type := mkFake {
  fe_interfaces : gmap bytes fakeIface;
  fe_bootstraps : gmap bytes fakeIface;
  fe_FailSyncConf : option error;
  fe_FailSetPeer : option error;
  fe_FailRemovePeer : option error;
  fe_FailShowDump : option error;
  fe_FailShowConf : option error;
  fe_FailInterfaceUp : option error }.

Definition NewFakeExecutor : FakeExecutor := mkFake ∅ ∅ None None None None None None.

(** *** Text helpers *)

Fixpoint fmtScan_aux (dst : Z) (s : bytes) : Z * bool :=
  match s with
  | [] => (dst, true)
  | ch :: s =>
      if (code ch <? 48) || (57 <? code ch) then (dst, false)
      else fmtScan_aux (wrap_int64 (dst * 10 + (code ch - 48))) s
  end.

(** The value left in [*dst]; every caller ignores the error. *)
Definition fmtScan (s : bytes) : Z := fst (fmtScan_aux 0 s).

(** The loop of [itoa]; [i /= 10] ends it within 19 turns for a 64-bit [int]. *)
Fixpoint itoa_loop (fuel : nat) (i : Z) (buf : bytes) : bytes :=
  match fuel with
  | O => buf
  | S fuel => if 0 <? i then itoa_loop fuel (i / 10) (digit_byte (i mod 10) :: buf) else buf
  end.

Definition itoa (i : Z) : bytes := if i =? 0 then #"0" else itoa_loop 20 i [].

Definition splitCSV (s : bytes) : list bytes :=
  filter (fun p => p <> []) (TrimSpace <$> Split s ","%char).

(** *** The config parser *)

Record parsedConfig : Type := mkParsed { pc_iface : InterfaceRuntime; pc_peers : list PeerSpec }.

Definition empty_spec : PeerSpec := mkPeerSpec [] [] [] [] 0.

(** The parser's variables: result, section, current peer. *)
Record parse_state : Type := mkPS { st_pc : parsedConfig; st_section : bytes; st_cur : PeerSpec }.

Definition flush (st : parse_state) : parse_state :=
  let pc := st_pc st in
  let pc := if bool_decide (st_section st = #"Peer") && negb (bool_decide (ps_PublicKey (st_cur st) = []))
            then mkParsed (pc_iface pc) (pc_peers pc ++ [st_cur st]) else pc in
  mkPS pc (st_section st) empty_spec.

Definition set_interface (ir : InterfaceRuntime) (k v : bytes) : InterfaceRuntime :=
  let k := ToLower k in
  if bool_decide (k = #"privatekey")
  then mkInterfaceRuntime v (ir_PublicKey ir) (ir_ListenPort ir) (ir_FwMark ir)
  else if bool_decide (k = #"listenport")
  then mkInterfaceRuntime (ir_PrivateKey ir) (ir_PublicKey ir) (fmtScan v) (ir_FwMark ir)
  else ir.

Definition set_peer (p : PeerSpec) (k v : bytes) : PeerSpec :=
  let '(mkPeerSpec pub psk ips ep ka) := p in
  let k := ToLower k in
  if bool_decide (k = #"publickey") then mkPeerSpec v psk ips ep ka
  else if bool_decide (k = #"presharedkey") then mkPeerSpec pub v ips ep ka
  else if bool_decide (k = #"allowedips") then mkPeerSpec pub psk (splitCSV v) ep ka
  else if bool_decide (k = #"endpoint") then mkPeerSpec pub psk ips v ka
  else if bool_decide (k = #"persistentkeepalive") then mkPeerSpec pub psk ips ep (fmtScan v)
  else p.

Definition parse_step (st : parse_state) (raw : bytes) : parse_state :=
  let line := TrimSpace raw in
  if skipped line then st
  else if bracketed line then
    let st := flush st in mkPS (st_pc st) (Trim line #"[]") (st_cur st)
  else match Cut line "="%char with
       | None => st
       | Some (k, v) =>
           let k := TrimSpace k in
           let v := TrimSpace v in
           if bool_decide (st_section st = #"Interface") then
             mkPS (mkParsed (set_interface (pc_iface (st_pc st)) k v) (pc_peers (st_pc st)))
                  (st_section st) (st_cur st)
           else if bool_decide (st_section st = #"Peer") then
             mkPS (st_pc st) (st_section st) (set_peer (st_cur st) k v)
           else st
       end.

Definition empty_runtime : InterfaceRuntime := mkInterfaceRuntime [] [] 0 0.
Definition parse_init : parse_state := mkPS (mkParsed empty_runtime []) [] empty_spec.

(** The code's error result is always nil. *)
Definition parseRenderedConfig (s : bytes) : parsedConfig :=
  st_pc (flush (fold_left parse_step (Split s nl) parse_init)).

(** *** Operations *)

Definition cloneIface (i : fakeIface) : fakeIface :=
  mkFakeIface (fi_priv i) (fi_pub i) (fi_listenPort i) (fi_rendered i) (fi_peers i).

Definition with_interfaces (f : FakeExecutor) (m : gmap bytes fakeIface) : FakeExecutor :=
  mkFake m (fe_bootstraps f) (fe_FailSyncConf f) (fe_FailSetPeer f) (fe_FailRemovePeer f)
    (fe_FailShowDump f) (fe_FailShowConf f) (fe_FailInterfaceUp f).
Definition with_bootstraps (f : FakeExecutor) (m : gmap bytes fakeIface) : FakeExecutor :=
  mkFake (fe_interfaces f) m (fe_FailSyncConf f) (fe_FailSetPeer f) (fe_FailRemovePeer f)
    (fe_FailShowDump f) (fe_FailShowConf f) (fe_FailInterfaceUp f).

Definition Provision (iface priv pub : bytes) (port : Z) (f : FakeExecutor) : FakeExecutor :=
  let ifc := mkFakeIface priv pub port
    (#"[Interface]" ++ [nl] ++ #"PrivateKey = " ++ priv ++ [nl] ++ #"ListenPort = " ++ itoa port ++ [nl]) ∅ in
  with_bootstraps (with_interfaces f (<[iface := ifc]> (fe_interfaces f)))
    (<[iface := cloneIface ifc]> (fe_bootstraps f)).

Definition runtime_less (p q : PeerRuntime) : bool := bytes_ltb (pr_PublicKey p) (pr_PublicKey q).

(** The peers of an interface, sorted by public key. *)
Definition peer_list (i : fakeIface) : list PeerRuntime :=
  sort_Slice runtime_less (snd <$> map_to_list (fi_peers i)).

Definition Snapshot (iface : bytes) (f : FakeExecutor) : list PeerRuntime :=
  match fe_interfaces f !! iface with None => [] | Some ifc => peer_list ifc end.

Definition not_found (iface : bytes) : error := EMsg (#"awg: interface not found: " ++ iface).

(** The runtime entry [SyncConf] builds for a parsed peer. *)
Definition sync_peer (old : gmap bytes PeerRuntime) (p : PeerSpec) : PeerRuntime :=
  let existing := old !! ps_PublicKey p in
  mkPeerRuntime (ps_PublicKey p) (ps_PresharedKey p) (ps_Endpoint p) (ps_AllowedIPs p)
    (existing ≫= pr_LastHandshake)
    (match existing with Some e => pr_RxBytes e | None => 0 end)
    (match existing with Some e => pr_TxBytes e | None => 0 end)
    (ps_KeepaliveSecs p) [].

Definition sync_peers (old : gmap bytes PeerRuntime) (ps : list PeerSpec) : gmap bytes PeerRuntime :=
  fold_left (fun next p => <[ps_PublicKey p := sync_peer old p]> next) ps ∅.

Definition sync_iface (ifc : fakeIface) (config : bytes) : fakeIface :=
  let parsed := parseRenderedConfig config in
  let priv := ir_PrivateKey (pc_iface parsed) in
  mkFakeIface priv
    (if bool_decide (priv = []) then []
     else if bool_decide (fi_pub ifc = []) then #"fake-public-" ++ priv else fi_pub ifc)
    (if ir_ListenPort (pc_iface parsed) =? 0 then fi_listenPort ifc else ir_ListenPort (pc_iface parsed))
    config
    (sync_peers (fi_peers ifc) (pc_peers parsed)).

Definition fake_SyncConf (ctx : context) (iface config : bytes) (f : FakeExecutor)
    : result error unit * FakeExecutor :=
  match ctx with
  | Some e => (Err e, f)
  | None =>
      match fe_FailSyncConf f with
      | Some e => (Err e, mkFake (fe_interfaces f) (fe_bootstraps f) None (fe_FailSetPeer f)
                            (fe_FailRemovePeer f) (fe_FailShowDump f) (fe_FailShowConf f) (fe_FailInterfaceUp f))
      | None =>
          match fe_interfaces f !! iface with
          | None => (Err (not_found iface), f)
          | Some ifc => (Ok tt, with_interfaces f (<[iface := sync_iface ifc config]> (fe_interfaces f)))
          end
      end
  end.

Definition set_iface_peers (i : fakeIface) (m : gmap bytes PeerRuntime) : fakeIface :=
  mkFakeIface (fi_priv i) (fi_pub i) (fi_listenPort i) (fi_rendered i) m.

Definition fake_SetPeer (ctx : context) (iface : bytes) (p : PeerSpec) (f : FakeExecutor)
    : result error unit * FakeExecutor :=
  match ctx with
  | Some e => (Err e, f)
  | None =>
      match fe_FailSetPeer f with
      | Some e => (Err e, mkFake (fe_interfaces f) (fe_bootstraps f) (fe_FailSyncConf f) None
                            (fe_FailRemovePeer f) (fe_FailShowDump f) (fe_FailShowConf f) (fe_FailInterfaceUp f))
      | None =>
          match fe_interfaces f !! iface with
          | None => (Err (not_found iface), f)
          | Some ifc =>
              let cur := match fi_peers ifc !! ps_PublicKey p with
                         | Some c => c
                         | None => mkPeerRuntime (ps_PublicKey p) [] [] [] None 0 0 0 []
                         end in
              let cur := mkPeerRuntime (pr_PublicKey cur) (ps_PresharedKey p) (ps_Endpoint p)
                           (ps_AllowedIPs p) (pr_LastHandshake cur) (pr_RxBytes cur) (pr_TxBytes cur)
                           (ps_KeepaliveSecs p) (pr_KeepaliveRange cur) in
              (Ok tt, with_interfaces f
                 (<[iface := set_iface_peers ifc (<[ps_PublicKey p := cur]> (fi_peers ifc))]> (fe_interfaces f)))
          end
      end
  end.

Definition fake_RemovePeer (ctx : context) (iface publicKey : bytes) (f : FakeExecutor)
    : result error unit * FakeExecutor :=
  match ctx with
  | Some e => (Err e, f)
  | None =>
      match fe_FailRemovePeer f with
      | Some e => (Err e, mkFake (fe_interfaces f) (fe_bootstraps f) (fe_FailSyncConf f) (fe_FailSetPeer f)
                            None (fe_FailShowDump f) (fe_FailShowConf f) (fe_FailInterfaceUp f))
      | None =>
          match fe_interfaces f !! iface with
          | None => (Ok tt, f)
          | Some ifc =>
              (Ok tt, with_interfaces f
                 (<[iface := set_iface_peers ifc (delete publicKey (fi_peers ifc))]> (fe_interfaces f)))
          end
      end
  end.

Definition fake_ShowDump (ctx : context) (iface : bytes) (f : FakeExecutor)
    : result error (InterfaceRuntime * list PeerRuntime) * FakeExecutor :=
  match ctx with
  | Some e => (Err e, f)
  | None =>
      match fe_FailShowDump f with
      | Some e => (Err e, mkFake (fe_interfaces f) (fe_bootstraps f) (fe_FailSyncConf f) (fe_FailSetPeer f)
                            (fe_FailRemovePeer f) None (fe_FailShowConf f) (fe_FailInterfaceUp f))
      | None =>
          match fe_interfaces f !! iface with
          | None => (Err (not_found iface), f)
          | Some ifc =>
              (Ok (mkInterfaceRuntime (fi_priv ifc) (fi_pub ifc) (fi_listenPort ifc) 0, peer_list ifc), f)
          end
      end
  end.

Definition fake_ShowConf (ctx : context) (iface : bytes) (f : FakeExecutor)
    : result error bytes * FakeExecutor :=
  match ctx with
  | Some e => (Err e, f)
  | None =>
      match fe_FailShowConf f with
      | Some e => (Err e, mkFake (fe_interfaces f) (fe_bootstraps f) (fe_FailSyncConf f) (fe_FailSetPeer f)
                            (fe_FailRemovePeer f) (fe_FailShowDump f) None (fe_FailInterfaceUp f))
      | None =>
          match fe_interfaces f !! iface with
          | None => (Err (not_found iface), f)
          | Some ifc => (Ok (fi_rendered ifc), f)
          end
      end
  end.

Section files.
(** [os.ReadFile]: [None] when it returns an error. *)
Context (readFile : bytes -> option bytes).

Definition restoreFromBootstrapLocked (iface configPath : bytes) (f : FakeExecutor) : option fakeIface :=
  match (if bool_decide (configPath = []) then None else readFile configPath) with
  | Some b =>
      let parsed := parseRenderedConfig b in
      let priv := ir_PrivateKey (pc_iface parsed) in
      Some (mkFakeIface priv (if bool_decide (priv = []) then [] else #"fake-public-" ++ priv)
              (ir_ListenPort (pc_iface parsed)) b ∅)
  | None => cloneIface <$> fe_bootstraps f !! iface
  end.

Definition fake_InterfaceUp (ctx : context) (iface configPath : bytes) (f : FakeExecutor)
    : result error unit * FakeExecutor :=
  match ctx with
  | Some e => (Err e, f)
  | None =>
      match fe_FailInterfaceUp f with
      | Some e => (Err e, mkFake (fe_interfaces f) (fe_bootstraps f) (fe_FailSyncConf f) (fe_FailSetPeer f)
                            (fe_FailRemovePeer f) (fe_FailShowDump f) (fe_FailShowConf f) None)
      | None =>
          match fe_interfaces f !! iface with
          | Some _ => (Ok tt, f)
          | None =>
              let ifc := default (mkFakeIface [] [] 0 [] ∅) (restoreFromBootstrapLocked iface configPath f) in
              (Ok tt, with_interfaces f (<[iface := ifc]> (fe_interfaces f)))
          end
      end
  end.
End files.

Definition fake_InterfaceDown (ctx : context) (iface : bytes) (f : FakeExecutor)
    : result error unit * FakeExecutor :=
  match ctx with
  | Some e => (Err e, f)
  | None =>
      match fe_interfaces f !! iface with
      | None => (Ok tt, f)
      | Some ifc =>
          (Ok tt, with_bootstraps (with_interfaces f (delete iface (fe_interfaces f)))
                    (<[iface := cloneIface ifc]> (fe_bootstraps f)))
      end
  end.

Definition SimulateHandshake (now : Z) (iface publicKey : bytes) (rx tx : Z) (f : FakeExecutor)
    : FakeExecutor :=
  match fe_interfaces f !! iface with
  | None => f
  | Some ifc =>
      match fi_peers ifc !! publicKey with
      | None => f
      | Some p =>
          let p := mkPeerRuntime (pr_PublicKey p) (pr_PresharedKey p) (pr_Endpoint p) (pr_AllowedIPs p)
                     (Some now) (wrap_int64 (pr_RxBytes p + rx)) (wrap_int64 (pr_TxBytes p + tx))
                     (pr_KeepaliveSecs p) (pr_KeepaliveRange p) in
          with_interfaces f (<[iface := set_iface_peers ifc (<[publicKey := p]> (fi_peers ifc))]> (fe_interfaces f))
      end
  end.

(** ** Numbers *)

Lemma fmtScan_digits s acc :
  Forall (fun c => 48 <= code c <= 57) s -> 0 <= acc ->
  forall v, parse_digits acc s = Some v -> v <= max_int64 -> fmtScan_aux acc s = (v, true).
Proof.
  intros Hs. revert acc. induction Hs as [|c s Hc Hs IH]; intros acc Ha v Hv Hm; simpl in *; [by simplify_eq|].
  unfold digit in Hv. rewrite (proj2 (Z.leb_le 48 _)), (proj2 (Z.leb_le _ 57)) in Hv by lia. simpl in Hv.
  rewrite (proj2 (Z.ltb_ge _ _)), (proj2 (Z.ltb_ge _ _)) by lia. simpl.
  assert (acc * 10 + (code c - 48) <= v) as Hle by (eapply parse_digits_le; [|exact Hv]; lia).
  rewrite wrap_int64_id by (unfold in_int64, min_int64, max_int64 in *; lia).
  apply IH; [lia|done|done].
Qed.

Lemma itoa_loop_udec f g i buf :
  0 < i < 10 ^ Z.of_nat f -> (Z.to_nat (Z.log2 i) < g)%nat ->
  itoa_loop f i buf = udec_aux g i buf.
Proof.
  revert g i buf. induction f as [|f IH]; intros g i buf Hi Hg; [simpl in Hi; lia|].
  destruct g as [|g]; [lia|]. cbn [itoa_loop udec_aux]. rewrite (proj2 (Z.ltb_lt _ _)) by lia.
  destruct (Z.eqb_spec (i / 10) 0) as [E|E].
  - rewrite E. by destruct f.
  - assert (10 <= i) as Hge by (apply Z.nlt_ge; intros ?; apply E, Z.div_small; lia).
    pose proof (log2_div10 i Hge). apply IH; [|lia].
    rewrite Nat2Z.inj_succ, Z.pow_succ_r in Hi by lia.
    split; [apply Z.div_str_pos; lia|]. apply Z.div_lt_upper_bound; lia.
Qed.

Lemma itoa_FormatInt n : 0 <= n <= max_int64 -> itoa n = FormatInt n.
Proof.
  intros Hn. unfold itoa, FormatInt. rewrite (proj2 (Z.ltb_ge n 0)) by lia.
  destruct (Z.eqb_spec n 0) as [->|Hne]; [done|].
  unfold format_udec. apply itoa_loop_udec; [|lia].
  unfold max_int64 in Hn. change (Z.of_nat 20) with 20. lia.
Qed.

Lemma fmtScan_FormatInt n : 0 <= n <= max_int64 -> fmtScan (FormatInt n) = n.
Proof.
  intros Hn. unfold fmtScan, FormatInt. rewrite (proj2 (Z.ltb_ge n 0)) by lia.
  destruct (format_udec_spec n) as (Hp & _ & Hd); [lia|].
  by rewrite (fmtScan_digits _ 0 Hd ltac:(lia) n Hp ltac:(lia)).
Qed.

(** ** Comma-separated lists *)

Lemma Split_cons_ne c s sep :
  c <> sep -> exists h t, Split s sep = h :: t /\ Split (c :: s) sep = (c :: h) :: t.
Proof.
  intros Hne. simpl. destruct (Ascii.eqb_spec c sep); [done|].
  destruct (Split s sep) as [|h t] eqn:E; [by apply Split_not_nil in E|]. by exists h, t.
Qed.

Lemma splitCSV_Join l : Forall item_ok l -> splitCSV (Join l #", ") = l.
Proof.
  intros Hl. unfold splitCSV. destruct l as [|x0 l0]; [done|].
  assert (Hgo : forall l x, Forall item_ok (x :: l) -> TrimSpace <$> Split (Join (x :: l) #", ") ","%char = x :: l).
  { clear. intros l. induction l as [|y l IH]; intros x Hx; inversion_clear Hx as [|? ? [[Hs _] Hc] Hr].
    - cbn [Join]. rewrite Split_absent by done. rewrite fmap_cons, fmap_nil. by rewrite TrimSpace_solid.
    - rewrite Join_cons by done. change (#", " ++ Join (y :: l) #", ") with (","%char :: " "%char :: Join (y :: l) #", ").
      rewrite Split_app by done. rewrite fmap_cons, TrimSpace_solid by done. f_equal.
      specialize (IH y Hr). destruct (Split_cons_ne " "%char (Join (y :: l) #", ") ","%char) as (h & t & E & ->); [done|].
      rewrite E in IH. rewrite fmap_cons in *. by rewrite TrimSpace_cons. }
  rewrite Hgo by done. apply filter_keeps_all. eapply Forall_impl; [exact Hl|].
  intros x [[Hs _] _]. by apply solid_not_nil.
Qed.

(** ** Parsing what the renderer wrote *)

Lemma parse_app a b st : fold_left parse_step (a ++ b) st = fold_left parse_step b (fold_left parse_step a st).
Proof. apply fold_left_app. Qed.

Lemma parse_kv st k v :
  key_ok k -> solid v ->
  parse_step st (kv_line k v) =
  if bool_decide (st_section st = #"Interface") then
    mkPS (mkParsed (set_interface (pc_iface (st_pc st)) k v) (pc_peers (st_pc st))) (st_section st) (st_cur st)
  else if bool_decide (st_section st = #"Peer") then
    mkPS (st_pc st) (st_section st) (set_peer (st_cur st) k v)
  else st.
Proof.
  intros Hk Hv. unfold parse_step.
  by rewrite kv_TrimSpace, kv_skipped, kv_bracketed, kv_Cut, kv_key, kv_value by done.
Qed.

Lemma parse_interface_kvs l ir ps cur :
  Forall kv_ok l ->
  fold_left parse_step (kv_lines l) (mkPS (mkParsed ir ps) #"Interface" cur)
  = mkPS (mkParsed (fold_left (fun ir kv => set_interface ir (fst kv) (snd kv)) l ir) ps) #"Interface" cur.
Proof.
  intros Hl. revert ir. induction Hl as [|[k v] l [Hk [Hv _]] Hl IH]; intros ir; [done|].
  unfold kv_lines in *. rewrite fmap_cons. cbn [fold_left fst snd] in *. rewrite parse_kv by done. apply IH.
Qed.

Lemma parse_peer_kvs l pc cur :
  Forall kv_ok l ->
  fold_left parse_step (kv_lines l) (mkPS pc #"Peer" cur)
  = mkPS pc #"Peer" (fold_left (fun p kv => set_peer p (fst kv) (snd kv)) l cur).
Proof.
  intros Hl. revert cur. induction Hl as [|[k v] l [Hk [Hv _]] Hl IH]; intros cur; [done|].
  unfold kv_lines in *. rewrite fmap_cons. cbn [fold_left fst snd] in *. rewrite parse_kv by done. apply IH.
Qed.

(** Only two keys of the interface section are read. *)
Definition plain_key (kv : bytes * bytes) : Prop :=
  ToLower (fst kv) <> #"privatekey" /\ ToLower (fst kv) <> #"listenport".

Lemma set_interface_plain l ir :
  Forall plain_key l -> fold_left (fun ir kv => set_interface ir (fst kv) (snd kv)) l ir = ir.
Proof.
  induction 1 as [|[k v] l [H1 H2] Hl IH]; [done|]. cbn [fold_left fst snd] in *.
  unfold set_interface at 2. rewrite bool_decide_eq_false_2, bool_decide_eq_false_2 by done. apply IH.
Qed.

(** The interface state the config describes. *)
Definition iface_of (i : Interface) : InterfaceRuntime :=
  mkInterfaceRuntime (if_PrivateKey i) [] (if 0 <? if_ListenPort i then if_ListenPort i else 0) 0.

(** The peer a config block describes. *)
Definition spec_of (p : PeerEntry) : PeerSpec :=
  mkPeerSpec (pe_PublicKey p) (pe_PresharedKey p) (pe_AllowedIPs p) (pe_Endpoint p)
    (if 0 <? pe_Keepalive p then pe_Keepalive p else 0).

Lemma nonempty_false {A} (l : list A) : nonempty l = false -> l = [].
Proof. by destruct l. Qed.

Lemma interface_kvs_fold i p :
  if_ListenPort i <= max_int64 ->
  fold_left (fun ir kv => set_interface ir (fst kv) (snd kv)) (interface_kvs i p) empty_runtime = iface_of i.
Proof.
  intros Hport. unfold interface_kvs. do 3 rewrite fold_left_app.
  rewrite (set_interface_plain ((if 0 <? if_MTU i then _ else _) ++ _))
    by (unfold profile_kvs; each_pair ltac:(by vm_compute)).
  rewrite (set_interface_plain (pair #"Address" <$> if_Address i))
    by (apply Forall_fmap, Forall_true; by vm_compute).
  unfold iface_of. destruct (0 <? if_ListenPort i) eqn:E; bool_to_prop;
    destruct (nonempty (if_PrivateKey i)) eqn:E'; cbn [fold_left fst snd];
    unfold set_interface; rewrite ?fmtScan_FormatInt by lia;
    try apply nonempty_false in E'; rewrite ?E'; reflexivity.
Qed.

Lemma peer_kvs_fold p :
  printable_peer p ->
  fold_left (fun p kv => set_peer p (fst kv) (snd kv)) (peer_kvs p) empty_spec = spec_of p.
Proof.
  intros (_ & _ & Ha & _ & Hk). unfold peer_kvs, spec_of. rewrite !fold_left_app. unfold in_int64 in Hk.
  destruct p as [pub psk ips ep ka c]; cbn [pe_PublicKey pe_PresharedKey pe_AllowedIPs pe_Endpoint pe_Keepalive] in *.
  pose proof (splitCSV_Join ips Ha) as Hcsv. pose proof (fmtScan_FormatInt ka) as Hka.
  destruct (nonempty psk) eqn:E1; [|apply nonempty_false in E1 as ->];
    (destruct (nonempty ips) eqn:E2; [|apply nonempty_false in E2 as ->]);
    (destruct (nonempty ep) eqn:E3; [|apply nonempty_false in E3 as ->]);
    (destruct (0 <? ka) eqn:E4; bool_to_prop); cbn [fold_left fst snd];
    unfold set_peer, empty_spec;
    rewrite ?Hka by lia; cbn -[Join splitCSV]; rewrite ?Hcsv; reflexivity.
Qed.

Lemma parse_peer st p :
  printable_peer p ->
  fold_left parse_step (peer_lines p) st
  = mkPS (st_pc (flush st)) #"Peer" (spec_of p).
Proof.
  intros Hp. unfold peer_lines. rewrite parse_app.
  change (fold_left parse_step [ []; #"[Peer]" ] st)
    with (mkPS (st_pc (flush st)) #"Peer" empty_spec).
  rewrite parse_app.
  assert (forall s, fold_left parse_step (comment_lines (pe_Comment p)) s = s) as ->.
  { intros s. unfold comment_lines. destruct (nonempty _); [|done]. cbn [fold_left]. unfold parse_step.
    by rewrite comment_skipped. }
  rewrite parse_peer_kvs by (by apply peer_kvs_ok). by rewrite peer_kvs_fold.
Qed.

Lemma flush_iface st : pc_iface (st_pc (flush st)) = pc_iface (st_pc st).
Proof. unfold flush. by destruct (_ && _). Qed.

Lemma flush_peer pc p :
  printable_peer p ->
  st_pc (flush (mkPS pc #"Peer" (spec_of p))) = mkParsed (pc_iface pc) (pc_peers pc ++ [spec_of p]).
Proof.
  intros ([Hs _] & _). unfold flush. cbn [st_section st_cur st_pc spec_of ps_PublicKey].
  by rewrite (bool_decide_eq_false_2 (pe_PublicKey p = [])) by (by apply solid_not_nil).
Qed.

(** The parser appends one entry per block, in order, to what it had and what
    was pending. *)
Lemma parse_peers l st :
  Forall printable_peer l ->
  st_pc (flush (fold_left parse_step (concat (peer_lines <$> l) ++ [[]]) st))
  = mkParsed (pc_iface (st_pc st)) (pc_peers (st_pc (flush st)) ++ (spec_of <$> l)).
Proof.
  intros Hl. revert st. induction Hl as [|p l Hp Hl IH]; intros st.
  - cbn [fmap list_fmap concat app fold_left]. change (parse_step st []) with st.
    rewrite app_nil_r, <- flush_iface. by destruct (st_pc (flush st)).
  - rewrite fmap_cons. cbn [concat]. rewrite <- app_assoc, parse_app, parse_peer by done.
    rewrite IH, flush_peer by done. cbn [st_pc pc_iface pc_peers]. rewrite flush_iface, <- app_assoc. done.
Qed.

Lemma parse_Server i p peers :
  printable_interface i -> printable_profile p -> Forall printable_peer peers ->
  if_ListenPort i <= max_int64 ->
  parseRenderedConfig (Server i p peers)
  = mkParsed (iface_of i) (spec_of <$> sort_Slice peer_less peers).
Proof.
  intros Hi Hp Hps Hport. unfold parseRenderedConfig. rewrite Split_Server by done.
  unfold server_lines. rewrite <- !app_assoc, parse_app.
  change (fold_left parse_step [ #"# Generated by awg-rest. Do not edit by hand."; #"[Interface]" ] parse_init)
    with (mkPS (mkParsed empty_runtime []) #"Interface" empty_spec).
  rewrite parse_app, parse_interface_kvs by (by apply interface_kvs_ok).
  rewrite interface_kvs_fold, parse_peers by (done || by apply sorted_printable). done.
Qed.

(** A line of the interface section that is not a header changes nothing but the
    interface settings. *)
Lemma parse_interface_line st raw :
  st_section st = #"Interface" -> bracketed (TrimSpace raw) = false ->
  exists ir, parse_step st raw = mkPS (mkParsed ir (pc_peers (st_pc st))) #"Interface" (st_cur st).
Proof.
  intros Hsec Hb. unfold parse_step. rewrite Hb. destruct st as [[ir ps] sec cur]; simpl in *. subst sec.
  destruct (skipped _); [by exists ir|]. destruct (Cut _ _) as [[k v]|]; [|by exists ir]. eexists. reflexivity.
Qed.

Lemma key_line_plain v : bracketed (TrimSpace (kv_line #"PrivateKey" v)) = false.
Proof.
  unfold kv_line. change (#"PrivateKey" ++ #" = " ++ v) with ("P"%char :: #"rivateKey = " ++ v).
  destruct (TrimSpace_prefix "P"%char (#"rivateKey = " ++ v)) as [t Ht]; [by vm_compute|].
  apply bracketed_false. destruct (TrimSpace _) as [|d x]; [done|]. by injection Ht as <- _.
Qed.

Definition header_lines : list bytes := [ #"# Generated by awg-rest. Do not edit by hand."; #"[Interface]" ].

(** A rendered config with the private key carried over is the rendered lines
    with some more lines, none of them a header, after the first one. *)
Lemma carried_lines i p peers c :
  printable_interface i -> printable_profile p -> Forall printable_peer peers -> carried (Server i p peers) c ->
  exists extra, Forall (fun l => bracketed (TrimSpace l) = false) extra
    /\ Split c nl = (header_lines ++ extra ++ kv_lines (interface_kvs i p)
                       ++ concat (peer_lines <$> sort_Slice peer_less peers)) ++ [[]].
Proof.
  intros Hi Hp Hps Hc. induction Hc as [|c current Hc (extra & He & Hl)].
  { exists []. split; [constructor|]. by rewrite Split_Server. }
  destruct (PreserveInterfacePrivateKey_cases c current) as [->|(-> & Hv & Hn & Hk)]; [by exists extra|].
  set (v := InterfaceValue current #"PrivateKey") in *.
  destruct (WithInterfaceValue_lines c #"PrivateKey" v) as (a & h & b & r & Hs & Hs' & Ha & Hh);
    [|apply (bool_decide_unpack _); by vm_compute|done|done|done|].
  { pose proof (Server_well_sectioned i p peers Hi Hp Hps) as [_ Hw]. unfold well_sectioned.
    rewrite Split_Server in Hw by done. unfold server_lines in Hw. fold header_lines in Hw.
    rewrite Hl, removelast_last. rewrite !Forall_app in *. split.
    - exists #"[Interface]". split; [unfold header_lines; set_solver|by vm_compute].
    - destruct Hw as ((Hw1 & Hw2 & Hw3) & Hw4). split_and!; try done.
      eapply Forall_impl; [exact He|]. intros l Hb. unfold odd_header. by rewrite Hb, andb_false_r. }
  rewrite Hl in Hs. apply app_inj_tail in Hs as [Hs <-]. unfold header_lines in Hs.
  destruct a as [|a0 [|a1 a]]; cbn [app] in Hs; injection Hs; intros; subst.
  - by vm_compute in Hh.
  - exists (kv_line #"PrivateKey" v :: extra). split; [constructor; [apply key_line_plain|done]|]. by rewrite Hs'.
  - rewrite !Forall_cons in Ha. destruct Ha as (_ & [Hx _] & _). by vm_compute in Hx.
Qed.

Lemma parse_extra extra ir :
  Forall (fun l => bracketed (TrimSpace l) = false) extra ->
  exists ir', fold_left parse_step extra (mkPS (mkParsed ir []) #"Interface" empty_spec)
              = mkPS (mkParsed ir' []) #"Interface" empty_spec.
Proof.
  intros He. revert ir. induction He as [|l extra Hl He IH]; intros ir; cbn [fold_left]; [by exists ir|].
  destruct (parse_interface_line (mkPS (mkParsed ir []) #"Interface" empty_spec) l) as [ir1 ->]; [done|done|apply IH].
Qed.

(** Carrying the running private key over leaves the peers of a rendered config
    as they are. *)
Lemma parse_carried i p peers c :
  printable_interface i -> printable_profile p -> Forall printable_peer peers -> carried (Server i p peers) c ->
  pc_peers (parseRenderedConfig c) = spec_of <$> sort_Slice peer_less peers.
Proof.
  intros Hi Hp Hps Hc. destruct (carried_lines _ _ _ _ Hi Hp Hps Hc) as (extra & He & Hl).
  unfold parseRenderedConfig. rewrite Hl, <- !app_assoc, parse_app.
  change (fold_left parse_step header_lines parse_init) with (mkPS (mkParsed empty_runtime []) #"Interface" empty_spec).
  rewrite parse_app. destruct (parse_extra extra empty_runtime He) as [ir ->].
  rewrite parse_app, parse_interface_kvs by (by apply interface_kvs_ok).
  by rewrite parse_peers by (by apply sorted_printable).
Qed.

Lemma spec_keys peers :
  list_to_set (ps_PublicKey <$> (spec_of <$> sort_Slice peer_less peers))
  = (list_to_set (pe_PublicKey <$> peers) : gset bytes).
Proof. rewrite <- list_fmap_compose. apply list_to_set_perm_L. by rewrite sort_Slice_perm. Qed.

(** (Render/parse round trip.) Parsing a rendered server config gives back
    the interface's private key and port and exactly the given peers, in key
    order, with their preshared keys, allowed IPs, endpoints and keepalives;
    comments, blanks and protocol parameters never leak into them. *)
Theorem parseRenderedConfig_Server i p peers :
  printable_interface i -> printable_profile p -> Forall printable_peer peers ->
  if_ListenPort i <= max_int64 ->
  parseRenderedConfig (Server i p peers)
  = mkParsed (iface_of i) (spec_of <$> sort_Slice peer_less peers).
Proof. exact (parse_Server i p peers). Qed.

Lemma parseRenderedConfig_Server_witness :
  parseRenderedConfig (Server demo_interface demo_profile [demo_peer #"zz=" #"phone"; demo_peer #"aa=" #"x"])
  = mkParsed (mkInterfaceRuntime #"priv=" [] 51820 0)
      [spec_of (demo_peer #"aa=" #"x"); spec_of (demo_peer #"zz=" #"phone")].
Proof.
  rewrite (parseRenderedConfig_Server demo_interface demo_profile
             [demo_peer #"zz=" #"phone"; demo_peer #"aa=" #"x"]).
  - vm_compute. reflexivity.
  - apply (bool_decide_unpack _). vm_compute. exact I.
  - apply (bool_decide_unpack _). vm_compute. exact I.
  - apply (bool_decide_unpack _). vm_compute. exact I.
  - vm_compute. discriminate.
Defined.

(** A display name with a newline in it ends its comment line: what follows is
    read as configuration, here a second peer routed everything. *)
Theorem comment_injects_peer :
  let name := #"phone" ++ [nl] ++ #"[Peer]" ++ [nl] ++ #"PublicKey = evil=" ++ [nl]
              ++ #"AllowedIPs = 0.0.0.0/0" ++ [nl] ++ #"[Peer]" in
  ps_PublicKey <$> pc_peers (parseRenderedConfig
    (Server demo_interface demo_profile [demo_peer #"aa=" name])) = [ #"evil="; #"aa=" ].
Proof. by vm_compute. Qed.

(** So does a special-junk value, and the profile validator accepts it: text
    outside the tags is not looked at. *)
Definition injecting_profile : ProtocolProfile :=
  mkProfile uuid_Nil #"default" ProtocolV2 4 40 70 10 20 30 12
    (mkIntRange 5 9) (mkIntRange 10 10) (mkIntRange 11 11) (mkIntRange 12 12)
    (#"<r 10>" ++ [nl] ++ #"[Peer]" ++ [nl] ++ #"PublicKey = evil=") [] [] [] [] []
    (mkU16 0 0) (mkU16 0 0) (mkU16 0 0) (mkU16 0 0) (mkU16 0 0) (mkU16 0 0)
    (mkU16 0 0) false false #"fixed" 0.

Theorem valid_profile_injects :
  Validate injecting_profile = []
  /\ ps_PublicKey <$> pc_peers (parseRenderedConfig (Server demo_interface injecting_profile []))
     = [ #"evil=" ].
Proof. by vm_compute. Qed.

(** ** The fake host keeps the executor's laws *)

Lemma sync_fold_lookup (old m : gmap bytes PeerRuntime) (ps : list PeerSpec) (k : bytes) (r : PeerRuntime) :
  fold_left (fun next p => <[ps_PublicKey p := sync_peer old p]> next) ps m !! k = Some r ->
  m !! k = Some r \/ exists q, q ∈ ps /\ ps_PublicKey q = k /\ r = sync_peer old q.
Proof.
  revert m. induction ps as [|p ps IH]; intros m; simpl; [by left|]. intros Hr.
  destruct (IH _ Hr) as [H|(q & Hq & ? & ?)]; [|right; exists q; set_solver].
  destruct (decide (ps_PublicKey p = k)) as [<-|Hne].
  - rewrite lookup_insert_eq in H. simplify_eq. right. exists p. set_solver.
  - rewrite lookup_insert_ne in H by done. by left.
Qed.

Lemma sync_fold_mem (old m : gmap bytes PeerRuntime) (ps : list PeerSpec) (k : bytes) :
  is_Some (m !! k) \/ k ∈ ps_PublicKey <$> ps ->
  is_Some (fold_left (fun next p => <[ps_PublicKey p := sync_peer old p]> next) ps m !! k).
Proof.
  revert m. induction ps as [|p ps IH]; intros m; simpl.
  - intros [?|H]; [done|]. by apply elem_of_nil in H.
  - intros H. apply IH. destruct (decide (ps_PublicKey p = k)) as [<-|Hne].
    + left. rewrite lookup_insert_eq. by eexists.
    + rewrite lookup_insert_ne by done. destruct H as [?|H]; [by left|].
      apply elem_of_cons in H as [?|?]; [congruence|by right].
Qed.

Lemma sync_peers_dom old (ps : list PeerSpec) (k : bytes) :
  is_Some (sync_peers old ps !! k) <-> k ∈ ps_PublicKey <$> ps.
Proof.
  split.
  - intros [r Hr]. apply sync_fold_lookup in Hr as [H|(q & Hq & <- & _)]; [by rewrite lookup_empty in H|].
    apply list_elem_of_fmap. by exists q.
  - intros H. apply sync_fold_mem. by right.
Qed.

Lemma sync_peers_self old ps k r : sync_peers old ps !! k = Some r -> pr_PublicKey r = k.
Proof.
  intros Hr. apply sync_fold_lookup in Hr as [H|(q & _ & <- & ->)]; [by rewrite lookup_empty in H|done].
Qed.

Lemma sync_peer_again old ps p : p ∈ ps -> sync_peer (sync_peers old ps) p = sync_peer old p.
Proof.
  intros Hp. assert (is_Some (sync_peers old ps !! ps_PublicKey p)) as [r Hr].
  { apply sync_peers_dom, list_elem_of_fmap. by exists p. }
  pose proof Hr as Hr'. apply sync_fold_lookup in Hr' as [H|(q & _ & Hq & ->)]; [by rewrite lookup_empty in H|].
  unfold sync_peer at 1. rewrite Hr. unfold sync_peer. simpl. rewrite Hq. done.
Qed.

Lemma fold_left_ext_in {A B} (f g : A -> B -> A) l a :
  (forall x b, b ∈ l -> f x b = g x b) -> fold_left f l a = fold_left g l a.
Proof.
  revert a. induction l as [|b l IH]; intros a H; simpl; [done|].
  rewrite H by constructor. apply IH. intros. apply H. by constructor.
Qed.

Lemma sync_peers_again old ps : sync_peers (sync_peers old ps) ps = sync_peers old ps.
Proof.
  unfold sync_peers at 1. etransitivity; [|reflexivity].
  apply fold_left_ext_in. intros m p Hp. by rewrite sync_peer_again.
Qed.

Lemma sync_iface_again ifc c : sync_iface (sync_iface ifc c) c = sync_iface ifc c.
Proof.
  unfold sync_iface. cbn [fi_pub fi_listenPort fi_peers]. rewrite sync_peers_again. f_equal.
  - case_bool_decide; [done|]. case_bool_decide as E; [|done].
    by case_bool_decide.
  - by destruct (_ =? 0).
Qed.

Lemma peer_list_keys (m : gmap bytes PeerRuntime) :
  (forall k r, m !! k = Some r -> pr_PublicKey r = k) ->
  pr_PublicKey <$> (snd <$> map_to_list m) = fst <$> map_to_list m.
Proof.
  intros Hm. rewrite <- list_fmap_compose. apply list_fmap_ext. intros i [k r] Hi.
  simpl. apply Hm. apply elem_of_map_to_list. by eapply list_elem_of_lookup_2.
Qed.

(** Keyed by their own public key, the peers are listed once each. *)
Lemma peer_list_spec i :
  (forall k r, fi_peers i !! k = Some r -> pr_PublicKey r = k) ->
  list_to_set (pr_PublicKey <$> peer_list i) = (dom (fi_peers i) : gset bytes)
  /\ NoDup (pr_PublicKey <$> peer_list i).
Proof.
  intros Hm. unfold peer_list. rewrite sort_Slice_perm, peer_list_keys by done.
  split; [|apply NoDup_fst_map_to_list]. apply set_eq. intros k.
  rewrite elem_of_list_to_set, elem_of_dom, list_elem_of_fmap. split.
  - intros ([k' r] & -> & H). apply elem_of_map_to_list in H. by exists r.
  - intros [r Hr]. exists (k, r). split; [done|]. by apply elem_of_map_to_list.
Qed.

Section executor.
Context (readFile : bytes -> option bytes).

#[export] Instance FakeExecutor_Executor : Executor FakeExecutor := {
  SyncConf := fake_SyncConf;
  SetPeer := fake_SetPeer;
  RemovePeer := fake_RemovePeer;
  ShowDump := fake_ShowDump;
  ShowConf := fake_ShowConf;
  InterfaceUp := fake_InterfaceUp readFile;
  InterfaceDown := fake_InterfaceDown }.

Lemma fake_SyncConf_ok ctx iface config f f' :
  fake_SyncConf ctx iface config f = (Ok tt, f') ->
  ctx = None /\ fe_FailSyncConf f = None
  /\ exists ifc, fe_interfaces f !! iface = Some ifc
     /\ f' = with_interfaces f (<[iface := sync_iface ifc config]> (fe_interfaces f)).
Proof.
  unfold fake_SyncConf. destruct ctx; [done|]. destruct (fe_FailSyncConf f); [done|].
  destruct (fe_interfaces f !! iface) as [ifc|]; [|done]. intros [= <-]. split_and!; [done..|]. by exists ifc.
Qed.

Lemma fake_SyncConf_idempotent ctx iface config f f' :
  fake_SyncConf ctx iface config f = (Ok tt, f') ->
  fake_SyncConf ctx iface config f' = (Ok tt, f').
Proof.
  intros (-> & Hf & ifc & Hi & ->)%fake_SyncConf_ok. unfold fake_SyncConf.
  cbn [fe_FailSyncConf with_interfaces fe_interfaces]. rewrite Hf, lookup_insert_eq.
  f_equal. unfold with_interfaces. cbn. by rewrite insert_insert_eq, sync_iface_again.
Qed.

Lemma fake_SyncConf_dump ctx ctx' iface config f f' ir ps f'' :
  fake_SyncConf ctx iface config f = (Ok tt, f') ->
  fake_ShowDump ctx' iface f' = (Ok (ir, ps), f'') ->
  list_to_set (pr_PublicKey <$> ps)
    = (list_to_set (ps_PublicKey <$> pc_peers (parseRenderedConfig config)) : gset bytes)
  /\ NoDup (pr_PublicKey <$> ps).
Proof.
  intros (-> & Hf & ifc & Hi & ->)%fake_SyncConf_ok. unfold fake_ShowDump.
  destruct ctx'; [done|]. cbn [fe_FailShowDump with_interfaces fe_interfaces].
  destruct (fe_FailShowDump f); [done|]. rewrite lookup_insert_eq. intros [= <- <- _].
  destruct (peer_list_spec (sync_iface ifc config)) as [Hs Hn].
  { intros k r. apply sync_peers_self. }
  split; [|done]. rewrite Hs. apply set_eq. intros k.
  rewrite elem_of_dom, elem_of_list_to_set. apply sync_peers_dom.
Qed.

Lemma fake_conf_peers i p peers config :
  printable_interface i -> printable_profile p -> Forall printable_peer peers ->
  carried (Server i p peers) config ->
  (list_to_set (ps_PublicKey <$> pc_peers (parseRenderedConfig config)) : gset bytes)
  = list_to_set (pe_PublicKey <$> peers).
Proof. intros. erewrite parse_carried by done. apply spec_keys. Qed.

Lemma fake_rendered_dump ctx ctx' iface i p peers config f f' ir ps f'' :
  ValidInterfaceName iface = true -> printable_interface i -> printable_profile p -> Forall printable_peer peers ->
  Forall (fun e => key_text (pe_PublicKey e)) peers ->
  carried (Server i p peers) config ->
  fake_SyncConf ctx iface config f = (Ok tt, f') ->
  fake_ShowDump ctx' iface f' = (Ok (ir, ps), f'') ->
  (list_to_set (pr_PublicKey <$> ps) : gset bytes) = list_to_set (pe_PublicKey <$> peers)
  /\ NoDup (pr_PublicKey <$> ps).
Proof.
  intros _ Hi Hp Hps _ Hc Hsync Hdump. destruct (fake_SyncConf_dump _ _ _ _ _ _ _ _ _ Hsync Hdump) as [-> Hn].
  split; [|done]. by apply (fake_conf_peers i p).
Qed.

Lemma fake_ShowConf_synced ctx iface config f r f0 f1 :
  fake_ShowConf ctx iface f = (r, f0) -> fake_SyncConf ctx iface config f0 = (Ok tt, f1) ->
  exists current, fake_ShowConf ctx iface f1 = (Ok current, f1)
    /\ InterfaceValue current #"PrivateKey" = InterfaceValue config #"PrivateKey".
Proof.
  intros Hs (-> & Hf & ifc & Hi & ->)%fake_SyncConf_ok.
  assert (fe_FailShowConf f0 = None) as Hn.
  { revert Hs. unfold fake_ShowConf. destruct (fe_FailShowConf f) eqn:E; [by intros [= _ <-]|].
    destruct (fe_interfaces f !! iface); by intros [= _ <-]. }
  exists config. unfold fake_ShowConf. cbn [fe_FailShowConf with_interfaces fe_interfaces].
  by rewrite Hn, lookup_insert_eq.
Qed.

(** The peers of an interface of the in-memory host. *)
Definition fake_keys (iface : bytes) (f : FakeExecutor) : gset bytes :=
  match fe_interfaces f !! iface with
  | Some ifc => list_to_set (pr_PublicKey <$> peer_list ifc)
  | None => ∅
  end.

Lemma fake_ShowDump_keys ctx iface f ir ps f' :
  fake_ShowDump ctx iface f = (Ok (ir, ps), f') -> list_to_set (pr_PublicKey <$> ps) = fake_keys iface f.
Proof.
  unfold fake_ShowDump, fake_keys. destruct ctx; [done|]. destruct (fe_FailShowDump f); [done|].
  destruct (fe_interfaces f !! iface); [|done]. by intros [= <- <- _].
Qed.

Lemma fake_ShowDump_quiet ctx iface iface' f : fake_keys iface' (snd (fake_ShowDump ctx iface f)) = fake_keys iface' f.
Proof. unfold fake_ShowDump. by repeat case_match. Qed.

Lemma fake_ShowConf_quiet ctx iface iface' f : fake_keys iface' (snd (fake_ShowConf ctx iface f)) = fake_keys iface' f.
Proof. unfold fake_ShowConf. by repeat case_match. Qed.

Lemma fake_SyncConf_other ctx iface iface' config f :
  iface' <> iface -> fake_keys iface' (snd (fake_SyncConf ctx iface config f)) = fake_keys iface' f.
Proof.
  intros Hne. unfold fake_SyncConf. repeat case_match; try done.
  unfold fake_keys. cbn [snd fe_interfaces with_interfaces]. by rewrite lookup_insert_ne.
Qed.

Lemma fake_InterfaceUp_other ctx iface iface' path f :
  iface' <> iface -> fake_keys iface' (snd (fake_InterfaceUp readFile ctx iface path f)) = fake_keys iface' f.
Proof.
  intros Hne. unfold fake_InterfaceUp. repeat case_match; try done.
  unfold fake_keys. cbn [snd fe_interfaces with_interfaces]. by rewrite lookup_insert_ne.
Qed.

Lemma fake_SyncConf_keys ctx iface i p peers config f f' :
  ValidInterfaceName iface = true -> printable_interface i -> printable_profile p -> Forall printable_peer peers ->
  Forall (fun e => key_text (pe_PublicKey e)) peers ->
  carried (Server i p peers) config -> fake_SyncConf ctx iface config f = (Ok tt, f') ->
  fake_keys iface f' = list_to_set (pe_PublicKey <$> peers).
Proof.
  intros _ Hi Hp Hps _ Hc (-> & Hf & ifc & Hl & ->)%fake_SyncConf_ok.
  rewrite <- (fake_conf_peers i p peers config) by done. unfold fake_keys. cbn [fe_interfaces with_interfaces].
  rewrite lookup_insert_eq. destruct (peer_list_spec (sync_iface ifc config)) as [Hs _].
  { intros k r. apply sync_peers_self. }
  rewrite Hs. apply set_eq. intros k. rewrite elem_of_dom, elem_of_list_to_set. apply sync_peers_dom.
Qed.

#[export] Instance FakeExecutor_View : RuntimeView FakeExecutor := {
  kernel_keys := fake_keys;
  ShowDump_keys := fake_ShowDump_keys;
  ShowDump_quiet := fake_ShowDump_quiet;
  ShowConf_quiet := fake_ShowConf_quiet;
  SyncConf_other := fake_SyncConf_other;
  InterfaceUp_other := fake_InterfaceUp_other;
  SyncConf_keys := fake_SyncConf_keys }.

#[export] Instance FakeExecutor_Laws : ExecutorLaws FakeExecutor := { SyncConf_dump := fake_rendered_dump }.
#[export] Instance FakeExecutor_SyncLaws : SyncLaws FakeExecutor := {
  SyncConf_idempotent := fake_SyncConf_idempotent;
  ShowConf_synced := fake_ShowConf_synced }.
End executor.

(** (Executor contract of the fake host.) A successful [SyncConf] is
    idempotent, leaves every other interface and the injected failures alone,
    makes [ShowConf] return the applied text, and makes the peer table exactly
    the config's peers: each peer with the config's settings, live counters and
    handshake of a peer that was already there kept, and zero otherwise. *)
Theorem fake_SyncConf_spec iface config f f' :
  fake_SyncConf None iface config f = (Ok tt, f') ->
  fake_SyncConf None iface config f' = (Ok tt, f')
  /\ (forall j, j <> iface -> fe_interfaces f' !! j = fe_interfaces f !! j)
  /\ exists ifc ifc', fe_interfaces f !! iface = Some ifc /\ fe_interfaces f' !! iface = Some ifc'
     /\ fi_rendered ifc' = config
     /\ (forall k, is_Some (fi_peers ifc' !! k) <-> k ∈ ps_PublicKey <$> pc_peers (parseRenderedConfig config))
     /\ forall k r, fi_peers ifc' !! k = Some r ->
          (exists q, q ∈ pc_peers (parseRenderedConfig config) /\ pr_PublicKey r = ps_PublicKey q
             /\ pr_AllowedIPs r = ps_AllowedIPs q /\ pr_PresharedKey r = ps_PresharedKey q)
          /\ match fi_peers ifc !! k with
             | Some old => pr_LastHandshake r = pr_LastHandshake old /\ pr_RxBytes r = pr_RxBytes old
                           /\ pr_TxBytes r = pr_TxBytes old
             | None => pr_LastHandshake r = None /\ pr_RxBytes r = 0 /\ pr_TxBytes r = 0
             end.
Proof.
  intros H. split; [by apply fake_SyncConf_idempotent with f|].
  apply fake_SyncConf_ok in H as (_ & Hf & ifc & Hi & ->). cbn [fe_interfaces with_interfaces].
  split; [intros j Hj; by rewrite lookup_insert_ne|].
  exists ifc, (sync_iface ifc config). rewrite lookup_insert_eq. split_and!; try done.
  - intros k. apply sync_peers_dom.
  - intros k r Hr. apply sync_fold_lookup in Hr as [Hr|(q & Hq & <- & ->)]; [by rewrite lookup_empty in Hr|].
    split; [by exists q|]. unfold sync_peer. simpl. by destruct (fi_peers ifc !! ps_PublicKey q).
Qed.

Lemma fake_SyncConf_spec_witness :
  let f := Provision #"awg0" #"priv=" #"pub=" 51820 NewFakeExecutor in
  let c := Server demo_interface demo_profile [demo_peer #"aa=" #"phone"] in
  fake_SyncConf None #"awg0" c (snd (fake_SyncConf None #"awg0" c f))
  = (Ok tt, snd (fake_SyncConf None #"awg0" c f)).
Proof.
  intros f c. apply (fake_SyncConf_spec #"awg0" c f). vm_compute. reflexivity.
Defined.
