(* ===== verification/CliFacts.v ===== *)
(** * CliFacts: what the command-line executor leaves behind

    Which files a call touches, which commands it runs and with which arguments,
    and that the executor keeps the law of the interface when the tools behave as
    documented ([AwgTools]). *)

From S2P Require Import Prelude GoStrings Strconv Sorting Errors Effects Files Profile AwgConfig Render Executor Dump CliExecutor FakeExecutor.

(** ** File operations *)

Abbreviation files s := (fs_files (os_fs s)).

Section ops.
Context {env : FileEnv}.

Lemma sys_atomic_inv op eff fs r fs' :
  sys_atomic op eff fs = (r, fs') ->
  (r = Ok tt /\ fs_files fs' = eff (fs_files fs))
  \/ (exists e n, r = Err e /\ fs_files fs' = fs_files fs /\ fault (fs_step fs) op = Failed e n).
Proof. unfold sys_atomic, sys. destruct (fault _ op) as [|e n] eqn:E; intros [= <- <-]; eauto 6. Qed.

Lemma CreateTemp_inv d pre suf fs r fs' :
  CreateTemp d pre suf fs = (r, fs') ->
  (exists name, r = Ok name /\ fs_files fs !! name = None
     /\ fs_files fs' = <[name := mkFile [] mode_private]> (fs_files fs)
     /\ name = os_joinPath (if bool_decide (d = []) then TempDir else d) pre
               ++ format_udec (Z.of_N (temp_number (fs_step fs))) ++ suf)
  \/ (exists e, r = Err e /\ fs_files fs' = fs_files fs).
Proof.
  unfold CreateTemp. rewrite asks_bind. intros H. apply bind_cases in H as [(a & fs1 & H & Hr)|(e & H & ->)];
    unfold OpenExclusive in H; rewrite asks_bind in H; destruct (fs_files fs !! _) eqn:E.
  - by injection H.
  - injection Hr as <- <-. apply sys_atomic_inv in H as [[_ H]|(e & n & [=] & _)]. left. eauto 6.
  - injection H as <- <-. right. eauto.
  - apply sys_atomic_inv in H as [[[=] _]|(e' & n & [= <-] & H & _)]. right. eauto.
Qed.

Lemma WriteString_inv p data fs r fs' :
  WriteString p data fs = (r, fs') ->
  (r = Ok tt /\ fs_files fs' = alter (fun f => mkFile (f_data f ++ data) (f_mode f)) p (fs_files fs))
  \/ (exists e n, r = Err e /\ fs_files fs' = alter (fun f => mkFile (f_data f ++ take n data) (f_mode f)) p (fs_files fs)).
Proof. unfold WriteString, sys. destruct (fault _ _) as [|e n]; intros [= <- <-]; eauto 6. Qed.

Lemma ReadFile_files p fs : fs_files (snd (ReadFile p fs)) = fs_files fs.
Proof.
  unfold ReadFile. destruct ((sys_atomic (OpRead p) id ;; _) fs) as [r fs'] eqn:H. simpl.
  apply bind_cases in H as [([] & fs1 & H & Hr)|(e & H & ->)].
  - apply sys_atomic_inv in H as [[_ H]|(?&?&?&_)]; [|done]. unfold id in H. rewrite <- H. rewrite asks_bind in Hr.
    destruct (fs_files fs1 !! p); by injection Hr as _ <-.
  - by apply sys_atomic_inv in H as [[[=] _]|(e' & n & _ & H & _)].
Qed.

Lemma ReadFile_ok p fs b fs' :
  ReadFile p fs = (Ok b, fs') -> exists f, fs_files fs !! p = Some f /\ b = f_data f.
Proof.
  unfold ReadFile. intros H. apply bind_inv in H as ([] & fs1 & H & Hr).
  apply sys_atomic_inv in H as [[_ H]|(?&?&?&_)]; [|done]. rewrite asks_bind in Hr. unfold id in H. rewrite H in Hr.
  destruct (fs_files fs !! p) as [f|]; [|done]. injection Hr as <- _. eauto.
Qed.
End ops.

Lemma on_fs_inv {W A} (m : SE FS A) (s : OS W) r s' :
  on_fs m s = (r, s') -> exists fs, m (os_fs s) = (r, fs) /\ s' = mkOS fs (os_host s) (os_log s).
Proof. unfold on_fs. destruct (m (os_fs s)) as [r0 fs]. intros [= <- <-]. eauto. Qed.

Lemma attempt_inv {S A} (m : SE S A) s r s' : attempt m s = (r, s') -> exists r0, m s = (r0, s') /\ r = Ok r0.
Proof. unfold attempt. destruct (m s) as [r0 s0]. intros [= <- <-]. eauto. Qed.

(** ** Which files a call touches *)

Section touches.
Context {W : Type} {env : FileEnv}.

(** A file that was not there and of which a removal failed. *)
Definition left_over (s : OS W) (p : bytes) : Prop := files s !! p = None /\ removal_fails p.

(** A call that changes only the files of [X], but for what it could not remove. *)
Definition touches {A} (X : list bytes) (m : SE (OS W) A) : Prop :=
  forall s r s', m s = (r, s') -> forall p, p ∉ X -> files s' !! p = files s !! p \/ left_over s p.

Lemma touches_then {s0 s1 s2 : OS W} {p} :
  files s1 !! p = files s0 !! p \/ left_over s0 p -> files s2 !! p = files s1 !! p \/ left_over s1 p ->
  files s2 !! p = files s0 !! p \/ left_over s0 p.
Proof. intros [H1|H1] [H2|[H2 H3]]; [left; congruence|right; split; congruence|by right..]. Qed.

Lemma touches_mono {A} X Y (m : SE (OS W) A) : X ⊆ Y -> touches X m -> touches Y m.
Proof. intros HX Hm s r s' H p Hp. eapply Hm; [exact H|set_solver]. Qed.
Lemma touches_ret {A} X (a : A) : touches X (mret a).
Proof. intros s r s' [= <- <-]. by left. Qed.
Lemma touches_fail {A} X e : touches X (fail (A := A) e).
Proof. intros s r s' [= <- <-]. by left. Qed.
Lemma touches_of_result {A} X (x : result error A) : touches X (of_result x).
Proof. intros s r s' [= <- <-]. by left. Qed.
Lemma touches_bind {A B} X (m : SE (OS W) A) (f : A -> SE (OS W) B) :
  touches X m -> (forall a, touches X (f a)) -> touches X (m ≫= f).
Proof.
  intros Hm Hf s r s' H p Hp. apply bind_cases in H as [(a & s1 & H1 & H2)|(e & H & _)]; [|by eapply Hm].
  eapply touches_then; [by eapply Hm|by eapply Hf].
Qed.
Lemma touches_attempt {A} X (m : SE (OS W) A) : touches X m -> touches X (attempt m).
Proof. intros Hm s r s' H. apply attempt_inv in H as (r0 & H & _). by eapply Hm. Qed.
Lemma touches_wrapping {A} X pre (m : SE (OS W) A) : touches X m -> touches X (wrapping pre m).
Proof. intros Hm s r s' H. apply wrapping_inv in H as [(a & H & _)|(e & H & _)]; by eapply Hm. Qed.

Lemma touches_atomic X op eff :
  (forall fs p, p ∉ X -> eff fs !! p = fs !! p) -> touches X (on_fs (W := W) (sys_atomic op eff)).
Proof.
  intros He s r s' H p Hp. left. apply on_fs_inv in H as (fs & H & ->). simpl.
  apply sys_atomic_inv in H as [[_ ->]|(e & n & _ & -> & _)]; [by apply He|done].
Qed.
Lemma touches_Close X p : touches X (on_fs (W := W) (Close p)).
Proof. by apply touches_atomic. Qed.
Lemma touches_MkdirAll X p : touches X (on_fs (W := W) (MkdirAll p)).
Proof. by apply touches_atomic. Qed.
Lemma touches_WriteString X p data : p ∈ X -> touches X (on_fs (W := W) (WriteString p data)).
Proof.
  intros HX s r s' H q Hq. left. apply on_fs_inv in H as (fs & H & ->). simpl.
  apply WriteString_inv in H as [[_ ->]|(e & n & _ & ->)]; rewrite lookup_alter_ne; set_solver.
Qed.
Lemma touches_ReadFile X p : touches X (on_fs (W := W) (ReadFile p)).
Proof.
  intros s r s' H q _. left. apply on_fs_inv in H as (fs & H & ->). simpl. pose proof (ReadFile_files p (os_fs s)) as Hf.
  rewrite H in Hf. by rewrite <- Hf.
Qed.
End touches.

#[export] Hint Resolve touches_ret touches_fail touches_of_result touches_attempt touches_wrapping
  touches_Close touches_MkdirAll touches_ReadFile : awg.
#[export] Hint Extern 2 (touches _ (on_fs (WriteString _ _))) => apply touches_WriteString; set_solver : awg.

(** Split the branches of a call and apply the rules. *)
Ltac touch :=
  repeat match goal with
  | |- touches _ (?m ≫= _) =>
      lazymatch m with on_fs (CreateTemp _ _ _) => fail | _ => apply touches_bind; [|intros ?] end
  | |- touches _ (match ?x with _ => _ end) => destruct x
  | |- touches _ (if ?b then _ else _) => destruct b
  | |- touches _ (let '(_, _) := ?x in _) => destruct x
  | |- touches _ _ => solve [auto with awg]
  end.

Section removals.
Context {W : Type} {env : FileEnv}.

Lemma removing_inv {A} name (m : SE (OS W) A) s r s' :
  removing name m s = (r, s') ->
  exists s1, m s = (r, s1) /\ (files s' = delete name (files s1) \/ (removal_fails name /\ files s' = files s1))
    /\ os_host s' = os_host s1 /\ os_log s' = os_log s1.
Proof.
  intros H. apply defer_inv in H as (s1 & H & ->). exists s1. split; [done|].
  unfold ignored, on_fs, Remove, sys_atomic, sys. destruct (fault _ _) as [|e k] eqn:E; cbn; split_and!; auto.
  right. split; [by eexists _, _, _|done].
Qed.

(** A temporary file leaves no trace, unless its removal fails. *)
Lemma touches_temp {A} X (err : error -> SE (OS W) A) d pre suf (k : bytes -> SE (OS W) A) :
  (forall e, touches X (err e)) -> (forall name, touches (name :: X) (k name)) ->
  touches X (f ← attempt (on_fs (CreateTemp d pre suf)); match f with Err e => err e | Ok name => removing name (k name) end).
Proof.
  intros He Hk s r s' H p Hp. apply bind_cases in H as [(f & s1 & H1 & H2)|(e & H & _)];
    [|by apply attempt_inv in H as (? & _ & ?)].
  apply attempt_inv in H1 as (r0 & H1 & [= ->]). apply on_fs_inv in H1 as (fs & H1 & ->).
  apply CreateTemp_inv in H1 as [(name & -> & Hf & Hi & _)|(e & -> & Hi)].
  - apply removing_inv in H2 as (s2 & H2 & Hrem & _). destruct (decide (p = name)) as [->|Hn].
    + destruct Hrem as [->|[Hr _]]; [left; by rewrite lookup_delete_eq|right; by split].
    + assert (files s' !! p = files s2 !! p) as -> by (destruct Hrem as [->|[_ ->]]; by rewrite ?lookup_delete_ne).
      eapply touches_then; [|eapply (Hk name _ _ _ H2); set_solver]. left. cbn. by rewrite Hi, lookup_insert_ne.
  - eapply touches_then; [|by eapply He]. left. cbn. by rewrite Hi.
Qed.

Lemma touches_temp_bind {A} X d pre suf (k : bytes -> SE (OS W) A) :
  (forall name, touches (name :: X) (k name)) ->
  touches X (name ← on_fs (CreateTemp d pre suf); removing name (k name)).
Proof.
  intros Hk s r s' H. refine (touches_temp X fail d pre suf k (touches_fail X) Hk s r s' _).
  rewrite <- H. unfold mbind, SE_bind, attempt. by destruct (on_fs (CreateTemp d pre suf) s) as [[name|e] s1].
Qed.

(** ** The atomic write *)

(** A state reached from [s] by file operations only. *)
Definition same_but_files (s s' : OS W) : Prop := os_host s' = os_host s /\ os_log s' = os_log s.

Lemma on_fs_same {A} (m : SE FS A) (s : OS W) r s' : on_fs m s = (r, s') -> same_but_files s s'.
Proof. intros H. by apply on_fs_inv in H as (fs & _ & ->). Qed.

(** The temporary file is gone, or could not be removed. *)
Definition dropped (tmp : bytes) (f : file) (F : gmap bytes file) (s' : OS W) : Prop :=
  files s' = F \/ (removal_fails tmp /\ files s' = <[tmp := f]> F).

(** Dropping the temporary file after a failure. *)
Lemma abandon {A : Type} (tmp : bytes) (f : file) (e : error) (F : gmap bytes file) (s s' : OS W) (r : result error A) :
  files s = <[tmp := f]> F -> F !! tmp = None ->
  (attempt (on_fs (Remove tmp)) ;; fail e) s = (r, s') -> r = Err e /\ dropped tmp f F s' /\ same_but_files s s'.
Proof.
  intros Hs HF. unfold mbind, SE_bind, attempt, on_fs, Remove, sys_atomic, sys, fail.
  destruct (fault _ _) as [|e' k] eqn:E; intros [= <- <-]; (split; [done|]); (split; [|done]).
  - left. cbn. by rewrite Hs, delete_insert_id.
  - right. split; [by eexists _, _, _|done].
Qed.

Lemma abandon_open {A : Type} (tmp : bytes) (f : file) (e : error) (F : gmap bytes file) (s s' : OS W) (r : result error A) :
  files s = <[tmp := f]> F -> F !! tmp = None ->
  (attempt (on_fs (Close tmp)) ;; attempt (on_fs (Remove tmp)) ;; fail e) s = (r, s') ->
  r = Err e /\ dropped tmp f F s' /\ same_but_files s s'.
Proof.
  intros Hs HF H. apply bind_cases in H as [(x & s1 & H1 & H)|(e' & H & _)]; [|by apply attempt_inv in H as (? & _ & ?)].
  apply attempt_inv in H1 as (r1 & H1 & _). pose proof (on_fs_same _ _ _ _ H1) as [Hh Hl].
  apply on_fs_inv in H1 as (fs & H1 & ->). apply sys_atomic_inv in H1.
  assert (fs_files fs = <[tmp := f]> F) as Hfs by (by destruct H1 as [[_ ->]|(? & ? & _ & -> & _)]).
  by apply (abandon tmp f e F) in H as (-> & HF' & Hh' & Hl').
Qed.

(** The temporary name ends in a digit, a config's name does not. *)
Lemma temp_not_path a n path : last path = Some "f"%char -> a ++ format_udec (Z.of_N n) ++ [] <> path.
Proof.
  intros Hp E. assert (Hn : format_udec (Z.of_N n) <> []).
  { pose proof (parse_udec_format (Z.of_N n) ltac:(lia)) as H. intros E'. by rewrite E' in H. }
  rewrite app_nil_r in E. rewrite <- E, last_app_ne in Hp by done.
  apply last_Some in Hp as [l Hl]. eapply (format_udec_notin (Z.of_N n) "f"%char); [lia|by vm_compute; intros []|].
  rewrite Hl. set_solver.
Qed.

(** Run to the next file operation whose error the call looks at. *)
Ltac next_op H r fs H1 :=
  apply bind_cases in H as [(? & ? & H1 & H)|(? & H & _)]; [|by apply attempt_inv in H as (? & _ & ?)];
  apply attempt_inv in H1 as (r & H1 & [= ->]); apply on_fs_inv in H1 as (fs & H1 & ->);
  cbn [os_fs os_host os_log] in *.

(** Some renaming of [tmp] to [path] fails. *)
Definition rename_fails (tmp path : bytes) : Prop := exists n e k, fault n (OpRename tmp path) = Failed e k.

(** What an atomic write leaves: the new file complete under its name, or the
    files as they were, but for a temporary file whose rename or removal failed. *)
Definition written (path data : bytes) (mode : Z) (s : OS W) (r : result error unit) (s' : OS W) : Prop :=
  same_but_files s s'
  /\ ((r = Ok tt /\ files s' = <[path := mkFile data mode]> (files s))
      \/ (exists e, r = Err e
          /\ (files s' = files s
              \/ exists tmp f, files s !! tmp = None /\ tmp <> path /\ files s' = <[tmp := f]> (files s)
                   /\ (removal_fails tmp \/ rename_fails tmp path)))).

Lemma abandoned path data mode (tmp : bytes) (f : file) e s s1 r s' :
  files s1 = <[tmp := f]> (files s) -> files s !! tmp = None -> tmp <> path -> same_but_files s s1 ->
  (attempt (on_fs (Close tmp)) ;; attempt (on_fs (Remove tmp)) ;; fail e) s1 = (r, s') -> written path data mode s r s'.
Proof.
  intros Hs Hf Hne [Hh Hl] H. apply (abandon_open tmp f e (files s)) in H as (-> & Hd & Hh' & Hl'); [|done..].
  split; [split; congruence|]. right. exists e. split; [done|]. destruct Hd as [HF|[Hr HF]]; [by left|]. right. exists tmp, f. split_and!; auto.
Qed.

Lemma writeAtomic_spec path data mode s r s' :
  last path = Some "f"%char -> writeAtomic (W := W) path data mode s = (r, s') -> written path data mode s r s'.
Proof.
  intros Hpath H. unfold writeAtomic in H. apply bind_cases in H as [(tmp & s1 & H1 & H)|(e & H & ->)].
  2:{ split; [by eapply on_fs_same|]. right. exists e. split; [done|]. left. apply on_fs_inv in H as (fs & H & ->).
      by apply CreateTemp_inv in H as [(? & [=] & _)|(? & _ & ?)]. }
  apply on_fs_inv in H1 as (fs & H1 & ->).
  apply CreateTemp_inv in H1 as [(name & [= <-] & Hfresh & Hi & Hname)|(? & [=] & _)].
  assert (tmp <> path) as Hne by (rewrite Hname; by apply temp_not_path). clear Hname.
  next_op H r2 fs2 H1.
  apply WriteString_inv in H1 as [[-> Hi2]|(e & n & -> & Hi2)]; rewrite Hi, alter_insert_eq in Hi2; cbn in Hi2.
  2:{ eapply abandoned; [| | | |exact H]; [exact Hi2|done..]. }
  next_op H r3 fs3 H1.
  apply sys_atomic_inv in H1 as [[-> Hi3]|(e & n & -> & Hi3 & _)]; rewrite Hi2 in Hi3.
  2:{ eapply abandoned; [| | | |exact H]; [exact Hi3|done..]. }
  rewrite alter_insert_eq in Hi3. cbn in Hi3.
  next_op H r4 fs4 H1.
  apply sys_atomic_inv in H1 as [[-> Hi4]|(e & n & -> & Hi4 & _)]; unfold id in Hi4; rewrite Hi3 in Hi4.
  2:{ eapply (abandon tmp _ e (files s)) in H as (-> & HF & Hh & Hl); [|done..]. split; [done|]. right. exists e. split; [done|].
      destruct HF as [HF|[Hrf HF]]; [by left|]. right. eexists tmp, _. split_and!; [done|done|exact HF|by left]. }
  apply on_fs_inv in H as (fs5 & H & ->). cbn [os_fs os_host os_log] in *. split; [done|].
  apply sys_atomic_inv in H as [[-> Hi5]|(e & n & -> & Hi5 & Hn)]; rewrite Hi4 in Hi5.
  - left. split; [done|]. cbn. rewrite Hi5, lookup_insert_eq. by rewrite delete_insert_id.
  - right. exists e. split; [done|]. right. cbn. eexists tmp, _. split_and!; [done|done|exact Hi5|]. right. by eexists _, _, _.
Qed.

(** ** Files of the steps *)

Context (proc : context -> bytes -> list bytes -> gmap bytes file -> W -> exit * W) (Quote : bytes -> bytes).

Lemma touches_spawn X ctx name args out err :
  out ∈ X -> err ∈ X -> touches X (spawn (W := W) proc ctx name args out err).
Proof.
  intros Ho He s r s' H p Hp. left. unfold spawn in H. destruct (proc _ _ _ _ _) as [x h]. injection H as <- <-. simpl.
  rewrite !lookup_insert_ne; set_solver.
Qed.

Lemma touches_run X ctx name args : touches X (run (W := W) proc Quote ctx name args).
Proof.
  apply touches_temp_bind. intros out. apply touches_temp; [intros e; touch|]. intros err. touch.
  apply touches_spawn; set_solver.
Qed.

Lemma touches_fill X name data : name ∈ X -> touches X (fill_temp (W := W) name data).
Proof. intros HX. unfold fill_temp. touch. Qed.

Lemma touches_validate X iface : touches X (validateInterfaceName (W := W) Quote iface).
Proof. unfold validateInterfaceName. touch. Qed.

#[local] Hint Resolve touches_run touches_fill touches_validate : awg.

Lemma touches_preserve X c ctx iface config : touches X (preservePrivateKey (W := W) proc Quote c ctx iface config).
Proof. unfold preservePrivateKey. touch. Qed.

Lemma touches_SetPeer c ctx iface p : touches [] (cli_SetPeer (W := W) proc Quote c ctx iface p).
Proof.
  unfold cli_SetPeer. touch. apply touches_temp_bind. intros name. touch. apply touches_fill. set_solver.
Qed.

(** ** Running a command *)

Lemma on_fs_bind_ok {A B} (m : SE FS A) (f : A -> SE (OS W) B) s b s' :
  (on_fs m ≫= f) s = (Ok b, s') ->
  exists a fs, m (os_fs s) = (Ok a, fs) /\ f a (mkOS fs (os_host s) (os_log s)) = (Ok b, s').
Proof. intros H. apply bind_inv in H as (a & s1 & H1 & H). apply on_fs_inv in H1 as (fs & H1 & ->). eauto. Qed.

Lemma attempt_bind {A B} (m : SE (OS W) A) (f : result error A -> SE (OS W) B) s :
  (attempt m ≫= f) s = let '(r, s1) := m s in f r s1.
Proof. unfold mbind, SE_bind, attempt. by destruct (m s). Qed.

Lemma Close_files (s : OS W) p r s' : on_fs (Close p) s = (r, s') -> files s' = files s /\ same_but_files s s'.
Proof.
  intros H. split; [|by eapply on_fs_same]. apply on_fs_inv in H as (fs & H & ->).
  by apply sys_atomic_inv in H as [[_ H]|(? & ? & _ & H & _)].
Qed.

(** The command ran once, saw every file, and its output is the answer. *)
Lemma run_ok ctx name args s o s' :
  run proc Quote ctx name args s = (Ok o, s') ->
  exists fs x, proc ctx name args fs (os_host s) = (x, os_host s') /\ x_err x = None /\ fst o = x_stdout x
    /\ os_log s' = os_log s ++ [(name, args)] /\ files s ⊆ fs.
Proof.
  intros H. apply on_fs_bind_ok in H as (out & fs1 & H1 & H).
  apply CreateTemp_inv in H1 as [(? & [= <-] & Hf1 & Hi1 & _)|(? & [=] & _)].
  apply removing_inv in H as (s1 & H & _ & Hh & Hl). rewrite Hh, Hl. clear Hh Hl s'.
  rewrite attempt_bind in H. destruct (on_fs _ _) as [r2 s2] eqn:H2 in H. apply on_fs_inv in H2 as (fs2 & H2 & ->).
  cbn [os_fs os_host os_log] in *.
  apply CreateTemp_inv in H2 as [(err & -> & Hf2 & Hi2 & _)|(? & -> & _)].
  2:{ rewrite attempt_bind in H. by destruct (on_fs (Close out) _) in H. }
  apply removing_inv in H as (s3 & H & _ & Hh & Hl). rewrite Hh, Hl. clear Hh Hl s1.
  apply bind_inv in H as (runErr & s4 & Hsp & H). unfold spawn in Hsp. cbn [os_fs os_host os_log] in Hsp.
  destruct (proc ctx name args (fs_files fs2) (os_host s)) as [x h] eqn:Hp. injection Hsp as <- <-.
  rewrite attempt_bind in H. destruct (on_fs (Close out) _) as [rc s5] eqn:Hc in H.
  apply Close_files in Hc as [Hc5 [Hh5 Hl5]]. cbn in Hc5, Hh5, Hl5.
  rewrite attempt_bind in H. destruct (on_fs (Close err) _) as [rc' s6] eqn:Hc in H.
  apply Close_files in Hc as [Hc6 [Hh6 Hl6]].
  apply on_fs_bind_ok in H as (so & fs7 & H7 & H). pose proof (ReadFile_files out (os_fs s6)) as Hf7. rewrite H7 in Hf7.
  apply ReadFile_ok in H7 as (f & Hf & ->).
  apply on_fs_bind_ok in H as (se & fs8 & H8 & H). cbn [os_host os_log] in H.
  destruct (x_err x) as [e|] eqn:Hx; [done|]. injection H as <- <-. cbn [os_host os_log fst].
  exists (fs_files fs2), x. rewrite Hh6, Hh5, Hl6, Hl5. split_and!; try done.
  - rewrite Hc6, Hc5 in Hf. rewrite lookup_insert_ne, lookup_insert_eq in Hf.
    + injection Hf as <-. done.
    + intros ->. rewrite Hi1, lookup_insert_eq in Hf2. done.
  - rewrite Hi2, Hi1. etrans; [|by apply insert_subseteq; rewrite Hi1 in Hf2]. by apply insert_subseteq.
Qed.
End removals.

(** ** Which commands a call runs *)

Section logs.
Context {W : Type} {env : FileEnv}.
Context (proc : context -> bytes -> list bytes -> gmap bytes file -> W -> exit * W) (Quote : bytes -> bytes).

(** A call all of whose commands satisfy [P]. *)
Definition logs {A} (P : bytes * list bytes -> Prop) (m : SE (OS W) A) : Prop :=
  forall s r s', m s = (r, s') -> exists cs, os_log s' = os_log s ++ cs /\ Forall P cs.

Lemma logs_ret {A} P (a : A) : logs P (mret a).
Proof. intros s r s' [= <- <-]. exists []. by rewrite app_nil_r. Qed.
Lemma logs_fail {A} P e : logs P (fail (A := A) e).
Proof. intros s r s' [= <- <-]. exists []. by rewrite app_nil_r. Qed.
Lemma logs_of_result {A} P (x : result error A) : logs P (of_result x).
Proof. intros s r s' [= <- <-]. exists []. by rewrite app_nil_r. Qed.
Lemma logs_bind {A B} P (m : SE (OS W) A) (f : A -> SE (OS W) B) : logs P m -> (forall a, logs P (f a)) -> logs P (m ≫= f).
Proof.
  intros Hm Hf s r s' H. apply bind_cases in H as [(a & s1 & H1 & H2)|(e & H & _)]; [|by eapply Hm].
  apply Hm in H1 as (cs1 & Hl1 & H1). apply Hf in H2 as (cs2 & Hl2 & H2). exists (cs1 ++ cs2).
  rewrite Hl2, Hl1, app_assoc. split; [done|]. by apply Forall_app.
Qed.
Lemma logs_attempt {A} P (m : SE (OS W) A) : logs P m -> logs P (attempt m).
Proof. intros Hm s r s' H. apply attempt_inv in H as (r0 & H & _). by eapply Hm. Qed.
Lemma logs_wrapping {A} P pre (m : SE (OS W) A) : logs P m -> logs P (wrapping pre m).
Proof. intros Hm s r s' H. apply wrapping_inv in H as [(a & H & _)|(e & H & _)]; by eapply Hm. Qed.
Lemma logs_on_fs {A} P (m : SE FS A) : logs P (on_fs (W := W) m).
Proof. intros s r s' H. apply on_fs_inv in H as (fs & _ & ->). exists []. by rewrite app_nil_r. Qed.
Lemma logs_removing {A} P name (m : SE (OS W) A) : logs P m -> logs P (removing name m).
Proof.
  intros Hm s r s' H. apply defer_inv in H as (s1 & H & ->). apply Hm in H as (cs & Hl & H). exists cs. split; [|done].
  rewrite <- Hl. unfold ignored, on_fs. by destruct (Remove name (os_fs s1)).
Qed.
(** A temporary file has a name of the given shape. *)
Lemma logs_temp {A} P d pre suf (k : bytes -> SE (OS W) A) :
  (forall n, logs P (k (os_joinPath (if bool_decide (d = []) then TempDir else d) pre ++ format_udec (Z.of_N n) ++ suf))) ->
  logs P (on_fs (CreateTemp d pre suf) ≫= k).
Proof.
  intros Hk s r s' H. apply bind_cases in H as [(a & s1 & H1 & H)|(e & H & _)]; [|by eapply logs_on_fs].
  pose proof (on_fs_same _ _ _ _ H1) as [_ Hl]. apply on_fs_inv in H1 as (fs & H1 & ->).
  apply CreateTemp_inv in H1 as [(? & [= <-] & _ & _ & ->)|(? & [=] & _)]. by apply Hk in H.
Qed.
Lemma logs_spawn (P : bytes * list bytes -> Prop) ctx name args out err : P (name, args) -> logs P (spawn proc ctx name args out err).
Proof.
  intros HP s r s' H. unfold spawn in H. destruct (proc _ _ _ _ _) as [x h]. injection H as <- <-.
  exists [(name, args)]. split; [done|]. by constructor.
Qed.
End logs.

#[export] Hint Resolve logs_ret logs_fail logs_of_result logs_on_fs logs_attempt logs_wrapping logs_spawn : awg.

(** Collect the commands of a call. *)
Ltac collect :=
  repeat match goal with
  | |- logs _ (on_fs (CreateTemp _ _ _) ≫= _) => apply logs_temp; intros ?
  | |- logs _ (_ ≫= _) => apply logs_bind; [|intros ?]
  | |- logs _ (removing _ _) => apply logs_removing
  | |- logs _ (match ?x with _ => _ end) => destruct x
  | |- logs _ (let '(_, _) := ?x in _) => destruct x
  | |- logs _ _ => solve [auto with awg]
  end.

Section commands.
Context {W : Type} {env : FileEnv}.
Context (proc : context -> bytes -> list bytes -> gmap bytes file -> W -> exit * W) (Quote : bytes -> bytes).
Context (num_error : bytes -> bytes -> bytes) (c : CLIExecutor).

Lemma logs_run (P : bytes * list bytes -> Prop) ctx name args : P (name, args) -> logs P (run (W := W) proc Quote ctx name args).
Proof. intros HP. unfold run. collect. Qed.
#[local] Hint Resolve logs_run : awg.

Lemma logs_writeAtomic P path data mode : logs P (writeAtomic (W := W) path data mode).
Proof. unfold writeAtomic. collect. Qed.
Lemma logs_fill P name data : logs P (fill_temp (W := W) name data).
Proof. unfold fill_temp. collect. Qed.
Lemma logs_validate P iface : logs P (validateInterfaceName (W := W) Quote iface).
Proof. unfold validateInterfaceName. collect. Qed.
Lemma logs_preserve (P : bytes * list bytes -> Prop) ctx iface config :
  P (AwgBinary c, [ #"showconf"; iface ]) -> logs P (preservePrivateKey (W := W) proc Quote c ctx iface config).
Proof. intros HP. unfold preservePrivateKey. collect. Qed.
#[local] Hint Resolve logs_writeAtomic logs_fill logs_validate logs_preserve : awg.

(** The calls of the executor interface. *)
Inductive call : Type :=
| CallSyncConf (config : bytes) | CallSetPeer (p : PeerSpec) | CallRemovePeer (key : bytes) | CallShowDump | CallShowConf
| CallUp (path : bytes) | CallDown.

Definition perform (ctx : context) (iface : bytes) (k : call) : SE (OS W) unit :=
  match k with
  | CallSyncConf config => cli_SyncConf proc Quote c ctx iface config
  | CallSetPeer p => cli_SetPeer proc Quote c ctx iface p
  | CallRemovePeer key => cli_RemovePeer proc Quote c ctx iface key
  | CallShowDump => cli_ShowDump proc Quote num_error c ctx iface ;; mret tt
  | CallShowConf => cli_ShowConf proc Quote c ctx iface ;; mret tt
  | CallUp path => cli_InterfaceUp proc Quote c ctx iface path
  | CallDown => cli_InterfaceDown proc Quote c ctx iface
  end.

(** The name of a temporary file. *)
Definition temp_name (dir pre suf : bytes) (n : N) : bytes :=
  os_joinPath (if bool_decide (dir = []) then TempDir else dir) pre ++ format_udec (Z.of_N n) ++ suf.

(** The commands a call may run: of a config only the files it is written to, of
    a peer everything but its preshared key are arguments. *)
Definition argv (iface : bytes) (k : call) (cmd : bytes * list bytes) : Prop :=
  let awg args := cmd = (AwgBinary c, args) in
  let quick args := cmd = (AwgQuickBinary c, args) in
  let conf dir := path_Join dir (iface ++ #".conf") in
  let link := cmd = (#"ip", [ #"link"; #"show"; iface ]) in
  match k with
  | CallSyncConf _ =>
      awg [ #"showconf"; iface ] \/ quick [ #"strip"; conf (RenderedDir c) ]
      \/ exists n, awg [ #"syncconf"; iface; temp_name (RenderedDir c) (iface ++ #"-stripped-") #".conf" n ]
  | CallSetPeer p =>
      exists psk, awg ([ #"set"; iface; #"peer"; ps_PublicKey p ] ++ psk ++ set_args p)
        /\ (psk = [] \/ exists n, psk = [ #"preshared-key"; temp_name [] #"awg-psk-" [] n ])
  | CallRemovePeer key => awg [ #"set"; iface; #"peer"; key; #"remove" ]
  | CallShowDump => awg [ #"show"; iface; #"dump" ]
  | CallShowConf => awg [ #"showconf"; iface ]
  | CallUp path => link \/ quick [ #"up"; if bool_decide (path = []) then conf (bootstrapConfigDir c) else path ]
  | CallDown => link \/ quick [ #"down"; iface ]
  end.

Lemma perform_logs ctx iface k : logs (argv iface k) (perform ctx iface k).
Proof.
  destruct k as [config|p|key| | |path|]; cbn [perform].
  - unfold cli_SyncConf. collect; first [apply logs_preserve|apply logs_run]; cbn; eauto.
  - unfold cli_SetPeer. collect; apply logs_run; cbn; [exists []|eexists [_; _]]; split; eauto.
  - unfold cli_RemovePeer. collect; by apply logs_run.
  - unfold cli_ShowDump. collect; by apply logs_run.
  - unfold cli_ShowConf. collect; by apply logs_run.
  - unfold cli_InterfaceUp. collect; try apply logs_attempt; apply logs_run; cbn; auto.
  - unfold cli_InterfaceDown. collect; try apply logs_attempt; apply logs_run; cbn; auto.
Qed.

(** C30: (Commands of the host executor.) A call with an interface name that is not
    acceptable runs nothing, changes nothing and fails; any other call runs only
    the commands of [argv], in which a config occurs only as the names of the files
    it was written to and a preshared key only as the name of a temporary file, so
    that no secret key ever shows in a process list. *)
Theorem cli_commands ctx iface k s :
  let '(r, s') := perform ctx iface k s in
  (exists cs, os_log s' = os_log s ++ cs /\ Forall (argv iface k) cs)
  /\ (ValidInterfaceName iface = false -> s' = s /\ r = Err (EMsg (#"awg: invalid interface name " ++ Quote iface))).
Proof.
  destruct (perform ctx iface k s) as [r s'] eqn:H. split; [by eapply perform_logs|].
  intros Hv. assert (validateInterfaceName (W := W) Quote iface s = (Err (EMsg (#"awg: invalid interface name " ++ Quote iface)), s)) as E.
  { unfold validateInterfaceName. by rewrite Hv. }
  destruct k; cbn [perform] in H; unfold cli_SyncConf, cli_SetPeer, cli_RemovePeer, cli_ShowDump, cli_ShowConf,
    cli_InterfaceUp, cli_InterfaceDown, mbind, SE_bind in H; rewrite E in H; by injection H as <- <-.
Qed.
End commands.

(** ** Files of a call *)

Section installed.
Context {W : Type} {env : FileEnv}.
Context (proc : context -> bytes -> list bytes -> gmap bytes file -> W -> exit * W) (Quote : bytes -> bytes).
Context (num_error : bytes -> bytes -> bytes) (c : CLIExecutor).

#[local] Hint Resolve touches_run touches_fill touches_validate touches_preserve : awg.

(** Every file is as it was, but for what could not be removed. *)
Definition kept (s s' : OS W) : Prop := forall p, files s' !! p = files s !! p \/ left_over s p.

Lemma touches_kept {A} (m : SE (OS W) A) s r s' : touches [] m -> m s = (r, s') -> kept s s'.
Proof. intros Hm H p. eapply Hm; [exact H|set_solver]. Qed.

Lemma kept_trans s1 s2 s3 : kept s1 s2 -> kept s2 s3 -> kept s1 s3.
Proof. intros H1 H2 p. by eapply touches_then. Qed.

Lemma conf_path_last d iface : ValidInterfaceName iface = true -> last (path_Join d (iface ++ #".conf")) = Some "f"%char.
Proof.
  intros Hv. destruct (ValidInterfaceName_safe iface Hv) as (_ & Hn & _ & _ & Hs & _).
  rewrite path_Join_last.
  - by rewrite last_app_ne.
  - assert (Hlen : forall t, (length t < 5)%nat -> iface ++ #".conf" <> t).
    { intros t Ht E. apply (f_equal length) in E. rewrite length_app in E.
      change (length #".conf") with 5%nat in E. lia. }
    split_and!; [apply Hlen; by vm_compute; lia..|].
    apply not_elem_of_app. split; [done|]. apply (bool_decide_unpack _). by vm_compute.
Qed.

(** The key of the config itself wins; otherwise keys are carried over. *)
Lemma preserve_carried ctx iface config s r s' :
  preservePrivateKey (W := W) proc Quote c ctx iface config s = (r, s') ->
  exists c', r = Ok c' /\ carried config c' /\ (InterfaceValue config #"PrivateKey" <> [] -> c' = config).
Proof.
  unfold preservePrivateKey. destruct (bool_decide_reflect (InterfaceValue config #"PrivateKey" = [])) as [E|E]; cbn [negb].
  2:{ intros [= <- <-]. exists config. split_and!; [done|constructor|done]. }
  assert (Hb : forall cfg s1, carried config cfg ->
    (b ← attempt (on_fs (ReadFile (path_Join (bootstrapConfigDir c) (iface ++ #".conf"))));
     match b with Ok b => mret (PreserveInterfacePrivateKey cfg b) | Err _ => mret cfg end) s1 = (r, s') ->
    exists c', r = Ok c' /\ carried config c' /\ (InterfaceValue config #"PrivateKey" <> [] -> c' = config)).
  { intros cfg s1 Hc. rewrite attempt_bind. destruct (on_fs _ s1) as [[b|e] s2]; intros [= <- <-];
      eexists; split_and!; try done. by constructor. }
  rewrite attempt_bind. destruct (run _ _ _ _ _ s) as [[[current se]|e] s1]; [|apply Hb; constructor].
  destruct (negb _); [|apply Hb; by repeat constructor]. intros [= <- <-]. eexists. split_and!; [done|by repeat constructor|done].
Qed.

Definition sync_tail (ctx : context) (iface path : bytes) : SE (OS W) unit :=
  stripped ← run proc Quote ctx (AwgQuickBinary c) [ #"strip"; path ];
  let stripped := sanitizeSyncConf (fst stripped) in
  tmp ← on_fs (CreateTemp (RenderedDir c) (iface ++ #"-stripped-") #".conf");
  removing tmp (
    fill_temp tmp stripped ;;
    run proc Quote ctx (AwgBinary c) [ #"syncconf"; iface; tmp ] ;; mret tt).

Lemma touches_sync_tail ctx iface path : touches [] (sync_tail ctx iface path).
Proof. unfold sync_tail. touch. apply touches_temp_bind. intros name. touch. apply touches_fill. set_solver. Qed.

(** What [SyncConf] leaves: at every path the file that was there; or at the path of
    the rendered config the complete new one, for certain after a success; or a file
    that was not there before and whose removal, or whose renaming to that path, failed. *)
Definition installed (iface config : bytes) (s : OS W) (r : result error unit) (s' : OS W) : Prop :=
  let path := path_Join (RenderedDir c) (iface ++ #".conf") in
  exists c', carried config c' /\ (InterfaceValue config #"PrivateKey" <> [] -> c' = config)
    /\ (r = Ok tt -> files s' !! path = Some (mkFile c' mode_private))
    /\ forall p, files s' !! p = files s !! p
               \/ (p = path /\ files s' !! p = Some (mkFile c' mode_private))
               \/ (files s !! p = None /\ (removal_fails p \/ rename_fails p path)).

Lemma SyncConf_installed ctx iface config s r s' :
  cli_SyncConf proc Quote c ctx iface config s = (r, s') -> installed iface config s r s'.
Proof.
  assert (Hnot : forall e s', kept s s' -> installed iface config s (Err e) s').
  { intros e s0 Hk. exists config. split_and!; [constructor|done|done|]. intros p. destruct (Hk p) as [E|[H1 H2]]; auto. }
  unfold cli_SyncConf. intros H. apply bind_cases in H as [([] & s0 & Hv & H)|(e & Hv & ->)].
  2:{ apply Hnot. by eapply touches_kept; [|exact Hv]; auto with awg. }
  assert (s0 = s /\ ValidInterfaceName iface = true) as [-> Hval].
  { unfold validateInterfaceName in Hv. destruct (ValidInterfaceName iface); by injection Hv. }
  apply bind_cases in H as [(c' & s1 & Hp & H)|(e & Hp & ->)].
  2:{ by apply preserve_carried in Hp as (? & [=] & _). }
  assert (kept s s1) as Hf1 by (eapply touches_kept; [|exact Hp]; by apply touches_preserve).
  apply preserve_carried in Hp as (? & [= <-] & Hc & Hk).
  apply bind_cases in H as [([] & s2 & Hm & H)|(e & Hm & ->)].
  2:{ apply Hnot. eapply kept_trans; [exact Hf1|]. eapply touches_kept; [|exact Hm]. auto with awg. }
  assert (kept s s2) as Hf2.
  { eapply kept_trans; [exact Hf1|]. eapply touches_kept; [|exact Hm]. auto with awg. }
  set (path := path_Join (RenderedDir c) (iface ++ #".conf")) in *.
  apply bind_cases in H as [([] & s3 & Hw & H)|(e & Hw & ->)]; apply writeAtomic_spec in Hw as [_ Hw];
    try (by apply conf_path_last).
  - destruct Hw as [[_ Hw]|(? & [=] & _)]. assert (kept s3 s') as Hf3 by (eapply touches_kept; [|exact H]; apply touches_sync_tail).
    assert (Hnew : files s' !! path = Some (mkFile c' mode_private)).
    { destruct (Hf3 path) as [->|[E _]]; [by rewrite Hw, lookup_insert_eq|]. by rewrite Hw, lookup_insert_eq in E. }
    exists c'. split_and!; [done..|]. intros p. destruct (decide (p = path)) as [->|Hne]; [by right; left|].
    assert (files s3 !! p = files s2 !! p) as E3 by (by rewrite Hw, lookup_insert_ne).
    destruct (touches_then (Hf2 p) (touches_then (or_introl E3) (Hf3 p))) as [E|[E1 E2]]; auto.
  - destruct Hw as [[[=] _]|(? & [= <-] & [Hw|(tmp & f & H1 & _ & Hw & H2)])].
    + apply Hnot. eapply kept_trans; [exact Hf2|]. intros p. left. by rewrite Hw.
    + exists c'. split_and!; [done..|]. intros p. destruct (decide (p = tmp)) as [->|Hne].
      * right. right. split; [|done]. destruct (Hf2 tmp) as [E|[E _]]; congruence.
      * destruct (Hf2 p) as [E|[E1 E2]]; [left; by rewrite Hw, lookup_insert_ne|auto].
Qed.

(** C31: (No leftovers, no half-written config.) Whatever file operation or command fails,
    a call leaves at every path the file that was there, except that [SyncConf] may
    replace the rendered config of its interface by the complete new one, private to the
    owner, and does so whenever it succeeds; what else can be left is a file that was
    not there before - of an output, a preshared key, a stripped or a new config - and
    only if removing that file, or renaming it to the rendered config, failed. *)
Theorem cli_files ctx iface k s r s' :
  perform proc Quote num_error c ctx iface k s = (r, s') ->
  match k with CallSyncConf config => installed iface config s r s' | _ => kept s s' end.
Proof.
  intros H. destruct k; cbn [perform] in H; [by eapply SyncConf_installed|..];
    (eapply touches_kept; [|exact H]); [by apply touches_SetPeer|..];
    unfold cli_RemovePeer, cli_ShowDump, cli_ShowConf, cli_InterfaceUp, cli_InterfaceDown; touch.
Qed.
End installed.

(** ** The law of the interface *)

(** The parser of a config passes over a line it has no use for. *)
Definition inert (raw : bytes) : Prop := forall st, parse_step st raw = st.

Lemma fold_inert (drop : bytes -> bool) ls st :
  (forall l, drop l = true -> inert l) ->
  fold_left parse_step (filter (fun l => drop l = false) ls) st = fold_left parse_step ls st.
Proof.
  intros Hd. revert st. induction ls as [|l ls IH]; intros st; [done|]. rewrite filter_cons. case_decide as E; cbn [fold_left].
  - apply IH.
  - rewrite Hd by (by destruct (drop l)). apply IH.
Qed.

(** The keys the parser reads. *)
Definition read_keys : list bytes :=
  [ #"privatekey"; #"listenport"; #"publickey"; #"presharedkey"; #"allowedips"; #"endpoint"; #"persistentkeepalive" ].

Lemma other_key_inert ks k v : Forall (fun t => t ∉ read_keys) ks -> ToLower k ∈ ks ->
  (forall ir, set_interface ir k v = ir) /\ (forall p, set_peer p k v = p).
Proof.
  intros Hks Hk. eapply Forall_forall in Hks; [|exact Hk]. simpl in Hks.
  assert (Hne : forall t, t ∈ read_keys -> bool_decide (ToLower k = t) = false).
  { intros t Ht. apply bool_decide_eq_false_2. by intros <-. }
  unfold set_interface, set_peer.
  split; [intros ir|intros [pub psk ips ep ka]]; rewrite !Hne; try done; apply (bool_decide_unpack _); by vm_compute.
Qed.

(** A line whose key is none of them is passed over. *)
Lemma other_line_inert ks raw k v :
  Forall (fun t => t ∉ read_keys) ks -> bracketed (TrimSpace raw) = false ->
  Cut (TrimSpace raw) "="%char = Some (k, v) -> ToLower (TrimSpace k) ∈ ks -> inert raw.
Proof.
  intros Hks Hb Hc Hk st. unfold parse_step. rewrite Hb, Hc. destruct (skipped (TrimSpace raw)); [done|].
  destruct (other_key_inert ks (TrimSpace k) (TrimSpace v) Hks Hk) as [Hi Hp].
  rewrite Hi, Hp. destruct st as [[ir ps] sec cur]; cbn. repeat case_match; done.
Qed.

Lemma junk_inert raw : isEmptySpecialJunkLine raw = true -> inert raw.
Proof.
  intros Hj. pose proof (junk_not_bracketed _ Hj) as Hb. unfold isEmptySpecialJunkLine in Hj.
  destruct (skipped (TrimSpace raw)); [done|]. destruct (Cut (TrimSpace raw) "="%char) as [[k v]|] eqn:Hc; [|done].
  case_bool_decide as Hk; [|done]. eapply other_line_inert; [|done..]. apply (bool_decide_unpack _). by vm_compute.
Qed.

Lemma parse_sanitize s : parseRenderedConfig (sanitizeSyncConf s) = parseRenderedConfig s.
Proof.
  unfold parseRenderedConfig. destruct (sanitize_lines s) as (ls & r & -> & ->). rewrite !fold_left_app.
  rewrite (fold_inert isEmptySpecialJunkLine) by apply junk_inert. cbn [fold_left].
  destruct (isEmptySpecialJunkLine r) eqn:E; [|done]. by rewrite (junk_inert r E).
Qed.

(** What the executor relies on of amneziawg-tools: [awg-quick strip] removes only
    options of awg-quick, so the peers of a rendered config stay; [awg syncconf]
    makes the peers of the interface those of the file; [awg show dump] prints the
    documented rows, each peer once. *)
Class AwgTools {W} (proc : context -> bytes -> list bytes -> gmap bytes file -> W -> exit * W) (c : CLIExecutor) : Prop := {
  strip_peers ctx path fs w x w' i p peers conf mode :
    printable_interface i -> printable_profile p -> Forall printable_peer peers -> carried (Server i p peers) conf ->
    fs !! path = Some (mkFile conf mode) ->
    proc ctx (AwgQuickBinary c) [ #"strip"; path ] fs w = (x, w') -> x_err x = None ->
    pc_peers (parseRenderedConfig (x_stdout x)) = pc_peers (parseRenderedConfig conf);
  syncconf_dump ctx ctx' iface path fs fs' f w x w' x' w'' :
    ValidInterfaceName iface = true -> fs !! path = Some f ->
    Forall plain (ps_PublicKey <$> pc_peers (parseRenderedConfig (f_data f))) ->
    proc ctx (AwgBinary c) [ #"syncconf"; iface; path ] fs w = (x, w') -> x_err x = None ->
    proc ctx' (AwgBinary c) [ #"show"; iface; #"dump" ] fs' w' = (x', w'') -> x_err x' = None ->
    exists ir params ps, x_stdout x' = show_dump ir params ps
      /\ iface_ok ir params /\ Forall peer_ok ps
      /\ (list_to_set (pr_PublicKey <$> ps) : gset bytes)
         = list_to_set (ps_PublicKey <$> pc_peers (parseRenderedConfig (f_data f)))
      /\ NoDup (pr_PublicKey <$> ps) }.

Section laws.
Context {W : Type} {env : FileEnv}.
Context (proc : context -> bytes -> list bytes -> gmap bytes file -> W -> exit * W) (Quote : bytes -> bytes).
Context (num_error : bytes -> bytes -> bytes) (c : CLIExecutor) {HT : AwgTools proc c}.

(** The commands of a successful [SyncConf] and the files they read. *)
Lemma SyncConf_runs ctx iface config s s' :
  cli_SyncConf proc Quote c ctx iface config s = (Ok tt, s') ->
  exists conf fs1 w1 x1 h1 fs2 x2 path tmp, carried config conf
    /\ fs1 !! path = Some (mkFile conf mode_private)
    /\ proc ctx (AwgQuickBinary c) [ #"strip"; path ] fs1 w1 = (x1, h1) /\ x_err x1 = None
    /\ fs2 !! tmp = Some (mkFile (sanitizeSyncConf (x_stdout x1)) mode_private)
    /\ proc ctx (AwgBinary c) [ #"syncconf"; iface; tmp ] fs2 h1 = (x2, os_host s') /\ x_err x2 = None.
Proof.
  unfold cli_SyncConf. intros H. apply bind_inv in H as ([] & s0 & Hv & H).
  assert (ValidInterfaceName iface = true) as Hval.
  { unfold validateInterfaceName in Hv. by destruct (ValidInterfaceName iface). }
  apply bind_inv in H as (conf & s1 & Hp & H). apply preserve_carried in Hp as (? & [= <-] & Hc & _).
  apply bind_inv in H as ([] & s2 & _ & H).
  apply bind_inv in H as ([] & s3 & Hw & H). apply writeAtomic_spec in Hw as [_ [[_ Hw]|(? & [=] & _)]];
    [|by apply conf_path_last].
  apply bind_inv in H as (o & s4 & Hr & H). apply run_ok in Hr as (fs1 & x1 & H1 & Hx1 & Ho & _ & Hsub1).
  apply on_fs_bind_ok in H as (tmp & fs & Ht & H). apply CreateTemp_inv in Ht as [(? & [= <-] & _ & Hi & _)|(? & [=] & _)].
  apply removing_inv in H as (s5 & H & _ & Hh & _). rewrite Hh.
  apply bind_inv in H as ([] & s6 & Hf & H).
  apply bind_inv in H as (o2 & s7 & Hr & H). injection H as ->.
  apply run_ok in Hr as (fs2 & x2 & H2 & Hx2 & _ & _ & Hsub2).
  assert (files s6 !! tmp = Some (mkFile (sanitizeSyncConf (fst o)) mode_private) /\ os_host s6 = os_host s4) as [Hf6 Hh6].
  { unfold fill_temp in Hf. rewrite attempt_bind in Hf. destruct (on_fs _ _) as [rw sw] eqn:Ew in Hf.
    pose proof (on_fs_same _ _ _ _ Ew) as [Hhw _]. apply on_fs_inv in Ew as (fsw & Ew & ->).
    apply WriteString_inv in Ew as [[-> Hiw]|(e & n & -> & _)].
    - apply Close_files in Hf as [Hcf [Hch _]]. split; [|by rewrite Hch]. rewrite Hcf. cbn in *. rewrite Hiw, Hi.
      by rewrite alter_insert_eq, lookup_insert_eq.
    - rewrite attempt_bind in Hf. by destruct (on_fs (Close tmp) _) in Hf. }
  exists conf, fs1, (os_host s3), x1, (os_host s4), fs2, x2. do 2 eexists. split_and!; try done.
  - eapply lookup_weaken; [|exact Hsub1]. rewrite Hw. apply lookup_insert_eq.
  - rewrite <- Ho. eapply lookup_weaken; [exact Hf6|done].
  - by rewrite <- Hh6.
Qed.

Lemma key_text_plain k : key_text k -> plain k.
Proof.
  intros H. assert (Hn : forall x, ~ solid_byte x -> x ∉ k).
  { intros x Hx Hin. apply Hx. by eapply Forall_forall in H. }
  split_and!; apply Hn; by vm_compute; intros [??].
Qed.

Lemma cli_rendered_dump ctx ctx' iface i p peers config s s' ir ps s'' :
  ValidInterfaceName iface = true -> printable_interface i -> printable_profile p -> Forall printable_peer peers ->
  Forall (fun e => key_text (pe_PublicKey e)) peers ->
  carried (Server i p peers) config ->
  cli_SyncConf proc Quote c ctx iface config s = (Ok tt, s') ->
  cli_ShowDump proc Quote num_error c ctx' iface s' = (Ok (ir, ps), s'') ->
  (list_to_set (pr_PublicKey <$> ps) : gset bytes) = list_to_set (pe_PublicKey <$> peers)
  /\ NoDup (pr_PublicKey <$> ps).
Proof.
  intros Hv Hi Hp Hps Hk Hc Hsync Hdump.
  apply SyncConf_runs in Hsync as (conf & fs1 & w1 & x1 & h1 & fs2 & x2 & path & tmp & Hcc & Hf1 & H1 & Hx1 & Hf2 & H2 & Hx2).
  pose proof (carried_trans _ _ _ Hc Hcc) as Hcar.
  pose proof (strip_peers _ _ _ _ _ _ _ _ _ _ _ Hi Hp Hps Hcar Hf1 H1 Hx1) as Hstrip.
  pose proof (fake_conf_peers i p peers conf Hi Hp Hps Hcar) as Hset.
  unfold cli_ShowDump in Hdump. apply bind_inv in Hdump as ([] & s0 & Hval & Hdump).
  assert (s0 = s') as -> by (unfold validateInterfaceName in Hval; rewrite Hv in Hval; by injection Hval).
  apply bind_inv in Hdump as (o & s1 & Hr & Hd). apply run_ok in Hr as (fs3 & x3 & H3 & Hx3 & Ho & _ & _).
  injection Hd as Hd _. rewrite Ho in Hd.
  assert (Forall plain (ps_PublicKey <$> pc_peers (parseRenderedConfig (sanitizeSyncConf (x_stdout x1))))) as Hplain.
  { rewrite parse_sanitize, Hstrip. apply Forall_forall. intros k Hin. apply key_text_plain.
    assert (k ∈ (list_to_set (pe_PublicKey <$> peers) : gset bytes)) as Hk' by (rewrite <- Hset; by apply elem_of_list_to_set).
    apply elem_of_list_to_set, list_elem_of_fmap in Hk' as (e & -> & He). by eapply Forall_forall in Hk. }
  destruct (syncconf_dump _ _ _ _ _ fs3 _ _ _ _ _ _ Hv Hf2 Hplain H2 Hx2 H3 Hx3)
    as (ir0 & params & ps0 & Hout & Hio & Hpo & Hs0 & Hn).
  cbn [f_data] in Hs0. rewrite parse_sanitize, Hstrip, Hset in Hs0.
  rewrite Hout, parse_show_dump in Hd by done. by injection Hd as <- <-.
Qed.

#[export] Instance CliExecutor_Laws : @ExecutorLaws (OS W) (CliExecutor proc Quote num_error c) :=
  { SyncConf_dump := cli_rendered_dump }.
End laws.
