(* ===== verification/SimTools.v ===== *)
(** * SimTools: a small simulation of amneziawg-tools

    A host of interfaces and the commands of the tools on it, concrete enough to
    run the command-line executor.  It keeps the laws of [AwgTools], so they can
    hold; the witnesses of the theorems about the executor run on it. *)

From S2P Require Import Prelude GoStrings Strconv Sorting Errors Effects Files Profile AwgConfig Render Executor Dump CliExecutor FakeExecutor CliFacts.

Record sim_iface : Type := mkSim { si_priv : bytes; si_pub : bytes; si_port : Z; si_peers : list bytes }.
Abbreviation sim_host := (gmap bytes sim_iface).

Definition sim_ok (out : bytes) : exit := mkExit out [] None.
Definition sim_error (text : bytes) : exit := mkExit [] text (Some (EMsg #"exit status 1")).

(** A line with an option of awg-quick. *)
Definition quick_keys : list bytes :=
  [ #"address"; #"dns"; #"mtu"; #"table"; #"preup"; #"postup"; #"predown"; #"postdown"; #"saveconfig" ].
Definition quick_line (raw : bytes) : bool :=
  let line := TrimSpace raw in
  if bracketed line then false
  else match Cut line "="%char with
       | Some (k, _) => bool_decide (ToLower (TrimSpace k) ∈ quick_keys)
       | None => false
       end.
Definition sim_strip (conf : bytes) : bytes := Join (filter (fun l => quick_line l = false) (Split conf nl)) [nl].

Definition sim_peer (key : bytes) : PeerRuntime := mkPeerRuntime key [] [] [] None 0 0 0 [].
Definition sim_runtime (i : sim_iface) : InterfaceRuntime := mkInterfaceRuntime (si_priv i) (si_pub i) (si_port i) 0.

(** A key of a length the simulated kernel takes. *)
Definition sim_key (k : bytes) : Prop := plain k /\ (length k <= 64)%nat.
#[export] Instance sim_key_dec k : Decision (sim_key k).
Proof. unfold sim_key. apply _. Defined.

Definition sim_printable (i : sim_iface) : Prop :=
  field_ok (si_priv i) /\ field_ok (si_pub i) /\ (min_int64 <= si_port i /\ si_port i <= max_int64)
  /\ Z.of_nat (length (interface_row (sim_runtime i) [])) < max_token /\ Forall sim_key (si_peers i).
#[export] Instance sim_printable_dec i : Decision (sim_printable i).
Proof. unfold sim_printable. apply _. Defined.

Definition sim_syncconf (i : sim_iface) (conf : bytes) : sim_iface :=
  let priv := InterfaceValue conf #"PrivateKey" in
  mkSim (if bool_decide (priv = []) then si_priv i else priv) (si_pub i) (si_port i)
    (remove_dups (ps_PublicKey <$> pc_peers (parseRenderedConfig conf))).

(** The command line. *)
Definition sim_proc (ctx : context) (name : bytes) (args : list bytes) (fs : gmap bytes file) (h : sim_host) : exit * sim_host :=
  match ctx with
  | Some e => (mkExit [] [] (Some e), h)
  | None =>
      match args with
      | [verb; path] =>
          if bool_decide (name = #"awg-quick" /\ verb = #"strip") then
            match fs !! path with
            | Some f => (sim_ok (sim_strip (f_data f)), h)
            | None => (sim_error #"no such config", h)
            end
          else if bool_decide (name = #"awg" /\ verb = #"showconf") then
            match h !! path with
            | Some i => (sim_ok (#"[Interface]" ++ [nl] ++ #"PrivateKey = " ++ si_priv i ++ [nl]), h)
            | None => (sim_error #"No such device", h)
            end
          else (sim_error #"unknown command", h)
      | [verb; iface; what] =>
          if bool_decide (name = #"awg" /\ verb = #"syncconf") then
            match h !! iface, fs !! what with
            | Some i, Some f => (sim_ok [], <[iface := sim_syncconf i (f_data f)]> h)
            | _, _ => (sim_error #"No such device", h)
            end
          else if bool_decide (name = #"awg" /\ verb = #"show" /\ what = #"dump") then
            match h !! iface with
            | Some i => if bool_decide (sim_printable i)
                        then (sim_ok (show_dump (sim_runtime i) [] (sim_peer <$> si_peers i)), h)
                        else (sim_error #"unprintable", h)
            | None => (sim_error #"No such device", h)
            end
          else if bool_decide (name = #"ip") then
            (if bool_decide (is_Some (h !! what)) then sim_ok [] else sim_error #"does not exist", h)
          else (sim_error #"unknown command", h)
      | _ => (sim_error #"unknown command", h)
      end
  end.

(** ** The laws *)

Lemma quick_inert raw : quick_line raw = true -> inert raw.
Proof.
  unfold quick_line. destruct (bracketed (TrimSpace raw)) eqn:Hb; [done|].
  destruct (Cut (TrimSpace raw) "="%char) as [[k v]|] eqn:Hc; [|done]. intros H%bool_decide_eq_true.
  eapply other_line_inert; [|done..]. apply (bool_decide_unpack _). by vm_compute.
Qed.

Lemma sim_strip_parse conf : parseRenderedConfig (sim_strip conf) = parseRenderedConfig conf.
Proof.
  unfold parseRenderedConfig, sim_strip. rewrite <- (fold_inert quick_line (Split conf nl)) by apply quick_inert.
  destruct (filter (fun l => quick_line l = false) (Split conf nl)) as [|l ls] eqn:E; [done|].
  rewrite Split_Join; [done..|]. rewrite <- E. apply Forall_sublist_filter, Split_pieces.
Qed.

Lemma field_ok_nil : field_ok [].
Proof. apply (bool_decide_unpack _). by vm_compute. Qed.

Lemma sim_peer_ok k : sim_key k -> peer_ok (sim_peer k).
Proof.
  intros [Hk Hl]. constructor;
    cbn [sim_peer pr_PublicKey pr_PresharedKey pr_Endpoint pr_AllowedIPs pr_LastHandshake pr_RxBytes pr_TxBytes
         pr_KeepaliveSecs pr_KeepaliveRange].
  - done.
  - apply field_ok_nil.
  - apply field_ok_nil.
  - constructor.
  - done.
  - by vm_compute.
  - by vm_compute.
  - by exists KeepaliveOff.
  - unfold short, peer_row, peer_fields. rewrite Join_cons by done. rewrite length_app.
    cbn [sim_peer pr_PublicKey]. set (rest := _ ++ Join _ _).
    assert (length rest < 100)%nat by (vm_compute; lia). unfold max_token. lia.
Qed.

Lemma sim_peer_keys (l : list bytes) : pr_PublicKey <$> (sim_peer <$> l) = l.
Proof. rewrite <- list_fmap_compose. apply list_fmap_id. Qed.

Lemma sim_strip_law ctx path fs h x h' f :
  fs !! path = Some f -> sim_proc ctx #"awg-quick" [ #"strip"; path ] fs h = (x, h') -> x_err x = None ->
  x_stdout x = sim_strip (f_data f).
Proof.
  intros Hf. unfold sim_proc. destruct ctx as [e|]; [by intros [= <- <-]|].
  rewrite bool_decide_eq_true_2 by done. rewrite Hf. by intros [= <- <-].
Qed.

Lemma sim_syncconf_law ctx ctx' iface path fs fs' f h x h' x' h'' :
  fs !! path = Some f -> sim_proc ctx #"awg" [ #"syncconf"; iface; path ] fs h = (x, h') -> x_err x = None ->
  sim_proc ctx' #"awg" [ #"show"; iface; #"dump" ] fs' h' = (x', h'') -> x_err x' = None ->
  exists i, sim_printable (sim_syncconf i (f_data f))
    /\ x_stdout x' = show_dump (sim_runtime (sim_syncconf i (f_data f))) []
                       (sim_peer <$> si_peers (sim_syncconf i (f_data f))).
Proof.
  intros Hf. unfold sim_proc. destruct ctx as [e|]; [by intros [= <- <-]|]. destruct ctx' as [e|]; [by intros _ _ [= <- <-]|].
  rewrite bool_decide_eq_true_2 by done. rewrite Hf. destruct (h !! iface) as [i|]; [|by intros [= <- <-]].
  intros [= <- <-] _. rewrite bool_decide_eq_false_2 by (by intros [_ ?]). rewrite bool_decide_eq_true_2 by done.
  rewrite lookup_insert_eq. case_bool_decide as Hp; [|by intros [= <- <-]]. intros [= <- <-] _. by exists i.
Qed.

#[export] Instance SimTools : AwgTools sim_proc NewCLIExecutor.
Proof.
  split.
  - intros ctx path fs w x w' i p peers conf mode _ _ _ _ Hf H Hx.
    rewrite (sim_strip_law _ _ _ _ _ _ _ Hf H Hx). by rewrite sim_strip_parse.
  - intros ctx ctx' iface path fs fs' f w x w' x' w'' _ Hf _ H Hx H' Hx'.
    destruct (sim_syncconf_law _ _ _ _ _ _ _ _ _ _ _ _ Hf H Hx H' Hx') as (i & Hp & Hout).
    destruct Hp as (Hpriv & Hpub & Hport & Hlen & Hkeys). eexists _, _, _. split; [exact Hout|]. split_and!.
    + constructor; [done|done|exact Hport|constructor|by vm_compute|exact Hlen].
    + apply Forall_fmap. eapply Forall_impl; [exact Hkeys|]. intros k Hk. by apply sim_peer_ok.
    + rewrite sim_peer_keys. apply set_eq. intros k. rewrite !elem_of_list_to_set. cbn [si_peers sim_syncconf].
      apply elem_of_remove_dups.
    + rewrite sim_peer_keys. apply NoDup_remove_dups.
Qed.

(** Nothing fails; temporary names are numbered. *)
Definition sim_env : FileEnv := {| fault := fun _ _ => Done; temp_number := N.of_nat; TempDir := #"/tmp" |}.

(** A host with one interface, and a bootstrap config. *)
Definition sim_world : OS sim_host :=
  mkOS (mkFS (<[ #"/etc/amnezia/bootstrap/awg0.conf" := mkFile (#"[Interface]" ++ [nl] ++ #"PrivateKey = boot=" ++ [nl]) 384 ]> ∅) 0)
    (<[ #"awg0" := mkSim #"priv=" #"srv=" 51820 [] ]> ∅) [].

Definition sim_config : bytes := Server demo_interface demo_profile [demo_peer #"aa=" #"phone"].

(** Applying a rendered config: it is installed, the temporary files are gone. *)
Lemma cli_files_witness :
  let s' := snd (@perform _ sim_env sim_proc (fun b => b) (fun _ b => b) NewCLIExecutor None #"awg0" (CallSyncConf sim_config) sim_world) in
  @installed _ sim_env NewCLIExecutor #"awg0" sim_config sim_world (Ok tt) s'
  /\ length (os_log s') = 2%nat.
Proof.
  intros s'. split.
  - apply (@cli_files _ sim_env sim_proc (fun b => b) (fun _ b => b) NewCLIExecutor
             None #"awg0" (CallSyncConf sim_config) sim_world (Ok tt) s').
    vm_compute. reflexivity.
  - vm_compute. reflexivity.
Defined.
