(* ===== verification/NodeAgent.v ===== *)
(** * NodeAgent: the remote executor and the agent it talks to ([internal/nodeagent])

    [protocol.go]: the JSON forms; [server.go]: the agent's handlers over any local
    [Executor]; [client.go]: [RemoteExecutor], which is again an [Executor], over
    the local one's world and the network between them.  The router (chi), the
    TLS material, url.Parse and the text form of times are parameters. *)

From S2P Require Import Prelude GoStrings Strconv Json Errors Profile AwgConfig Render Executor.

(** ** The JSON forms ([protocol.go]) *)

(** A slice of strings; a nil slice is null, and null and [[]] are both read as no
    elements. *)
Definition json_strings (l : list bytes) : json :=
  match l with [] => JNull | _ => JArr (JStr <$> l) end.

Definition json_int (z : Z) : json := JNum (FormatInt z).

(** A field with the option omitempty. *)
Definition omit_string (k v : bytes) : list (bytes * json) :=
  if bool_decide (v = []) then [] else [(k, JStr v)].
Definition omit_int (k : bytes) (v : Z) : list (bytes * json) :=
  if v =? 0 then [] else [(k, json_int v)].

Definition json_PeerSpec (p : PeerSpec) : json :=
  JObj ([ (#"public_key", JStr (ps_PublicKey p)) ]
        ++ omit_string #"preshared_key" (ps_PresharedKey p)
        ++ [ (#"allowed_ips", json_strings (ps_AllowedIPs p)) ]
        ++ omit_string #"endpoint" (ps_Endpoint p)
        ++ omit_int #"keepalive_secs" (ps_KeepaliveSecs p)).

(** [PrivateKey] has the tag [json:"-"]. *)
Definition json_InterfaceRuntime (i : InterfaceRuntime) : json :=
  JObj [ (#"public_key", JStr (ir_PublicKey i)); (#"listen_port", json_int (ir_ListenPort i));
         (#"fw_mark", json_int (ir_FwMark i)) ].

Section protocol.
(** The text of a [time.Time], which fails for a year above 9999, and its parser;
    [None] is the zero time as in [pr_LastHandshake]. *)
Context (time_text : option Z -> option bytes) (time_parse : bytes -> option (option Z)).

(** [PresharedKey] has the tag [json:"-"]; omitempty does nothing for a struct such
    as [LastHandshake]. *)
Definition json_PeerRuntime (p : PeerRuntime) : option json :=
  t ← time_text (pr_LastHandshake p);
  Some (JObj ([ (#"public_key", JStr (pr_PublicKey p)) ]
              ++ omit_string #"endpoint" (pr_Endpoint p)
              ++ [ (#"allowed_ips", json_strings (pr_AllowedIPs p));
                   (#"last_handshake", JStr t);
                   (#"rx_bytes", json_int (pr_RxBytes p));
                   (#"tx_bytes", json_int (pr_TxBytes p)) ]
              ++ omit_int #"keepalive_secs" (pr_KeepaliveSecs p)
              ++ omit_string #"keepalive_range" (pr_KeepaliveRange p))).

Definition json_DumpResponse (i : InterfaceRuntime) (peers : list PeerRuntime) : option json :=
  l ← mapM json_PeerRuntime peers;
  Some (JObj [ (#"interface", json_InterfaceRuntime i);
               (#"peers", match l with [] => JNull | _ => JArr l end) ]).

(** *** Decoding into structs *)

(** Field names match up to simple case folding: the ASCII letters, the Kelvin
    sign and the long s. *)
Fixpoint fold_key (s : bytes) : bytes :=
  match s with
  | [] => []
  | c :: s1 =>
      match s1 with
      | [] => [lower_byte c]
      | d :: s2 =>
          if (code c =? 0xC5) && (code d =? 0xBF) then "s"%char :: fold_key s2 else
          match s2 with
          | [] => lower_byte c :: fold_key s1
          | e :: s3 =>
              if (code c =? 0xE2) && (code d =? 0x84) && (code e =? 0xAA)
              then "k"%char :: fold_key s3
              else lower_byte c :: fold_key s1
          end
      end
  end.

Definition is_field (name key : bytes) : bool := bool_decide (fold_key key = name).

(** A decoded field: its new value, and whether its type matched; null keeps the
    old value, and so does a mismatch, which the decoder reports at the end. *)
Definition decode_string (old : bytes) (j : json) : bytes * bool :=
  match j with JStr s => (s, true) | JNull => (old, true) | _ => (old, false) end.

Definition decode_int (old : Z) (j : json) : Z * bool :=
  match j with
  | JNum l => match ParseInt10 l with Some z => (z, true) | None => (old, false) end
  | JNull => (old, true)
  | _ => (old, false)
  end.

Definition decode_strings (old : list bytes) (j : json) : list bytes * bool :=
  match j with
  | JArr l => let r := decode_string [] <$> l in (fst <$> r, forallb snd r)
  | JNull => ([], true)
  | _ => (old, false)
  end.

Definition decode_time (old : option Z) (j : json) : option Z * bool :=
  match j with
  | JStr s => match time_parse s with Some t => (t, true) | None => (old, false) end
  | JNull => (old, true)
  | _ => (old, false)
  end.

(** An object decoded field by field, in the order of the text. *)
Definition decode_object {A} (field : A -> bytes -> json -> A * bool) (zero : A) (j : json) : A * bool :=
  match j with
  | JObj l => fold_left (fun '(a, ok) '(k, v) => let '(a, o) := field a k v in (a, ok && o)) l (zero, true)
  | JNull => (zero, true)
  | _ => (zero, false)
  end.

Definition spec_field (p : PeerSpec) (k : bytes) (v : json) : PeerSpec * bool :=
  let '(mkPeerSpec pub psk ips ep ka) := p in
  if is_field #"public_key" k then let '(x, o) := decode_string pub v in (mkPeerSpec x psk ips ep ka, o)
  else if is_field #"preshared_key" k then let '(x, o) := decode_string psk v in (mkPeerSpec pub x ips ep ka, o)
  else if is_field #"allowed_ips" k then let '(x, o) := decode_strings ips v in (mkPeerSpec pub psk x ep ka, o)
  else if is_field #"endpoint" k then let '(x, o) := decode_string ep v in (mkPeerSpec pub psk ips x ka, o)
  else if is_field #"keepalive_secs" k then let '(x, o) := decode_int ka v in (mkPeerSpec pub psk ips ep x, o)
  else (p, true).

Definition decode_PeerSpec : json -> PeerSpec * bool := decode_object spec_field (mkPeerSpec [] [] [] [] 0).

Definition runtime_field (p : PeerRuntime) (k : bytes) (v : json) : PeerRuntime * bool :=
  let '(mkPeerRuntime pub psk ep ips hs rx tx ka kr) := p in
  if is_field #"public_key" k then let '(x, o) := decode_string pub v in (mkPeerRuntime x psk ep ips hs rx tx ka kr, o)
  else if is_field #"endpoint" k then let '(x, o) := decode_string ep v in (mkPeerRuntime pub psk x ips hs rx tx ka kr, o)
  else if is_field #"allowed_ips" k then let '(x, o) := decode_strings ips v in (mkPeerRuntime pub psk ep x hs rx tx ka kr, o)
  else if is_field #"last_handshake" k then let '(x, o) := decode_time hs v in (mkPeerRuntime pub psk ep ips x rx tx ka kr, o)
  else if is_field #"rx_bytes" k then let '(x, o) := decode_int rx v in (mkPeerRuntime pub psk ep ips hs x tx ka kr, o)
  else if is_field #"tx_bytes" k then let '(x, o) := decode_int tx v in (mkPeerRuntime pub psk ep ips hs rx x ka kr, o)
  else if is_field #"keepalive_secs" k then let '(x, o) := decode_int ka v in (mkPeerRuntime pub psk ep ips hs rx tx x kr, o)
  else if is_field #"keepalive_range" k then let '(x, o) := decode_string kr v in (mkPeerRuntime pub psk ep ips hs rx tx ka x, o)
  else (p, true).

Definition decode_PeerRuntime : json -> PeerRuntime * bool :=
  decode_object runtime_field (mkPeerRuntime [] [] [] [] None 0 0 0 []).

Definition iface_field (i : InterfaceRuntime) (k : bytes) (v : json) : InterfaceRuntime * bool :=
  let '(mkInterfaceRuntime priv pub port mark) := i in
  if is_field #"public_key" k then let '(x, o) := decode_string pub v in (mkInterfaceRuntime priv x port mark, o)
  else if is_field #"listen_port" k then let '(x, o) := decode_int port v in (mkInterfaceRuntime priv pub x mark, o)
  else if is_field #"fw_mark" k then let '(x, o) := decode_int mark v in (mkInterfaceRuntime priv pub port x, o)
  else (i, true).

Definition empty_interface : InterfaceRuntime := mkInterfaceRuntime [] [] 0 0.

(** [DumpResponse] *)
Abbreviation DumpResponse := (InterfaceRuntime * list PeerRuntime)%type.

Definition decode_peers (old : list PeerRuntime) (j : json) : list PeerRuntime * bool :=
  match j with
  | JArr l => let r := decode_PeerRuntime <$> l in (fst <$> r, forallb snd r)
  | JNull => ([], true)
  | _ => (old, false)
  end.

Definition dump_field (d : DumpResponse) (k : bytes) (v : json) : DumpResponse * bool :=
  let '(i, ps) := d in
  if is_field #"interface" k then let '(x, o) := decode_object iface_field i v in ((x, ps), o)
  else if is_field #"peers" k then let '(x, o) := decode_peers ps v in ((i, x), o)
  else (d, true).

Definition decode_DumpResponse : json -> DumpResponse * bool := decode_object dump_field (empty_interface, []).
End protocol.

(** ** Responses *)

Record Response : Type := mkResponse {
  rs_Status : Z;
  rs_ContentType : bytes;
  rs_Body : bytes }.

(** The encoder ends a value with a newline; a value that cannot be encoded leaves
    the body empty, the header has been written by then. *)
Definition writeJSON (status : Z) (v : option json) : Response :=
  mkResponse status #"application/json" (match v with Some j => Marshal j ++ [nl] | None => [] end).

(** The keys of a map are sorted. *)
Definition json_problem (status : Z) (text detail : bytes) : json :=
  JObj [ (#"code", JStr text); (#"detail", JStr detail); (#"status", json_int status);
         (#"title", JStr text); (#"type", JStr #"about:blank") ].

Definition writeProblem (status : Z) (text detail : bytes) : Response :=
  mkResponse status #"application/problem+json" (Marshal (json_problem status text detail) ++ [nl]).

Definition noContent : Response := mkResponse 204 [] [].

Definition detail_field (d k : bytes) (v : json) : bytes * bool :=
  if is_field #"detail" k then decode_string d v else (d, true).

(** [json.Unmarshal] wants nothing but white space after the value. *)
Definition Unmarshal (body : bytes) : option json :=
  '(j, rest) ← parse_value (2 * length body + 2) body;
  if bool_decide (skip_ws rest = []) then Some j else None.

Definition ProblemDetail (body : bytes) : bytes :=
  TrimSpace (match Unmarshal body with Some j => fst (decode_object detail_field [] j) | None => [] end).

(** ** Redaction *)

Definition isSecretConfigLine (line : bytes) : bool :=
  match Cut line "="%char with
  | None => false
  | Some (key, _) =>
      bool_decide (ToLower (TrimSpace key) ∈ [ #"privatekey"; #"presharedkey"; #"headerprotectionkey" ])
  end.

(** The body of the loop of [redactConfigSecrets]. *)
Definition redact_line (line : bytes) : bytes :=
  if isSecretConfigLine line then
    let key := match Cut line "="%char with Some (key, _) => key | None => line end in
    TrimRight key [" "%char; tab] ++ #" = (redacted)"
  else line.

Definition redactConfigSecrets (conf : bytes) : bytes := Join (redact_line <$> Split conf nl) [nl].

(** ** Routes *)

Inductive segment := Lit (s : bytes) | Param.

#[export] Instance segment_eq_dec : EqDecision segment.
Proof. solve_decision. Defined.

Abbreviation pattern := (list segment).

Definition iface_route (rest : list segment) : pattern := [Lit #"v1"; Lit #"iface"; Param] ++ rest.

Definition p_health : pattern := [Lit #"health"].
Definition p_syncconf : pattern := iface_route [Lit #"syncconf"].
Definition p_peers : pattern := iface_route [Lit #"peers"].
Definition p_peer : pattern := iface_route [Lit #"peers"; Param].
Definition p_dump : pattern := iface_route [Lit #"dump"].
Definition p_showconf : pattern := iface_route [Lit #"showconf"].
Definition p_up : pattern := iface_route [Lit #"up"].
Definition p_down : pattern := iface_route [Lit #"down"].

Definition agent_routes : list (bytes * pattern) :=
  [ (#"GET", p_health); (#"POST", p_syncconf); (#"POST", p_peers); (#"DELETE", p_peer);
    (#"GET", p_dump); (#"GET", p_showconf); (#"POST", p_up); (#"POST", p_down) ].

(** The path of a pattern with its parameters filled in. *)
Fixpoint path_of (p : pattern) (params : list bytes) : bytes :=
  match p, params with
  | Lit s :: p, _ => "/"%char :: s ++ path_of p params
  | Param :: p, x :: params => "/"%char :: x ++ path_of p params
  | _, _ => []
  end.

Record Request : Type := mkRequest {
  rq_Method : bytes;
  rq_Path : bytes;        (* decoded, as errors show it *)
  rq_RawPath : bytes;     (* as sent *)
  rq_Body : result error bytes }.

(** *** Escaping and delivery *)

(** [url.PathEscape]: bytes a path segment may hold unescaped. *)
Definition segment_byte (c : ascii) : bool :=
  between 97 122 c || between 65 90 c || between 48 57 c || in_cutset #"-_.~$&+:=@" c.

Definition hex_upper (d : Z) : ascii := if d <? 10 then byte_of (48 + d) else byte_of (55 + d).

Definition PathEscape (s : bytes) : bytes :=
  concat ((fun c => if segment_byte c then [c]
                    else ["%"%char; hex_upper (code c / 16); hex_upper (code c mod 16)]) <$> s).

(** What the network does to the next request. *)
Inductive delivery := Delivered | LostRequest (e : error) | LostResponse (e : error).

(** ** Handlers ([server.go]) *)

Definition ifaceParam (iface : bytes) : result Response bytes :=
  if negb (ValidInterfaceName iface)
  then Err (writeProblem 400 #"invalid_iface"
              #"interface name must be 1-15 ASCII letters, digits, dot, dash, or underscore")
  else Ok iface.

Definition config_path_field (d k : bytes) (v : json) : bytes * bool :=
  if is_field #"config_path" k then decode_string d v else (d, true).

Section agent.
Context {W : Type} {EX : Executor W}.
Context (time_text : option Z -> option bytes) (time_parse : bytes -> option (option Z)).
(** The text of the error [json.Decoder.Decode] returns for a body. *)
Context (json_error : bytes -> bytes).

(** A handler: the parameters of the route, the body or the error of reading it,
    the executor's world.  The request's context is live while the handler runs. *)
Definition handler : Type := W -> Response * W.

Definition with_iface (iface : bytes) (k : bytes -> handler) : handler :=
  fun w => match ifaceParam iface with
           | Err r => (r, w)
           | Ok iface => k iface w
           end.

(** The answer to an operation without a result. *)
Definition reply (text : bytes) (op : W -> result error unit * W) : handler :=
  fun w => match op w with
           | (Err e, w) => (writeProblem 500 text (err_Error e), w)
           | (Ok _, w) => (noContent, w)
           end.

(** [SyncConf] of the agent: the private key of the running config is put into the
    config first. *)
Definition agent_sync (ctx : context) (iface config : bytes) : W -> result error unit * W :=
  fun w => match ShowConf ctx iface w with
           | (Ok current, w) => SyncConf ctx iface (PreserveInterfacePrivateKey config current) w
           | (Err _, w) => SyncConf ctx iface config w
           end.

Definition syncConfHandler (iface : bytes) (body : result error bytes) : handler :=
  with_iface iface (fun iface w =>
    match body with
    | Err e => (writeProblem 400 #"bad_request" (err_Error e), w)
    | Ok config => reply #"syncconf_failed" (agent_sync None iface config) w
    end).

(** The struct a body decodes to, or the text of the error. *)
Definition decode_body {A} (decode : json -> A * bool) (body : result error bytes) : result bytes A :=
  match body with
  | Err e => Err (err_Error e)
  | Ok b => match decode <$> Decode b with
            | Some (a, true) => Ok a
            | _ => Err (json_error b)
            end
  end.

Definition setPeerHandler (iface : bytes) (body : result error bytes) : handler :=
  with_iface iface (fun iface w =>
    match decode_body decode_PeerSpec body with
    | Err text => (writeProblem 400 #"bad_json" text, w)
    | Ok spec => reply #"set_peer_failed" (SetPeer None iface spec) w
    end).

Definition removePeerHandler (iface pub : bytes) : handler :=
  with_iface iface (fun iface => reply #"remove_peer_failed" (RemovePeer None iface pub)).

(** The dump without its secrets. *)
Definition public_interface (i : InterfaceRuntime) : InterfaceRuntime :=
  mkInterfaceRuntime [] (ir_PublicKey i) (ir_ListenPort i) (ir_FwMark i).
Definition public_runtime (p : PeerRuntime) : PeerRuntime :=
  mkPeerRuntime (pr_PublicKey p) [] (pr_Endpoint p) (pr_AllowedIPs p) (pr_LastHandshake p)
    (pr_RxBytes p) (pr_TxBytes p) (pr_KeepaliveSecs p) (pr_KeepaliveRange p).

Definition dumpHandler (iface : bytes) : handler :=
  with_iface iface (fun iface w =>
    match ShowDump None iface w with
    | (Err e, w) => (writeProblem 500 #"show_dump_failed" (err_Error e), w)
    | (Ok (ir, peers), w) =>
        (writeJSON 200 (json_DumpResponse time_text (public_interface ir) (public_runtime <$> peers)), w)
    end).

Definition showconfHandler (iface : bytes) : handler :=
  with_iface iface (fun iface w =>
    match ShowConf None iface w with
    | (Err e, w) => (writeProblem 500 #"show_conf_failed" (err_Error e), w)
    | (Ok conf, w) => (mkResponse 200 #"text/plain; charset=utf-8" (redactConfigSecrets conf), w)
    end).

(** The decoding error is ignored; what was decoded before it is kept. *)
Definition upHandler (iface : bytes) (body : result error bytes) : handler :=
  with_iface iface (fun iface =>
    let path := match body with
                | Ok b => match Decode b with
                          | Some j => fst (decode_object config_path_field [] j)
                          | None => []
                          end
                | Err _ => []
                end in
    reply #"up_failed" (InterfaceUp None iface path)).

Definition downHandler (iface : bytes) : handler :=
  with_iface iface (fun iface => reply #"down_failed" (InterfaceDown None iface)).

(** The router: for a method and a path as sent, the pattern that matches and the
    parameters, or the answer when none does. *)
Context (route : bytes -> bytes -> result Response (pattern * list bytes)).

Definition dispatch (p : pattern) (params : list bytes) (body : result error bytes) : handler :=
  match params with
  | [iface] =>
      if bool_decide (p = p_syncconf) then syncConfHandler iface body
      else if bool_decide (p = p_peers) then setPeerHandler iface body
      else if bool_decide (p = p_dump) then dumpHandler iface
      else if bool_decide (p = p_showconf) then showconfHandler iface
      else if bool_decide (p = p_up) then upHandler iface body
      else downHandler iface
  | [iface; pub] => removePeerHandler iface pub
  | _ => fun w => (writeJSON 200 (Some (JObj [ (#"status", JStr #"ok") ])), w)
  end.

Definition serve (rq : Request) : handler :=
  fun w => match route (rq_Method rq) (rq_RawPath rq) with
           | Err r => (r, w)
           | Ok (p, params) => dispatch p params (rq_Body rq) w
           end.

(** A line of the agent's log. *)
Record AgentLine : Type := mkAgentLine { al_Method : bytes; al_Path : bytes; al_Status : Z; al_Duration : Z }.

(** The reply passes through; the line has the status that was written, and no body. *)
Definition loggingMiddleware (elapsed : Z) (rq : Request) (next : handler) (w : W) : (Response * W) * AgentLine :=
  let '(r, w') := next w in ((r, w'), mkAgentLine (rq_Method rq) (rq_Path rq) (rs_Status r) elapsed).

(** What the agent answers and logs. *)
Definition serve_logged (elapsed : Z) (rq : Request) : W -> (Response * W) * AgentLine := loggingMiddleware elapsed rq (serve rq).

(** ** The client ([client.go]) *)

(** The host of the agent and the network's future; a network with no recorded
    event delivers. *)
Record RemoteWorld : Type := mkRemote { rw_host : W; rw_net : list delivery }.

(** [strconv.Quote] and the agent's address. *)
Context (Quote : bytes -> bytes) (BaseURL : bytes).

(** [url.Error], which [http.Client.Do] returns for a failed exchange. *)
Definition url_error (rq : Request) (e : error) : error :=
  let op := match rq_Method rq with c :: r => c :: (lower_byte <$> r) | [] => [] end in
  EWrap (op ++ #" " ++ Quote (BaseURL ++ rq_RawPath rq) ++ #": ") e [].

Definition status_error (rq : Request) (r : Response) : error :=
  EMsg (#"nodeagent " ++ rq_Method rq ++ #" " ++ rq_Path rq ++ #": " ++ FormatInt (rs_Status r) ++ #" "
        ++ ProblemDetail (rs_Body r)).

Definition do (ctx : context) (rq : Request) (w : RemoteWorld) : result error Response * RemoteWorld :=
  match ctx with
  | Some e => (Err (url_error rq e), w)
  | None =>
      let net := tail (rw_net w) in
      match default Delivered (head (rw_net w)) with
      | LostRequest e => (Err (url_error rq e), mkRemote (rw_host w) net)
      | LostResponse e => (Err (url_error rq e), mkRemote (snd (serve rq (rw_host w))) net)
      | Delivered =>
          let '(resp, host) := serve rq (rw_host w) in
          (if 400 <=? rs_Status resp then Err (status_error rq resp) else Ok resp, mkRemote host net)
      end
  end.

(** [urlf] with escaped arguments. *)
Definition request (method : bytes) (p : pattern) (args : list bytes) (body : bytes) : Request :=
  mkRequest method (path_of p args) (path_of p (PathEscape <$> args)) (Ok body).

Definition discard (r : result error Response * RemoteWorld) : result error unit * RemoteWorld :=
  let '(r, w) := r in (match r with Ok _ => Ok tt | Err e => Err e end, w).

Definition remote_SyncConf (ctx : context) (iface config : bytes) (w : RemoteWorld) :=
  discard (do ctx (request #"POST" p_syncconf [iface] config) w).

Definition remote_SetPeer (ctx : context) (iface : bytes) (p : PeerSpec) (w : RemoteWorld) :=
  discard (do ctx (request #"POST" p_peers [iface] (Marshal (json_PeerSpec p))) w).

Definition remote_RemovePeer (ctx : context) (iface publicKey : bytes) (w : RemoteWorld) :=
  discard (do ctx (request #"DELETE" p_peer [iface; publicKey] []) w).

Definition remote_ShowDump (ctx : context) (iface : bytes) (w : RemoteWorld)
    : result error (InterfaceRuntime * list PeerRuntime) * RemoteWorld :=
  match do ctx (request #"GET" p_dump [iface] []) w with
  | (Err e, w) => (Err e, w)
  | (Ok resp, w) =>
      (match decode_body (decode_DumpResponse time_parse) (Ok (rs_Body resp)) with
       | Ok d => Ok d
       | Err text => Err (EMsg text)
       end, w)
  end.

Definition remote_ShowConf (ctx : context) (iface : bytes) (w : RemoteWorld) : result error bytes * RemoteWorld :=
  match do ctx (request #"GET" p_showconf [iface] []) w with
  | (Err e, w) => (Err e, w)
  | (Ok resp, w) => (Ok (rs_Body resp), w)
  end.

Definition remote_InterfaceUp (ctx : context) (iface configPath : bytes) (w : RemoteWorld) :=
  discard (do ctx (request #"POST" p_up [iface] (Marshal (JObj [ (#"config_path", JStr configPath) ]))) w).

Definition remote_InterfaceDown (ctx : context) (iface : bytes) (w : RemoteWorld) :=
  discard (do ctx (request #"POST" p_down [iface] []) w).

#[export] Instance RemoteExecutor : Executor RemoteWorld := {
  SyncConf := remote_SyncConf;
  SetPeer := remote_SetPeer;
  RemovePeer := remote_RemovePeer;
  ShowDump := remote_ShowDump;
  ShowConf := remote_ShowConf;
  InterfaceUp := remote_InterfaceUp;
  InterfaceDown := remote_InterfaceDown }.
End agent.
Arguments RemoteWorld : clear implicits.
Arguments mkRemote {W} _ _.
Arguments rw_host {W} _.
Arguments rw_net {W} _.

(** ** Construction: TLS on both ends *)

(** The parts of a [tls.Config] the program sets; the version is always 1.3. *)
Record TLSConfig : Type := mkTLS {
  tc_Certificates : list (bytes * bytes);
  tc_RootCAs : option bytes;
  tc_ClientCAs : option bytes;
  tc_RequireClientCert : bool }.

Section construction.
(** [url.Parse] as scheme and host, [tls.LoadX509KeyPair] on a certificate and a key
    file, [os.ReadFile], and [AppendCertsFromPEM]. *)
Context (url_Parse : bytes -> option (bytes * bytes)).
Context (LoadX509KeyPair : bytes -> bytes -> result error (bytes * bytes)).
Context (ReadFile : bytes -> result error bytes) (AppendCertsFromPEM : bytes -> bool).

(** The TLS material of the client: the key pair and the CA bundle. *)
Definition client_pair (clientCert clientKey : bytes) : result error (list (bytes * bytes)) :=
  if negb (bool_decide (clientCert = [])) || negb (bool_decide (clientKey = [])) then
    if bool_decide (clientCert = []) || bool_decide (clientKey = [])
    then Err (EMsg #"nodeagent: client cert and key must be provided together")
    else match LoadX509KeyPair clientCert clientKey with
         | Err e => Err (EWrap #"client cert: " e [])
         | Ok cert => Ok [cert]
         end
  else Ok [].

Definition root_pool (caBundle : bytes) : result error (option bytes) :=
  if bool_decide (caBundle = []) then Ok None
  else match ReadFile caBundle with
       | Err e => Err (EWrap #"ca bundle: " e [])
       | Ok b => if AppendCertsFromPEM b then Ok (Some b) else Err (EMsg #"ca bundle parse failed")
       end.

(** The base URL without trailing slashes and the transport's TLS config. *)
Definition newRemoteExecutor (baseURL clientCert clientKey caBundle : bytes) (allowInsecureHTTP : bool)
    : result error (bytes * TLSConfig) :=
  match url_Parse baseURL with
  | None => Err (EMsg #"nodeagent: invalid base URL")
  | Some (scheme, host) =>
      if bool_decide (scheme = []) || bool_decide (host = []) then Err (EMsg #"nodeagent: invalid base URL")
      else if allowInsecureHTTP && negb (bool_decide (scheme = #"http")) && negb (bool_decide (scheme = #"https"))
      then Err (EMsg #"nodeagent: base URL must use http or https")
      else if negb allowInsecureHTTP && negb (bool_decide (scheme = #"https"))
      then Err (EMsg #"nodeagent: production remote executor requires https")
      else if negb allowInsecureHTTP
              && (bool_decide (clientCert = []) || bool_decide (clientKey = []) || bool_decide (caBundle = []))
      then Err (EMsg #"nodeagent: client cert, client key, and CA bundle are required for mTLS")
      else
        certs ← client_pair clientCert clientKey;
        roots ← root_pool caBundle;
        Ok (TrimRight baseURL #"/", mkTLS certs roots None false)
  end.

Definition NewRemoteExecutor (baseURL clientCert clientKey caBundle : bytes) :=
  newRemoteExecutor baseURL clientCert clientKey caBundle false.

Definition NewInsecureRemoteExecutor (baseURL : bytes) := newRemoteExecutor baseURL [] [] [] true.

Record ServerConfig : Type := mkServerConfig {
  sc_Addr : bytes;
  sc_HasExecutor : bool;
  sc_TLSCertFile : bytes;
  sc_TLSKeyFile : bytes;
  sc_ClientCAs : bytes;
  sc_AllowInsecureHTTP : bool }.

Definition buildTLSConfig (cfg : ServerConfig) : result error TLSConfig :=
  if bool_decide (sc_ClientCAs cfg = []) then Ok (mkTLS [] None None false)
  else match ReadFile (sc_ClientCAs cfg) with
       | Err e => Err (EWrap #"read client CA: " e [])
       | Ok b => if AppendCertsFromPEM b then Ok (mkTLS [] None (Some b) true)
                 else Err (EMsg #"nodeagent: bad CA bundle")
       end.

(** The server's TLS config, [None] for plain HTTP; its handler is [serve]. *)
Definition NewServer (cfg : ServerConfig) : result error (option TLSConfig) :=
  if negb (sc_HasExecutor cfg) then Err (EMsg #"nodeagent: executor is required")
  else
    let hasCert := negb (bool_decide (sc_TLSCertFile cfg = [])) in
    let hasKey := negb (bool_decide (sc_TLSKeyFile cfg = [])) in
    let hasCA := negb (bool_decide (sc_ClientCAs cfg = [])) in
    if hasCert || hasKey || hasCA then
      if negb hasCert || negb hasKey || negb hasCA
      then Err (EMsg #"nodeagent: AGENT_TLS_CERT, AGENT_TLS_KEY, and AGENT_CLIENT_CA_BUNDLE are all required for production mTLS")
      else tc ← buildTLSConfig cfg; Ok (Some tc)
    else if negb (sc_AllowInsecureHTTP cfg)
    then Err (EMsg #"nodeagent: plain HTTP is disabled; set AllowInsecureHTTP only for dev/test")
    else Ok None.

(** [ListenAndServe]: the file pair it serves TLS with, or plain HTTP. *)
Definition ListenAndServe (tls : option TLSConfig) (certFile keyFile : bytes) : option (bytes * bytes) :=
  match tls with Some _ => Some (certFile, keyFile) | None => None end.
End construction.
