(* ===== verification/Redact.v ===== *)
(** * Redact: the agent's redaction of config text and what it hides

    Facts about trimming around a printable byte, the redaction of
    [redactConfigSecrets], and that a redacted config never supplies a private
    key. *)

From S2P Require Import Prelude GoStrings AwgConfig Executor NodeAgent.

(** ** Trimming around a printable byte *)

Lemma strip_space_solid k x v :
  solid_byte x ->
  strip_space (k ++ x :: v) = match k with [] => None | _ => (fun r => r ++ x :: v) <$> strip_space k end.
Proof.
  intros Hx. destruct k as [|a [|b [|c k]]]; cbn [app strip_space].
  - rewrite solid_space1 by done. destruct v as [|d [|e v]]; repeat (case_match; try ascii_bytes); done.
  - destruct (space1 a); [done|]. destruct (space2 a x) eqn:E; [ascii_bytes|].
    destruct v as [|e v]; [done|]. by destruct (space3 a x e) eqn:E'; [ascii_bytes|].
  - destruct (space1 a); [done|]. destruct (space2 a b); [done|]. by destruct (space3 a b x) eqn:E; [ascii_bytes|].
  - destruct (space1 a); [done|]. destruct (space2 a b); [done|]. by destruct (space3 a b c).
Qed.

Lemma strip_space_back_solid k x v :
  solid_byte x ->
  strip_space_back (k ++ x :: v) = match k with [] => None | _ => (fun r => r ++ x :: v) <$> strip_space_back k end.
Proof.
  intros Hx. destruct k as [|a [|b [|c k]]]; cbn [app strip_space_back].
  - rewrite solid_space1 by done. destruct v as [|d [|e v]]; repeat (case_match; try ascii_bytes); done.
  - destruct (space1 a); [done|]. destruct (space2 x a) eqn:E; [ascii_bytes|].
    destruct v as [|e v]; [done|]. by destruct (space3 e x a) eqn:E'; [ascii_bytes|].
  - destruct (space1 a); [done|]. destruct (space2 b a); [done|]. by destruct (space3 x b a) eqn:E; [ascii_bytes|].
  - destruct (space1 a); [done|]. destruct (space2 b a); [done|]. by destruct (space3 c b a).
Qed.

Lemma trim_left_solid k x v : solid_byte x -> trim_left (k ++ x :: v) = trim_left k ++ x :: v.
Proof.
  intros Hx. induction k as [k IH] using (well_founded_induction (well_founded_ltof _ length)). unfold ltof in IH.
  pose proof (strip_space_solid k x v Hx) as Hs. destruct k as [|a k]; [by apply trim_left_None|].
  destruct (strip_space (a :: k)) as [r|] eqn:E.
  - rewrite (trim_left_Some _ _ Hs), (trim_left_Some _ _ E). apply IH. by apply strip_space_length in E.
  - by rewrite !trim_left_None.
Qed.

Lemma drop_back_Some n s r :
  strip_space_back s = Some r -> (length s <= n)%nat ->
  drop_while_some strip_space_back n s = drop_while_some strip_space_back (length r) r.
Proof.
  intros Hs Hn. destruct n as [|n]; [by destruct s; [|simpl in Hn; lia]|]. cbn [drop_while_some]. rewrite Hs.
  apply drop_while_some_fuel; [apply strip_space_back_length|]. apply strip_space_back_length in Hs. lia.
Qed.

Lemma trim_right_solid k x v : solid_byte x -> trim_right (k ++ x :: v) = k ++ x :: trim_right v.
Proof.
  intros Hx. unfold trim_right. rewrite rev_app_distr. cbn [rev]. rewrite <- app_assoc. cbn [app].
  rewrite length_app. cbn [length].
  assert (H : forall w n, (length (w ++ x :: rev k) <= n)%nat ->
    drop_while_some strip_space_back n (w ++ x :: rev k) = drop_while_some strip_space_back (length w) w ++ x :: rev k).
  { intros w. induction w as [w IH] using (well_founded_induction (well_founded_ltof _ length)). unfold ltof in IH.
    intros n Hn. pose proof (strip_space_back_solid w x (rev k) Hx) as Hs.
    destruct w as [|a w]; [by rewrite drop_while_some_None|].
    destruct (strip_space_back (a :: w)) as [r|] eqn:E; cbn [fmap option_fmap option_map] in Hs.
    - rewrite (drop_back_Some _ _ _ Hs Hn), (drop_back_Some _ _ _ E) by done.
      apply strip_space_back_length in E. by rewrite IH.
    - by rewrite !drop_while_some_None. }
  rewrite H by (rewrite length_app; cbn [length]; rewrite !length_rev; lia).
  rewrite length_rev, rev_app_distr. cbn [rev]. by rewrite rev_involutive, <- app_assoc.
Qed.

Lemma TrimSpace_around k x v : solid_byte x -> TrimSpace (k ++ x :: v) = trim_left k ++ x :: trim_right v.
Proof. intros Hx. unfold TrimSpace. by rewrite trim_left_solid, trim_right_solid. Qed.

Lemma trim_left_incl s c : c ∈ trim_left s -> c ∈ s.
Proof.
  unfold trim_left. apply drop_while_some_incl. intros x r Hx y Hy. unfold strip_space in Hx.
  repeat case_match; simplify_eq/=; set_solver.
Qed.

Lemma TrimSpace_trim_left k : TrimSpace (trim_left k) = TrimSpace k.
Proof. unfold TrimSpace. by rewrite (trim_left_None (trim_left k)) by apply trim_left_stripped. Qed.

(** A line from which the lookup of [InterfaceValue] takes its value. *)
Lemma iv_step_value want sec raw val :
  iv_step want sec raw = inr val ->
  exists k v, raw = k ++ "="%char :: v /\ ("="%char ∉ k) /\ ToLower (TrimSpace k) = want
              /\ val = TrimSpace (trim_right v).
Proof.
  unfold iv_step. destruct (skipped _); [done|]. destruct (bracketed _); [done|].
  destruct (negb _); [done|]. destruct (Cut (TrimSpace raw) "="%char) as [[k' v']|] eqn:Ec; [|done].
  case_bool_decide as Ek; [|done]. intros [= <-].
  destruct (first_sep_cases raw "="%char) as [Hno|(k & v & -> & Hk)].
  { apply Cut_Some in Ec as [Ec _]. destruct Hno. apply TrimSpace_incl. rewrite Ec. set_solver. }
  rewrite TrimSpace_around in Ec by (unfold solid_byte; code_lia).
  rewrite Cut_app in Ec by (intros H; by apply trim_left_incl in H). injection Ec as <- <-.
  exists k, v. split_and!; try done. by rewrite TrimSpace_trim_left in Ek.
Qed.

(** ** Redaction *)

Lemma TrimRight_incl s cut c : c ∈ TrimRight s cut -> c ∈ s.
Proof.
  unfold TrimRight. rewrite list_elem_of_In, <- in_rev, <- list_elem_of_In. intros H.
  rewrite list_elem_of_In, in_rev, <- list_elem_of_In. revert H.
  generalize (rev s) as r. induction r as [|d r IH]; cbn [trim_left_set]; [done|].
  destruct (in_cutset cut d); [|done]. intros H. right. by apply IH.
Qed.

(** The shape of a redacted line. *)
Lemma redact_line_secret line :
  isSecretConfigLine line = true -> exists k v, line = k ++ "="%char :: v /\ ("="%char ∉ k)
    /\ redact_line line = (TrimRight k [" "%char; tab] ++ #" ") ++ "="%char :: #" (redacted)"
    /\ ("="%char ∉ TrimRight k [" "%char; tab] ++ #" ").
Proof.
  intros Hs. unfold redact_line. rewrite Hs. unfold isSecretConfigLine in Hs.
  destruct (Cut line "="%char) as [[k v]|] eqn:Ec; [|done]. apply Cut_Some in Ec as [-> Hk].
  exists k, v. split_and!; try done; [by rewrite <- app_assoc|].
  rewrite elem_of_app. intros [H|H]; [by apply TrimRight_incl in H|]. revert H. apply (bool_decide_unpack (_ ∉ _)). by vm_compute.
Qed.

Lemma redact_line_nl line : nl ∉ line -> nl ∉ redact_line line.
Proof.
  intros Hl. destruct (isSecretConfigLine line) eqn:Hs; [|unfold redact_line; by rewrite Hs].
  destruct (redact_line_secret line Hs) as (k & v & -> & Hk & -> & _). rewrite !elem_of_app, elem_of_cons.
  intros [[H|H]|[H|H]]; [apply TrimRight_incl in H; set_solver| |by vm_compute in H|];
    revert H; apply (bool_decide_unpack (_ ∉ _)); by vm_compute.
Qed.

(** The lines of a redacted config are its lines redacted. *)
Lemma Split_redact conf : Split (redactConfigSecrets conf) nl = redact_line <$> Split conf nl.
Proof.
  unfold redactConfigSecrets. apply Split_Join.
  - destruct (Split conf nl) eqn:E; [by apply Split_not_nil in E|done].
  - apply Forall_fmap. eapply Forall_impl; [apply Split_pieces|]. intros l. apply redact_line_nl.
Qed.

Lemma redacted_value want sec line val :
  want = #"privatekey" -> iv_step want sec (redact_line line) = inr val -> val = #"(redacted)".
Proof.
  intros -> H. apply iv_step_value in H as (k & v & E & Hk & Hw & ->).
  destruct (isSecretConfigLine line) eqn:Hs.
  - destruct (redact_line_secret line Hs) as (k0 & v0 & _ & _ & E' & Hk'). rewrite E' in E.
    apply first_sep_inj in E as [_ <-]; [|done..]. by vm_compute.
  - unfold redact_line in E. rewrite Hs in E. subst line. unfold isSecretConfigLine in Hs. rewrite Cut_app in Hs by done.
    rewrite Hw in Hs. by vm_compute in Hs.
Qed.

Lemma redacted_run sec lines v :
  iv_run #"privatekey" sec (redact_line <$> lines) = inr v -> v = #"(redacted)".
Proof.
  revert sec. induction lines as [|l lines IH]; intros sec; [done|]. cbn [fmap list_fmap iv_run].
  destruct (iv_step #"privatekey" sec (redact_line l)) as [sec'|v'] eqn:E; [apply IH|]. intros [= <-].
  by eapply redacted_value.
Qed.

Lemma InterfaceValue_redacted conf :
  InterfaceValue (redactConfigSecrets conf) #"PrivateKey" = []
  \/ InterfaceValue (redactConfigSecrets conf) #"PrivateKey" = #"(redacted)".
Proof.
  unfold InterfaceValue. rewrite Split_redact. change (ToLower (TrimSpace #"PrivateKey")) with #"privatekey".
  destruct (iv_run #"privatekey" [] _) as [?|v] eqn:E; [by left|]. right. by eapply redacted_run.
Qed.

(** A redacted config supplies no private key. *)
Lemma Preserve_redacted cfg conf : PreserveInterfacePrivateKey cfg (redactConfigSecrets conf) = cfg.
Proof.
  unfold PreserveInterfacePrivateKey. destruct (InterfaceValue_redacted conf) as [-> | ->]; [|done].
  change (EqualFold (TrimSpace []) #"(redacted)") with false. cbv iota. done.
Qed.
