(* ===== verification/NodeAgentFacts.v ===== *)
(** * NodeAgentFacts: what the remote executor promises

    The exchange between [RemoteExecutor] and the agent refines the local
    executor: every operation has the local operation's effect and result, less
    the secrets, with its errors as text.  Hence the remote executor keeps the laws
    of the [Executor] interface whenever the local one does. *)

From S2P Require Import Prelude GoStrings Strconv Json Errors Profile AwgConfig Render Executor FakeExecutor NodeAgent Redact.

(** ** Decoding what was encoded *)

(** Evaluate the field tests on literal names. *)
Ltac eval_fields :=
  repeat match goal with
  | |- context [is_field ?a ?b] =>
      let v := eval vm_compute in (is_field a b) in
      match v with true => idtac | false => idtac end; change (is_field a b) with v; cbv iota beta
  end.

Lemma decode_string_json old s : decode_string old (valid_json (JStr s)) = (valid_text s, true).
Proof. done. Qed.

Lemma decode_int_json old z : in_int64 z -> decode_int old (valid_json (json_int z)) = (z, true).
Proof. intros Hz. cbn. by rewrite ParseInt10_FormatInt. Qed.

Lemma decode_strings_json l : decode_strings [] (valid_json (json_strings l)) = (valid_text <$> l, true).
Proof.
  destruct l as [|x l]; [done|]. cbn [json_strings valid_json decode_strings].
  rewrite <- !list_fmap_compose. apply (f_equal2 pair); [done|].
  apply forallb_forall. intros b Hb. apply in_map_iff in Hb as (y & <- & _). done.
Qed.

Lemma integral_strings l : integral (json_strings l).
Proof. destruct l as [|x l]; [done|]. cbn. split; [done|]. by induction l. Qed.

Lemma integral_int z : integral (json_int z).
Proof. by exists z. Qed.

#[export] Hint Resolve integral_strings integral_int : awg.

(** Decode the fields of a literal object one after the other. *)
Ltac run_fields :=
  repeat (progress (eval_fields; rewrite ?decode_string_json, ?decode_strings_json;
                    rewrite ?decode_int_json by done; cbv beta iota; cbn [andb])).

(** A peer as it arrives. *)
Definition valid_spec (p : PeerSpec) : PeerSpec :=
  mkPeerSpec (valid_text (ps_PublicKey p)) (valid_text (ps_PresharedKey p)) (valid_text <$> ps_AllowedIPs p)
    (valid_text (ps_Endpoint p)) (ps_KeepaliveSecs p).

Lemma integral_obj l : Forall (fun kv => integral (snd kv)) l -> integral (JObj l).
Proof. induction 1; cbn; auto. Qed.

Lemma integral_omit_string k v : Forall (fun kv => integral (snd kv)) (omit_string k v).
Proof. unfold omit_string. case_match; repeat constructor. Qed.

Lemma integral_omit_int k v : Forall (fun kv => integral (snd kv)) (omit_int k v).
Proof. unfold omit_int. case_match; repeat constructor. cbn. eauto. Qed.

#[export] Hint Resolve integral_omit_string integral_omit_int : awg.

Ltac solve_integral :=
  apply integral_obj;
  repeat match goal with
  | |- Forall _ (_ ++ _) => apply Forall_app; split
  | |- Forall _ (_ :: _) => apply Forall_cons_2
  | |- Forall _ [] => apply Forall_nil_2
  end; cbn [fst snd]; auto with awg; try exact I.

Lemma json_PeerSpec_integral p : integral (json_PeerSpec p).
Proof. solve_integral. Qed.

Lemma valid_obj_app a b :
  (fun kv => (valid_text (fst kv), valid_json (snd kv))) <$> (a ++ b)
  = ((fun kv => (valid_text (fst kv), valid_json (snd kv))) <$> a)
    ++ ((fun kv : bytes * json => (valid_text (fst kv), valid_json (snd kv))) <$> b).
Proof. apply fmap_app. Qed.

Lemma decode_PeerSpec_json p :
  in_int64 (ps_KeepaliveSecs p) -> decode_PeerSpec (valid_json (json_PeerSpec p)) = (valid_spec p, true).
Proof.
  intros Hk. destruct p as [pub psk ips ep ka]. cbn in Hk.
  unfold json_PeerSpec, valid_spec, omit_string, omit_int, decode_PeerSpec, decode_object.
  cbn [ps_PublicKey ps_PresharedKey ps_AllowedIPs ps_Endpoint ps_KeepaliveSecs valid_json].
  destruct (bool_decide_reflect (psk = [])) as [->|]; destruct (bool_decide_reflect (ep = [])) as [->|];
    destruct (Z.eqb_spec ka 0) as [->|];
    cbn [app fmap list_fmap fold_left fst snd]; unfold spec_field; run_fields; reflexivity.
Qed.

(** *** Dumps *)

Section dump.
Context (time_text : option Z -> option bytes) (time_parse : bytes -> option (option Z)).

(** A runtime entry that JSON carries unchanged. *)
Record wire_runtime (p : PeerRuntime) : Prop := {
  wr_pub : ascii_text (pr_PublicKey p);
  wr_endpoint : ascii_text (pr_Endpoint p);
  wr_ips : Forall ascii_text (pr_AllowedIPs p);
  wr_rx : in_int64 (pr_RxBytes p);
  wr_tx : in_int64 (pr_TxBytes p);
  wr_secs : in_int64 (pr_KeepaliveSecs p);
  wr_range : ascii_text (pr_KeepaliveRange p);
  wr_time : exists t, time_text (pr_LastHandshake p) = Some t /\ ascii_text t
              /\ time_parse t = Some (pr_LastHandshake p) }.

Lemma json_PeerRuntime_integral p j : json_PeerRuntime time_text p = Some j -> integral j.
Proof.
  unfold json_PeerRuntime. destruct (time_text _) as [t|]; [|done]. intros [= <-]. solve_integral.
Qed.

(** Fields other than the key leave it alone. *)
Lemma runtime_fields_pub l p ok :
  Forall (fun kv => is_field #"public_key" (fst kv) = false) l ->
  pr_PublicKey (fst (fold_left (fun '(a, ok) '(k, v) =>
    let '(a, o) := runtime_field time_parse a k v in (a, ok && o)) l (p, ok))) = pr_PublicKey p.
Proof.
  intros H. revert p ok. induction H as [|[k v] l Hk _ IH]; intros p ok; [done|]. cbn [fold_left].
  assert (pr_PublicKey (fst (runtime_field time_parse p k v)) = pr_PublicKey p) as Hs.
  { cbn in Hk. destruct p. unfold runtime_field. rewrite Hk.
    repeat (case_match; [by destruct (_ v) || (case_match; done)|]). done. }
  destruct (runtime_field time_parse p k v) as [p' o]. by rewrite IH.
Qed.

Lemma decode_runtime_pub p j :
  json_PeerRuntime time_text p = Some j ->
  pr_PublicKey (fst (decode_PeerRuntime time_parse (valid_json j))) = valid_text (pr_PublicKey p).
Proof.
  unfold json_PeerRuntime. destruct (time_text _) as [t|]; [|done]. intros [= <-].
  unfold decode_PeerRuntime, decode_object. cbn [valid_json app]. rewrite fmap_cons. cbn [fold_left fst snd].
  change (runtime_field time_parse (mkPeerRuntime [] [] [] [] None 0 0 0 []) (valid_text #"public_key") (valid_json (JStr (pr_PublicKey p))))
    with (mkPeerRuntime (valid_text (pr_PublicKey p)) [] [] [] None 0 0 0 [], true).
  cbv beta iota. rewrite runtime_fields_pub; [done|]. apply Forall_fmap.
  repeat match goal with
  | |- Forall _ (_ ++ _) => apply Forall_app; split
  | |- Forall _ (_ :: _) => apply Forall_cons_2
  | |- Forall _ (omit_string _ _) => unfold omit_string; case_match
  | |- Forall _ (omit_int _ _) => unfold omit_int; case_match
  | |- Forall _ [] => apply Forall_nil_2
  end; vm_compute; reflexivity.
Qed.

Lemma valid_text_list l : Forall ascii_text l -> valid_text <$> l = l.
Proof. induction 1 as [|x l Hx _ IH]; [done|]. cbn. by rewrite IH, valid_text_ascii. Qed.

Lemma decode_runtime_wire p :
  wire_runtime p -> exists j, json_PeerRuntime time_text p = Some j
    /\ decode_PeerRuntime time_parse (valid_json j) = (public_runtime p, true).
Proof.
  intros [H1 H2 H3 H4 H5 H6 H7 (t & Ht & Ha & Hp)]. destruct p as [pub psk ep ips hs rx tx ka kr].
  cbn [pr_PublicKey pr_Endpoint pr_AllowedIPs pr_LastHandshake pr_RxBytes pr_TxBytes pr_KeepaliveSecs pr_KeepaliveRange] in *.
  unfold json_PeerRuntime, public_runtime.
  cbn [pr_PublicKey pr_Endpoint pr_AllowedIPs pr_LastHandshake pr_RxBytes pr_TxBytes pr_KeepaliveSecs pr_KeepaliveRange].
  rewrite Ht. cbn [mbind option_bind]. eexists. split; [done|].
  assert (Htime : decode_time time_parse None (valid_json (JStr t)) = (hs, true)).
  { cbn. by rewrite valid_text_ascii, Hp. }
  unfold omit_string, omit_int, decode_PeerRuntime, decode_object. cbn [valid_json].
  destruct (bool_decide_reflect (ep = [])) as [->|]; destruct (bool_decide_reflect (kr = [])) as [->|];
    destruct (Z.eqb_spec ka 0) as [->|];
    cbn [app fmap list_fmap fold_left fst snd]; unfold runtime_field; run_fields; rewrite Htime; run_fields;
    rewrite !valid_text_ascii, valid_text_list by done; reflexivity.
Qed.

Lemma json_peers_integral ps l : mapM (json_PeerRuntime time_text) ps = Some l -> Forall integral l.
Proof.
  intros H. apply mapM_Some in H. induction H as [|p j ps l Hp _ IH]; [constructor|].
  constructor; [by eapply json_PeerRuntime_integral|done].
Qed.

Lemma integral_arr l : Forall integral l -> integral (JArr l).
Proof. induction 1; cbn; auto. Qed.

Lemma json_DumpResponse_integral i ps j : json_DumpResponse time_text i ps = Some j -> integral j.
Proof.
  unfold json_DumpResponse. destruct (mapM _ ps) as [l|] eqn:E; [|done]. intros [= <-].
  apply json_peers_integral in E. solve_integral.
  - unfold json_InterfaceRuntime. solve_integral.
  - destruct l; [done|]. by apply integral_arr.
Qed.

Lemma decode_interface_json i :
  ascii_text (ir_PublicKey i) -> in_int64 (ir_ListenPort i) -> in_int64 (ir_FwMark i) ->
  decode_object iface_field empty_interface (valid_json (json_InterfaceRuntime i)) = (public_interface i, true).
Proof.
  intros Hpub Hport Hmark. destruct i as [priv pub port mark].
  unfold json_InterfaceRuntime, decode_object, empty_interface, public_interface.
  cbn [ir_PublicKey ir_ListenPort ir_FwMark valid_json] in *. cbn [fmap list_fmap fold_left fst snd].
  unfold iface_field. run_fields. by rewrite valid_text_ascii.
Qed.

(** The peers of a decoded dump. *)
Lemma decode_dump_peers i ps l i' ps' ok :
  mapM (json_PeerRuntime time_text) ps = Some l ->
  decode_DumpResponse time_parse (valid_json (JObj [ (#"interface", json_InterfaceRuntime i);
    (#"peers", match l with [] => JNull | _ => JArr l end) ])) = ((i', ps'), ok) ->
  ps' = (fun j => fst (decode_PeerRuntime time_parse (valid_json j))) <$> l.
Proof.
  intros _. unfold decode_DumpResponse, decode_object. cbn [valid_json fmap list_fmap fold_left fst snd].
  unfold dump_field. eval_fields. fold (decode_object iface_field).
  match goal with |- context [decode_object iface_field empty_interface ?v] =>
    destruct (decode_object iface_field empty_interface v) as [x o] end. cbv beta iota. eval_fields.
  destruct l as [|j l]; [by intros [= _ <- _]|]. cbn [valid_json decode_peers]. rewrite <- !list_fmap_compose.
  by intros [= _ <- _].
Qed.

Lemma decode_dump_pubs i ps j i' ps' ok :
  json_DumpResponse time_text i ps = Some j ->
  decode_DumpResponse time_parse (valid_json j) = ((i', ps'), ok) ->
  pr_PublicKey <$> ps' = (fun p => valid_text (pr_PublicKey p)) <$> ps.
Proof.
  unfold json_DumpResponse. destruct (mapM _ ps) as [l|] eqn:E; [|done]. intros [= <-] H.
  rewrite (decode_dump_peers _ _ _ _ _ _ E H). apply mapM_Some in E. clear H.
  induction E as [|p j ps l Hp _ IH]; [done|]. rewrite !fmap_cons, IH. f_equal. by apply decode_runtime_pub.
Qed.

Lemma decode_dump_wire i ps :
  ascii_text (ir_PublicKey i) -> in_int64 (ir_ListenPort i) -> in_int64 (ir_FwMark i) -> Forall wire_runtime ps ->
  exists j, json_DumpResponse time_text (public_interface i) (public_runtime <$> ps) = Some j
    /\ decode_DumpResponse time_parse (valid_json j) = ((public_interface i, public_runtime <$> ps), true).
Proof.
  intros Hpub Hport Hmark Hps.
  assert (exists l, mapM (json_PeerRuntime time_text) (public_runtime <$> ps) = Some l
            /\ decode_PeerRuntime time_parse <$> (valid_json <$> l) = (fun p => (public_runtime p, true)) <$> ps)
    as (l & Hl & Hd).
  { induction Hps as [|p ps Hp _ IH]; [by exists []|]. destruct IH as (l & Hl & Hd).
    destruct (decode_runtime_wire (public_runtime p)) as (j & Hj & Hdj); [by destruct Hp, p|].
    exists (j :: l). rewrite fmap_cons. cbn [mapM]. rewrite Hj. cbn [mbind option_bind]. rewrite Hl. split; [done|].
    rewrite !fmap_cons, Hd, Hdj. by destruct p. }
  unfold json_DumpResponse. rewrite Hl. cbn [mbind option_bind]. eexists. split; [done|].
  unfold decode_DumpResponse, decode_object. cbn [valid_json]. cbn [fmap list_fmap fold_left fst snd].
  unfold dump_field. eval_fields. fold (decode_object iface_field).
  rewrite (decode_interface_json (public_interface i)) by done. cbv beta iota. eval_fields.
  assert (decode_peers time_parse [] (valid_json match l with [] => JNull | _ => JArr l end) = (public_runtime <$> ps, true))
    as ->; [|done].
  destruct l as [|j l]; [by destruct ps|]. cbn [valid_json decode_peers]. rewrite Hd.
  rewrite <- list_fmap_compose. apply (f_equal2 pair); [done|]. clear. induction ps; [done|]. cbn. by rewrite IHps.
Qed.
End dump.

(** ** Problems *)

Lemma json_problem_integral st text detail : integral (json_problem st text detail).
Proof. unfold json_problem. solve_integral. Qed.

(** The client shows the detail of a problem the agent wrote. *)
Lemma ProblemDetail_problem st text detail :
  ProblemDetail (rs_Body (writeProblem st text detail)) = TrimSpace (valid_text detail).
Proof.
  unfold ProblemDetail, Unmarshal, writeProblem. cbn [rs_Body].
  rewrite parse_Marshal; [|apply json_problem_integral|cbn; set_solver|].
  2: { pose proof (weight_length _ (json_problem_integral st text detail)). rewrite length_app. lia. }
  cbn [mbind option_bind skip_ws]. change (json_space nl) with true. cbn iota.
  rewrite bool_decide_eq_true_2 by done. unfold json_problem, decode_object. cbn [valid_json].
  cbn [fmap list_fmap fold_left fst snd]. unfold detail_field. by run_fields.
Qed.

Lemma decode_body_dump time_parse json_error j :
  integral j -> decode_body json_error (decode_DumpResponse time_parse) (Ok (Marshal j ++ [nl]))
  = match decode_DumpResponse time_parse (valid_json j) with
    | (d, true) => Ok d
    | (_, false) => Err (json_error (Marshal j ++ [nl]))
    end.
Proof.
  intros Hj. unfold decode_body. rewrite Decode_Marshal by (done || (cbn; set_solver)). cbn [fmap option_fmap option_map].
  by destruct (decode_DumpResponse time_parse (valid_json j)) as [d []].
Qed.

(** ** Paths *)

(** A segment that is sent as it is. *)
Definition plain_segment (s : bytes) : Prop :=
  s <> [] /\ s <> #"." /\ s <> #".." /\ Forall (fun c => segment_byte c = true) s.

#[export] Instance plain_segment_dec s : Decision (plain_segment s).
Proof. unfold plain_segment. apply _. Defined.

Lemma PathEscape_plain s : plain_segment s -> PathEscape s = s.
Proof.
  intros (_ & _ & _ & H). unfold PathEscape. induction H as [|c s Hc _ IH]; [done|]. cbn. by rewrite Hc, IH.
Qed.

Lemma PathEscape_slash k : "/"%char ∉ PathEscape k.
Proof.
  unfold PathEscape. induction k as [|c k IH]; [apply not_elem_of_nil|]. cbn. rewrite elem_of_app. intros [H|H]; [|done].
  clear IH. destruct c as [[] [] [] [] [] [] [] []]; vm_compute in H; set_solver.
Qed.

(** A key with a slash is another key after escaping. *)
Lemma PathEscape_other k : "/"%char ∈ k -> PathEscape k <> k.
Proof. intros Hk E. apply (PathEscape_slash k). by rewrite E. Qed.

(** A segment on the wire: one that needs no escaping, or one with an escaped slash. *)
Definition wire_segment (s : bytes) : Prop := plain_segment s \/ exists k, "/"%char ∈ k /\ s = PathEscape k.

Lemma wire_segment_escape k : plain_segment k \/ "/"%char ∈ k -> wire_segment (PathEscape k).
Proof. intros [H|H]; [left; by rewrite PathEscape_plain|right; eauto]. Qed.

Lemma name_byte_segment c : name_byte c = true -> segment_byte c = true.
Proof. destruct c as [[] [] [] [] [] [] [] []]; by vm_compute. Qed.

Lemma ValidInterfaceName_segment name : ValidInterfaceName name = true -> plain_segment name.
Proof.
  intros H. destruct (ValidInterfaceName_safe name H) as (_ & ? & ? & ? & _). split_and!; try done.
  unfold ValidInterfaceName in H. destruct (_ || _ || _ || _); [done|]. rewrite forallb_forall in H.
  apply Forall_forall. intros c Hc. apply name_byte_segment, H. by apply list_elem_of_In.
Qed.

(** How many parameters a pattern has. *)
Definition params (p : pattern) : nat := length (filter (fun s => s = Param) p).

(** ** The exchange *)

Section exchange.
Context {W : Type} {EX : Executor W}.
Context (time_text : option Z -> option bytes) (time_parse : bytes -> option (option Z)) (json_error : bytes -> bytes).
Context (route : bytes -> bytes -> result Response (pattern * list bytes)).
Context (Quote : bytes -> bytes) (BaseURL : bytes).

(** chi matches a path with the pattern it was built from and hands out the segments
    as they were sent: those that need no escaping, and any with an escaped slash,
    since the parsed URL then keeps the path as sent ([RawPath]) and chi matches that. *)
Definition routes_as_sent : Prop :=
  forall m p segs, (m, p) ∈ agent_routes -> length segs = params p -> Forall wire_segment segs ->
    route m (path_of p segs) = Ok (p, segs).

Context (Hroute : routes_as_sent).

Local Abbreviation do' := (do time_text json_error route Quote BaseURL).
Local Abbreviation serve' := (serve time_text json_error route).

(** The network delivers the next exchange. *)
Definition delivers (w : RemoteWorld W) : Prop := default Delivered (head (rw_net w)) = Delivered.

Lemma serve_sent m p args body w :
  (m, p) ∈ agent_routes -> length args = params p -> Forall (fun k => plain_segment k \/ "/"%char ∈ k) args ->
  serve' (request m p args body) w = dispatch time_text json_error p (PathEscape <$> args) (Ok body) w.
Proof.
  intros Hin Hlen Hargs. unfold serve, request. cbn [rq_Method rq_RawPath rq_Body].
  rewrite Hroute; [done..|by rewrite length_fmap|]. apply Forall_fmap. eapply Forall_impl; [exact Hargs|].
  apply wire_segment_escape.
Qed.

Lemma serve_plain m p args body w :
  (m, p) ∈ agent_routes -> length args = params p -> Forall plain_segment args ->
  serve' (request m p args body) w = dispatch time_text json_error p args (Ok body) w.
Proof.
  intros Hin Hlen Hargs. rewrite serve_sent; [|done..|by eapply Forall_impl; [exact Hargs|left]].
  assert (PathEscape <$> args = args) as ->; [|done].
  clear Hlen. induction Hargs as [|x l Hx _ IH]; [done|]. cbn. by rewrite IH, PathEscape_plain.
Qed.

Lemma do_delivered rq w :
  delivers w -> do' None rq w =
    let '(resp, host) := serve' rq (rw_host w) in
    (if 400 <=? rs_Status resp then Err (status_error rq resp) else Ok resp, mkRemote host (tail (rw_net w))).
Proof. unfold do, delivers. by intros ->. Qed.

(** The error a caller of the remote executor sees for a local one: its text. *)
Definition agent_error (rq : Request) (e : error) : error :=
  EMsg (#"nodeagent " ++ rq_Method rq ++ #" " ++ rq_Path rq ++ #": 500 " ++ TrimSpace (valid_text (err_Error e))).

Lemma status_error_problem rq text e : status_error rq (writeProblem 500 text (err_Error e)) = agent_error rq e.
Proof. unfold status_error, agent_error. by rewrite ProblemDetail_problem. Qed.

(** A local operation's outcome seen from the other end. *)
Definition across {A} (rq : Request) (r : result error A * W) (net : list delivery) : result error A * RemoteWorld W :=
  (match fst r with Ok a => Ok a | Err e => Err (agent_error rq e) end, mkRemote (snd r) net).

Lemma with_iface_ok iface (k : bytes -> handler) (w : W) :
  ValidInterfaceName iface = true -> with_iface iface k w = k iface w.
Proof. intros H. unfold with_iface, ifaceParam. by rewrite H. Qed.

Lemma do_reply rq text op w :
  delivers w -> serve' rq (rw_host w) = reply text op (rw_host w) ->
  discard (do' None rq w) = across rq (op (rw_host w)) (tail (rw_net w)).
Proof.
  intros Hd Hs. rewrite do_delivered by done. rewrite Hs. unfold reply, across, discard.
  destruct (op (rw_host w)) as [[[]|e] host]; [done|]. cbn [rs_Status writeProblem fst snd].
  change (400 <=? 500) with true. cbv iota beta. by rewrite status_error_problem.
Qed.

Lemma is_route m p : bool_decide ((m, p) ∈ agent_routes) = true -> (m, p) ∈ agent_routes.
Proof. apply bool_decide_eq_true. Qed.

(** Reduce a request with a valid interface name to the handler's body. *)
Ltac to_handler :=
  rewrite serve_plain;
    [unfold dispatch; repeat (rewrite bool_decide_eq_false_2 by (by vm_compute));
     rewrite ?bool_decide_eq_true_2 by done
    |by apply is_route|done|by auto using ValidInterfaceName_segment].

Lemma remote_SyncConf_run iface config w :
  ValidInterfaceName iface = true -> delivers w ->
  remote_SyncConf time_text json_error route Quote BaseURL None iface config w
  = across (request #"POST" p_syncconf [iface] config) (agent_sync None iface config (rw_host w)) (tail (rw_net w)).
Proof.
  intros Hv Hd. apply (do_reply _ #"syncconf_failed"); [done|]. to_handler.
  unfold syncConfHandler. by rewrite with_iface_ok.
Qed.

(** A peer that JSON carries unchanged. *)
Definition wire_spec (p : PeerSpec) : Prop :=
  Forall ascii_text (ps_PublicKey p :: ps_PresharedKey p :: ps_Endpoint p :: ps_AllowedIPs p)
  /\ in_int64 (ps_KeepaliveSecs p).

Lemma valid_spec_wire p : wire_spec p -> valid_spec p = p.
Proof.
  destruct p as [pub psk ips ep ka]. intros [H _]. cbn in H. rewrite !Forall_cons in H. destruct H as (H1 & H2 & H3 & H4).
  unfold valid_spec. cbn. by rewrite !valid_text_ascii, valid_text_list.
Qed.

Lemma remote_SetPeer_run iface p w :
  ValidInterfaceName iface = true -> delivers w -> wire_spec p ->
  remote_SetPeer time_text json_error route Quote BaseURL None iface p w
  = across (request #"POST" p_peers [iface] (Marshal (json_PeerSpec p))) (SetPeer None iface p (rw_host w)) (tail (rw_net w)).
Proof.
  intros Hv Hd Hp. apply (do_reply _ #"set_peer_failed"); [done|]. to_handler.
  unfold setPeerHandler. rewrite with_iface_ok by done. unfold decode_body.
  pose proof (Decode_Marshal (json_PeerSpec p) [] (json_PeerSpec_integral p) I) as Hj. rewrite app_nil_r in Hj.
  rewrite Hj. cbn [fmap option_fmap option_map]. rewrite decode_PeerSpec_json by apply Hp.
  by rewrite valid_spec_wire.
Qed.

Lemma remote_RemovePeer_run iface pub w :
  ValidInterfaceName iface = true -> delivers w -> plain_segment pub ->
  remote_RemovePeer time_text json_error route Quote BaseURL None iface pub w
  = across (request #"DELETE" p_peer [iface; pub] []) (RemovePeer None iface pub (rw_host w)) (tail (rw_net w)).
Proof.
  intros Hv Hd Hp. apply (do_reply _ #"remove_peer_failed"); [done|]. to_handler.
  unfold removePeerHandler. by rewrite with_iface_ok.
Qed.

(** A key with a slash reaches the agent's executor escaped. *)
Lemma remote_RemovePeer_slash iface pub w :
  ValidInterfaceName iface = true -> delivers w -> "/"%char ∈ pub ->
  remote_RemovePeer time_text json_error route Quote BaseURL None iface pub w
  = across (request #"DELETE" p_peer [iface; pub] []) (RemovePeer None iface (PathEscape pub) (rw_host w)) (tail (rw_net w)).
Proof.
  intros Hv Hd Hp. apply (do_reply _ #"remove_peer_failed"); [done|]. pose proof (ValidInterfaceName_segment iface Hv) as Hi.
  rewrite serve_sent; [|by apply is_route|done|by auto]. cbn [fmap list_fmap dispatch].
  rewrite (PathEscape_plain iface) by done. unfold removePeerHandler. by rewrite with_iface_ok.
Qed.

Lemma remote_InterfaceUp_run iface path w :
  ValidInterfaceName iface = true -> delivers w -> ascii_text path ->
  remote_InterfaceUp time_text json_error route Quote BaseURL None iface path w
  = across (request #"POST" p_up [iface] (Marshal (JObj [ (#"config_path", JStr path) ])))
      (InterfaceUp None iface path (rw_host w)) (tail (rw_net w)).
Proof.
  intros Hv Hd Hp. apply (do_reply _ #"up_failed"); [done|]. to_handler.
  unfold upHandler. rewrite with_iface_ok by done.
  pose proof (Decode_Marshal (JObj [ (#"config_path", JStr path) ]) []) as Hj. rewrite app_nil_r in Hj.
  rewrite Hj; [|split; done|done]. unfold decode_object. cbn [valid_json]. cbn [fmap list_fmap fold_left fst snd].
  unfold config_path_field. run_fields. cbn [fst]. by rewrite valid_text_ascii.
Qed.

Lemma remote_InterfaceDown_run iface w :
  ValidInterfaceName iface = true -> delivers w ->
  remote_InterfaceDown time_text json_error route Quote BaseURL None iface w
  = across (request #"POST" p_down [iface] []) (InterfaceDown None iface (rw_host w)) (tail (rw_net w)).
Proof.
  intros Hv Hd. apply (do_reply _ #"down_failed"); [done|]. to_handler.
  unfold downHandler. by rewrite with_iface_ok.
Qed.

Definition map_ok {A B} (f : A -> B) (r : result error A * W) : result error B * W :=
  (match fst r with Ok a => Ok (f a) | Err e => Err e end, snd r).

Lemma remote_ShowConf_run iface w :
  ValidInterfaceName iface = true -> delivers w ->
  remote_ShowConf time_text json_error route Quote BaseURL None iface w
  = across (request #"GET" p_showconf [iface] []) (map_ok redactConfigSecrets (ShowConf None iface (rw_host w)))
      (tail (rw_net w)).
Proof.
  intros Hv Hd. unfold remote_ShowConf. rewrite do_delivered by done. to_handler. unfold showconfHandler.
  rewrite with_iface_ok by done. destruct (ShowConf None iface (rw_host w)) as [[conf|e] h]; [done|].
  cbn [rs_Status writeProblem]. change (400 <=? 500) with true. cbv iota beta. by rewrite status_error_problem.
Qed.

(** What the agent answers to a dump. *)
Lemma remote_ShowDump_eq iface w :
  ValidInterfaceName iface = true -> delivers w ->
  remote_ShowDump time_text time_parse json_error route Quote BaseURL None iface w
  = match ShowDump None iface (rw_host w) with
    | (Ok (ir, ps), h) =>
        (match decode_body json_error (decode_DumpResponse time_parse)
                 (Ok (rs_Body (writeJSON 200 (json_DumpResponse time_text (public_interface ir) (public_runtime <$> ps))))) with
         | Ok d => Ok d
         | Err text => Err (EMsg text)
         end, mkRemote h (tail (rw_net w)))
    | (Err e, h) => (Err (agent_error (request #"GET" p_dump [iface] []) e), mkRemote h (tail (rw_net w)))
    end.
Proof.
  intros Hv Hd. unfold remote_ShowDump. rewrite do_delivered by done. to_handler. unfold dumpHandler.
  rewrite with_iface_ok by done. destruct (ShowDump None iface (rw_host w)) as [[[ir ps]|e] h]; [done|].
  cbn [rs_Status writeProblem]. change (400 <=? 500) with true. cbv iota beta. by rewrite status_error_problem.
Qed.

(** A dump that JSON carries unchanged. *)
Definition wire_dump (d : InterfaceRuntime * list PeerRuntime) : Prop :=
  ascii_text (ir_PublicKey (fst d)) /\ in_int64 (ir_ListenPort (fst d)) /\ in_int64 (ir_FwMark (fst d))
  /\ Forall (wire_runtime time_text time_parse) (snd d).

Definition public_dump (d : InterfaceRuntime * list PeerRuntime) : InterfaceRuntime * list PeerRuntime :=
  (public_interface (fst d), public_runtime <$> snd d).

Lemma remote_ShowDump_run iface w :
  ValidInterfaceName iface = true -> delivers w ->
  (forall d, fst (ShowDump None iface (rw_host w)) = Ok d -> wire_dump d) ->
  remote_ShowDump time_text time_parse json_error route Quote BaseURL None iface w
  = across (request #"GET" p_dump [iface] []) (map_ok public_dump (ShowDump None iface (rw_host w))) (tail (rw_net w)).
Proof.
  intros Hv Hd Hw. rewrite remote_ShowDump_eq by done.
  destruct (ShowDump None iface (rw_host w)) as [[[ir ps]|e] h]; [|done].
  destruct (Hw (ir, ps) eq_refl) as (H1 & H2 & H3 & H4). cbn [fst snd] in *.
  destruct (decode_dump_wire time_text time_parse ir ps H1 H2 H3 H4) as (j & Hj & Hdj). rewrite Hj.
  cbn [writeJSON rs_Body]. rewrite decode_body_dump by (by eapply json_DumpResponse_integral). by rewrite Hdj.
Qed.

(** C26: (The remote executor refines the local one.) Over a network that delivers,
    for a valid interface name, each operation of [RemoteExecutor] runs the operation
    of the same name on the agent's host and returns its result, a local error as the
    error text of the exchange: [SyncConf] after the agent's [ShowConf], on the config
    with the running private key put in; [SetPeer] and [InterfaceUp] for ASCII arguments
    (and a 64-bit keepalive); [ShowConf] with the secrets redacted; [ShowDump], for a
    dump that JSON carries, without private and preshared keys; [RemovePeer] with the
    key itself if a path carries it unescaped, but for a key with a slash with its
    escaped text, which is another key. *)
Theorem remote_refines iface w :
  ValidInterfaceName iface = true -> delivers w ->
  (forall config,
     remote_SyncConf time_text json_error route Quote BaseURL None iface config w
     = across (request #"POST" p_syncconf [iface] config) (agent_sync None iface config (rw_host w)) (tail (rw_net w)))
  /\ (forall p, wire_spec p ->
     remote_SetPeer time_text json_error route Quote BaseURL None iface p w
     = across (request #"POST" p_peers [iface] (Marshal (json_PeerSpec p))) (SetPeer None iface p (rw_host w)) (tail (rw_net w)))
  /\ (forall pub, plain_segment pub ->
     remote_RemovePeer time_text json_error route Quote BaseURL None iface pub w
     = across (request #"DELETE" p_peer [iface; pub] []) (RemovePeer None iface pub (rw_host w)) (tail (rw_net w)))
  /\ (forall pub, "/"%char ∈ pub ->
     remote_RemovePeer time_text json_error route Quote BaseURL None iface pub w
     = across (request #"DELETE" p_peer [iface; pub] []) (RemovePeer None iface (PathEscape pub) (rw_host w)) (tail (rw_net w))
     /\ PathEscape pub <> pub)
  /\ ((forall d, fst (ShowDump None iface (rw_host w)) = Ok d -> wire_dump d) ->
     remote_ShowDump time_text time_parse json_error route Quote BaseURL None iface w
     = across (request #"GET" p_dump [iface] []) (map_ok public_dump (ShowDump None iface (rw_host w))) (tail (rw_net w)))
  /\ (remote_ShowConf time_text json_error route Quote BaseURL None iface w
     = across (request #"GET" p_showconf [iface] []) (map_ok redactConfigSecrets (ShowConf None iface (rw_host w)))
         (tail (rw_net w)))
  /\ (forall path, ascii_text path ->
     remote_InterfaceUp time_text json_error route Quote BaseURL None iface path w
     = across (request #"POST" p_up [iface] (Marshal (JObj [ (#"config_path", JStr path) ])))
         (InterfaceUp None iface path (rw_host w)) (tail (rw_net w)))
  /\ (remote_InterfaceDown time_text json_error route Quote BaseURL None iface w
     = across (request #"POST" p_down [iface] []) (InterfaceDown None iface (rw_host w)) (tail (rw_net w))).
Proof.
  intros Hv Hd. split_and!; intros; eauto using remote_SyncConf_run, remote_SetPeer_run, remote_RemovePeer_run, remote_RemovePeer_slash, PathEscape_other,
    remote_ShowDump_run, remote_ShowConf_run, remote_InterfaceUp_run, remote_InterfaceDown_run.
Qed.
End exchange.

(** ** The interface's laws *)

Section laws.
Context {W : Type} {EX : Executor W} {EL : ExecutorLaws W}.
Context (time_text : option Z -> option bytes) (time_parse : bytes -> option (option Z)) (json_error : bytes -> bytes).
Context (route : bytes -> bytes -> result Response (pattern * list bytes)) (Hroute : routes_as_sent route).
Context (Quote : bytes -> bytes) (BaseURL : bytes).

Local Abbreviation do' := (do time_text json_error route Quote BaseURL).
Local Abbreviation sync' := (remote_SyncConf time_text json_error route Quote BaseURL).
Local Abbreviation dump' := (remote_ShowDump time_text time_parse json_error route Quote BaseURL).

(** An answer means that the exchange took place. *)
Lemma do_ok ctx rq (w : RemoteWorld W) resp w' : do' ctx rq w = (Ok resp, w') -> ctx = None /\ delivers w.
Proof.
  unfold do, delivers. destruct ctx; [done|]. by destruct (default Delivered (head (rw_net w))).
Qed.

Lemma remote_SyncConf_inv ctx iface config w w' :
  ValidInterfaceName iface = true -> sync' ctx iface config w = (Ok tt, w') ->
  ctx = None /\ agent_sync None iface config (rw_host w) = (Ok tt, rw_host w') /\ rw_net w' = tail (rw_net w).
Proof.
  intros Hv H. assert (ctx = None /\ delivers w) as [-> Hd].
  { unfold remote_SyncConf, discard in H. destruct (do' ctx _ w) as [[r|e] w1] eqn:E; [|done]. by eapply do_ok. }
  rewrite remote_SyncConf_run in H by done. unfold across in H.
  destruct (agent_sync None iface config (rw_host w)) as [[[]|e] h]; simplify_eq/=. done.
Qed.

(** The config the host was given carries the running key. *)
Lemma agent_sync_carried ctx iface config (h h' : W) :
  agent_sync ctx iface config h = (Ok tt, h') ->
  exists c' h0, carried config c' /\ SyncConf ctx iface c' h0 = (Ok tt, h').
Proof.
  unfold agent_sync. destruct (ShowConf ctx iface h) as [[current|e] h0]; intros H; eexists _, h0;
    (split; [|exact H]); [|constructor]. constructor. constructor.
Qed.

Lemma remote_ShowDump_inv ctx iface w ir ps w' :
  ValidInterfaceName iface = true -> dump' ctx iface w = (Ok (ir, ps), w') ->
  exists ir0 ps0, ShowDump None iface (rw_host w) = (Ok (ir0, ps0), rw_host w')
    /\ pr_PublicKey <$> ps = (fun p => valid_text (pr_PublicKey p)) <$> ps0.
Proof.
  intros Hv H. assert (ctx = None /\ delivers w) as [-> Hd].
  { unfold remote_ShowDump in H. destruct (do' ctx _ w) as [[r|e] w1] eqn:E; [|done]. by eapply do_ok. }
  rewrite remote_ShowDump_eq in H by done.
  destruct (ShowDump None iface (rw_host w)) as [[[ir0 ps0]|e] h]; [|done].
  exists ir0, ps0.
  destruct (json_DumpResponse time_text (public_interface ir0) (public_runtime <$> ps0)) as [j|] eqn:Ej.
  - cbn [writeJSON rs_Body] in H. rewrite decode_body_dump in H by (by eapply json_DumpResponse_integral).
    destruct (decode_DumpResponse time_parse (valid_json j)) as [[i' ps'] []] eqn:Ed; simplify_eq/=. split; [done|].
    rewrite (decode_dump_pubs _ _ _ _ _ _ _ _ Ej Ed). by rewrite <- list_fmap_compose.
  - cbn in H. simplify_eq.
Qed.

Lemma remote_rendered_dump ctx ctx' iface i p peers config w w' ir ps w'' :
  ValidInterfaceName iface = true -> printable_interface i -> printable_profile p -> Forall printable_peer peers ->
  Forall (fun e => key_text (pe_PublicKey e)) peers ->
  carried (Server i p peers) config ->
  sync' ctx iface config w = (Ok tt, w') -> dump' ctx' iface w' = (Ok (ir, ps), w'') ->
  (list_to_set (pr_PublicKey <$> ps) : gset bytes) = list_to_set (pe_PublicKey <$> peers)
  /\ NoDup (pr_PublicKey <$> ps).
Proof.
  intros Hv Hi Hp Hps Ha Hc Hsync Hdump.
  apply remote_SyncConf_inv in Hsync as (_ & Hsync & _); [|done].
  apply agent_sync_carried in Hsync as (c' & h0 & Hc' & Hsync).
  apply remote_ShowDump_inv in Hdump as (ir0 & ps0 & Hdump & ->); [|done].
  pose proof (carried_trans _ _ _ Hc Hc') as Hcc.
  destruct (SyncConf_dump _ _ _ _ _ _ _ _ _ _ _ _ Hv Hi Hp Hps Ha Hcc Hsync Hdump) as [Hset Hn].
  assert ((fun q => valid_text (pr_PublicKey q)) <$> ps0 = pr_PublicKey <$> ps0) as ->; [|done].
  apply list_fmap_ext. intros n q Hq. apply valid_text_ascii.
  assert (pr_PublicKey q ∈ (list_to_set (pe_PublicKey <$> peers) : gset bytes)) as Hin.
  { rewrite <- Hset. apply elem_of_list_to_set, list_elem_of_fmap_2. by eapply list_elem_of_lookup_2. }
  apply elem_of_list_to_set, list_elem_of_fmap in Hin as (e & -> & He). eapply Forall_forall in Ha; [|exact He]. by apply key_text_ascii.
Qed.

(** The remote executor keeps the law the worker relies on. *)
#[export] Instance RemoteExecutor_Laws :
  @ExecutorLaws (RemoteWorld W) (RemoteExecutor time_text time_parse json_error route Quote BaseURL) :=
  { SyncConf_dump := remote_rendered_dump }.
End laws.

(** ** Secrets *)

(** What the client makes of a body has no secrets, whatever the body. *)
Lemma decode_object_keeps {A} (f : A -> bytes -> json -> A * bool) (P : A -> Prop) z j :
  P z -> (forall a k v, P a -> P (fst (f a k v))) -> P (fst (decode_object f z j)).
Proof.
  intros Hz Hf. destruct j as [|b|n|s|l|l]; try done. cbn [decode_object]. generalize true as ok. revert z Hz.
  induction l as [|[k v] l IH]; intros z Hz ok; [done|]. cbn [fold_left].
  pose proof (Hf z k v Hz) as Hs. destruct (f z k v) as [a o]. by apply IH.
Qed.

Lemma iface_field_private i k v : ir_PrivateKey (fst (iface_field i k v)) = ir_PrivateKey i.
Proof. destruct i. unfold iface_field. by repeat (case_match; try by case_match). Qed.

Lemma runtime_field_psk tp p k v : pr_PresharedKey (fst (runtime_field tp p k v)) = pr_PresharedKey p.
Proof. destruct p. unfold runtime_field. by repeat (case_match; try by case_match). Qed.

Lemma decode_dump_secrets time_parse j :
  let d := fst (decode_DumpResponse time_parse j) in
  ir_PrivateKey (fst d) = [] /\ Forall (fun p => pr_PresharedKey p = []) (snd d).
Proof.
  apply (decode_object_keeps _ (fun d => ir_PrivateKey (fst d) = [] /\ Forall (fun p => pr_PresharedKey p = []) (snd d)));
    [by split|].
  intros [i ps] k v [Hi Hps]. unfold dump_field. cbn [fst snd] in *. case_match.
  - pose proof (decode_object_keeps iface_field (fun x => ir_PrivateKey x = []) i v Hi) as Hk.
    destruct (decode_object iface_field i v) as [x o]. split; [|done]. apply Hk. intros. by rewrite iface_field_private.
  - case_match; [|done]. destruct v as [|b|n|s|l|l]; cbn; try done. split; [done|].
    apply Forall_forall. intros p Hp. apply list_elem_of_fmap in Hp as ([p' o] & -> & Hp).
    apply list_elem_of_fmap in Hp as (j' & Hj & _). cbn.
    pose proof (decode_object_keeps (runtime_field time_parse) (fun x => pr_PresharedKey x = [])
                  (mkPeerRuntime [] [] [] [] None 0 0 0 []) j') as Hk.
    unfold decode_PeerRuntime in Hj. rewrite <- Hj in Hk. apply Hk; [done|]. intros. by rewrite runtime_field_psk.
Qed.

Lemma redact_hides line k v :
  Cut (redact_line line) "="%char = Some (k, v) ->
  ToLower (TrimSpace k) ∈ [ #"privatekey"; #"presharedkey"; #"headerprotectionkey" ] -> v = #" (redacted)".
Proof.
  intros Hc Hk. destruct (isSecretConfigLine line) eqn:Hs.
  - destruct (redact_line_secret line Hs) as (k0 & v0 & _ & _ & E & Hk0). rewrite E, Cut_app in Hc by done. by simplify_eq.
  - unfold redact_line in Hc. rewrite Hs in Hc. unfold isSecretConfigLine in Hs. rewrite Hc in Hs.
    by rewrite bool_decide_eq_true_2 in Hs.
Qed.

(** C27: (The agent keeps the node's secrets.) In the config text the agent shows,
    every line that sets a private, preshared or header-protection key, however
    it is spelled, has the value "(redacted)", and every other line is unchanged;
    its dump answers the same for hosts that differ in their private and preshared
    keys only; and a dump that the control plane accepts has neither, whatever the
    network or the other end sent. *)
Theorem agent_hides_secrets {W} {EX : Executor W} time_text time_parse json_error route Quote BaseURL :
  (forall conf line k v, line ∈ Split (redactConfigSecrets conf) nl -> Cut line "="%char = Some (k, v) ->
     ToLower (TrimSpace k) ∈ [ #"privatekey"; #"presharedkey"; #"headerprotectionkey" ] -> v = #" (redacted)")
  /\ (forall conf n line, Split conf nl !! n = Some line -> isSecretConfigLine line = false ->
     Split (redactConfigSecrets conf) nl !! n = Some line)
  /\ (forall iface (w1 w2 h1 h2 : W) d1 d2, ValidInterfaceName iface = true ->
     ShowDump None iface w1 = (Ok d1, h1) -> ShowDump None iface w2 = (Ok d2, h2) -> public_dump d1 = public_dump d2 ->
     fst (dumpHandler time_text iface w1) = fst (dumpHandler time_text iface w2))
  /\ (forall ctx iface (w w' : RemoteWorld W) ir ps,
     remote_ShowDump time_text time_parse json_error route Quote BaseURL ctx iface w = (Ok (ir, ps), w') ->
     ir_PrivateKey ir = [] /\ Forall (fun p => pr_PresharedKey p = []) ps).
Proof.
  split_and!.
  - intros conf line k v. rewrite Split_redact. intros (l & -> & _)%list_elem_of_fmap. apply redact_hides.
  - intros conf n line Hn Hs. rewrite Split_redact, list_lookup_fmap, Hn. cbn. unfold redact_line. by rewrite Hs.
  - intros iface w1 w2 h1 h2 [i1 p1] [i2 p2] Hv E1 E2 [= H1 H2 H3 H4]. unfold dumpHandler.
    rewrite !with_iface_ok by done. rewrite E1, E2. cbn [fst]. unfold public_interface. by rewrite H1, H2, H3, H4.
  - intros ctx iface w w' ir ps. unfold remote_ShowDump. destruct (do _ _ _ _ _ _ _ w) as [[resp|e] w1]; [|done].
    unfold decode_body. destruct (Decode (rs_Body resp)) as [j|]; [|done]. cbn [fmap option_fmap option_map].
    pose proof (decode_dump_secrets time_parse j) as Hs.
    destruct (decode_DumpResponse time_parse j) as [[i l] []]; [|done]. by intros [= <- <- _].
Qed.

(** (No plain HTTP by accident.) A remote executor for production exists only
    for an https address with a client certificate, its key and a CA bundle that
    were all loaded; an agent server comes up with client certificates required
    against a loaded CA, or it was allowed plain HTTP explicitly and has no TLS
    material at all. *)
Theorem mtls_required url_Parse LoadX509KeyPair ReadFile AppendCertsFromPEM :
  (forall baseURL cert key ca url tc,
     NewRemoteExecutor url_Parse LoadX509KeyPair ReadFile AppendCertsFromPEM baseURL cert key ca = Ok (url, tc) ->
     (exists host, url_Parse baseURL = Some (#"https", host) /\ host <> [])
     /\ (exists pair b, LoadX509KeyPair cert key = Ok pair /\ ReadFile ca = Ok b /\ AppendCertsFromPEM b = true
          /\ tc = mkTLS [pair] (Some b) None false)
     /\ url = TrimRight baseURL #"/")
  /\ (forall cfg tls, NewServer ReadFile AppendCertsFromPEM cfg = Ok tls ->
     match tls with
     | Some tc => tc_RequireClientCert tc = true /\ exists b, ReadFile (sc_ClientCAs cfg) = Ok b
                    /\ AppendCertsFromPEM b = true /\ tc_ClientCAs tc = Some b
                    /\ sc_TLSCertFile cfg <> [] /\ sc_TLSKeyFile cfg <> []
     | None => sc_AllowInsecureHTTP cfg = true
               /\ sc_TLSCertFile cfg = [] /\ sc_TLSKeyFile cfg = [] /\ sc_ClientCAs cfg = []
     end).
Proof.
  split.
  - intros baseURL cert key ca url tc. unfold NewRemoteExecutor, newRemoteExecutor.
    destruct (url_Parse baseURL) as [[scheme host]|]; [|done].
    destruct (_ || _) eqn:E0; [done|]. cbn [andb negb].
    destruct (bool_decide_reflect (scheme = #"https")) as [->|]; cbn [negb]; [|done].
    destruct (_ || _ || _) eqn:E1; [done|]. bool_to_prop. unfold client_pair, root_pool.
    rewrite !bool_decide_eq_false_2 by done. cbn [negb orb].
    destruct (LoadX509KeyPair cert key) as [pair|]; [|done]. cbn [mbind result_bind].
    destruct (ReadFile ca) as [b|] eqn:Er; [|done]. destruct (AppendCertsFromPEM b) eqn:Ea; [|done].
    cbn [mbind result_bind]. intros [= <- <-]. split; [by exists host|]. split; [|done]. by exists pair, b.
  - intros cfg tls. unfold NewServer, buildTLSConfig. destruct (sc_HasExecutor cfg); [|done]. cbn [negb].
    destruct (bool_decide_reflect (sc_TLSCertFile cfg = [])), (bool_decide_reflect (sc_TLSKeyFile cfg = [])),
      (bool_decide_reflect (sc_ClientCAs cfg = [])); cbn [negb orb]; try done.
    + destruct (sc_AllowInsecureHTTP cfg) eqn:Ei; [|done]. by intros [= <-].
    + destruct (ReadFile _) as [b|] eqn:Er; [|done]. destruct (AppendCertsFromPEM b) eqn:Ea; [|done].
      intros [= <-]. split; [done|]. by exists b.
Qed.

(** ** A concrete agent *)

(** A router that matches segment by segment. *)
Fixpoint match_pattern (p : pattern) (segs : list bytes) : option (list bytes) :=
  match p, segs with
  | [], [] => Some []
  | Lit s :: p, x :: segs => if bool_decide (s = x) then match_pattern p segs else None
  | Param :: p, x :: segs => cons x <$> match_pattern p segs
  | _, _ => None
  end.

Fixpoint first_match (m : bytes) (segs : list bytes) (routes : list (bytes * pattern)) : option (pattern * list bytes) :=
  match routes with
  | [] => None
  | (m', p) :: routes =>
      match (if bool_decide (m = m') then match_pattern p segs else None) with
      | Some args => Some (p, args)
      | None => first_match m segs routes
      end
  end.

Definition segment_route (m path : bytes) : result Response (pattern * list bytes) :=
  match first_match m (tail (Split path "/"%char)) agent_routes with
  | Some r => Ok r
  | None => Err (mkResponse 404 #"text/plain; charset=utf-8" (#"404 page not found" ++ [nl]))
  end.

Lemma plain_segment_slash s : plain_segment s -> "/"%char ∉ s.
Proof.
  intros (_ & _ & _ & H) Hin. eapply Forall_forall in H; [|exact Hin]. by vm_compute in H.
Qed.

Lemma wire_segment_slash s : wire_segment s -> "/"%char ∉ s.
Proof. intros [H|(k & _ & ->)]; [by apply plain_segment_slash|apply PathEscape_slash]. Qed.

Lemma Split_path (segs : list bytes) :
  Forall (fun s => "/"%char ∉ s) segs -> segs <> [] ->
  tail (Split (concat ((fun s => "/"%char :: s) <$> segs)) "/"%char) = segs.
Proof.
  intros H Hne. destruct segs as [|x segs]; [done|].
  assert (concat ((fun s => "/"%char :: s) <$> (x :: segs)) = Join ([] :: x :: segs) ["/"%char]) as ->.
  { clear H Hne. rewrite Join_cons by done. cbn [app]. revert x. induction segs as [|y segs IH]; intros x; [cbn; by rewrite app_nil_r|].
    transitivity (("/"%char :: x) ++ concat ((fun s => "/"%char :: s) <$> (y :: segs))); [done|].
    by rewrite IH. }
  rewrite Split_Join; [done..|]. constructor; [set_solver|done].
Qed.

Ltac segs_ok :=
  repeat (apply Forall_cons_2; [first [by apply (bool_decide_unpack _); vm_compute | by set_solver]|]); apply Forall_nil_2.

Lemma segment_route_sent : routes_as_sent segment_route.
Proof.
  intros m p args Hin Hlen Hargs.
  assert (Hsl : Forall (fun s => "/"%char ∉ s) args) by (eapply Forall_impl; [exact Hargs|]; apply wire_segment_slash).
  assert (Hx : forall segs, path_of p args = concat ((fun s => "/"%char :: s) <$> segs) ->
            Forall (fun s => "/"%char ∉ s) segs -> segs <> [] ->
            first_match m segs agent_routes = Some (p, args) -> segment_route m (path_of p args) = Ok (p, args)).
  { intros segs E Hs Hne Hm. unfold segment_route. rewrite E, Split_path by done. by rewrite Hm. }
  rewrite Forall_forall in Hsl.
  unfold agent_routes in Hin.
  repeat (apply elem_of_cons in Hin as [[= -> ->]|Hin]); [..|by apply elem_of_nil in Hin];
    match goal with H : length args = params ?q |- _ =>
      let n := eval vm_compute in (params q) in change (params q) with n in H end;
    (destruct args as [|a [|b [|? ?]]]; cbn in Hlen; try lia).
  - by apply (Hx [ #"health" ]); [|by segs_ok|..].
  - by apply (Hx [ #"v1"; #"iface"; a; #"syncconf" ]); [|by segs_ok|..].
  - by apply (Hx [ #"v1"; #"iface"; a; #"peers" ]); [|by segs_ok|..].
  - by apply (Hx [ #"v1"; #"iface"; a; #"peers"; b ]); [|by segs_ok|..].
  - by apply (Hx [ #"v1"; #"iface"; a; #"dump" ]); [|by segs_ok|..].
  - by apply (Hx [ #"v1"; #"iface"; a; #"showconf" ]); [|by segs_ok|..].
  - by apply (Hx [ #"v1"; #"iface"; a; #"up" ]); [|by segs_ok|..].
  - by apply (Hx [ #"v1"; #"iface"; a; #"down" ]); [|by segs_ok|..].
Qed.

(** ** Applying a config again *)

Lemma Preserve_same c current :
  InterfaceValue current #"PrivateKey" = InterfaceValue c #"PrivateKey" -> PreserveInterfacePrivateKey c current = c.
Proof.
  intros E. destruct (PreserveInterfacePrivateKey_cases c current) as [->|(-> & Hv & _ & Hc)]; [done|].
  rewrite E, Hc in Hv. done.
Qed.

Lemma Preserve_again c cur0 cur1 :
  well_sectioned c -> (InterfaceValue cur0 #"PrivateKey" = [] \/ line_ok (InterfaceValue cur0 #"PrivateKey")) ->
  InterfaceValue cur1 #"PrivateKey" = InterfaceValue (PreserveInterfacePrivateKey c cur0) #"PrivateKey" ->
  PreserveInterfacePrivateKey c cur1 = PreserveInterfacePrivateKey c cur0.
Proof.
  intros Hw Hv E. destruct (PreserveInterfacePrivateKey_cases c cur0) as [H|(H & Ht & _ & Hc)].
  { rewrite H in *. by apply Preserve_same. }
  assert (InterfaceValue (PreserveInterfacePrivateKey c cur0) #"PrivateKey" = InterfaceValue cur0 #"PrivateKey") as Hk.
  { rewrite H. destruct Hv as [Hv|Hv]; [by rewrite Hv in Ht|].
    assert (key_ok #"PrivateKey") by (apply (bool_decide_unpack _); by vm_compute).
    by rewrite InterfaceValue_patched by done. }
  unfold PreserveInterfacePrivateKey in *. by rewrite E, Hk.
Qed.

Section again.
Context {W : Type} {EX : Executor W} {SL : SyncLaws W}.

Lemma agent_sync_again ctx iface config (h h' : W) :
  well_sectioned config ->
  (forall current h0, ShowConf ctx iface h = (Ok current, h0) ->
     InterfaceValue current #"PrivateKey" = [] \/ line_ok (InterfaceValue current #"PrivateKey")) ->
  agent_sync ctx iface config h = (Ok tt, h') -> agent_sync ctx iface config h' = (Ok tt, h').
Proof.
  intros Hw Hcur. unfold agent_sync at 1. destruct (ShowConf ctx iface h) as [[cur0|e] h0] eqn:E0; intros Hs;
    destruct (ShowConf_synced _ _ _ _ _ _ _ E0 Hs) as (cur1 & E1 & Hv); unfold agent_sync; rewrite E1.
  - rewrite (Preserve_again config cur0 cur1) by eauto. by eapply SyncConf_idempotent.
  - rewrite Preserve_same by done. by eapply SyncConf_idempotent.
Qed.

(** (Applying a config again through the agent.) If a config with an
    [[Interface]] section was applied through the remote executor, applying it
    again leaves the host exactly as it is, although the agent now finds the key
    it has put into the config itself: the interface's demand that [SyncConf] is
    idempotent carries over from the local executor. *)
Theorem remote_sync_idempotent time_text json_error route Quote BaseURL iface config (w w' : RemoteWorld W) :
  routes_as_sent route -> ValidInterfaceName iface = true -> well_sectioned config ->
  (forall current h0, ShowConf None iface (rw_host w) = (Ok current, h0) ->
     InterfaceValue current #"PrivateKey" = [] \/ line_ok (InterfaceValue current #"PrivateKey")) ->
  remote_SyncConf time_text json_error route Quote BaseURL None iface config w = (Ok tt, w') -> delivers w' ->
  remote_SyncConf time_text json_error route Quote BaseURL None iface config w'
  = (Ok tt, mkRemote (rw_host w') (tail (rw_net w'))).
Proof.
  intros Hr Hv Hw Hcur Hs Hd. apply remote_SyncConf_inv in Hs as (_ & Hs & _); [|done..].
  rewrite remote_SyncConf_run by done. unfold across. by rewrite (agent_sync_again _ _ _ _ _ Hw Hcur Hs).
Qed.
End again.

(** ** Witnesses *)

#[local] Instance demo_host : Executor FakeExecutor := FakeExecutor_Executor (fun _ => None).
#[local] Instance demo_sync_laws : SyncLaws FakeExecutor := FakeExecutor_SyncLaws (fun _ => None).

(** Times as decimal seconds. *)
Definition demo_time_text (t : option Z) : option bytes := Some (FormatInt (default 0 t)).
Definition demo_time_parse (s : bytes) : option (option Z) :=
  match ParseInt10 s with Some z => Some (if z =? 0 then None else Some z) | None => None end.

Definition demo_remote : RemoteWorld FakeExecutor :=
  mkRemote (Provision #"awg0" #"priv=" #"pub=" 51820 NewFakeExecutor) [Delivered].
Definition demo_config : bytes := Server demo_interface demo_profile [demo_peer #"aa=" #"phone"].

Local Abbreviation demo_ShowConf :=
  (remote_ShowConf demo_time_text (fun b => b) segment_route (fun b => b) #"https://node").
Local Abbreviation demo_SyncConf :=
  (remote_SyncConf demo_time_text (fun b => b) segment_route (fun b => b) #"https://node").

Lemma remote_refines_witness :
  fst (demo_ShowConf None #"awg0" demo_remote)
  = Ok (#"[Interface]" ++ [nl] ++ #"PrivateKey = (redacted)" ++ [nl] ++ #"ListenPort = 51820" ++ [nl]).
Proof.
  destruct (remote_refines demo_time_text demo_time_parse (fun b => b) segment_route (fun b => b) #"https://node"
              segment_route_sent #"awg0" demo_remote) as (_ & _ & _ & _ & _ & H & _).
  - vm_compute. reflexivity.
  - reflexivity.
  - rewrite H. vm_compute. reflexivity.
Defined.

Lemma remote_sync_idempotent_witness :
  let w' := snd (demo_SyncConf None #"awg0" demo_config demo_remote) in
  demo_SyncConf None #"awg0" demo_config w' = (Ok tt, mkRemote (rw_host w') []).
Proof.
  intros w'. apply (remote_sync_idempotent demo_time_text (fun b => b) segment_route (fun b => b) #"https://node"
                      #"awg0" demo_config demo_remote w').
  - exact segment_route_sent.
  - vm_compute. reflexivity.
  - apply (bool_decide_unpack _). vm_compute. exact I.
  - intros current h0 Hc. right. vm_compute in Hc. injection Hc as <- _. apply (bool_decide_unpack _). vm_compute. exact I.
  - vm_compute. reflexivity.
  - reflexivity.
Defined.
