(* ===== verification/Auth.v ===== *)
(** * Auth: token claims, key selection and roles ([internal/auth])

    What the package decides itself: which principal a parsed token stands for,
    which key may verify it, and which roles it carries.  The JWT library that
    parses and verifies the token, and the uuid library, are parameters. *)

From S2P Require Import Prelude GoStrings Errors Profile.

(** ** Roles and principals *)

Abbreviation Role := bytes (only parsing).

Definition RolePlatformAdmin : Role := #"platform_admin".
Definition RoleTenantAdmin : Role := #"tenant_admin".
Definition RoleSupportReadOnly : Role := #"support_readonly".
Definition RoleAutomationClient : Role := #"automation_client".
Definition RoleNodeAgent : Role := #"node_agent".

Record Principal : Type := mkPrincipal {
  pr_SubjectID : uuid;
  pr_TenantID : uuid;
  pr_Roles : list Role;
  pr_Scopes : list bytes;
  pr_Issuer : bytes;
  pr_TokenID : bytes }.

#[export] Instance Principal_eq_dec : EqDecision Principal.
Proof. solve_decision. Defined.

Definition HasRole (p : Principal) (r : Role) : bool := existsb (fun x => bool_decide (x = r)) (pr_Roles p).
Definition HasAnyRole (p : Principal) (rs : list Role) : bool := existsb (HasRole p) rs.
Definition HasScope (p : Principal) (s : bytes) : bool := existsb (fun x => bool_decide (x = s)) (pr_Scopes p).

(** [WithPrincipal], [FromContext]: the request context carries at most one principal. *)
Definition WithPrincipal (ctx : option Principal) (p : Principal) : option Principal := Some p.

Definition FromContext (ctx : option Principal) : result error Principal :=
  match ctx with
  | None => Err (ESentinel ErrUnauthorized)
  | Some p => Ok p
  end.

(** ** Claims *)

(** A decoded JSON value of a claim or header, as far as the code looks at it. *)
Inductive claim : Type :=
| CString (s : bytes)
| CArray (l : list claim)       (* []any *)
| CStrings (l : list bytes)     (* []string *)
| CNumber (z : Z)               (* a whole number *)
| COther.

Abbreviation MapClaims := (gmap bytes claim).

Record Token : Type := mkToken {
  tok_Header : gmap bytes claim;
  tok_Alg : bytes;
  tok_Valid : bool }.

(** [v.(string)] *)
Definition as_string (v : option claim) : option bytes :=
  match v with Some (CString s) => Some s | _ => None end.

Definition audienceContains (v : option claim) (want : bytes) : bool :=
  match v with
  | Some (CString x) => bool_decide (x = want)
  | Some (CArray x) => existsb (fun y => match y with CString s => bool_decide (s = want) | _ => false end) x
  | Some (CStrings x) => existsb (fun s => bool_decide (s = want)) x
  | _ => false
  end.

Definition stringSlice (v : option claim) : list bytes :=
  match v with
  | Some (CStrings x) => x
  | Some (CArray x) => omap (fun y => match y with CString s => Some s | _ => None end) x
  | Some (CString x) => [x]
  | _ => []
  end.

(** [fmt.Errorf("%w: text", domain.ErrUnauthorized)] *)
Definition unauthorized (text : bytes) : error := EWrap [] (ESentinel ErrUnauthorized) (#": " ++ text).

Section auth.
(** [uuid.Parse], and [strconv.Quote], the verb %q. *)
Context (uuid_Parse : bytes -> option uuid) (Quote : bytes -> bytes).

(** A string claim read as a uuid; anything else leaves [uuid.Nil]. *)
Definition claim_uuid (v : option claim) : uuid :=
  match as_string v with
  | Some s => default uuid_Nil (uuid_Parse s)
  | None => uuid_Nil
  end.

(** The [typ] header the switch rejects, if any. *)
Definition bad_typ (tok : Token) : option bytes :=
  match as_string (tok_Header tok !! #"typ") with
  | Some typ => if bool_decide (ToLower typ ∈ [ []; #"jwt"; #"at+jwt" ]) then None else Some typ
  | None => None
  end.

(** [parsed] is the library's answer: a token with its claims, or an error. *)
Definition principalFromClaims (parsed : result error (option Token * MapClaims))
    (issuer audience : bytes) : result error Principal :=
  match parsed with
  | Err e => Err (unauthorized (err_Error e))
  | Ok (None, _) => Err (ESentinel ErrUnauthorized)
  | Ok (Some tok, claims) =>
      if negb (tok_Valid tok) then Err (ESentinel ErrUnauthorized)
      else match bad_typ tok with
      | Some typ => Err (unauthorized (#"unexpected typ " ++ Quote typ))
      | None =>
        let iss := default [] (as_string (claims !! #"iss")) in
        if negb (bool_decide (issuer = [])) && negb (bool_decide (iss = issuer))
        then Err (unauthorized #"bad issuer")
        else if negb (bool_decide (audience = [])) && negb (audienceContains (claims !! #"aud") audience)
        then Err (unauthorized #"bad audience")
        else
          Ok (mkPrincipal (claim_uuid (claims !! #"sub")) (claim_uuid (claims !! #"tenant_id"))
                (stringSlice (claims !! #"roles"))
                (match as_string (claims !! #"scope") with
                 | Some s => if bool_decide (s = []) then [] else Fields s
                 | None => []
                 end ++ stringSlice (claims !! #"scopes"))
                iss (default [] (as_string (claims !! #"jti"))))
      end
  end.

(** ** Keys *)

Inductive curve : Type := P224 | P256 | P384 | P521.

Inductive crypto_key : Type :=
| RSAKey (id : N)
| ECDSAKey (c : curve) (id : N)
| Ed25519Key (id : N)
| SecretKey (secret : bytes)   (* []byte *)
| OtherKey (id : N).

#[export] Instance curve_eq_dec : EqDecision curve.
Proof. solve_decision. Defined.
#[export] Instance crypto_key_eq_dec : EqDecision crypto_key.
Proof. solve_decision. Defined.

Definition algorithmMatchesKey (alg : bytes) (key : crypto_key) : bool :=
  if bool_decide (alg ∈ [ #"RS256"; #"RS384"; #"RS512"; #"PS256"; #"PS384"; #"PS512" ])
  then match key with RSAKey _ => true | _ => false end
  else if bool_decide (alg = #"ES256") then match key with ECDSAKey P256 _ => true | _ => false end
  else if bool_decide (alg = #"ES384") then match key with ECDSAKey P384 _ => true | _ => false end
  else if bool_decide (alg = #"ES512") then match key with ECDSAKey P521 _ => true | _ => false end
  else if bool_decide (alg = #"EdDSA") then match key with Ed25519Key _ => true | _ => false end
  else false.

Record StaticKeyValidator : Type := mkStatic {
  sk_Keys : gmap bytes crypto_key;
  sk_DefaultKey : option crypto_key;
  sk_Issuer : bytes;
  sk_Audience : bytes;
  sk_AllowedAlgs : list bytes;
  sk_Now : option Z;              (* nil: the clock *)
  sk_Leeway : Z }.

(** The options of a [jwt.Parser]. *)
Record Parser : Type := mkParser {
  ps_ValidMethods : list bytes;
  ps_ExpirationRequired : bool;
  ps_Leeway : Z;
  ps_TimeFunc : Z }.

(** [clock] is what [time.Now] returns. *)
Definition jwtParser (allowed : list bytes) (leeway : Z) (now : option Z) (clock : Z) : Parser :=
  mkParser allowed true leeway (default clock now).

Definition keyForToken (v : StaticKeyValidator) (tok : Token) : result error crypto_key :=
  match as_string (tok_Header tok !! #"kid") with
  | Some ((_ :: _) as kid) =>
      match sk_Keys v !! kid with
      | Some key => Ok key
      | None => Err (unauthorized #"unknown kid")
      end
  | _ =>
      match sk_DefaultKey v, map_to_list (sk_Keys v) with
      | Some key, _ => Ok key
      | None, [(_, key)] => Ok key
      | None, _ => Err (unauthorized #"missing kid")
      end
  end.

(** The key function handed to the JWT library. *)
Definition static_keyfunc (v : StaticKeyValidator) (tok : Token) : result error crypto_key :=
  key ← keyForToken v tok;
  if negb (algorithmMatchesKey (tok_Alg tok) key)
  then Err (unauthorized #"signing algorithm does not match public key type")
  else Ok key.

Definition static_algs (v : StaticKeyValidator) : list bytes :=
  match sk_AllowedAlgs v with [] => [ #"RS256"; #"ES256"; #"EdDSA" ] | l => l end.

(** [parser.ParseWithClaims(raw, &claims, keyfunc)]: the JWT library, with the
    token text it reads. *)
Context (ParseWithClaims : Parser -> (Token -> result error crypto_key) -> bytes ->
                           result error (option Token * MapClaims)).

Definition static_Validate (clock : Z) (v : StaticKeyValidator) (raw : bytes) : result error Principal :=
  principalFromClaims
    (ParseWithClaims (jwtParser (static_algs v) (sk_Leeway v) (sk_Now v) clock) (static_keyfunc v) raw)
    (sk_Issuer v) (sk_Audience v).

(** ** Properties *)

(** Conditions under which a parsed token is accepted. *)
Record accepted (issuer audience : bytes) (tok : Token) (claims : MapClaims) : Prop := {
  acc_valid : tok_Valid tok = true;
  acc_typ : bad_typ tok = None;
  acc_issuer : issuer = [] \/ claims !! #"iss" = Some (CString issuer);
  acc_audience : audience = [] \/ audienceContains (claims !! #"aud") audience = true }.

Lemma principalFromClaims_Err parsed issuer audience e :
  principalFromClaims parsed issuer audience = Err e -> errors_Is e ErrUnauthorized = true.
Proof.
  unfold principalFromClaims. destruct parsed as [[[tok|] claims]|pe]; [|by intros [= <-]..].
  destruct (tok_Valid tok); simpl; [|by intros [= <-]]. destruct (bad_typ tok); [by intros [= <-]|].
  destruct (negb _ && negb _); [by intros [= <-]|]. by destruct (negb _ && negb _); [intros [= <-]|].
Qed.

Lemma principalFromClaims_Ok parsed issuer audience p :
  principalFromClaims parsed issuer audience = Ok p ->
  exists tok claims, parsed = Ok (Some tok, claims) /\ accepted issuer audience tok claims
    /\ pr_Roles p = stringSlice (claims !! #"roles")
    /\ pr_TenantID p = claim_uuid (claims !! #"tenant_id")
    /\ pr_SubjectID p = claim_uuid (claims !! #"sub").
Proof.
  unfold principalFromClaims. destruct parsed as [[[tok|] claims]|pe]; [|done..].
  destruct (tok_Valid tok) eqn:Ev; simpl; [|done]. destruct (bad_typ tok) eqn:Et; [done|].
  destruct (negb _ && negb (bool_decide (default [] _ = issuer))) eqn:Ei; [done|].
  destruct (negb _ && negb (audienceContains _ _)) eqn:Ea; [done|]. intros [= <-].
  exists tok, claims. split; [done|]. split; [|done]. constructor; [done|done| |].
  - destruct (decide (issuer = [])) as [|Hne]; [by left|right].
    rewrite bool_decide_eq_false_2 in Ei by done. simpl in Ei. bool_to_prop.
    destruct (claims !! #"iss") as [[]|]; simpl in *; congruence.
  - destruct (decide (audience = [])) as [|Hne]; [by left|right].
    rewrite bool_decide_eq_false_2 in Ea by done. simpl in Ea. by bool_to_prop.
Qed.

(** The asymmetric algorithms; HS* and "none" are not among them. *)
Definition asymmetric_algs : list bytes :=
  [ #"RS256"; #"RS384"; #"RS512"; #"PS256"; #"PS384"; #"PS512"; #"ES256"; #"ES384"; #"ES512"; #"EdDSA" ].

Lemma algorithmMatchesKey_asymmetric alg key :
  algorithmMatchesKey alg key = true ->
  alg ∈ asymmetric_algs /\ forall secret, key <> SecretKey secret.
Proof.
  unfold algorithmMatchesKey, asymmetric_algs. intros H.
  repeat match type of H with
  | context [bool_decide ?P] =>
      destruct (decide P); [rewrite bool_decide_eq_true_2 in H by done; split; [set_solver|by destruct key]
                           |rewrite bool_decide_eq_false_2 in H by done]
  end. done.
Qed.

(** The keys a validator was configured with. *)
Definition configured (v : StaticKeyValidator) (key : crypto_key) : Prop :=
  sk_DefaultKey v = Some key \/ exists kid, sk_Keys v !! kid = Some key.

Lemma keyForToken_configured v tok key : keyForToken v tok = Ok key -> configured v key.
Proof.
  unfold keyForToken, configured. intros H.
  assert (Hdef : match sk_DefaultKey v, map_to_list (sk_Keys v) with
                 | Some key, _ => Ok key | None, [(_, key)] => Ok key
                 | None, _ => Err (unauthorized #"missing kid") end = Ok key ->
                 sk_DefaultKey v = Some key \/ exists kid, sk_Keys v !! kid = Some key).
  { destruct (sk_DefaultKey v) as [k|]; [intros [= ->]; by left|].
    destruct (map_to_list (sk_Keys v)) as [|[kid k] [|? ?]] eqn:E; try done. intros [= ->].
    right. exists kid. apply elem_of_map_to_list. rewrite E. constructor. }
  destruct (as_string _) as [[|c kid]|]; [by apply Hdef| |by apply Hdef].
  destruct (sk_Keys v !! (c :: kid)) eqn:E; [|done]. simplify_eq. right. by eexists.
Qed.

(** The claims are not expired and already valid at the parser's time, with its
    leeway; NumericDates are seconds. *)
Record in_force (p : Parser) (claims : MapClaims) : Prop := {
  if_exp : match claims !! #"exp" with
           | Some (CNumber exp) => ps_TimeFunc p < exp * 1000000000 + ps_Leeway p
           | Some COther => True
           | Some _ => False
           | None => ps_ExpirationRequired p = false
           end;
  if_nbf : forall nbf, claims !! #"nbf" = Some (CNumber nbf) -> nbf * 1000000000 - ps_Leeway p <= ps_TimeFunc p }.

(** What the JWT library documents: a token it returns was signed with one of
    the allowed methods, its signature verified with the key the key function
    returned for it, and it is in force. *)
Context (verifies : crypto_key -> bytes -> bytes -> Prop).
Context (jwt_sound : forall p keyfunc raw tok claims,
  ParseWithClaims p keyfunc raw = Ok (Some tok, claims) ->
  tok_Alg tok ∈ ps_ValidMethods p /\ in_force p claims
  /\ exists key, keyfunc tok = Ok key /\ verifies key (tok_Alg tok) raw).

(** What any validator built on the library accepts. *)
Lemma parsed_accepts p keyfunc raw issuer audience pr :
  principalFromClaims (ParseWithClaims p keyfunc raw) issuer audience = Ok pr ->
  exists tok claims key,
    accepted issuer audience tok claims /\ in_force p claims /\ tok_Alg tok ∈ ps_ValidMethods p
    /\ keyfunc tok = Ok key /\ verifies key (tok_Alg tok) raw
    /\ pr_Roles pr = stringSlice (claims !! #"roles")
    /\ pr_TenantID pr = claim_uuid (claims !! #"tenant_id").
Proof using jwt_sound.
  intros (tok & claims & Hp & Hacc & Hr & Ht & _)%principalFromClaims_Ok.
  apply jwt_sound in Hp as (Halg & Hf & key & Hkf & Hver). by exists tok, claims, key.
Qed.

(** What a static-key validator accepts. *)
Definition static_accepts (clock : Z) (v : StaticKeyValidator) (raw : bytes) (p : Principal) : Prop :=
  exists tok claims key,
    accepted (sk_Issuer v) (sk_Audience v) tok claims
    /\ in_force (jwtParser (static_algs v) (sk_Leeway v) (sk_Now v) clock) claims
    /\ tok_Alg tok ∈ static_algs v /\ tok_Alg tok ∈ asymmetric_algs
    /\ configured v key /\ algorithmMatchesKey (tok_Alg tok) key = true
    /\ verifies key (tok_Alg tok) raw
    /\ pr_Roles p = stringSlice (claims !! #"roles")
    /\ pr_TenantID p = claim_uuid (claims !! #"tenant_id").

Lemma static_Validate_accepts clock v raw p : static_Validate clock v raw = Ok p -> static_accepts clock v raw p.
Proof using jwt_sound.
  intros (tok & claims & key & Hacc & Hf & Halg & Hkf & Hver & Hr & Ht)%parsed_accepts. unfold static_keyfunc in Hkf.
  destruct (keyForToken v tok) as [k|] eqn:Hk; [|done]. cbn in Hkf.
  destruct (algorithmMatchesKey (tok_Alg tok) k) eqn:Hm; simpl in Hkf; [|done]. injection Hkf as ->.
  exists tok, claims, key. destruct (algorithmMatchesKey_asymmetric _ _ Hm) as [? _].
  split_and!; try done. by eapply keyForToken_configured.
Qed.

(** (Bearer tokens, asymmetric keys.) A token is accepted only if its
    signature verifies under a configured public key whose type fits the token's
    algorithm, with an allowed algorithm, never a symmetric one or "none"
    whatever the allowlist says, a fitting typ, the pinned issuer and audience,
    and an expiry that has not passed; and every rejection is an
    [ErrUnauthorized]. *)
Theorem static_Validate_sound clock v raw :
  match static_Validate clock v raw with
  | Ok p => static_accepts clock v raw p
  | Err e => errors_Is e ErrUnauthorized = true
  end.
Proof using jwt_sound.
  destruct (static_Validate clock v raw) as [p|e] eqn:E; [by apply static_Validate_accepts|].
  by eapply principalFromClaims_Err.
Qed.
End auth.

(** A library that reads one fixed token, for the witness. *)
Definition demo_claims : MapClaims :=
  {[ #"iss" := CString #"idp"; #"aud" := CArray [CString #"other"; CString #"awg"];
     #"roles" := CArray [CString #"tenant_admin"; COther]; #"exp" := CNumber 1000 ]}.
Definition demo_token : Token := mkToken {[ #"typ" := CString #"at+JWT" ]} #"ES256" true.
Definition demo_parse (p : Parser) (keyfunc : Token -> result error crypto_key) (raw : bytes)
    : result error (option Token * MapClaims) :=
  if bool_decide (raw = #"token") && bool_decide (tok_Alg demo_token ∈ ps_ValidMethods p)
     && (ps_TimeFunc p <? 1000 * 1000000000 + ps_Leeway p) && bool_decide (keyfunc demo_token = Ok (ECDSAKey P256 7))
  then Ok (Some demo_token, demo_claims) else Err (EMsg #"bad token").
Definition demo_validator : StaticKeyValidator :=
  mkStatic {[ #"k1" := ECDSAKey P256 7 ]} None #"idp" #"awg" [] None 0.

Lemma demo_parse_sound p keyfunc raw tok claims :
  demo_parse p keyfunc raw = Ok (Some tok, claims) ->
  tok_Alg tok ∈ ps_ValidMethods p /\ in_force p claims
  /\ exists key, keyfunc tok = Ok key /\ (key = ECDSAKey P256 7 /\ tok_Alg tok = #"ES256" /\ raw = #"token").
Proof.
  unfold demo_parse. destruct (_ && _ && _ && _) eqn:E; [|discriminate]. intros [= <- <-].
  apply andb_true_iff in E as [[[E1%bool_decide_eq_true E2%bool_decide_eq_true]%andb_true_iff E3%Z.ltb_lt]%andb_true_iff E4%bool_decide_eq_true].
  split; [exact E2|]. split; [split; [exact E3|]; intros nbf Hn; vm_compute in Hn; discriminate|].
  exists (ECDSAKey P256 7). split; [exact E4|]. split; [reflexivity|]. split; [reflexivity|exact E1].
Qed.

Lemma static_Validate_sound_witness :
  exists p, static_Validate (fun _ => None) (fun s => s) demo_parse 5 demo_validator #"token" = Ok p
            /\ pr_Roles p = [ #"tenant_admin" ].
Proof.
  pose proof (static_Validate_sound (fun _ => None) (fun s => s) demo_parse
    (fun key alg raw => key = ECDSAKey P256 7 /\ alg = #"ES256" /\ raw = #"token") demo_parse_sound 5 demo_validator #"token") as H.
  exists (mkPrincipal uuid_Nil uuid_Nil [ #"tenant_admin" ] [] #"idp" []).
  assert (E : static_Validate (fun _ => None) (fun s => s) demo_parse 5 demo_validator #"token"
              = Ok (mkPrincipal uuid_Nil uuid_Nil [ #"tenant_admin" ] [] #"idp" [])) by (vm_compute; reflexivity).
  rewrite E in H. destruct H as (tok & claims & key & _). split; [exact E|reflexivity].
Defined.
