(* ===== verification/Tokens.v ===== *)
(** * Tokens: the rest of [internal/auth/auth.go]

    The symmetric validator, reading public keys from PEM text, and issuing
    development tokens; that an issued token is accepted and gives back its
    principal. *)

From S2P Require Import Prelude GoStrings Strconv Json Errors Profile Auth.

(** ** Symmetric keys *)

Record HMACValidator : Type := mkHMAC {
  hv_Secret : bytes;
  hv_Issuer : bytes;
  hv_Audience : bytes;
  hv_AllowedAlgs : list bytes;
  hv_Now : option Z;              (* nil: the clock *)
  hv_Leeway : Z }.

Definition hmac_algs (v : HMACValidator) : list bytes :=
  match hv_AllowedAlgs v with [] => [ #"HS256" ] | l => l end.

Definition hmac_keyfunc (v : HMACValidator) (tok : Token) : result error crypto_key := Ok (SecretKey (hv_Secret v)).

(** ** PEM *)

Record Block : Type := mkBlock { bl_Type : bytes; bl_Bytes : bytes }.

Section pem.
(** [pem.Decode], the parsers of x509, [strconv.Quote] and the name of a key's
    type, the verb %T. *)
Context (pem_Decode : bytes -> option (Block * bytes)).
Context (ParsePKIXPublicKey : bytes -> result error crypto_key) (ParsePKCS1PublicKey : bytes -> result error N)
        (ParseCertificate : bytes -> result error crypto_key).
Context (Quote : bytes -> bytes) (type_name : crypto_key -> bytes).

Definition supportedPublicKey (key : crypto_key) : result error crypto_key :=
  match key with
  | RSAKey _ | ECDSAKey _ _ | Ed25519Key _ => Ok key
  | _ => Err (EMsg (#"auth: unsupported public key type " ++ type_name key))
  end.

Definition parsePublicKeyBlock (block : Block) : result error crypto_key :=
  if bool_decide (bl_Type block = #"PUBLIC KEY") then
    match ParsePKIXPublicKey (bl_Bytes block) with
    | Err e => Err (EWrap #"auth: parse public key: " e [])
    | Ok key => supportedPublicKey key
    end
  else if bool_decide (bl_Type block = #"RSA PUBLIC KEY") then
    match ParsePKCS1PublicKey (bl_Bytes block) with
    | Err e => Err (EWrap #"auth: parse rsa public key: " e [])
    | Ok key => Ok (RSAKey key)
    end
  else if bool_decide (bl_Type block = #"CERTIFICATE") then
    match ParseCertificate (bl_Bytes block) with
    | Err e => Err (EWrap #"auth: parse certificate: " e [])
    | Ok key => supportedPublicKey key
    end
  else Err (EMsg (#"auth: unsupported PEM block " ++ Quote (bl_Type block))).

(** The loop, with a bound on its turns. *)
Fixpoint pem_loop (fuel : nat) (rest : bytes) (keys : list crypto_key) : option (result error (list crypto_key)) :=
  match fuel with
  | O => None
  | S fuel =>
      match pem_Decode rest with
      | None => Some (Ok keys)
      | Some (block, rest) =>
          match parsePublicKeyBlock block with
          | Err e => Some (Err e)
          | Ok key => pem_loop fuel rest (keys ++ [key])
          end
      end
  end.

Definition pem_fuel (pemBytes : bytes) : nat := S (length pemBytes).

Definition ParsePublicKeysPEM (pemBytes : bytes) : option (result error (list crypto_key)) :=
  match pem_loop (pem_fuel pemBytes) pemBytes [] with
  | Some (Ok []) => Some (Err (EMsg #"auth: no public keys found in PEM"))
  | r => r
  end.

Definition NewStaticKeyValidatorFromPEM (pemBytes issuer audience : bytes) (allowedAlgs : list bytes)
    : option (result error StaticKeyValidator) :=
  r ← ParsePublicKeysPEM pemBytes;
  Some match r with
       | Err e => Err e
       | Ok [key] => Ok (mkStatic ∅ (Some key) issuer audience allowedAlgs None (30 * 1000000000))
       | Ok keys => Err (EMsg (#"auth: expected exactly one public key PEM, got " ++ FormatInt (Z.of_nat (length keys))))
       end.

(** What [pem.Decode] documents: the rest comes after the block it found. *)
Context (pem_rest : forall s block rest, pem_Decode s = Some (block, rest) -> (length rest < length s)%nat).

Lemma pem_loop_total fuel rest keys : (length rest < fuel)%nat -> is_Some (pem_loop fuel rest keys).
Proof using pem_rest.
  revert rest keys. induction fuel as [|fuel IH]; intros rest keys H; [lia|]. cbn [pem_loop].
  destruct (pem_Decode rest) as [[block rest']|] eqn:E; [|by eexists]. apply pem_rest in E.
  destruct (parsePublicKeyBlock block); [apply IH; lia|by eexists].
Qed.

(** A public key of a supported kind. *)
Definition public_key (key : crypto_key) : Prop :=
  match key with RSAKey _ | ECDSAKey _ _ | Ed25519Key _ => True | _ => False end.

Lemma block_public block key : parsePublicKeyBlock block = Ok key -> public_key key.
Proof.
  assert (forall k, supportedPublicKey k = Ok key -> public_key key) as Hs by (intros []; by intros [= <-]).
  unfold parsePublicKeyBlock. intros. repeat case_bool_decide; repeat case_match; simplify_eq; eauto. done.
Qed.

(** Turning PEM text into keys ends, and yields public keys only. *)
Lemma ParsePublicKeysPEM_spec pemBytes :
  exists r, ParsePublicKeysPEM pemBytes = Some r
    /\ forall keys, r = Ok keys -> keys <> [] /\ Forall public_key keys.
Proof using pem_rest.
  destruct (pem_loop_total (pem_fuel pemBytes) pemBytes []) as [r Hr]; [unfold pem_fuel; lia|].
  assert (forall fuel rest keys0 keys, Forall public_key keys0 -> pem_loop fuel rest keys0 = Some (Ok keys) -> Forall public_key keys) as Hp.
  { clear. induction fuel as [|fuel IH]; intros rest keys0 keys H0; [done|]. cbn [pem_loop].
    destruct (pem_Decode rest) as [[block rest']|]; [|by intros [= <-]].
    destruct (parsePublicKeyBlock block) eqn:E; [|done]. apply IH. apply Forall_app. split; [done|].
    apply Forall_singleton. by eapply block_public. }
  unfold ParsePublicKeysPEM. rewrite Hr. destruct r as [[|k keys]|e]; eexists; (split; [done|]); intros ? [= <-]. split; [done|]. by eapply Hp.
Qed.
End pem.

(** ** Words *)

(** A word of visible ASCII characters. *)
Definition word (s : bytes) : Prop := s <> [] /\ key_text s.

#[export] Instance word_dec s : Decision (word s).
Proof. unfold word, key_text. apply _. Defined.

Lemma strip_space_solid_head c s : solid_byte c -> strip_space (c :: s) = None.
Proof.
  intros H. unfold strip_space. rewrite solid_space1 by done. destruct s as [|d [|e s]]; [done| |].
  - replace (space2 c d) with false by (symmetry; ascii_bytes). done.
  - replace (space2 c d) with false by (symmetry; ascii_bytes). by replace (space3 c d e) with false by (symmetry; ascii_bytes).
Qed.

Lemma fields_word w n cur rest : key_text w -> fields_aux (length w + n) cur (w ++ rest) = fields_aux n (rev w ++ cur) rest.
Proof.
  revert cur. induction w as [|c w IH]; intros cur Hw; [done|]. inversion_clear Hw as [|? ? Hc Hw'].
  cbn [length Nat.add app fields_aux]. rewrite strip_space_solid_head by done. rewrite IH by done. cbn [rev]. by rewrite <- app_assoc.
Qed.

Lemma Fields_Join l : Forall word l -> Fields (Join l #" ") = l.
Proof.
  intros Hl. unfold Fields. enough (forall n, (length (Join l #" ") <= n)%nat -> fields_aux n [] (Join l #" ") = l) by (apply H; lia).
  induction Hl as [|w l [Hne Hw] Hl IH]; intros n Hn; [by destruct n|]. assert (rev w <> []) as Hr.
  { intros E. apply Hne. by rewrite <- (rev_involutive w), E. }
  destruct l as [|w' l'].
  - change (Join [w] #" ") with w in *. rewrite <- (app_nil_r w) at 1. replace n with (length w + (n - length w))%nat by lia.
    rewrite fields_word by done. rewrite app_nil_r. destruct (n - length w)%nat; cbn; destruct (rev w) eqn:E; try done;
      by rewrite <- E, rev_involutive.
  - rewrite Join_cons by done. rewrite Join_cons in Hn by done. rewrite !length_app in Hn. change (length #" ") with 1%nat in Hn.
    replace n with (length w + (n - length w))%nat by lia. rewrite fields_word by done. rewrite app_nil_r.
    destruct (n - length w)%nat as [|k] eqn:Ek; [lia|]. change (#" " ++ ?r) with (" "%char :: r). cbn [fields_aux].
    change (strip_space (" "%char :: ?r)) with (Some r). cbn match. rewrite IH by lia.
    destruct (rev w) eqn:E; [done|]. cbn [app]. by rewrite <- E, rev_involutive.
Qed.

(** ** Issuing *)

Definition rolesToStrings (rs : list bytes) : list bytes := rs.

Section tokens.
(** [uuid.Parse], [UUID.String], [strconv.Quote], and the JWT library: signing a
    header and claims with a method and a key, and parsing. *)
Context (uuid_Parse : bytes -> option uuid) (uuid_String : uuid -> bytes) (Quote : bytes -> bytes).
Context (SignedString : bytes -> gmap bytes claim -> MapClaims -> bytes -> result error bytes).
Context (ParseWithClaims : Parser -> (Token -> result error crypto_key) -> bytes ->
                           result error (option Token * MapClaims)).

Definition hmac_Validate (clock : Z) (v : HMACValidator) (raw : bytes) : result error Principal :=
  principalFromClaims uuid_Parse Quote
    (ParseWithClaims (jwtParser (hmac_algs v) (hv_Leeway v) (hv_Now v) clock) (hmac_keyfunc v) raw)
    (hv_Issuer v) (hv_Audience v).

(** [t.Unix()] *)
Definition Unix (t : Z) : Z := t / 1000000000.

(** The claims every token has; the tenant is added when there is one. *)
Definition base_claims (now : Z) (jti : uuid) (issuer audience : bytes) (p : Principal) (ttl : Z) : MapClaims :=
  {[ #"iss" := CString issuer; #"aud" := CString audience; #"sub" := CString (uuid_String (pr_SubjectID p));
     #"iat" := CNumber (Unix now); #"nbf" := CNumber (Unix now); #"exp" := CNumber (Unix (now + ttl));
     #"jti" := CString (uuid_String jti); #"roles" := CStrings (rolesToStrings (pr_Roles p));
     #"scope" := CString (Join (pr_Scopes p) #" ") ]}.

Definition dev_claims (now : Z) (jti : uuid) (issuer audience : bytes) (p : Principal) (ttl : Z) : MapClaims :=
  let claims := base_claims now jti issuer audience p ttl in
  if (pr_TenantID p =? uuid_Nil)%N then claims
  else <[ #"tenant_id" := CString (uuid_String (pr_TenantID p)) ]> claims.

(** [jwt.NewWithClaims] sets [typ] and [alg]; [typ] is then replaced. *)
Definition dev_header : gmap bytes claim := {[ #"typ" := CString #"at+jwt"; #"alg" := CString #"HS256" ]}.

Definition IssueDevToken (now : Z) (jti : uuid) (secret issuer audience : bytes) (p : Principal) (ttl : Z) : result error bytes :=
  if bool_decide (secret = []) then Err (EMsg #"auth: empty signing secret")
  else SignedString #"HS256" dev_header (dev_claims now jti issuer audience p ttl) secret.

(** What the library documents about signing and parsing: a token is parsed to the
    header and claims it was signed with, as JSON decodes them, by a parser that
    allows its method, when the key function returns the signing key and the claims
    are in force.  This is said only of values that come through unchanged: texts of
    valid UTF-8 and whole numbers a float holds, a date of zero counting as none. *)
Definition carries (c : claim) : Prop :=
  match c with
  | CString s => valid_text s = s
  | CStrings l => Forall (fun s => valid_text s = s) l
  | CNumber z => 0 < z <= 2 ^ 53
  | CArray _ | COther => False
  end.
Definition carries_all (m : gmap bytes claim) : Prop := map_Forall (fun k c => valid_text k = k /\ carries c) m.

Definition json_claim (c : claim) : claim := match c with CStrings l => CArray (CString <$> l) | _ => c end.
Definition json_view (m : gmap bytes claim) : gmap bytes claim := json_claim <$> m.

Definition signs_and_parses : Prop := forall alg header claims secret raw p keyfunc,
  SignedString alg header claims secret = Ok raw ->
  header !! #"alg" = Some (CString alg) -> carries_all header -> carries_all claims ->
  alg ∈ ps_ValidMethods p -> in_force p (json_view claims) ->
  keyfunc (mkToken (json_view header) alg true) = Ok (SecretKey secret) ->
  ParseWithClaims p keyfunc raw = Ok (Some (mkToken (json_view header) alg true), json_view claims).

Lemma stringSlice_view l : stringSlice (Some (CArray (CString <$> l))) = l.
Proof. cbn. induction l as [|x l IH]; cbn; [done|]. by rewrite IH. Qed.

Lemma audience_view aud : audienceContains (Some (CString aud)) aud = true.
Proof. cbn. by apply bool_decide_eq_true. Qed.

(** The claims as the validator looks them up. *)
Lemma dev_lookup now jti issuer audience p ttl (k : bytes) :
  k <> #"tenant_id" ->
  json_view (dev_claims now jti issuer audience p ttl) !! k = json_claim <$> (base_claims now jti issuer audience p ttl !! k).
Proof.
  intros Hk. unfold json_view, dev_claims. rewrite lookup_fmap. destruct (_ =? _)%N; [done|]. by rewrite lookup_insert_ne.
Qed.

Lemma dev_tenant now jti issuer audience p ttl : (forall u, uuid_Parse (uuid_String u) = Some u) ->
  claim_uuid uuid_Parse (json_view (dev_claims now jti issuer audience p ttl) !! #"tenant_id") = pr_TenantID p.
Proof.
  intros Hu. unfold json_view, dev_claims. rewrite lookup_fmap. destruct (N.eqb_spec (pr_TenantID p) uuid_Nil) as [->|Hne].
  - reflexivity.
  - rewrite lookup_insert_eq. cbn. by rewrite Hu.
Qed.

(** What a token can say of a principal unchanged. *)
Record sayable (now ttl : Z) (issuer audience : bytes) (p : Principal) : Prop := {
  sy_issuer : valid_text issuer = issuer;
  sy_audience : valid_text audience = audience;
  sy_roles : Forall (fun r => valid_text r = r) (pr_Roles p);
  sy_scopes : Forall word (pr_Scopes p);
  sy_now : 0 < Unix now <= 2 ^ 53;
  sy_exp : 0 < Unix (now + ttl) <= 2 ^ 53 }.

(** Ids are written in ASCII and read back. *)
Definition uuid_texts : Prop := forall u, uuid_Parse (uuid_String u) = Some u /\ ascii_text (uuid_String u).

Lemma dev_header_carries : carries_all dev_header.
Proof. unfold dev_header. apply map_Forall_insert_2; [done|]. by apply map_Forall_singleton. Qed.

Lemma words_ascii l : Forall word l -> ascii_text (Join l #" ").
Proof.
  induction 1 as [|w l [_ Hw] Hl IH]; [constructor|]. apply key_text_ascii in Hw. destruct l as [|w' l]; [done|].
  rewrite Join_cons by done. apply Forall_app. split; [done|]. apply Forall_app. split; [by repeat constructor|done].
Qed.

Lemma dev_claims_carry now jti issuer audience p ttl :
  uuid_texts -> sayable now ttl issuer audience p -> carries_all (dev_claims now jti issuer audience p ttl).
Proof.
  intros Hu [H1 H2 H3 H4 H5 H6]. assert (forall u, valid_text (uuid_String u) = uuid_String u) as Hv by (intros u; apply valid_text_ascii, Hu).
  assert (carries_all (base_claims now jti issuer audience p ttl)) as Hb.
  { unfold base_claims. repeat (apply map_Forall_insert_2; [split; [done|]; first [done|apply Hv]|]). apply map_Forall_singleton.
    split; [done|]. by apply valid_text_ascii, words_ascii. }
  unfold dev_claims. destruct (_ =? _)%N; [done|]. apply map_Forall_insert_2; [|done]. split; [done|apply Hv].
Qed.

(** (A minted token works.) A development token minted for a principal and presented
    to a validator with the same secret, issuer and audience (texts and times that JSON
    carries), from the second it was minted until its lifetime has passed, authenticates exactly that principal:
    subject, tenant, roles and scopes. *)
Theorem dev_token_roundtrip clock now jti v p ttl raw :
  signs_and_parses -> uuid_texts -> sayable now ttl (hv_Issuer v) (hv_Audience v) p ->
  #"HS256" ∈ hmac_algs v ->
  IssueDevToken now jti (hv_Secret v) (hv_Issuer v) (hv_Audience v) p ttl = Ok raw ->
  Unix now * 1000000000 - hv_Leeway v <= default clock (hv_Now v) < Unix (now + ttl) * 1000000000 + hv_Leeway v ->
  hmac_Validate clock v raw
  = Ok (mkPrincipal (pr_SubjectID p) (pr_TenantID p) (pr_Roles p) (pr_Scopes p) (hv_Issuer v) (uuid_String jti)).
Proof.
  intros Hsp Hut Hsay Halg Hi Ht. pose proof (sy_scopes _ _ _ _ _ Hsay) as Hsc.
  assert (forall u, uuid_Parse (uuid_String u) = Some u) as Hu by (intros u; apply Hut).
  unfold IssueDevToken in Hi. case_bool_decide; [done|]. unfold hmac_Validate.
  rewrite (Hsp _ _ _ _ _ (jwtParser (hmac_algs v) (hv_Leeway v) (hv_Now v) clock) (hmac_keyfunc v) Hi eq_refl
             dev_header_carries (dev_claims_carry _ _ _ _ _ _ Hut Hsay) Halg); [| |done].
  2:{ split; [|intros nbf]; rewrite dev_lookup by done.
      - change (base_claims now jti _ _ p ttl !! #"exp") with (Some (CNumber (Unix (now + ttl)))). cbn. lia.
      - change (base_claims now jti _ _ p ttl !! #"nbf") with (Some (CNumber (Unix now))). intros [= <-]. cbn. lia. }
  unfold principalFromClaims. cbn [tok_Valid negb]. change (bad_typ _) with (@None bytes). cbn match.
  rewrite dev_tenant by done. rewrite !dev_lookup by done.
  change (base_claims now jti _ _ p ttl !! #"iss") with (Some (CString (hv_Issuer v))).
  change (base_claims now jti _ _ p ttl !! #"aud") with (Some (CString (hv_Audience v))).
  change (base_claims now jti _ _ p ttl !! #"sub") with (Some (CString (uuid_String (pr_SubjectID p)))).
  change (base_claims now jti _ _ p ttl !! #"jti") with (Some (CString (uuid_String jti))).
  change (base_claims now jti _ _ p ttl !! #"roles") with (Some (CStrings (pr_Roles p))).
  change (base_claims now jti _ _ p ttl !! #"scope") with (Some (CString (Join (pr_Scopes p) #" "))).
  change (base_claims now jti _ _ p ttl !! #"scopes") with (@None claim).
  repeat change (json_claim <$> Some ?c) with (Some (json_claim c)). change (json_claim <$> None) with (@None claim).
  cbn [json_claim as_string default from_option id]. rewrite (bool_decide_eq_true_2 (hv_Issuer v = hv_Issuer v)) by done.
  rewrite audience_view, stringSlice_view. cbn [negb]. rewrite !andb_false_r. cbn [claim_uuid as_string default from_option]. rewrite Hu.
  cbn [default from_option id stringSlice]. rewrite app_nil_r. do 2 f_equal. case_bool_decide as Hj; [|by apply Fields_Join].
  destruct (pr_Scopes p) as [|w l]; [done|]. exfalso. apply Forall_cons in Hsc as [[Hw _] _].
  destruct l; [done|]. rewrite Join_cons in Hj by done. by destruct w.
Qed.

Context (verifies : crypto_key -> bytes -> bytes -> Prop).
Context (jwt_sound : forall p keyfunc raw tok claims,
  ParseWithClaims p keyfunc raw = Ok (Some tok, claims) ->
  tok_Alg tok ∈ ps_ValidMethods p /\ in_force p claims
  /\ exists key, keyfunc tok = Ok key /\ verifies key (tok_Alg tok) raw).

(** What a symmetric validator accepts. *)
Definition hmac_accepts (clock : Z) (v : HMACValidator) (raw : bytes) (p : Principal) : Prop :=
  exists tok claims,
    accepted (hv_Issuer v) (hv_Audience v) tok claims
    /\ in_force (jwtParser (hmac_algs v) (hv_Leeway v) (hv_Now v) clock) claims
    /\ tok_Alg tok ∈ hmac_algs v /\ verifies (SecretKey (hv_Secret v)) (tok_Alg tok) raw
    /\ pr_Roles p = stringSlice (claims !! #"roles")
    /\ pr_TenantID p = claim_uuid uuid_Parse (claims !! #"tenant_id").

Lemma hmac_Validate_accepts clock v raw p : hmac_Validate clock v raw = Ok p -> hmac_accepts clock v raw p.
Proof using jwt_sound.
  intros (tok & claims & key & Hacc & Hf & Halg & [= <-] & Hver & Hr & Ht)%(parsed_accepts _ _ _ _ jwt_sound).
  exists tok, claims. done.
Qed.
End tokens.

(** ** A library for the witness *)

(** Signing writes the method, the header, the claims and the key down as the digits
    of a number; parsing reads them back. *)
Fixpoint pos_text (p : positive) : bytes :=
  match p with xH => [] | xO p => "0"%char :: pos_text p | xI p => "1"%char :: pos_text p end.
Fixpoint text_pos (s : bytes) : positive :=
  match s with [] => xH | c :: s => if Ascii.eqb c "0" then xO (text_pos s) else xI (text_pos s) end.

Lemma text_pos_text p : text_pos (pos_text p) = p.
Proof. induction p as [p IH|p IH|]; cbn; by rewrite ?IH. Qed.

Definition flat : Type := bytes + list bytes + Z.
Definition flatten (c : claim) : option flat :=
  match c with
  | CString s => Some (inl (inl s)) | CStrings l => Some (inl (inr l)) | CNumber z => Some (inr z)
  | CArray _ | COther => None
  end.
Definition unflatten (f : flat) : claim :=
  match f with inl (inl s) => CString s | inl (inr l) => CStrings l | inr z => CNumber z end.

Definition write_claims (m : gmap bytes claim) : option (list (bytes * flat)) :=
  mapM (fun kv => f ← flatten kv.2; Some (kv.1, f)) (map_to_list m).
Definition read_claims (l : list (bytes * flat)) : gmap bytes claim :=
  list_to_map ((fun kv => (kv.1, unflatten kv.2)) <$> l).

Lemma read_write m l : write_claims m = Some l -> read_claims l = m.
Proof.
  unfold write_claims, read_claims. intros H%mapM_Some.
  assert ((fun kv => (kv.1, unflatten kv.2)) <$> l = map_to_list m) as ->; [|apply list_to_map_to_list].
  induction H as [|[k c] [k' f] l1 l2 Hf H IH]; [done|]. cbn [fmap list_fmap]. f_equal; [|done].
  destruct c; cbn in Hf; simplify_eq/=; done.
Qed.

Definition demo_sign (alg : bytes) (header claims : gmap bytes claim) (secret : bytes) : result error bytes :=
  match write_claims header, write_claims claims with
  | Some h, Some c => Ok (pos_text (encode (alg, h, c, secret)))
  | _, _ => Err (EMsg #"unsupported claim")
  end.

Definition in_forceb (p : Parser) (claims : MapClaims) : bool :=
  match claims !! #"exp" with
  | Some (CNumber exp) => ps_TimeFunc p <? exp * 1000000000 + ps_Leeway p
  | Some COther => true
  | Some _ => false
  | None => negb (ps_ExpirationRequired p)
  end
  && match claims !! #"nbf" with
     | Some (CNumber nbf) => nbf * 1000000000 - ps_Leeway p <=? ps_TimeFunc p
     | _ => true
     end.

Lemma in_forceb_spec p claims : in_forceb p claims = true <-> in_force p claims.
Proof.
  unfold in_forceb. rewrite andb_true_iff. split.
  - intros [He Hn]. split.
    + destruct (claims !! #"exp") as [[| | |exp|]|]; try done; [by apply Z.ltb_lt|by apply negb_true_iff].
    + intros nbf E. rewrite E in Hn. by apply Z.leb_le.
  - intros [He Hn]. split.
    + destruct (claims !! #"exp") as [[| | |exp|]|]; try done; [by apply Z.ltb_lt|by apply negb_true_iff].
    + destruct (claims !! #"nbf") as [[| | |nbf|]|]; try done. apply Z.leb_le. by apply Hn.
Qed.

Definition read_jwt (p : Parser) (keyfunc : Token -> result error crypto_key) (raw : bytes)
    : result error (option Token * MapClaims) :=
  match decode (A := bytes * list (bytes * flat) * list (bytes * flat) * bytes) (text_pos raw) with
  | Some (alg, h, c, secret) =>
      let tok := mkToken (json_view (read_claims h)) alg true in
      let claims := json_view (read_claims c) in
      if bool_decide (alg ∈ ps_ValidMethods p) && in_forceb p claims && bool_decide (keyfunc tok = Ok (SecretKey secret))
      then Ok (Some tok, claims) else Err (EMsg #"token is unverifiable")
  | None => Err (EMsg #"token is malformed")
  end.

Lemma read_jwt_signed : signs_and_parses demo_sign read_jwt.
Proof.
  intros alg header claims secret raw p keyfunc Hs _ _ _ Halg Hf Hk. unfold demo_sign in Hs.
  destruct (write_claims header) as [h|] eqn:Eh; [|done]. destruct (write_claims claims) as [c|] eqn:Ec; [|done].
  injection Hs as <-. unfold read_jwt. rewrite text_pos_text, decode_encode.
  rewrite (read_write _ _ Eh), (read_write _ _ Ec). rewrite bool_decide_eq_true_2 by done.
  rewrite (proj2 (in_forceb_spec _ _) Hf), bool_decide_eq_true_2 by done. done.
Qed.

Lemma read_jwt_sound p keyfunc raw tok claims :
  read_jwt p keyfunc raw = Ok (Some tok, claims) ->
  tok_Alg tok ∈ ps_ValidMethods p /\ in_force p claims
  /\ exists key, keyfunc tok = Ok key
     /\ exists h c secret, key = SecretKey secret /\ decode (text_pos raw) = Some (tok_Alg tok, h : list (bytes * flat), c : list (bytes * flat), secret).
Proof.
  unfold read_jwt. destruct (decode (text_pos raw)) as [[[[alg h] c] secret]|] eqn:E; [|done].
  destruct (_ && _ && _) eqn:Hc; [|done]. intros [= <- <-].
  apply andb_true_iff in Hc as [[Ha%bool_decide_eq_true Hf%in_forceb_spec]%andb_true_iff Hk%bool_decide_eq_true].
  split_and!; [done|done|]. exists (SecretKey secret). split; [done|]. by exists h, c, secret.
Qed.

(** Ids as text. *)
Definition demo_uuid_String (u : uuid) : bytes := pos_text (encode u).
Definition demo_uuid_Parse (s : bytes) : option uuid := decode (text_pos s).

Lemma demo_uuid_round u : demo_uuid_Parse (demo_uuid_String u) = Some u.
Proof. unfold demo_uuid_Parse, demo_uuid_String. by rewrite text_pos_text, decode_encode. Qed.

Lemma pos_text_ascii p : ascii_text (pos_text p).
Proof. induction p as [p IH|p IH|]; cbn; constructor; by vm_compute || done. Qed.

Lemma demo_uuid_texts : uuid_texts demo_uuid_Parse demo_uuid_String.
Proof. intros u. split; [apply demo_uuid_round|apply pos_text_ascii]. Qed.

Definition demo_hmac : HMACValidator := mkHMAC #"s3cret" #"awg-rest" #"awg-control-plane" [] None 30000000000.
Definition demo_principal : Principal :=
  mkPrincipal 7 3 [RolePlatformAdmin] [ #"peers:read"; #"peers:write" ] [] [].

(** A token of one hour, presented half an hour after it was minted. *)
Lemma dev_token_roundtrip_witness :
  exists raw, IssueDevToken demo_uuid_String demo_sign 1000000000000 9 #"s3cret" #"awg-rest" #"awg-control-plane" demo_principal
                3600000000000 = Ok raw
    /\ hmac_Validate demo_uuid_Parse (fun s => s) read_jwt 2800000000000 demo_hmac raw
       = Ok (mkPrincipal 7 3 [RolePlatformAdmin] [ #"peers:read"; #"peers:write" ] #"awg-rest" (demo_uuid_String 9)).
Proof.
  assert (is_Some (write_claims dev_header)) as [h Eh] by (vm_compute; eexists; reflexivity).
  assert (is_Some (write_claims (dev_claims demo_uuid_String 1000000000000 9 #"awg-rest" #"awg-control-plane" demo_principal
                                   3600000000000))) as [c Ec] by (vm_compute; eexists; reflexivity).
  exists (pos_text (encode (#"HS256", h, c, #"s3cret"))).
  assert (IssueDevToken demo_uuid_String demo_sign 1000000000000 9 #"s3cret" #"awg-rest" #"awg-control-plane" demo_principal
            3600000000000 = Ok (pos_text (encode (#"HS256", h, c, #"s3cret")))) as E.
  { unfold IssueDevToken, demo_sign. by rewrite Eh, Ec. }
  split; [exact E|].
  apply (dev_token_roundtrip demo_uuid_Parse demo_uuid_String (fun s => s) demo_sign read_jwt 2800000000000 1000000000000 9
           demo_hmac demo_principal 3600000000000).
  - exact read_jwt_signed.
  - exact demo_uuid_texts.
  - split; [reflexivity|reflexivity|repeat constructor|apply (bool_decide_unpack _); vm_compute; exact I
           |vm_compute; split; [reflexivity|discriminate]..].
  - by left.
  - exact E.
  - vm_compute. split; [discriminate|reflexivity].
Defined.
