(* ===== verification/Store.v ===== *)
(** * Store: the relational state and the repositories ([internal/repo])

    Every table is the list of its rows in insertion order, every repository
    method a function on the whole store that performs its SQL statement: the
    selection and its ORDER BY, the UNIQUE, PRIMARY KEY and REFERENCES
    constraints of the schema (violations are errors with their SQLSTATE), the
    defaults and the RETURNING clause.  Ids that [gen_random_uuid()] draws and the
    clock are arguments.  [InTx] commits or rolls back. *)

From S2P Require Import Prelude GoStrings Strconv Errors Effects Profile Netip Ipam.

(** ** Rows ([domain/peer.go]) *)

Record Tenant : Type := mkTenant { t_ID : uuid; t_Slug : bytes; t_Status : bytes; t_CreatedAt : Z }.

Record Node : Type := mkNode {
  n_ID : uuid;
  n_ProfileID : option uuid;
  n_Region : bytes;
  n_Hostname : bytes;
  n_Status : bytes;
  n_PublicEndpoint : bytes;
  n_BasePort : Z;
  n_AgentLastSeenAt : option Z;
  n_InterfaceName : bytes;
  n_ServerPublicKey : bytes;
  n_CreatedAt : Z }.

Record AddressPool : Type := mkPool {
  ap_ID : uuid;
  ap_TenantID : uuid;
  ap_NodeID : uuid;
  ap_CIDR : Prefix;
  ap_Cursor : option Addr;
  ap_Policy : bytes }.

Inductive PeerState : Type := PeerPending | PeerActive | PeerRevoked | PeerExpired | PeerRotating.

Record Peer : Type := mkPeer {
  p_ID : uuid;
  p_TenantID : uuid;
  p_NodeID : uuid;
  p_ProfileID : uuid;
  p_ExternalID : bytes;
  p_DisplayName : bytes;
  p_PublicKey : bytes;
  p_PresharedKeyRef : option bytes;
  p_AllowedIP : Prefix;
  p_State : PeerState;
  p_DesiredRevision : Z;
  p_AppliedRevision : Z;
  p_CreatedAt : Z;
  p_UpdatedAt : Z;
  p_ExpiresAt : option Z;
  p_RevokedAt : option Z }.

(** The [peer_runtime] row of a peer. *)
Record RuntimeRow : Type := mkRuntimeRow {
  rr_LastHandshakeAt : option Z;
  rr_RxBytes : Z;
  rr_TxBytes : Z;
  rr_RuntimePresent : bool;
  rr_LastRuntimeSyncAt : option Z;
  rr_Endpoint : bytes }.

Inductive OperationKind : Type := OpCreatePeer | OpRevokePeer | OpDeletePeer | OpRotatePeer | OpReconcileNode.
Inductive OperationStatus : Type := OpPending | OpRunning | OpApplied | OpFailed | OpRetrying.

Record Operation : Type := mkOperation {
  o_ID : uuid;
  o_TenantID : uuid;
  o_PeerID : option uuid;
  o_NodeID : uuid;
  o_Kind : OperationKind;
  o_Status : OperationStatus;
  o_RequestHash : bytes;
  o_ErrorCode : bytes;
  o_ErrorMessage : bytes;
  o_StartedAt : Z;
  o_FinishedAt : option Z }.

Inductive JobStatus : Type := JobPending | JobLeased | JobApplied | JobFailedTerminal | JobFailedRetryable.

(** A claimed job. *)
Record Job : Type := mkJob {
  j_ID : uuid;
  j_OperationID : option uuid;
  j_NodeID : uuid;
  j_AggregateType : bytes;
  j_AggregateID : uuid;
  j_Kind : OperationKind;
  j_Payload : bytes;
  j_Attempts : Z }.

Record OutboxRow : Type := mkOutbox {
  ob_Job : Job;
  ob_Status : JobStatus;
  ob_LeasedUntil : option Z;
  ob_LastError : option bytes;
  ob_CreatedAt : Z;
  ob_UpdatedAt : Z }.

#[export] Instance PeerState_eq_dec : EqDecision PeerState.
Proof. solve_decision. Defined.
#[export] Instance OperationKind_eq_dec : EqDecision OperationKind.
Proof. solve_decision. Defined.
#[export] Instance OperationStatus_eq_dec : EqDecision OperationStatus.
Proof. solve_decision. Defined.
#[export] Instance JobStatus_eq_dec : EqDecision JobStatus.
Proof. solve_decision. Defined.
#[export] Instance Tenant_eq_dec : EqDecision Tenant.
Proof. solve_decision. Defined.
#[export] Instance Peer_eq_dec : EqDecision Peer.
Proof. solve_decision. Defined.
#[export] Instance Operation_eq_dec : EqDecision Operation.
Proof. solve_decision. Defined.

(** [CreatePeerResponse], the JSON body an idempotency record may hold. *)
Record CreatePeerResponse : Type := mkResponse {
  cr_OperationID : bytes;
  cr_PeerID : bytes;
  cr_Status : bytes;
  cr_AllowedIP : bytes;
  cr_PublicKey : bytes;
  cr_PrivateKey : bytes;
  cr_ClientConfig : bytes;
  cr_PresharedKey : bytes;
  cr_NodeID : bytes;
  cr_ProfileID : bytes }.

#[export] Instance CreatePeerResponse_eq_dec : EqDecision CreatePeerResponse.
Proof. solve_decision. Defined.

Definition empty_response : CreatePeerResponse := mkResponse [] [] [] [] [] [] [] [] [] [].

(** The two bodies the service stores: a create response and the one-entry map
    of a revocation. *)
Inductive ResponseBody : Type :=
| BodyCreate (r : CreatePeerResponse)
| BodyRevoke (operation_id : bytes).

Record Record' : Type := mkRecord {
  ir_OperationID : option uuid;
  ir_RequestHash : bytes;
  ir_ResponseStatus : Z;
  ir_ResponseBody : ResponseBody;
  ir_ExpiresAt : Z }.

(** An audit row; [after] holds the peer the event is about, as its JSON shows
    it. *)
Record AuditRow : Type := mkAudit {
  au_TenantID : option uuid;
  au_SubjectID : option uuid;
  au_Action : bytes;
  au_TargetType : bytes;
  au_TargetID : bytes;
  au_After : option Peer;
  au_RequestID : bytes;
  au_IdempotencyKey : bytes;
  au_CreatedAt : Z }.

(** A [protocol_profiles] row; a min/max pair of columns is one field. *)
Record ProfileRow : Type := mkProfileRow {
  pw_id : uuid;
  pw_name : bytes;
  pw_protocol_version : bytes;
  pw_jc : Z; pw_jmin : Z; pw_jmax : Z;
  pw_s1 : Z; pw_s2 : Z; pw_s3 : Z; pw_s4 : Z;
  pw_h1 : Z * Z; pw_h2 : Z * Z; pw_h3 : Z * Z; pw_h4 : Z * Z;
  pw_i1 : option bytes; pw_i2 : option bytes; pw_i3 : option bytes; pw_i4 : option bytes;
  pw_i5 : option bytes;
  pw_listen_port_policy : bytes;
  pw_header_protection_key : option bytes;
  pw_content_padding_addition : option Z * option Z;
  pw_rekey_after_time : option Z * option Z;
  pw_rekey_timeout : option Z * option Z;
  pw_reject_after_time : option Z * option Z;
  pw_keepalive_timeout : option Z * option Z;
  pw_max_handshake_attempts : option Z * option Z;
  pw_persistent_keepalive : option Z * option Z;
  pw_random_trailers : option bool;
  pw_disable_cookies : option bool;
  pw_created_at : Z }.

Record Store : Type := mkStore {
  st_tenants : list Tenant;
  st_nodes : list Node;
  st_profiles : list ProfileRow;
  st_pools : list AddressPool;
  st_peers : list Peer;
  st_runtime : gmap uuid RuntimeRow;
  st_operations : list Operation;
  st_outbox : list OutboxRow;
  st_idem : gmap (uuid * bytes) Record';
  st_audit : list AuditRow }.

Definition empty_store : Store := mkStore [] [] [] [] [] ∅ [] [] ∅ [].

Definition set_peers (f : list Peer -> list Peer) (s : Store) : Store :=
  mkStore (st_tenants s) (st_nodes s) (st_profiles s) (st_pools s) (f (st_peers s)) (st_runtime s)
    (st_operations s) (st_outbox s) (st_idem s) (st_audit s).
Definition set_pools (f : list AddressPool -> list AddressPool) (s : Store) : Store :=
  mkStore (st_tenants s) (st_nodes s) (st_profiles s) (f (st_pools s)) (st_peers s) (st_runtime s)
    (st_operations s) (st_outbox s) (st_idem s) (st_audit s).
Definition set_runtime (f : gmap uuid RuntimeRow -> gmap uuid RuntimeRow) (s : Store) : Store :=
  mkStore (st_tenants s) (st_nodes s) (st_profiles s) (st_pools s) (st_peers s) (f (st_runtime s))
    (st_operations s) (st_outbox s) (st_idem s) (st_audit s).
Definition set_operations (f : list Operation -> list Operation) (s : Store) : Store :=
  mkStore (st_tenants s) (st_nodes s) (st_profiles s) (st_pools s) (st_peers s) (st_runtime s)
    (f (st_operations s)) (st_outbox s) (st_idem s) (st_audit s).
Definition set_outbox (f : list OutboxRow -> list OutboxRow) (s : Store) : Store :=
  mkStore (st_tenants s) (st_nodes s) (st_profiles s) (st_pools s) (st_peers s) (st_runtime s)
    (st_operations s) (f (st_outbox s)) (st_idem s) (st_audit s).
Definition set_idem (f : gmap (uuid * bytes) Record' -> gmap (uuid * bytes) Record') (s : Store) : Store :=
  mkStore (st_tenants s) (st_nodes s) (st_profiles s) (st_pools s) (st_peers s) (st_runtime s)
    (st_operations s) (st_outbox s) (f (st_idem s)) (st_audit s).
Definition set_audit (f : list AuditRow -> list AuditRow) (s : Store) : Store :=
  mkStore (st_tenants s) (st_nodes s) (st_profiles s) (st_pools s) (st_peers s) (st_runtime s)
    (st_operations s) (st_outbox s) (st_idem s) (f (st_audit s)).
Definition set_tenants (f : list Tenant -> list Tenant) (s : Store) : Store :=
  mkStore (f (st_tenants s)) (st_nodes s) (st_profiles s) (st_pools s) (st_peers s) (st_runtime s)
    (st_operations s) (st_outbox s) (st_idem s) (st_audit s).
Definition set_nodes (f : list Node -> list Node) (s : Store) : Store :=
  mkStore (st_tenants s) (f (st_nodes s)) (st_profiles s) (st_pools s) (st_peers s) (st_runtime s)
    (st_operations s) (st_outbox s) (st_idem s) (st_audit s).
Definition set_profiles (f : list ProfileRow -> list ProfileRow) (s : Store) : Store :=
  mkStore (st_tenants s) (st_nodes s) (f (st_profiles s)) (st_pools s) (st_peers s) (st_runtime s)
    (st_operations s) (st_outbox s) (st_idem s) (st_audit s).

(** ** Database sessions *)

(** Run a repository call from code that also has local variables [V]. *)
Definition on_store {V A} (m : SE Store A) : SE (V * Store) A :=
  fun '(v, s) => let '(r, s') := m s in (r, (v, s')).

(** Assign the local variables. *)
Definition assign {V} (v : V) : SE (V * Store) unit := fun '(_, s) => (Ok tt, (v, s)).

(** [DB.InTx]: commit on success, roll the store back on error; the closure's
    assignments to captured variables stay. *)
Definition InTx {V} (fn : SE (V * Store) unit) : SE (V * Store) unit :=
  fun '(v, s) =>
    match fn (v, s) with
    | (Ok _, vs) => (Ok tt, vs)
    | (Err e, (v', _)) => (Err e, (v', s))
    end.

(** *** Constraints *)

Definition unique_violation (what : bytes) : error := EPg #"23505" what.
Definition fk_violation (what : bytes) : error := EPg #"23503" what.

Definition has_id {A} (id : A -> uuid) (l : list A) (x : uuid) : bool :=
  existsb (fun r => (id r =? x)%N) l.

Definition find_id {A} (id : A -> uuid) (l : list A) (x : uuid) : option A :=
  find (fun r => (id r =? x)%N) l.

(** [UPDATE ... WHERE id = $1] *)
Definition update_id {A} (id : A -> uuid) (x : uuid) (f : A -> A) (l : list A) : list A :=
  (fun r => if (id r =? x)%N then f r else r) <$> l.

(** A row or [domain.ErrNotFound]. *)
Definition row_or_not_found {S A} (r : option A) : SE S A :=
  match r with Some a => mret a | None => fail (ESentinel ErrNotFound) end.

(** The first row of an [ORDER BY key LIMIT 1] query. *)
Fixpoint first_by {A} (lt : A -> A -> bool) (l : list A) : option A :=
  match l with
  | [] => None
  | x :: l => match first_by lt l with
              | Some y => if lt y x then Some y else Some x
              | None => Some x
              end
  end.

(** ** Profiles *)

Definition nullable (s : bytes) : option bytes := if bool_decide (s = []) then None else Some s.
Definition nullableWhen (enabled : bool) (s : bytes) : option bytes :=
  if negb enabled then None else nullable s.
Definition boolWhen (enabled v : bool) : option bool := if negb enabled then None else Some v.
Definition deref (s : option bytes) : bytes := match s with None => [] | Some s => s end.
Definition derefBool (v : option bool) : bool := match v with None => false | Some v => v end.

Definition rangeDB (enabled : bool) (r : Uint16Range) : option Z * option Z :=
  if negb enabled || Uint16Range_IsZero r then (None, None)
  else (Some (u16_Min r), Some (u16_Max r)).

(** The conversion to [uint16] truncates. *)
Definition rangeFromDB (c : option Z * option Z) : Uint16Range :=
  match c with
  | (Some lo, Some hi) => mkU16 (lo mod 2 ^ 16) (hi mod 2 ^ 16)
  | _ => mkU16 0 0
  end.

(** The row the INSERT of [insertProfile] writes. *)
Definition profile_row (newID : uuid) (now : Z) (p : ProtocolProfile) : ProfileRow :=
  mkProfileRow newID (pp_Name p) (pp_ProtocolVersion p) (pp_Jc p) (pp_Jmin p) (pp_Jmax p)
    (pp_S1 p) (pp_S2 p) (pp_S3 p) (pp_S4 p)
    (ir_Min (pp_H1 p), ir_Max (pp_H1 p)) (ir_Min (pp_H2 p), ir_Max (pp_H2 p))
    (ir_Min (pp_H3 p), ir_Max (pp_H3 p)) (ir_Min (pp_H4 p), ir_Max (pp_H4 p))
    (nullable (pp_I1 p)) (nullable (pp_I2 p)) (nullable (pp_I3 p)) (nullable (pp_I4 p)) (nullable (pp_I5 p))
    (pp_ListenPortPolicy p)
    (nullableWhen (IsV31 p) (pp_HeaderProtectionKey p))
    (rangeDB (IsV31 p) (pp_ContentPaddingAddition p))
    (rangeDB (IsV31 p) (pp_RekeyAfterTime p))
    (rangeDB (IsV31 p) (pp_RekeyTimeout p))
    (rangeDB (IsV31 p) (pp_RejectAfterTime p))
    (rangeDB (IsV31 p) (pp_KeepaliveTimeout p))
    (rangeDB (IsV31 p) (pp_MaxHandshakeAttempts p))
    (rangeDB (IsV31 p) (pp_PersistentKeepalive p))
    (boolWhen (IsV31 p) (pp_RandomTrailers p)) (boolWhen (IsV31 p) (pp_DisableCookies p)) now.

Definition scanProfile (r : ProfileRow) : ProtocolProfile :=
  mkProfile (pw_id r) (pw_name r) (pw_protocol_version r) (pw_jc r) (pw_jmin r) (pw_jmax r)
    (pw_s1 r) (pw_s2 r) (pw_s3 r) (pw_s4 r)
    (mkIntRange (fst (pw_h1 r)) (snd (pw_h1 r))) (mkIntRange (fst (pw_h2 r)) (snd (pw_h2 r)))
    (mkIntRange (fst (pw_h3 r)) (snd (pw_h3 r))) (mkIntRange (fst (pw_h4 r)) (snd (pw_h4 r)))
    (deref (pw_i1 r)) (deref (pw_i2 r)) (deref (pw_i3 r)) (deref (pw_i4 r)) (deref (pw_i5 r))
    (deref (pw_header_protection_key r))
    (rangeFromDB (pw_content_padding_addition r)) (rangeFromDB (pw_rekey_after_time r))
    (rangeFromDB (pw_rekey_timeout r)) (rangeFromDB (pw_reject_after_time r))
    (rangeFromDB (pw_keepalive_timeout r)) (rangeFromDB (pw_max_handshake_attempts r))
    (rangeFromDB (pw_persistent_keepalive r))
    (derefBool (pw_random_trailers r)) (derefBool (pw_disable_cookies r))
    (pw_listen_port_policy r) (pw_created_at r).

Definition insertProfile (newID : uuid) (now : Z) (p : ProtocolProfile) : SE Store ProtocolProfile :=
  match Validate p with
  | [] =>
      taken ← asks (fun s => existsb (fun r => bool_decide (pw_name r = pp_Name p)) (st_profiles s)
                             || has_id pw_id (st_profiles s) newID);
      check (negb taken) (unique_violation #"protocol_profiles") ;;
      modify (set_profiles (fun l => l ++ [profile_row newID now p])) ;;
      mret (scanProfile (profile_row newID now p))
  | errs => fail (EValidation errs)
  end.

Definition Profiles_GetByID (id : uuid) : SE Store ProtocolProfile :=
  r ← asks (fun s => find_id pw_id (st_profiles s) id); scanProfile <$> row_or_not_found r.

Definition Profiles_GetByName (name : bytes) : SE Store ProtocolProfile :=
  r ← asks (fun s => find (fun r => bool_decide (pw_name r = name)) (st_profiles s));
  scanProfile <$> row_or_not_found r.

(** ** Tenants, nodes and pools *)

(** [ON CONFLICT (slug) DO UPDATE SET slug = EXCLUDED.slug] leaves the row as
    it is. *)
Definition Tenants_Upsert (newID : uuid) (now : Z) (slug : bytes) : SE Store Tenant :=
  r ← asks (fun s => find (fun t => bool_decide (t_Slug t = slug)) (st_tenants s));
  match r with
  | Some t => mret t
  | None =>
      taken ← asks (fun s => has_id t_ID (st_tenants s) newID);
      check (negb taken) (unique_violation #"tenants") ;;
      modify (set_tenants (fun l => l ++ [mkTenant newID slug #"active" now])) ;;
      mret (mkTenant newID slug #"active" now)
  end.

Definition Tenants_GetBySlug (slug : bytes) : SE Store Tenant :=
  r ← asks (fun s => find (fun t => bool_decide (t_Slug t = slug)) (st_tenants s)); row_or_not_found r.

Definition Tenants_GetByID (id : uuid) : SE Store Tenant :=
  r ← asks (fun s => find_id t_ID (st_tenants s) id); row_or_not_found r.

(** [profile_id UUID REFERENCES protocol_profiles(id)] may be null. *)
Definition profile_ref_ok (s : Store) (p : option uuid) : bool :=
  match p with None => true | Some id => has_id pw_id (st_profiles s) id end.

Definition insertNode (newID : uuid) (now : Z) (n : Node) : SE Store Node :=
  let row := mkNode newID (n_ProfileID n) (n_Region n) (n_Hostname n) #"unknown" (n_PublicEndpoint n)
               (n_BasePort n) None (n_InterfaceName n) (n_ServerPublicKey n) now in
  taken ← asks (fun s => existsb (fun m => bool_decide (n_Hostname m = n_Hostname n)) (st_nodes s)
                         || has_id n_ID (st_nodes s) newID);
  check (negb taken) (unique_violation #"vpn_nodes") ;;
  ref ← asks (fun s => profile_ref_ok s (n_ProfileID n));
  check ref (fk_violation #"vpn_nodes.profile_id") ;;
  modify (set_nodes (fun l => l ++ [row])) ;;
  mret row.

Definition Nodes_GetByID (id : uuid) : SE Store Node :=
  r ← asks (fun s => find_id n_ID (st_nodes s) id); row_or_not_found r.

Definition Nodes_MarkSeen (id : uuid) (now : Z) (status : bytes) : SE Store unit :=
  modify (set_nodes (update_id n_ID id (fun n =>
    mkNode (n_ID n) (n_ProfileID n) (n_Region n) (n_Hostname n) status (n_PublicEndpoint n)
      (n_BasePort n) (Some now) (n_InterfaceName n) (n_ServerPublicKey n) (n_CreatedAt n)))).

(** [CASE WHEN p.protocol_version = 'v3.1' THEN 1 ELSE 0 END] over the left join. *)
Definition node_rank (s : Store) (n : Node) : Z :=
  match n_ProfileID n ≫= find_id pw_id (st_profiles s) with
  | Some r => if bool_decide (pw_protocol_version r = #"v3.1") then 1 else 0
  | None => 0
  end.

Definition node_before (s : Store) (n m : Node) : bool :=
  (node_rank s n <? node_rank s m)
  || ((node_rank s n =? node_rank s m) && bytes_ltb (n_Hostname n) (n_Hostname m)).

Definition PickFirst : SE Store Node :=
  r ← asks (fun s => first_by (node_before s) (st_nodes s)); row_or_not_found r.

Definition createPool (newID : uuid) (tenantID nodeID : uuid) (cidr : Prefix) : SE Store uuid :=
  taken ← asks (fun s => existsb (fun a => (ap_NodeID a =? nodeID)%N && bool_decide (ap_CIDR a = cidr)) (st_pools s)
                         || has_id ap_ID (st_pools s) newID);
  check (negb taken) (unique_violation #"address_pools") ;;
  ref ← asks (fun s => has_id t_ID (st_tenants s) tenantID && has_id n_ID (st_nodes s) nodeID);
  check ref (fk_violation #"address_pools") ;;
  modify (set_pools (fun l => l ++ [mkPool newID tenantID nodeID cidr None #"sequential"])) ;;
  mret newID.

(** ** Peers *)

Record InsertParams : Type := mkInsertParams {
  ip_TenantID : uuid;
  ip_NodeID : uuid;
  ip_ProfileID : uuid;
  ip_ExternalID : bytes;
  ip_DisplayName : bytes;
  ip_PublicKey : bytes;
  ip_PresharedKeyRef : option bytes;
  ip_ExpiresAt : option Z }.

Definition gatewayAddress (pool : Prefix) : option Addr :=
  let pool := Masked pool in
  if negb (Prefix_IsValid pool) || negb (Is4 (pf_addr pool)) || (31 <=? pf_bits pool) then None
  else
    let addr := Next (pf_addr pool) in
    if negb (Addr_IsValid addr) || negb (Prefix_Contains pool addr) then None else Some addr.

(** The [/32] or [/128] prefix of an address. *)
Definition host_prefix (a : Addr) : Prefix :=
  PrefixFrom a (match a with A6 _ _ => 128 | _ => 32 end).

(** [host(allowed_ip)] of the live peers of a node. *)
Definition used_addresses (s : Store) (nodeID : uuid) : list Addr :=
  (fun p => pf_addr (p_AllowedIP p)) <$>
  filter (fun p => p_NodeID p = nodeID /\ p_State p <> PeerRevoked) (st_peers s).

(** [SELECT ... WHERE node_id = $1 AND tenant_id = $2 ORDER BY id LIMIT 1] *)
Definition pool_of (s : Store) (nodeID tenantID : uuid) : option AddressPool :=
  first_by (fun a b => (ap_ID a <? ap_ID b)%N)
    (filter (fun a => ap_NodeID a = nodeID /\ ap_TenantID a = tenantID) (st_pools s)).

(** What a loop that does not return is reported as (see [Allocate]). *)
Definition diverges : error := EMsg #"(does not return)".

(** The addresses the allocator must skip. *)
Definition reserved_for (s : Store) (pool : Prefix) (nodeID : uuid) : Reserved :=
  NewReservedSet (used_addresses s nodeID ++ match gatewayAddress pool with Some g => [g] | None => [] end).

(** The UNIQUE constraints of [peers], and its primary key. *)
Definition peer_conflicts (q p : Peer) : bool :=
  (p_ID q =? p_ID p)%N
  || ((p_TenantID q =? p_TenantID p)%N && bool_decide (p_ExternalID q = p_ExternalID p))
  || ((p_NodeID q =? p_NodeID p)%N && bool_decide (p_AllowedIP q = p_AllowedIP p))
  || ((p_NodeID q =? p_NodeID p)%N && bool_decide (p_PublicKey q = p_PublicKey p)).

Definition peer_refs_ok (s : Store) (p : Peer) : bool :=
  has_id t_ID (st_tenants s) (p_TenantID p) && has_id n_ID (st_nodes s) (p_NodeID p)
  && has_id pw_id (st_profiles s) (p_ProfileID p).

(** Domain peers are read back through [host(allowed_ip)] and its family. *)
Definition scanPeer (p : Peer) : Peer :=
  mkPeer (p_ID p) (p_TenantID p) (p_NodeID p) (p_ProfileID p) (p_ExternalID p) (p_DisplayName p)
    (p_PublicKey p) (p_PresharedKeyRef p) (host_prefix (pf_addr (p_AllowedIP p))) (p_State p)
    (p_DesiredRevision p) (p_AppliedRevision p) (p_CreatedAt p) (p_UpdatedAt p)
    (p_ExpiresAt p) (p_RevokedAt p).

(** The row of the INSERT. *)
Definition new_peer (newID : uuid) (now : Z) (p : InsertParams) (a : Addr) : Peer :=
  mkPeer newID (ip_TenantID p) (ip_NodeID p) (ip_ProfileID p) (ip_ExternalID p) (ip_DisplayName p)
    (ip_PublicKey p) (ip_PresharedKeyRef p) (host_prefix a) PeerPending 1 0 now now (ip_ExpiresAt p) None.

Definition set_cursor (c : Addr) (a : AddressPool) : AddressPool :=
  mkPool (ap_ID a) (ap_TenantID a) (ap_NodeID a) (ap_CIDR a) (Some c) (ap_Policy a).

Section insert.
(** [uuid.UUID.String] *)
Context (uuid_String : uuid -> bytes).

Definition AllocateAndInsert (newID : uuid) (now : Z) (p : InsertParams) : SE Store Peer :=
  row ← asks (fun s => pool_of s (ip_NodeID p) (ip_TenantID p));
  match row with
  | None => fail (EMsg (#"no address pool configured for node " ++ uuid_String (ip_NodeID p)))
  | Some row =>
      let pool := ap_CIDR row in
      let cursor := default AInvalid (ap_Cursor row) in
      reserved ← asks (fun s => reserved_for s pool (ip_NodeID p));
      match Allocate pool cursor (Some reserved) with
      | None => fail diverges
      | Some (Err e) => if errors_Is e ErrPoolExhausted then fail (ESentinel ErrIPPoolExhausted) else fail e
      | Some (Ok allocation) =>
          modify (set_pools (update_id ap_ID (ap_ID row) (set_cursor (NextCursor allocation)))) ;;
          let peer := new_peer newID now p (Address allocation) in
          conflict ← asks (fun s => existsb (fun q => peer_conflicts q peer) (st_peers s));
          check (negb conflict) (ESentinel ErrPeerExists) ;;
          refs ← asks (fun s => peer_refs_ok s peer);
          check refs (fk_violation #"peers") ;;
          modify (set_peers (fun l => l ++ [peer])) ;;
          mret (scanPeer peer)
      end
  end.
End insert.

Definition Peers_GetByID (id : uuid) : SE Store Peer :=
  r ← asks (fun s => find_id p_ID (st_peers s) id); scanPeer <$> row_or_not_found r.

Definition Peers_GetByExternalID (tenantID : uuid) (extID : bytes) : SE Store Peer :=
  r ← asks (fun s => find (fun p => (p_TenantID p =? tenantID)%N && bool_decide (p_ExternalID p = extID)) (st_peers s));
  scanPeer <$> row_or_not_found r.

(** [ORDER BY public_key]; public keys are unique on a node. *)
Fixpoint insert_peer (p : Peer) (l : list Peer) : list Peer :=
  match l with
  | [] => [p]
  | q :: l => if bytes_ltb (p_PublicKey q) (p_PublicKey p) then q :: insert_peer p l else p :: q :: l
  end.
Definition order_by_key (l : list Peer) : list Peer := foldr insert_peer [] l.

Definition ListByNode (nodeID : uuid) : SE Store (list Peer) :=
  asks (fun s => scanPeer <$> order_by_key (filter (fun p => p_NodeID p = nodeID /\ p_State p <> PeerRevoked) (st_peers s))).

Definition ListByNodeIncludingRevoked (nodeID : uuid) : SE Store (list Peer) :=
  asks (fun s => scanPeer <$> order_by_key (filter (fun p => p_NodeID p = nodeID) (st_peers s))).

Definition revoke_row (when now : Z) (p : Peer) : Peer :=
  mkPeer (p_ID p) (p_TenantID p) (p_NodeID p) (p_ProfileID p) (p_ExternalID p) (p_DisplayName p)
    (p_PublicKey p) (p_PresharedKeyRef p) (p_AllowedIP p) PeerRevoked (p_DesiredRevision p + 1)
    (p_AppliedRevision p) (p_CreatedAt p) now (p_ExpiresAt p) (Some when).

Definition MarkRevoked (id : uuid) (when now : Z) : SE Store Peer :=
  r ← asks (fun s => find_id p_ID (st_peers s) id);
  match r with
  | None => fail (ESentinel ErrNotFound)
  | Some p =>
      modify (set_peers (update_id p_ID id (revoke_row when now))) ;;
      mret (scanPeer (revoke_row when now p))
  end.

Definition apply_row (revision now : Z) (p : Peer) : Peer :=
  mkPeer (p_ID p) (p_TenantID p) (p_NodeID p) (p_ProfileID p) (p_ExternalID p) (p_DisplayName p)
    (p_PublicKey p) (p_PresharedKeyRef p) (p_AllowedIP p)
    (if bool_decide (p_State p = PeerPending) then PeerActive else p_State p)
    (p_DesiredRevision p) (Z.max (p_AppliedRevision p) revision) (p_CreatedAt p) now
    (p_ExpiresAt p) (p_RevokedAt p).

Definition Peers_MarkApplied (id : uuid) (revision now : Z) : SE Store unit :=
  modify (set_peers (update_id p_ID id (apply_row revision now))).

(** ** Operations *)

Definition opt_ref_ok {A} (id : A -> uuid) (l : list A) (x : option uuid) : bool :=
  match x with None => true | Some x => has_id id l x end.

Definition Operations_Insert (newID : uuid) (now : Z) (tenantID nodeID : uuid) (peerID : option uuid)
    (kind : OperationKind) (requestHash : bytes) : SE Store Operation :=
  let op := mkOperation newID tenantID peerID nodeID kind OpPending requestHash [] [] now None in
  taken ← asks (fun s => has_id o_ID (st_operations s) newID);
  check (negb taken) (unique_violation #"operations") ;;
  refs ← asks (fun s => has_id t_ID (st_tenants s) tenantID && has_id n_ID (st_nodes s) nodeID
                        && opt_ref_ok p_ID (st_peers s) peerID);
  check refs (fk_violation #"operations") ;;
  modify (set_operations (fun l => l ++ [op])) ;;
  mret op.

Definition Operations_GetByID (id : uuid) : SE Store Operation :=
  r ← asks (fun s => find_id o_ID (st_operations s) id); row_or_not_found r.

Definition set_op_status (status : OperationStatus) (code msg : option bytes) (now : Z) (o : Operation) : Operation :=
  mkOperation (o_ID o) (o_TenantID o) (o_PeerID o) (o_NodeID o) (o_Kind o) status (o_RequestHash o)
    (default (o_ErrorCode o) code) (default (o_ErrorMessage o) msg) (o_StartedAt o) (Some now).

Definition Operations_MarkApplied (id : uuid) (now : Z) : SE Store unit :=
  modify (set_operations (update_id o_ID id (set_op_status OpApplied None None now))).

Definition Operations_MarkFailed (id : uuid) (code msg : bytes) (retryable : bool) (now : Z) : SE Store unit :=
  let status := if retryable then OpRetrying else OpFailed in
  modify (set_operations (update_id o_ID id (set_op_status status (Some code) (Some msg) now))).

(** ** Outbox *)

Definition ob_ID (r : OutboxRow) : uuid := j_ID (ob_Job r).

Definition Outbox_Insert (newID : uuid) (now : Z) (j : Job) : SE Store uuid :=
  let row := mkOutbox (mkJob newID (j_OperationID j) (j_NodeID j) (j_AggregateType j) (j_AggregateID j)
                         (j_Kind j) (j_Payload j) 0) JobPending None None now now in
  taken ← asks (fun s => has_id ob_ID (st_outbox s) newID);
  check (negb taken) (unique_violation #"outbox") ;;
  refs ← asks (fun s => has_id n_ID (st_nodes s) (j_NodeID j) && opt_ref_ok o_ID (st_operations s) (j_OperationID j));
  check refs (fk_violation #"outbox") ;;
  modify (set_outbox (fun l => l ++ [row])) ;;
  mret newID.

(** The WHERE clause of the claim. *)
Definition claimable (now : Z) (r : OutboxRow) : bool :=
  match ob_Status r with
  | JobPending | JobFailedRetryable => true
  | JobLeased => match ob_LeasedUntil r with Some t => t <? now | None => false end
  | JobApplied | JobFailedTerminal => false
  end.

Definition lease_row (now leaseFor : Z) (r : OutboxRow) : OutboxRow :=
  let j := ob_Job r in
  mkOutbox (mkJob (j_ID j) (j_OperationID j) (j_NodeID j) (j_AggregateType j) (j_AggregateID j)
              (j_Kind j) (j_Payload j) (j_Attempts j + 1))
    JobLeased (Some (now + leaseFor)) (ob_LastError r) (ob_CreatedAt r) now.

(** The row [ClaimNext] picks: the oldest claimable one. *)
Definition next_job (now : Z) (s : Store) : option OutboxRow :=
  first_by (fun a b => ob_CreatedAt a <? ob_CreatedAt b) (filter (fun r => claimable now r = true) (st_outbox s)).

Definition ClaimNext (now leaseFor : Z) : SE Store (option Job) :=
  r ← asks (next_job now);
  match r with
  | None => mret None
  | Some r =>
      modify (set_outbox (update_id ob_ID (ob_ID r) (lease_row now leaseFor))) ;;
      mret (Some (ob_Job (lease_row now leaseFor r)))
  end.

Definition set_job_status (status : JobStatus) (msg : option bytes) (now : Z) (r : OutboxRow) : OutboxRow :=
  mkOutbox (ob_Job r) status (ob_LeasedUntil r) msg (ob_CreatedAt r) now.

Definition Outbox_Complete (id : uuid) (now : Z) : SE Store unit :=
  modify (set_outbox (update_id ob_ID id (set_job_status JobApplied None now))).

Definition Outbox_Fail (id : uuid) (msg : bytes) (retryable : bool) (now : Z) : SE Store unit :=
  let status := if retryable then JobFailedRetryable else JobFailedTerminal in
  modify (set_outbox (update_id ob_ID id (set_job_status status (Some msg) now))).

(** ** Idempotency and audit *)

Definition Idem_Lookup (now : Z) (tenantID : uuid) (key : bytes) : SE Store Record' :=
  r ← asks (fun s => st_idem s !! (tenantID, key));
  match r with
  | Some rec => if now <? ir_ExpiresAt rec then mret rec else fail (ESentinel ErrNotFound)
  | None => fail (ESentinel ErrNotFound)
  end.

Definition Idem_Store (now : Z) (tenantID : uuid) (key requestHash : bytes) (opID : option uuid)
    (status : Z) (body : ResponseBody) (ttl : Z) : SE Store unit :=
  taken ← asks (fun s => bool_decide (is_Some (st_idem s !! (tenantID, key))));
  check (negb taken) (unique_violation #"idempotency_keys") ;;
  refs ← asks (fun s => has_id t_ID (st_tenants s) tenantID && opt_ref_ok o_ID (st_operations s) opID);
  check refs (fk_violation #"idempotency_keys") ;;
  modify (set_idem (<[(tenantID, key) := mkRecord opID requestHash status body (now + ttl)]>)).

(** [json.Marshal] of a peer: the preshared key has the tag [json:"-"]. *)
Definition json_peer (p : Peer) : Peer :=
  mkPeer (p_ID p) (p_TenantID p) (p_NodeID p) (p_ProfileID p) (p_ExternalID p) (p_DisplayName p)
    (p_PublicKey p) None (p_AllowedIP p) (p_State p) (p_DesiredRevision p) (p_AppliedRevision p)
    (p_CreatedAt p) (p_UpdatedAt p) (p_ExpiresAt p) (p_RevokedAt p).

Definition audit_row (a : AuditRow) : AuditRow :=
  mkAudit (au_TenantID a) (au_SubjectID a) (au_Action a) (au_TargetType a) (au_TargetID a)
    (json_peer <$> au_After a) (au_RequestID a) (au_IdempotencyKey a) (au_CreatedAt a).

Definition Audit_Append (row : AuditRow) : SE Store unit :=
  refs ← asks (fun s => opt_ref_ok t_ID (st_tenants s) (au_TenantID row));
  check refs (fk_violation #"audit_events") ;;
  modify (set_audit (fun l => l ++ [audit_row row])).

(** ** Session lemmas *)

Lemma check_bind {S B} ok e (f : unit -> SE S B) s :
  (check ok e ≫= f) s = if ok then f tt s else (Err e, s).
Proof. by destruct ok. Qed.

Lemma InTx_rollback {V} (fn : SE (V * Store) unit) v s e vs :
  InTx fn (v, s) = (Err e, vs) -> snd vs = s.
Proof. unfold InTx. destruct (fn (v, s)) as [[?|?] [v' s']]; [done|]. by intros [= <- <-]. Qed.

Lemma on_store_inv {V A} (m : SE Store A) v s r v' s' :
  on_store (V := V) m (v, s) = (r, (v', s')) -> v' = v /\ m s = (r, s').
Proof. unfold on_store. destruct (m s) as [r0 s0]. intros [= <- <- <-]. done. Qed.

(** Run the statements of a session in order, splitting at the checks. *)
Ltac run_session :=
  repeat first
    [ rewrite asks_bind | rewrite modify_bind | rewrite check_bind ].

(** *** Rows found by id *)

Lemma find_id_Some {A} (id : A -> uuid) l x r : find_id id l x = Some r -> r ∈ l /\ id r = x.
Proof.
  unfold find_id. intros H. apply find_some in H as [Hin He].
  apply N.eqb_eq in He. split; [by apply list_elem_of_In|done].
Qed.

Lemma has_id_spec {A} (id : A -> uuid) l x : has_id id l x = true <-> exists r, r ∈ l /\ id r = x.
Proof.
  unfold has_id. rewrite existsb_exists. split.
  - intros (r & Hin & He). exists r. apply N.eqb_eq in He. split; [by apply list_elem_of_In|done].
  - intros (r & Hin & <-). exists r. split; [by apply list_elem_of_In|apply N.eqb_refl].
Qed.

Lemma first_by_elem {A} (lt : A -> A -> bool) l x : first_by lt l = Some x -> x ∈ l.
Proof.
  revert x. induction l as [|y l IH]; intros x; simpl; [done|].
  destruct (first_by lt l) as [z|]; [|intros [= ->]; constructor].
  destruct (lt z y); intros [= <-]; [constructor; by apply IH|constructor].
Qed.

Lemma first_by_None {A} (lt : A -> A -> bool) l : first_by lt l = None -> l = [].
Proof. destruct l as [|y l]; [done|]. simpl. destruct (first_by lt l) as [z|]; [by destruct (lt z y)|done]. Qed.

(** Nothing in the list comes before the row [first_by] returns, for a key of
    integers. *)
Lemma first_by_min {A} (key : A -> Z) l x :
  first_by (fun a b => key a <? key b) l = Some x -> Forall (fun y => key x <= key y) l.
Proof.
  revert x. induction l as [|y l IH]; intros x; simpl; [done|].
  destruct (first_by _ l) as [z|] eqn:E.
  - destruct (key z <? key y) eqn:Ez; bool_to_prop; intros [= <-]; constructor.
    + lia.
    + by apply IH.
    + lia.
    + eapply Forall_impl; [by apply IH|]. simpl. intros. lia.
  - intros [= <-]. apply first_by_None in E as ->. repeat constructor. lia.
Qed.
