(* ===== verification/StoreFacts.v ===== *)
(** * StoreFacts: what the repositories guarantee

    The store invariant (unique keys, ordered revisions, printable addresses),
    its preservation by every repository statement, the behaviour of the
    address allocation transaction, of the job queue, and the round trip of
    protocol profiles through their table. *)

From S2P Require Import Prelude GoStrings Strconv Errors Effects Profile Netip Ipam AwgConfig Render Store.

(** ** Profiles *)

(** Values a Go [uint16] pair can hold. *)
Definition u16_typed (r : Uint16Range) : Prop :=
  0 <= u16_Min r < 2 ^ 16 /\ 0 <= u16_Max r < 2 ^ 16.

Definition typed_profile (p : ProtocolProfile) : Prop :=
  Forall u16_typed [pp_ContentPaddingAddition p; pp_RekeyAfterTime p; pp_RekeyTimeout p;
                    pp_RejectAfterTime p; pp_KeepaliveTimeout p; pp_MaxHandshakeAttempts p;
                    pp_PersistentKeepalive p].

(** The profile with the id and timestamp the database gave it. *)
Definition with_row_id (newID : uuid) (now : Z) (p : ProtocolProfile) : ProtocolProfile :=
  mkProfile newID (pp_Name p) (pp_ProtocolVersion p) (pp_Jc p) (pp_Jmin p) (pp_Jmax p)
    (pp_S1 p) (pp_S2 p) (pp_S3 p) (pp_S4 p) (pp_H1 p) (pp_H2 p) (pp_H3 p) (pp_H4 p)
    (pp_I1 p) (pp_I2 p) (pp_I3 p) (pp_I4 p) (pp_I5 p) (pp_HeaderProtectionKey p)
    (pp_ContentPaddingAddition p) (pp_RekeyAfterTime p) (pp_RekeyTimeout p) (pp_RejectAfterTime p)
    (pp_KeepaliveTimeout p) (pp_MaxHandshakeAttempts p) (pp_PersistentKeepalive p)
    (pp_RandomTrailers p) (pp_DisableCookies p) (pp_ListenPortPolicy p) now.

Lemma deref_nullable s : deref (nullable s) = s.
Proof. unfold nullable. by case_bool_decide. Qed.

Lemma deref_nullableWhen en s : (en = false -> s = []) -> deref (nullableWhen en s) = s.
Proof. unfold nullableWhen. destruct en; intros H; simpl; [apply deref_nullable|by rewrite H]. Qed.

Lemma derefBool_boolWhen en v : (en = false -> v = false) -> derefBool (boolWhen en v) = v.
Proof. unfold boolWhen. destruct en; intros H; simpl; [done|by rewrite H]. Qed.

Lemma range_roundtrip en r :
  u16_typed r -> (en = false -> Uint16Range_IsZero r = true) -> rangeFromDB (rangeDB en r) = r.
Proof.
  intros [H1 H2] Hz. unfold rangeDB. destruct (negb en || Uint16Range_IsZero r) eqn:E.
  - assert (Uint16Range_IsZero r = true) as Hzero by (destruct en; [done|by apply Hz]).
    unfold Uint16Range_IsZero in Hzero. bool_to_prop. destruct r; simpl in *. by subst.
  - simpl. rewrite !Z.mod_small by lia. by destruct r.
Qed.

Lemma intrange_eta r : mkIntRange (ir_Min r) (ir_Max r) = r.
Proof. by destruct r. Qed.

Lemma scan_profile_row newID now p :
  Validate p = [] -> typed_profile p -> scanProfile (profile_row newID now p) = with_row_id newID now p.
Proof.
  intros Hv Ht. unfold typed_profile in Ht. rewrite !Forall_cons in Ht. destruct_and! Ht.
  assert (Hl : IsV31 p = false -> hasV31OnlyValues p = false) by (by apply Validate_legacy).
  unfold hasV31OnlyValues in Hl.
  unfold scanProfile, profile_row, with_row_id. cbn [pw_id pw_name pw_protocol_version pw_jc pw_jmin pw_jmax
    pw_s1 pw_s2 pw_s3 pw_s4 pw_h1 pw_h2 pw_h3 pw_h4 pw_i1 pw_i2 pw_i3 pw_i4 pw_i5 pw_listen_port_policy
    pw_header_protection_key pw_content_padding_addition pw_rekey_after_time pw_rekey_timeout
    pw_reject_after_time pw_keepalive_timeout pw_max_handshake_attempts pw_persistent_keepalive
    pw_random_trailers pw_disable_cookies pw_created_at fst snd].
  rewrite !deref_nullable, !intrange_eta.
  rewrite deref_nullableWhen, !range_roundtrip, !derefBool_boolWhen; try done;
    intros E; specialize (Hl E); rewrite !orb_false_iff, !negb_false_iff in Hl; destruct_and! Hl; try done.
  by match goal with Hb : bool_decide _ = true |- _ => apply bool_decide_eq_true in Hb end.
Qed.

Lemma find_snoc {A} (f : A -> bool) l x : existsb f l = false -> f x = true -> find f (l ++ [x]) = Some x.
Proof.
  induction l as [|y l IH]; simpl; intros H Hx; [by rewrite Hx|].
  apply orb_false_iff in H as [Hy Hl]. rewrite Hy. by apply IH.
Qed.

(** (Profiles survive storage.) An invalid profile is refused with its field
    errors and nothing is written; a valid one whose name is free is stored, and
    reading it back by id or by name gives exactly the profile that was
    validated, under the id and time the database chose, including the nullable
    V2 and V3.1 columns; a taken name is a unique violation. *)
Theorem insertProfile_roundtrip newID now p s :
  typed_profile p ->
  match Validate p with
  | [] =>
      if existsb (fun r => bool_decide (pw_name r = pp_Name p)) (st_profiles s) || has_id pw_id (st_profiles s) newID
      then insertProfile newID now p s = (Err (unique_violation #"protocol_profiles"), s)
      else exists s', insertProfile newID now p s = (Ok (with_row_id newID now p), s')
           /\ Profiles_GetByID newID s' = (Ok (with_row_id newID now p), s')
           /\ Profiles_GetByName (pp_Name p) s' = (Ok (with_row_id newID now p), s')
  | errs => insertProfile newID now p s = (Err (EValidation errs), s)
  end.
Proof.
  intros Ht. unfold insertProfile. destruct (Validate p) as [|err errs] eqn:Hv; [|done].
  run_session. destruct (_ || _) eqn:E; simpl; [done|]. bool_to_prop.
  pose proof (scan_profile_row newID now p Hv Ht) as Hscan. rewrite Hscan.
  eexists. split; [reflexivity|]. unfold Profiles_GetByID, Profiles_GetByName. run_session.
  cbn [st_profiles set_profiles]. unfold find_id.
  rewrite (find_snoc (fun r => (pw_id r =? newID)%N)) by (done || apply N.eqb_refl).
  rewrite (find_snoc (fun r => bool_decide (pw_name r = pp_Name p))) by (done || by apply bool_decide_eq_true_2).
  cbn -[profile_row scanProfile]. unfold fmap, SE_fmap. cbn -[profile_row scanProfile]. by rewrite Hscan.
Qed.

Lemma insertProfile_roundtrip_witness :
  exists s', insertProfile 7 100 demo_profile empty_store = (Ok (with_row_id 7 100 demo_profile), s').
Proof.
  pose proof (insertProfile_roundtrip 7 100 demo_profile empty_store) as H.
  assert (Ht : typed_profile demo_profile).
  { unfold typed_profile, u16_typed. apply (bool_decide_unpack _). vm_compute. exact I. }
  specialize (H Ht). assert (E : Validate demo_profile = []) by (vm_compute; reflexivity).
  rewrite E in H. destruct H as (s' & H & _). exists s'. exact H.
Defined.

(** ** The store invariant *)

(** The columns the UNIQUE constraints of [peers] range over. *)
Definition peer_key (p : Peer) : uuid * uuid * bytes * uuid * Prefix * bytes :=
  (p_ID p, p_TenantID p, p_ExternalID p, p_NodeID p, p_AllowedIP p, p_PublicKey p).

Definition apart (p q : Peer) : Prop := peer_conflicts p q = false.

Definition peers_distinct (l : list Peer) : Prop := ForallOrdPairs apart l.

(** Row-level well-formedness. *)
Definition peer_ok (p : Peer) : Prop :=
  0 <= p_AppliedRevision p <= p_DesiredRevision p
  /\ prefix_ok (p_AllowedIP p) /\ p_AllowedIP p = host_prefix (pf_addr (p_AllowedIP p))
  /\ (p_State p = PeerRevoked <-> is_Some (p_RevokedAt p)).

Record store_ok (s : Store) : Prop := {
  so_distinct : peers_distinct (st_peers s);
  so_peers : Forall peer_ok (st_peers s);
  so_refs : Forall (fun p => peer_refs_ok s p = true) (st_peers s);
  so_pools : Forall (fun a => prefix_ok (ap_CIDR a)) (st_pools s);
  so_ops : NoDup (o_ID <$> st_operations s);
  so_jobs : NoDup (ob_ID <$> st_outbox s);
  so_job_ops : Forall (fun r => opt_ref_ok o_ID (st_operations s) (j_OperationID (ob_Job r)) = true) (st_outbox s);
  so_pool_ids : NoDup (ap_ID <$> st_pools s) }.

Lemma FOP_snoc {A} (R : A -> A -> Prop) l x :
  ForallOrdPairs R l -> Forall (fun y => R y x) l -> ForallOrdPairs R (l ++ [x]).
Proof.
  induction 1 as [|y l Hy Hl IH]; intros Hx; simpl.
  - constructor; constructor.
  - inversion_clear Hx. constructor; [|by apply IH]. apply Forall_app. split; [done|by repeat constructor].
Qed.

Lemma FOP_fmap {A} (R : A -> A -> Prop) (f : A -> A) l :
  (forall x y, R x y -> R (f x) (f y)) -> ForallOrdPairs R l -> ForallOrdPairs R (f <$> l).
Proof.
  intros Hf. induction 1 as [|y l Hy Hl IH]; simpl; constructor; [|done].
  apply Forall_fmap. eapply Forall_impl; [exact Hy|]. intros. by apply Hf.
Qed.

Lemma peer_conflicts_key p q p' q' :
  peer_key p = peer_key p' -> peer_key q = peer_key q' -> peer_conflicts p q = peer_conflicts p' q'.
Proof.
  unfold peer_key. intros H1 H2. injection H1 as A1 A2 A3 A4 A5 A6. injection H2 as B1 B2 B3 B4 B5 B6.
  unfold peer_conflicts. by rewrite A1, A2, A3, A4, A5, A6, B1, B2, B3, B4, B5, B6.
Qed.

Lemma peer_conflicts_sym p q : peer_conflicts p q = peer_conflicts q p.
Proof.
  unfold peer_conflicts. rewrite (N.eqb_sym (p_ID p)), (N.eqb_sym (p_TenantID p)), (N.eqb_sym (p_NodeID p)).
  by rewrite (bool_decide_ext (p_ExternalID p = p_ExternalID q) (p_ExternalID q = p_ExternalID p)),
    (bool_decide_ext (p_AllowedIP p = p_AllowedIP q) (p_AllowedIP q = p_AllowedIP p)),
    (bool_decide_ext (p_PublicKey p = p_PublicKey q) (p_PublicKey q = p_PublicKey p)) by done.
Qed.

(** In a well-formed store, rows that agree on a unique key are the same row. *)
Lemma distinct_eq l p q :
  peers_distinct l -> p ∈ l -> q ∈ l -> peer_conflicts p q = true -> p = q.
Proof.
  intros Hd Hp Hq Hc. apply list_elem_of_In in Hp, Hq.
  destruct (ForallOrdPairs_In Hd p q Hp Hq) as [?|[H|H]]; [done|..]; unfold apart in H.
  - congruence.
  - rewrite peer_conflicts_sym in H. congruence.
Qed.

(** An update of one row that keeps its keys keeps the rows apart. *)
Lemma distinct_update id f l :
  (forall p, peer_key (f p) = peer_key p) -> peers_distinct l -> peers_distinct (update_id p_ID id f l).
Proof.
  intros Hf. apply FOP_fmap. intros x y. unfold apart. intros Hxy.
  rewrite (peer_conflicts_key _ _ x y); [done|..]; by case_match.
Qed.

Lemma Forall_update {A} (P : A -> Prop) (id : A -> uuid) x f l :
  (forall r, P r -> P (f r)) -> Forall P l -> Forall P (update_id id x f l).
Proof.
  intros Hf Hl. apply Forall_fmap. eapply Forall_impl; [exact Hl|]. intros r Hr. simpl. case_match; auto.
Qed.

Lemma fmap_update_id {A B} (g : A -> B) (id : A -> uuid) x f l :
  (forall r, g (f r) = g r) -> g <$> update_id id x f l = g <$> l.
Proof.
  intros Hg. unfold update_id. rewrite <- list_fmap_compose. apply list_fmap_ext.
  intros i r _. simpl. by case_match.
Qed.

Lemma has_id_fmap {A} (id : A -> uuid) l l' x : id <$> l = id <$> l' -> has_id id l x = has_id id l' x.
Proof.
  unfold has_id. revert l'. induction l as [|r l IH]; intros [|r' l'] H; simpl in *; try done.
  injection H as -> H. by rewrite (IH l').
Qed.

Lemma has_id_app {A} (id : A -> uuid) l l' x : has_id id l x = true -> has_id id (l ++ l') x = true.
Proof. unfold has_id. rewrite existsb_app. by intros ->. Qed.

Lemma has_id_fresh {A} (id : A -> uuid) l x :
  has_id id l x = false -> NoDup (id <$> l) -> forall r, id r = x -> NoDup (id <$> (l ++ [r])).
Proof.
  intros Hn Hd r Hr. rewrite fmap_app. apply NoDup_app. split_and!; [done| |apply NoDup_singleton].
  intros y Hy Hc. apply list_elem_of_singleton in Hc. subst y. simpl in *.
  apply list_elem_of_fmap in Hy as (r' & He & Hin).
  assert (has_id id l x = true) by (apply has_id_spec; exists r'; split; congruence). congruence.
Qed.

(** References stay valid when the referenced tables only grow. *)
Lemma refs_mono s s' l :
  (forall x, has_id t_ID (st_tenants s) x = true -> has_id t_ID (st_tenants s') x = true) ->
  (forall x, has_id n_ID (st_nodes s) x = true -> has_id n_ID (st_nodes s') x = true) ->
  (forall x, has_id pw_id (st_profiles s) x = true -> has_id pw_id (st_profiles s') x = true) ->
  Forall (fun p => peer_refs_ok s p = true) l -> Forall (fun p => peer_refs_ok s' p = true) l.
Proof.
  intros H1 H2 H3 Hl. eapply Forall_impl; [exact Hl|]. intros p. unfold peer_refs_ok.
  rewrite !andb_true_iff. intros [[? ?] ?]. auto.
Qed.

(** ** Preservation *)

(** A session that keeps the invariant, whether it succeeds or fails. *)
Definition preserves {A} (m : SE Store A) : Prop :=
  forall s, store_ok s -> store_ok (snd (m s)).

Lemma preserves_ret {A} (a : A) : preserves (mret a).
Proof. by intros s Hs. Qed.
Lemma preserves_fail {A} e : preserves (@fail Store A e).
Proof. by intros s Hs. Qed.
Lemma preserves_asks {A} (f : Store -> A) : preserves (asks f).
Proof. by intros s Hs. Qed.
Lemma preserves_of_result {A} (r : result error A) : preserves (of_result r).
Proof. by intros s Hs. Qed.
Lemma preserves_check ok e : preserves (@check Store ok e).
Proof. intros s Hs. by destruct ok. Qed.
Lemma preserves_row {A} (r : option A) : preserves (@row_or_not_found Store A r).
Proof. intros s Hs. by destruct r. Qed.
Lemma preserves_bind {A B} (m : SE Store A) (f : A -> SE Store B) :
  preserves m -> (forall a, preserves (f a)) -> preserves (m ≫= f).
Proof.
  intros Hm Hf s Hs. specialize (Hm s Hs). unfold mbind, SE_bind.
  destruct (m s) as [[a|e] s']; [by apply Hf|done].
Qed.
Lemma preserves_fmap {A B} (g : A -> B) (m : SE Store A) : preserves m -> preserves (g <$> m).
Proof. intros Hm s Hs. specialize (Hm s Hs). unfold fmap, SE_fmap. by destruct (m s) as [[a|e] s']. Qed.
Lemma preserves_modify f : (forall s, store_ok s -> store_ok (f s)) -> preserves (modify f).
Proof. intros Hf s Hs. by apply Hf. Qed.

#[export] Hint Resolve preserves_ret preserves_fail preserves_asks preserves_of_result preserves_check
  preserves_row preserves_fmap : awg.

(** *** Address allocation *)

Lemma host_prefix_ok a :
  addr_ok a -> Addr_IsValid a = true -> addr_zone a = [] ->
  prefix_ok (host_prefix a) /\ pf_addr (host_prefix a) = a.
Proof.
  intros Ha Hv Hz. unfold host_prefix, PrefixFrom. destruct a as [|z|z zn]; [done|..]; simpl in *; subst.
  - split; [|done]. unfold prefix_ok. simpl. split_and!; try done; lia.
  - split; [|done]. unfold prefix_ok. simpl. split_and!; try done; lia.
Qed.

Lemma pool_of_elem s n t a :
  pool_of s n t = Some a -> a ∈ st_pools s /\ ap_NodeID a = n /\ ap_TenantID a = t.
Proof. unfold pool_of. intros H. apply first_by_elem in H. apply list_elem_of_filter in H. tauto. Qed.

(** Every outcome of the allocation statement sequence. *)
Lemma AllocateAndInsert_cases uuid_String newID now p s :
  match pool_of s (ip_NodeID p) (ip_TenantID p) with
  | None => exists e, AllocateAndInsert uuid_String newID now p s = (Err e, s)
  | Some row =>
      match Allocate (ap_CIDR row) (default AInvalid (ap_Cursor row))
              (Some (reserved_for s (ap_CIDR row) (ip_NodeID p))) with
      | None => AllocateAndInsert uuid_String newID now p s = (Err diverges, s)
      | Some (Err e) =>
          AllocateAndInsert uuid_String newID now p s
          = (Err (if errors_Is e ErrPoolExhausted then ESentinel ErrIPPoolExhausted else e), s)
      | Some (Ok al) =>
          let peer := new_peer newID now p (Address al) in
          let s1 := set_pools (update_id ap_ID (ap_ID row) (set_cursor (NextCursor al))) s in
          AllocateAndInsert uuid_String newID now p s =
          if existsb (fun q => peer_conflicts q peer) (st_peers s) then (Err (ESentinel ErrPeerExists), s1)
          else if peer_refs_ok s peer then (Ok (scanPeer peer), set_peers (fun l => l ++ [peer]) s1)
          else (Err (fk_violation #"peers"), s1)
      end
  end.
Proof.
  unfold AllocateAndInsert. rewrite asks_bind.
  destruct (pool_of s (ip_NodeID p) (ip_TenantID p)) as [row|]; [|by eexists].
  rewrite asks_bind. destruct (Allocate _ _ _) as [[al|e]|]; [|by destruct (errors_Is e _)|done].
  cbv zeta. rewrite modify_bind, asks_bind, check_bind. cbn [st_peers set_pools].
  destruct (existsb _ _); [done|]. cbn [negb]. rewrite asks_bind, check_bind.
  change (peer_refs_ok (set_pools _ s)) with (peer_refs_ok s). by destruct (peer_refs_ok _ _).
Qed.

Lemma set_cursor_ok s id c : store_ok s -> store_ok (set_pools (update_id ap_ID id (set_cursor c)) s).
Proof.
  intros [H1 H2 H3 H4 H5 H6 H7 H8]. constructor; try done; cbn [st_pools set_pools].
  - by apply Forall_update.
  - by rewrite fmap_update_id.
Qed.

Lemma add_peer_ok s p :
  store_ok s -> peer_ok p -> peer_refs_ok s p = true -> existsb (fun q => peer_conflicts q p) (st_peers s) = false ->
  store_ok (set_peers (fun l => l ++ [p]) s).
Proof.
  intros [H1 H2 H3 H4 H5 H6 H7 H8] Hp Hr Hc. constructor; try done; cbn [st_peers set_peers].
  - apply FOP_snoc; [done|]. apply Forall_forall. intros q Hq. unfold apart.
    destruct (peer_conflicts q p) eqn:E; [|done]. exfalso.
    rewrite (proj2 (existsb_exists _ _)) in Hc; [done|]. exists q. split; [by apply list_elem_of_In|done].
  - apply Forall_app. split; [done|]. constructor; [done|constructor].
  - change (peer_refs_ok (set_peers _ s)) with (peer_refs_ok s). apply Forall_app. split; [done|].
    constructor; [done|constructor].
Qed.

Lemma new_peer_ok newID now p a :
  addr_ok a -> Addr_IsValid a = true -> addr_zone a = [] -> peer_ok (new_peer newID now p a).
Proof.
  intros Ha Hv Hz. destruct (host_prefix_ok a Ha Hv Hz) as [Hp He].
  unfold peer_ok. simpl. rewrite He. split_and!; try done; by intros [? ?].
Qed.

Lemma preserves_AllocateAndInsert uuid_String newID now p : preserves (AllocateAndInsert uuid_String newID now p).
Proof.
  intros s Hs. pose proof (AllocateAndInsert_cases uuid_String newID now p s) as H.
  destruct (pool_of _ _ _) as [row|] eqn:Ep; [|by destruct H as [e ->]].
  apply pool_of_elem in Ep as (Hin & _ & _).
  assert (Hpool : prefix_ok (ap_CIDR row)) by (eapply (Forall_forall _ _) in Hin; [exact Hin|apply Hs]).
  destruct (Allocate _ _ _) as [[al|e]|] eqn:Ea; [|by rewrite H..].
  cbv zeta in H. rewrite H. clear H.
  apply Allocate_Ok in Ea as [Hu _]; [|done]. apply usable_valid in Hu as (Ha & Hv & Hz); [|done].
  destruct (existsb _ _) eqn:Ec; [by apply set_cursor_ok|].
  destruct (peer_refs_ok _ _) eqn:Er; [|by apply set_cursor_ok].
  apply add_peer_ok; [by apply set_cursor_ok|by apply new_peer_ok|done|done].
Qed.

(** (Address assignment.) When the create transaction's insert succeeds, the
    new peer gets an address that the tenant's pool of that node can hand out,
    that is not the node's gateway and that no other peer of the node has, live
    or revoked; the peer starts pending with desired revision 1 and applied
    revision 0, is appended to the table, and nothing changes but the pool's
    cursor. *)
Theorem AllocateAndInsert_assigns uuid_String newID now p s peer s' :
  store_ok s -> AllocateAndInsert uuid_String newID now p s = (Ok peer, s') ->
  exists row a c,
    pool_of s (ip_NodeID p) (ip_TenantID p) = Some row
    /\ usable (ap_CIDR row) a /\ gatewayAddress (ap_CIDR row) <> Some a
    /\ Forall (fun q => p_NodeID q = ip_NodeID p -> p_AllowedIP q <> host_prefix a) (st_peers s)
    /\ peer = new_peer newID now p a /\ p_AllowedIP peer = host_prefix a
    /\ p_State peer = PeerPending /\ p_DesiredRevision peer = 1 /\ p_AppliedRevision peer = 0
    /\ s' = set_peers (fun l => l ++ [peer]) (set_pools (update_id ap_ID (ap_ID row) (set_cursor c)) s).
Proof.
  intros Hs Hrun. pose proof (AllocateAndInsert_cases uuid_String newID now p s) as H. rewrite Hrun in H.
  destruct (pool_of _ _ _) as [row|] eqn:Ep; [|by destruct H as [e ?]]. pose proof Ep as Ep'.
  apply pool_of_elem in Ep' as (Hin & _ & _).
  assert (Hpool : prefix_ok (ap_CIDR row)) by (eapply (Forall_forall _ _) in Hin; [exact Hin|apply Hs]).
  destruct (Allocate _ _ _) as [[al|e]|] eqn:Ea; [|done..]. cbv zeta in H.
  destruct (existsb _ _) eqn:Ec in H; [done|]. destruct (peer_refs_ok _ _) in H; [|done].
  injection H as -> ->. apply Allocate_Ok in Ea as [Hu Hn]; [|done].
  pose proof (usable_valid _ _ Hpool Hu) as (Ha & Hv & Hz).
  destruct (host_prefix_ok _ Ha Hv Hz) as [_ He].
  exists row, (Address al), (NextCursor al).
  assert (Hscan : scanPeer (new_peer newID now p (Address al)) = new_peer newID now p (Address al)).
  { unfold scanPeer, new_peer. simpl. by rewrite He. }
  rewrite Hscan. split_and!; try done.
  - intros Hg. unfold not_reserved, reserved_for in Hn. rewrite Hg in Hn. simpl in Hn.
    rewrite bool_decide_eq_true_2 in Hn; [done|]. set_solver.
  - apply Forall_forall. intros q Hq Hnode Hip.
    assert (existsb (fun q => peer_conflicts q (new_peer newID now p (Address al))) (st_peers s) = true) as Hx.
    { apply existsb_exists. exists q. split; [by apply list_elem_of_In|]. unfold peer_conflicts. simpl.
      rewrite Hnode, N.eqb_refl, Hip, (bool_decide_eq_true_2 (host_prefix _ = _)) by done.
      rewrite orb_true_r. done. }
    rewrite Hx in Ec. done.
Qed.

(** *** The other statements *)

Lemma preserves_InsertProfile newID now p : preserves (insertProfile newID now p).
Proof.
  unfold insertProfile. destruct (Validate p); [|auto with awg].
  intros s [H1 H2 H3 H4 H5 H6 H7 H8]. run_session. destruct (negb _); [|done].
  constructor; try done. eapply refs_mono; [..|exact H3]; try done. intros x. apply has_id_app.
Qed.

Lemma preserves_Upsert newID now slug : preserves (Tenants_Upsert newID now slug).
Proof.
  intros s [H1 H2 H3 H4 H5 H6 H7 H8]. unfold Tenants_Upsert. run_session. destruct (find _ _); [done|].
  run_session. destruct (negb _); [|done].
  constructor; try done. eapply refs_mono; [..|exact H3]; try done. intros x. apply has_id_app.
Qed.

Lemma preserves_insertNode newID now n : preserves (insertNode newID now n).
Proof.
  intros s [H1 H2 H3 H4 H5 H6 H7 H8]. unfold insertNode. run_session. destruct (negb _); [|done].
  run_session. destruct (profile_ref_ok _ _); [|done].
  constructor; try done. eapply refs_mono; [..|exact H3]; try done. intros x. apply has_id_app.
Qed.

Lemma preserves_MarkSeen id now st : preserves (Nodes_MarkSeen id now st).
Proof.
  apply preserves_modify. intros s [H1 H2 H3 H4 H5 H6 H7 H8]. constructor; try done.
  eapply refs_mono; [..|exact H3]; try done. intros x. cbn [st_nodes set_nodes].
  erewrite has_id_fmap; [done|]. symmetry. by apply fmap_update_id.
Qed.

Lemma preserves_createPool newID t n cidr : prefix_ok cidr -> preserves (createPool newID t n cidr).
Proof.
  intros Hc s [H1 H2 H3 H4 H5 H6 H7 H8]. unfold createPool. run_session.
  destruct (negb _) eqn:E; [|done]. bool_to_prop.
  run_session. destruct (_ && _); [|done]. constructor; try done; cbn [snd st_pools set_pools].
  - apply Forall_app. split; [done|]. constructor; [done|constructor].
  - by eapply has_id_fresh.
Qed.

Lemma update_peers_ok s id f :
  (forall p, peer_key (f p) = peer_key p) -> (forall p, p_ProfileID (f p) = p_ProfileID p) ->
  (forall p, peer_ok p -> peer_ok (f p)) ->
  store_ok s -> store_ok (set_peers (update_id p_ID id f) s).
Proof.
  intros Hk Hpr Hf [H1 H2 H3 H4 H5 H6 H7 H8]. constructor; try done; cbn [st_peers set_peers].
  - by apply distinct_update.
  - by apply Forall_update.
  - change (peer_refs_ok (set_peers _ s)) with (peer_refs_ok s). apply Forall_update; [|done].
    intros p. unfold peer_refs_ok. pose proof (Hk p) as E. injection E as _ -> _ -> _ _. by rewrite Hpr.
Qed.

Lemma revoke_row_ok when now p : peer_ok p -> peer_ok (revoke_row when now p).
Proof. intros (Hr & Hp & Ha & _). unfold peer_ok. simpl. split_and!; try done; lia. Qed.

Lemma preserves_MarkRevoked id when now : preserves (MarkRevoked id when now).
Proof.
  intros s Hs. unfold MarkRevoked. run_session. destruct (find_id _ _ _); [|done]. run_session.
  apply update_peers_ok; try done. intros. by apply revoke_row_ok.
Qed.

Lemma apply_row_ok revision now p :
  revision <= p_DesiredRevision p -> peer_ok p -> peer_ok (apply_row revision now p).
Proof.
  intros Hle (Hr & Hp & Ha & Hst). unfold peer_ok. simpl. rewrite <- Hst.
  split; [lia|]. split; [done|]. split; [done|].
  case_bool_decide as E; [|done]. rewrite E. done.
Qed.

(** Marking a revision applied keeps the invariant when the revision is not
    ahead of the desired one, which is how the worker calls it. *)
Lemma MarkApplied_ok id revision now s :
  store_ok s -> Forall (fun p => p_ID p = id -> revision <= p_DesiredRevision p) (st_peers s) ->
  store_ok (snd (Peers_MarkApplied id revision now s)).
Proof.
  intros [H1 H2 H3 H4 H5 H6 H7 H8] Hrev. constructor; try done; cbn [snd st_peers set_peers Peers_MarkApplied modify].
  - by apply distinct_update.
  - apply Forall_fmap. apply Forall_forall. intros p Hp. simpl.
    eapply Forall_forall in H2; [|exact Hp]. eapply Forall_forall in Hrev; [|exact Hp].
    destruct (p_ID p =? id)%N eqn:E; [|done]. apply N.eqb_eq in E. apply apply_row_ok; auto.
  - change (peer_refs_ok (set_peers _ s)) with (peer_refs_ok s). by apply Forall_update.
Qed.

Lemma opt_ref_mono {A} (id : A -> uuid) l l' x :
  opt_ref_ok id l x = true -> (forall y, has_id id l y = true -> has_id id l' y = true) -> opt_ref_ok id l' x = true.
Proof. destruct x; simpl; auto. Qed.

Lemma preserves_OpInsert newID now t n p k h : preserves (Operations_Insert newID now t n p k h).
Proof.
  intros s [H1 H2 H3 H4 H5 H6 H7 H8]. unfold Operations_Insert. cbv zeta. run_session.
  destruct (has_id o_ID (st_operations s) newID) eqn:E; [done|]. cbn [negb]. run_session. destruct (_ && _ && _); [|done].
  constructor; try done; cbn [snd st_operations set_operations st_outbox mret SE_ret modify].
  - by eapply has_id_fresh.
  - eapply Forall_impl; [exact H7|]. simpl. intros r Hr. eapply opt_ref_mono; [exact Hr|]. intros y. apply has_id_app.
Qed.

Lemma preserves_set_op id f :
  (forall o, o_ID (f o) = o_ID o) -> preserves (modify (set_operations (update_id o_ID id f))).
Proof.
  intros Hf. apply preserves_modify. intros s [H1 H2 H3 H4 H5 H6 H7 H8].
  constructor; try done; cbn [st_operations set_operations st_outbox].
  - by rewrite fmap_update_id.
  - eapply Forall_impl; [exact H7|]. simpl. intros r Hr. eapply opt_ref_mono; [exact Hr|].
    intros y. erewrite has_id_fmap; [done|]. by rewrite fmap_update_id.
Qed.

Lemma preserves_OutboxInsert newID now j : preserves (Outbox_Insert newID now j).
Proof.
  intros s [H1 H2 H3 H4 H5 H6 H7 H8]. unfold Outbox_Insert. cbv zeta. run_session.
  destruct (has_id ob_ID (st_outbox s) newID) eqn:E; [done|]. cbn [negb]. run_session.
  destruct (_ && _) eqn:Er; [|done]. bool_to_prop.
  constructor; try done; cbn [snd st_operations set_outbox st_outbox mret SE_ret modify].
  - by eapply has_id_fresh.
  - apply Forall_app. split; [done|]. constructor; [done|constructor].
Qed.

Lemma preserves_set_job id f :
  (forall r, j_ID (ob_Job (f r)) = j_ID (ob_Job r)) ->
  (forall r, j_OperationID (ob_Job (f r)) = j_OperationID (ob_Job r)) ->
  preserves (modify (set_outbox (update_id ob_ID id f))).
Proof.
  intros Hf Ho. apply preserves_modify. intros s [H1 H2 H3 H4 H5 H6 H7 H8].
  constructor; try done; cbn [st_operations set_outbox st_outbox].
  - rewrite fmap_update_id; [done|]. apply Hf.
  - apply Forall_update; [|done]. intros r. by rewrite Ho.
Qed.

Lemma preserves_ClaimNext now lease : preserves (ClaimNext now lease).
Proof.
  unfold ClaimNext. apply preserves_bind; [auto with awg|]. intros [r|]; [|auto with awg].
  apply preserves_bind; [by apply preserves_set_job|auto with awg].
Qed.

Lemma preserves_IdemStore now t k h op st body ttl : preserves (Idem_Store now t k h op st body ttl).
Proof.
  unfold Idem_Store. repeat (apply preserves_bind; [auto with awg|intros ?]).
  apply preserves_modify. intros s [H1 H2 H3 H4 H5 H6 H7 H8]. by constructor.
Qed.

Lemma preserves_Audit row : preserves (Audit_Append row).
Proof.
  unfold Audit_Append. repeat (apply preserves_bind; [auto with awg|intros ?]).
  apply preserves_modify. intros s [H1 H2 H3 H4 H5 H6 H7 H8]. by constructor.
Qed.

Lemma preserves_IdemLookup now t k : preserves (Idem_Lookup now t k).
Proof.
  unfold Idem_Lookup. apply preserves_bind; [auto with awg|]. intros [r|]; [|auto with awg].
  destruct (now <? _); auto with awg.
Qed.

#[export] Hint Resolve preserves_AllocateAndInsert preserves_InsertProfile preserves_Upsert
  preserves_insertNode preserves_MarkSeen preserves_MarkRevoked preserves_OpInsert preserves_OutboxInsert
  preserves_ClaimNext preserves_IdemStore preserves_Audit preserves_IdemLookup preserves_bind : awg.

(** ** Reachable stores *)

(** One statement of a repository, against any store. *)
Inductive repo_step : Store -> Store -> Prop :=
| rs_profile newID now p s : repo_step s (snd (insertProfile newID now p s))
| rs_tenant newID now slug s : repo_step s (snd (Tenants_Upsert newID now slug s))
| rs_node newID now n s : repo_step s (snd (insertNode newID now n s))
| rs_seen id now st s : repo_step s (snd (Nodes_MarkSeen id now st s))
| rs_pool newID t n cidr s : prefix_ok cidr -> repo_step s (snd (createPool newID t n cidr s))
| rs_peer us newID now p s : repo_step s (snd (AllocateAndInsert us newID now p s))
| rs_revoke id when now s : repo_step s (snd (MarkRevoked id when now s))
| rs_applied id revision now s :
    Forall (fun p => p_ID p = id -> revision <= p_DesiredRevision p) (st_peers s) ->
    repo_step s (snd (Peers_MarkApplied id revision now s))
| rs_operation newID now t n p k h s : repo_step s (snd (Operations_Insert newID now t n p k h s))
| rs_op_applied id now s : repo_step s (snd (Operations_MarkApplied id now s))
| rs_op_failed id code msg retry now s : repo_step s (snd (Operations_MarkFailed id code msg retry now s))
| rs_job newID now j s : repo_step s (snd (Outbox_Insert newID now j s))
| rs_claim now lease s : repo_step s (snd (ClaimNext now lease s))
| rs_complete id now s : repo_step s (snd (Outbox_Complete id now s))
| rs_fail id msg retry now s : repo_step s (snd (Outbox_Fail id msg retry now s))
| rs_idem now t k h op st body ttl s : repo_step s (snd (Idem_Store now t k h op st body ttl s))
| rs_audit row s : repo_step s (snd (Audit_Append row s)).

Lemma empty_store_ok : store_ok empty_store.
Proof. by constructor; constructor. Qed.

Lemma repo_step_ok s s' : repo_step s s' -> store_ok s -> store_ok s'.
Proof.
  destruct 1; intros Hs.
  - by apply preserves_InsertProfile.
  - by apply preserves_Upsert.
  - by apply preserves_insertNode.
  - by apply preserves_MarkSeen.
  - by apply preserves_createPool.
  - by apply preserves_AllocateAndInsert.
  - by apply preserves_MarkRevoked.
  - by apply MarkApplied_ok.
  - by apply preserves_OpInsert.
  - by apply preserves_set_op.
  - by apply preserves_set_op.
  - by apply preserves_OutboxInsert.
  - by apply preserves_ClaimNext.
  - by apply preserves_set_job.
  - by apply preserves_set_job.
  - by apply preserves_IdemStore.
  - by apply preserves_Audit.
Qed.

(** (Database invariant.) In every store reachable from the empty one by
    any sequence of repository statements, with any ids, times and arguments, two
    different peers of a node never share an address or a public key, two peers
    of a tenant never share an external id, every peer's applied revision is
    between 0 and its desired revision, its address is a single valid host
    address, it is revoked exactly when it has a revocation time, and every peer
    and queued job refers to existing rows. *)
Theorem reachable_store_ok s :
  rtc repo_step empty_store s ->
  store_ok s
  /\ forall p q, p ∈ st_peers s -> q ∈ st_peers s ->
       (p_NodeID p = p_NodeID q /\ (p_AllowedIP p = p_AllowedIP q \/ p_PublicKey p = p_PublicKey q))
       \/ (p_TenantID p = p_TenantID q /\ p_ExternalID p = p_ExternalID q) -> p = q.
Proof.
  intros Hr. assert (Hs : store_ok s).
  { revert Hr. generalize empty_store_ok. generalize empty_store. induction 2 as [|a b c Hab Hbc IH]; [done|].
    apply IH. by eapply repo_step_ok. }
  split; [done|]. intros p q Hp Hq Hk. apply (distinct_eq (st_peers s)); [apply Hs|done|done|].
  unfold peer_conflicts. destruct Hk as [[-> [->| ->]]|[-> ->]]; rewrite N.eqb_refl.
  - by rewrite (bool_decide_eq_true_2 (p_AllowedIP q = _)), orb_true_r.
  - by rewrite (bool_decide_eq_true_2 (p_PublicKey q = _)), orb_true_r.
  - by rewrite (bool_decide_eq_true_2 (p_ExternalID q = _)), orb_true_r.
Qed.

(** A concrete store: one tenant, node and profile, a /30 pool, and the pool's
    only client address held by a revoked peer. *)
Definition demo_node : Node :=
  mkNode 0 (Some 7%N) #"eu" #"n1" [] #"vpn.example:51820" 51820 None #"awg0" #"srv=" 0.
Definition demo_params : InsertParams := mkInsertParams 1 2 7 #"alice" #"phone" #"pk1=" (Some #"psk=") None.
Definition demo_pool : Prefix := mkPrefix (A4 0x0a080000) 30.

Definition demo_base : Store :=
  let s := snd (insertProfile 7 0 demo_profile empty_store) in
  let s := snd (Tenants_Upsert 1 0 #"acme" s) in
  let s := snd (insertNode 2 0 demo_node s) in
  snd (createPool 3 1 2 demo_pool s).
Definition demo_live : Store := snd (AllocateAndInsert (fun _ => []) 10 5 demo_params demo_base).
Definition demo_revoked : Store := snd (MarkRevoked 10 6 6 demo_live).

Lemma demo_live_reachable : rtc repo_step empty_store demo_live.
Proof.
  eapply rtc_l; [apply (rs_profile 7 0 demo_profile)|].
  eapply rtc_l; [apply (rs_tenant 1 0 #"acme")|].
  eapply rtc_l; [apply (rs_node 2 0 demo_node)|].
  eapply rtc_l; [apply (rs_pool 3 1 2 demo_pool); apply (bool_decide_unpack _); vm_compute; exact I|].
  eapply rtc_l; [apply (rs_peer (fun _ => []) 10 5 demo_params)|]. apply rtc_refl.
Qed.

Lemma reachable_store_ok_witness : store_ok demo_live.
Proof. apply (reachable_store_ok demo_live). exact demo_live_reachable. Defined.

Lemma demo_base_ok : store_ok demo_base.
Proof.
  unfold demo_base. apply preserves_createPool; [apply (bool_decide_unpack _); vm_compute; exact I|].
  apply preserves_insertNode, preserves_Upsert, preserves_InsertProfile, empty_store_ok.
Qed.

Lemma AllocateAndInsert_assigns_witness :
  exists row a c, pool_of demo_base 2 1 = Some row /\ usable (ap_CIDR row) a
    /\ demo_live = set_peers (fun l => l ++ [new_peer 10 5 demo_params a])
                     (set_pools (update_id ap_ID (ap_ID row) (set_cursor c)) demo_base).
Proof.
  assert (E : AllocateAndInsert (fun _ => []) 10 5 demo_params demo_base
              = (Ok (new_peer 10 5 demo_params (A4 0x0a080002)), demo_live)) by (vm_compute; reflexivity).
  destruct (AllocateAndInsert_assigns (fun _ => []) 10 5 demo_params demo_base _ _ demo_base_ok E)
    as (row & a & c & H1 & H2 & _ & _ & H3 & _ & _ & _ & _ & H4).
  exists row, a, c. split; [exact H1|]. split; [exact H2|]. rewrite <- H3. exact H4.
Defined.

(** ** A revoked peer's address *)

(** C40: (Revoked addresses block allocation.) The allocator is offered the
    addresses of revoked peers, but the unique constraint still counts them: whenever its choice is held by some peer of the
    node, that peer is revoked, the insert fails as if the peer existed, and the
    rollback restores the cursor, so every later attempt fails alike. *)
Theorem revoked_address_blocks uuid_String newID now p s row al q :
  store_ok s ->
  pool_of s (ip_NodeID p) (ip_TenantID p) = Some row ->
  Allocate (ap_CIDR row) (default AInvalid (ap_Cursor row))
    (Some (reserved_for s (ap_CIDR row) (ip_NodeID p))) = Some (Ok al) ->
  q ∈ st_peers s -> p_NodeID q = ip_NodeID p -> p_AllowedIP q = host_prefix (Address al) ->
  p_State q = PeerRevoked
  /\ InTx (V := unit) (on_store (AllocateAndInsert uuid_String newID now p) ≫= fun _ => mret tt) (tt, s)
     = (Err (ESentinel ErrPeerExists), (tt, s)).
Proof.
  intros Hs Hrow Hal Hq Hn Hip. pose proof (pool_of_elem _ _ _ _ Hrow) as (Hin & _ & _).
  assert (Hpool : prefix_ok (ap_CIDR row)) by (eapply (Forall_forall _ _) in Hin; [exact Hin|apply Hs]).
  destruct (Allocate_Ok _ _ _ _ Hpool Hal) as [Hu Hnr].
  destruct (usable_valid _ _ Hpool Hu) as (Ha & Hv & Hz). split.
  - destruct (decide (p_State q = PeerRevoked)) as [|Hlive]; [done|]. exfalso.
    unfold not_reserved, reserved_for in Hnr. simpl in Hnr.
    rewrite bool_decide_eq_true_2 in Hnr; [done|]. apply elem_of_app. left.
    apply list_elem_of_fmap. exists q. split; [|by apply list_elem_of_filter].
    rewrite Hip. symmetry. by apply host_prefix_ok.
  - pose proof (AllocateAndInsert_cases uuid_String newID now p s) as H. rewrite Hrow, Hal in H. cbv zeta in H.
    rewrite (proj2 (existsb_exists _ _)) in H.
    + unfold InTx, mbind, SE_bind, on_store. by rewrite H.
    + exists q. split; [by apply list_elem_of_In|]. unfold peer_conflicts, new_peer. simpl.
      rewrite Hn, N.eqb_refl, Hip, (bool_decide_eq_true_2 (host_prefix _ = _)) by done. by rewrite orb_true_r.
Qed.

Lemma revoked_address_blocks_witness :
  InTx (V := unit) (on_store (AllocateAndInsert (fun _ => []) 11 9 demo_params) ≫= fun _ => mret tt) (tt, demo_revoked)
  = (Err (ESentinel ErrPeerExists), (tt, demo_revoked)).
Proof.
  apply (revoked_address_blocks (fun _ => []) 11 9 demo_params demo_revoked
           (mkPool 3 1 2 demo_pool (Some (A4 0x0a080001)) #"sequential")
           (mkAllocation (A4 0x0a080002) (A4 0x0a080001))
           (revoke_row 6 6 (new_peer 10 5 demo_params (A4 0x0a080002)))).
  - unfold demo_revoked, demo_live. apply preserves_MarkRevoked, preserves_AllocateAndInsert, demo_base_ok.
  - vm_compute. reflexivity.
  - vm_compute. reflexivity.
  - apply list_elem_of_In. vm_compute. left. reflexivity.
  - vm_compute. reflexivity.
  - vm_compute. reflexivity.
Defined.

(** With the pool's only client address revoked, no peer can be created on the
    node again, under any name or key. *)
Theorem revoked_pool_is_stuck newID now ext name pub :
  fst (AllocateAndInsert (fun _ => []) newID now (mkInsertParams 1 2 7 ext name pub None None) demo_revoked)
  = Err (ESentinel ErrPeerExists).
Proof.
  pose proof (AllocateAndInsert_cases (fun _ => []) newID now (mkInsertParams 1 2 7 ext name pub None None) demo_revoked) as H.
  set (p := mkInsertParams 1 2 7 ext name pub None None) in *.
  set (row := mkPool 3 1 2 demo_pool (Some (A4 0x0a080001)) #"sequential").
  assert (E1 : pool_of demo_revoked (ip_NodeID p) (ip_TenantID p) = Some row) by (vm_compute; reflexivity).
  assert (E2 : Allocate (ap_CIDR row) (default AInvalid (ap_Cursor row))
                 (Some (reserved_for demo_revoked (ap_CIDR row) (ip_NodeID p)))
               = Some (Ok (mkAllocation (A4 0x0a080002) (A4 0x0a080001)))) by (vm_compute; reflexivity).
  rewrite E1, E2 in H. cbv zeta in H. rewrite H. clear H.
  rewrite (proj2 (existsb_exists _ _)); [done|].
  exists (revoke_row 6 6 (new_peer 10 5 demo_params (A4 0x0a080002))). split; [vm_compute; by left|].
  unfold peer_conflicts. by rewrite (bool_decide_eq_true_2 (p_AllowedIP _ = _)), orb_true_r.
Qed.

(** ** The job queue *)

Lemma claimable_lease now lease r t : t <= now + lease -> claimable t (lease_row now lease r) = false.
Proof. intros Ht. unfold claimable. simpl. by apply Z.ltb_ge. Qed.

Lemma next_job_spec now s r :
  next_job now s = Some r ->
  r ∈ st_outbox s /\ claimable now r = true
  /\ forall r', r' ∈ st_outbox s -> claimable now r' = true -> ob_CreatedAt r <= ob_CreatedAt r'.
Proof.
  unfold next_job. intros H. pose proof (first_by_elem _ _ _ H) as Hin. apply list_elem_of_filter in Hin as [Hc Hin].
  split_and!; [done..|]. intros r' Hr' Hc'.
  pose proof (first_by_min ob_CreatedAt _ _ H) as Hmin. eapply Forall_forall in Hmin; [exact Hmin|].
  by apply list_elem_of_filter.
Qed.

Lemma next_job_None now s : next_job now s = None <-> Forall (fun r => claimable now r = false) (st_outbox s).
Proof.
  unfold next_job. split.
  - intros H. apply first_by_None in H. apply Forall_forall. intros r Hr.
    destruct (claimable now r) eqn:E; [|done].
    assert (r ∈ filter (fun r => claimable now r = true) (st_outbox s)) as Hc by (by apply list_elem_of_filter).
    rewrite H in Hc. by apply elem_of_nil in Hc.
  - intros H. assert (filter (fun r => claimable now r = true) (st_outbox s) = []) as ->; [|done].
    induction H as [|r l Hr Hl IH]; [done|]. rewrite filter_cons, Hr. by rewrite decide_False.
Qed.

Lemma update_id_elem {A} (id : A -> uuid) x f l r :
  r ∈ update_id id x f l -> exists r0, r0 ∈ l /\ (r = if (id r0 =? x)%N then f r0 else r0).
Proof. intros H. apply list_elem_of_fmap in H as (r0 & -> & Hin). by exists r0. Qed.

Lemma ClaimNext_run now lease s :
  ClaimNext now lease s =
  match next_job now s with
  | None => (Ok None, s)
  | Some r => (Ok (Some (ob_Job (lease_row now lease r))),
               set_outbox (update_id ob_ID (ob_ID r) (lease_row now lease)) s)
  end.
Proof. unfold ClaimNext. rewrite asks_bind. by destruct (next_job now s). Qed.

Lemma unique_id {A} (id : A -> uuid) l a b :
  NoDup (id <$> l) -> a ∈ l -> b ∈ l -> id a = id b -> a = b.
Proof.
  induction l as [|x l IH]; intros Hd Ha Hb He; [by apply elem_of_nil in Ha|].
  apply NoDup_cons in Hd as [Hx Hd]. apply elem_of_cons in Ha as [->|Ha], Hb as [->|Hb]; [done|..|by apply IH].
  - exfalso. apply Hx. rewrite He. by apply list_elem_of_fmap_2.
  - exfalso. apply Hx. rewrite <- He. by apply list_elem_of_fmap_2.
Qed.

(** The row of a job is as the claim left it, whatever else has changed. *)
Definition still_leased (now lease : Z) (r : OutboxRow) (s : Store) : Prop :=
  forall r', r' ∈ st_outbox s -> ob_ID r' = ob_ID r -> r' = lease_row now lease r.

(** C38: (Leases.) A claim returns a job exactly when some job is claimable, and changes
    nothing when none is; otherwise it returns the oldest claimable one, its attempt count
    goes up by one, and nothing but its row changes.  As long as that row stays as the claim
    left it - that is, until the job is completed or failed, whatever else happens to the
    store - no claim up to the end of the lease returns it again. *)
Theorem ClaimNext_spec now lease s :
  store_ok s ->
  match ClaimNext now lease s with
  | (Ok (Some j), s') =>
      exists r, r ∈ st_outbox s /\ claimable now r = true /\ j_ID j = ob_ID r
        /\ j_Attempts j = j_Attempts (ob_Job r) + 1
        /\ (forall r', r' ∈ st_outbox s -> claimable now r' = true -> ob_CreatedAt r <= ob_CreatedAt r')
        /\ s' = set_outbox (update_id ob_ID (ob_ID r) (lease_row now lease)) s
        /\ still_leased now lease r s'
        /\ (forall t l s2 j' s'', t <= now + lease -> still_leased now lease r s2 ->
             ClaimNext t l s2 = (Ok (Some j'), s'') -> j_ID j' <> j_ID j)
  | (Ok None, s') => s' = s /\ Forall (fun r => claimable now r = false) (st_outbox s)
  | (Err _, _) => False
  end.
Proof.
  intros Hs. rewrite ClaimNext_run. destruct (next_job now s) as [r|] eqn:E; [|by apply next_job_None in E].
  apply next_job_spec in E as (Hin & Hc & Hmin). exists r. split_and!; try done.
  - intros r' Hin' Hid. cbn [st_outbox set_outbox] in Hin'. apply update_id_elem in Hin' as (r0 & Hr0 & Heq).
    destruct (ob_ID r0 =? ob_ID r)%N eqn:En; subst r'; [|by apply N.eqb_neq in En].
    apply N.eqb_eq in En. by rewrite (unique_id ob_ID (st_outbox s) r0 r) by (apply Hs || done).
  - intros t l s2 j' s'' Ht Hst Hcl Hid. rewrite ClaimNext_run in Hcl. destruct (next_job t s2) as [r'|] eqn:E'; [|done].
    injection Hcl as <- _. apply next_job_spec in E' as (Hin' & Hc' & _). change (ob_ID r' = ob_ID r) in Hid.
    rewrite (Hst r' Hin' Hid) in Hc'. by rewrite claimable_lease in Hc'.
Qed.

Definition demo_job (id : uuid) (at_ : Z) : OutboxRow :=
  mkOutbox (mkJob id None 2 #"peer" 10 OpCreatePeer #"{}" 0) JobPending None None at_ at_.
Definition demo_queue : Store := set_outbox (fun _ => [demo_job 21 50; demo_job 22 40]) demo_live.

Lemma demo_queue_ok : store_ok demo_queue.
Proof.
  assert (Hs : store_ok demo_live) by (apply preserves_AllocateAndInsert, demo_base_ok).
  destruct Hs as [H1 H2 H3 H4 H5 H6 H7 H8]. constructor; try done.
  - apply (bool_decide_unpack _). vm_compute. exact I.
  - apply (bool_decide_unpack _). vm_compute. exact I.
Qed.

Lemma ClaimNext_spec_witness :
  exists j s', ClaimNext 100 30 demo_queue = (Ok (Some j), s') /\ j_ID j = 22%N
    /\ forall l j' s'', ClaimNext 130 l s' = (Ok (Some j'), s'') -> j_ID j' <> j_ID j.
Proof.
  pose proof (ClaimNext_spec 100 30 demo_queue demo_queue_ok) as H.
  destruct (ClaimNext 100 30 demo_queue) as [[[j|]|e] s'] eqn:E.
  - exists j, s'. split; [reflexivity|]. destruct H as (r & _ & _ & _ & _ & _ & _ & Hst & H).
    split; [vm_compute in E; injection E as <- _; reflexivity|]. intros l j' s''. apply H; [vm_compute; discriminate|exact Hst].
  - vm_compute in E. discriminate E.
  - destruct H.
Defined.

Lemma first_by_fmap {A} (lt : A -> A -> bool) g l :
  (forall a b, lt (g a) (g b) = lt a b) -> first_by lt (g <$> l) = g <$> first_by lt l.
Proof.
  intros Hg. induction l as [|x l IH]; [done|]. cbn [fmap list_fmap first_by]. rewrite IH.
  destruct (first_by lt l) as [y|]; [|done]. cbn [fmap option_fmap option_map]. rewrite Hg. by destruct (lt y x).
Qed.

Lemma filter_fmap_iff {A} (P : A -> Prop) `{!forall x, Decision (P x)} (g : A -> A) (l : list A) :
  (forall r, r ∈ l -> P (g r) <-> P r) -> filter P (g <$> l) = g <$> filter P l.
Proof.
  induction l as [|x l IH]; intros Hg; [done|]. rewrite fmap_cons, !filter_cons.
  rewrite IH by (intros; apply Hg; by constructor).
  pose proof (Hg x ltac:(constructor)). by repeat case_decide; try tauto.
Qed.

(** (Retry order.) A job that failed with a retryable error is claimable at
    once, without waiting for its lease, and as the oldest job it is the very
    next one claimed: as long as it keeps failing, the jobs behind it wait. *)
Theorem failed_job_is_next now lease s j s1 msg :
  store_ok s -> ClaimNext now lease s = (Ok (Some j), s1) ->
  let s2 := snd (Outbox_Fail (j_ID j) msg true now s1) in
  exists j' s3, ClaimNext now lease s2 = (Ok (Some j'), s3) /\ j_ID j' = j_ID j
                /\ j_Attempts j' = j_Attempts j + 1.
Proof.
  intros Hs. rewrite ClaimNext_run. destruct (next_job now s) as [r|] eqn:E; [|done]. intros [= <- <-] s2.
  set (g := fun x => if (ob_ID x =? ob_ID r)%N
                     then set_job_status JobFailedRetryable (Some msg) now (lease_row now lease x) else x).
  assert (Hout : st_outbox s2 = g <$> st_outbox s).
  { unfold s2. cbn [snd Outbox_Fail modify st_outbox set_outbox]. unfold update_id. rewrite <- list_fmap_compose.
    apply list_fmap_ext. intros i x _. unfold g. simpl. destruct (ob_ID x =? ob_ID r)%N eqn:Ex.
    - change (ob_ID (lease_row now lease x)) with (ob_ID x). change (j_ID (ob_Job r)) with (ob_ID r). by rewrite Ex.
    - change (j_ID (ob_Job r)) with (ob_ID r). by rewrite Ex. }
  pose proof (next_job_spec _ _ _ E) as (Hin & Hc & _).
  assert (Hnext : next_job now s2 = Some (g r)).
  { unfold next_job in *. rewrite Hout, filter_fmap_iff, first_by_fmap, E; [done|..].
    - intros a b. unfold g. by repeat case_match.
    - intros x Hx. unfold g. destruct (ob_ID x =? ob_ID r)%N eqn:Ex; [|done]. apply N.eqb_eq in Ex.
      rewrite (unique_id ob_ID (st_outbox s) x r); [|apply Hs|done..]. by rewrite Hc. }
  rewrite ClaimNext_run, Hnext. eexists _, _. split; [reflexivity|]. unfold g. by rewrite N.eqb_refl.
Qed.

Lemma failed_job_is_next_witness :
  exists j' s3, ClaimNext 100 30 (snd (Outbox_Fail 22 #"boom" true 100 (snd (ClaimNext 100 30 demo_queue))))
                = (Ok (Some j'), s3) /\ j_ID j' = 22%N.
Proof.
  assert (E : exists j, ClaimNext 100 30 demo_queue = (Ok (Some j), snd (ClaimNext 100 30 demo_queue)) /\ j_ID j = 22%N)
    by (eexists; split; vm_compute; reflexivity).
  destruct E as (j & E & Hj).
  destruct (failed_job_is_next 100 30 demo_queue j _ #"boom" demo_queue_ok E) as (j' & s3 & H & H' & _).
  rewrite Hj in H, H'. exists j', s3. split; [exact H|exact H'].
Defined.
