(* ===== verification/Crypto.v ===== *)
(** * Crypto: WireGuard keys ([internal/crypto])

    Keys are base64 texts of 32 bytes.  The random source and the X25519
    function are parameters. *)

From S2P Require Import Prelude GoStrings Strconv Base64 Errors.

Definition KeyLen : Z := 32.
Definition Base64KeyLen : Z := 44.

Record KeyPair : Type := mkKeyPair { kp_PrivateKey : bytes; kp_PublicKey : bytes }.

(** The decoder's error, without the byte offset Go adds to its text. *)
Definition illegal_base64 : error := EMsg #"illegal base64 data".

Definition DecodeKey (s : bytes) : result error (list Z) :=
  if negb (Z.of_nat (length s) =? Base64KeyLen)
  then Err (EMsg (#"invalid key length: got " ++ FormatInt (Z.of_nat (length s)) ++ #", want " ++ FormatInt Base64KeyLen))
  else match b64_DecodeString s with
       | None => Err (EWrap #"base64 decode: " illegal_base64 [])
       | Some raw => if negb (Z.of_nat (length raw) =? KeyLen) then Err (EMsg #"invalid key bytes") else Ok raw
       end.

Definition ValidateKey (s : bytes) : result error unit := _ ← DecodeKey s; Ok tt.

(** [k[0] &= 248; k[31] &= 127; k[31] |= 64] *)
Definition clamp (k : list Z) : list Z :=
  let k := <[0%nat := Z.land (k !!! 0%nat) 248]> k in
  let k := <[31%nat := Z.land (k !!! 31%nat) 127]> k in
  <[31%nat := Z.lor (k !!! 31%nat) 64]> k.

Section keys.
(** [rand.Read] into 32 bytes, and [curve25519.X25519] with the base point; their
    errors are texts of their own, which wrap no error of this program. *)
Context (rand_Read : result bytes (list Z)) (X25519 : list Z -> result bytes (list Z)).

Definition GenerateKeyPair : result error KeyPair :=
  match rand_Read with
  | Err e => Err (EWrap #"read random: " (EMsg e) [])
  | Ok priv =>
      let priv := clamp priv in
      match X25519 priv with
      | Err e => Err (EWrap #"derive public: " (EMsg e) [])
      | Ok pub => Ok (mkKeyPair (b64_EncodeToString priv) (b64_EncodeToString pub))
      end
  end.

Definition DerivePublicKey (privB64 : bytes) : result error bytes :=
  match DecodeKey privB64 with
  | Err e => Err (EWrap #"decode private: " e [])
  | Ok priv =>
      match X25519 priv with
      | Err e => Err (EWrap #"derive public: " (EMsg e) [])
      | Ok pub => Ok (b64_EncodeToString pub)
      end
  end.

Definition GeneratePresharedKey : result error bytes :=
  match rand_Read with
  | Err e => Err (EWrap #"read random: " (EMsg e) [])
  | Ok b => Ok (b64_EncodeToString b)
  end.
End keys.

(** ** Decoding *)

Lemma sextet_solid c v : sextet c = Some v -> solid_byte c /\ 0 <= v < 64.
Proof.
  unfold sextet, solid_byte. cbv zeta. repeat (case_match; bool_to_prop; [intros [= <-]; lia|]). done.
Qed.

Lemma is_pad_solid c : is_pad c = true -> solid_byte c.
Proof. unfold is_pad. intros H. apply ascii_eqb_true in H as ->. apply (bool_decide_unpack _). by vm_compute. Qed.

Lemma list_ind4 {A} (P : list A -> Prop) :
  P [] -> (forall x, P [x]) -> (forall x y, P [x; y]) -> (forall x y z, P [x; y; z]) ->
  (forall x y z w r, P r -> P (x :: y :: z :: w :: r)) -> forall l, P l.
Proof.
  intros H0 H1 H2 H3 H4 l.
  assert (P l /\ (forall x, P (x :: l)) /\ (forall x y, P (x :: y :: l)) /\ (forall x y z, P (x :: y :: z :: l)))
    as [? _]; [|done].
  induction l as [|a l (Ha & Hb & Hc & Hd)]; [auto|]. split_and!; auto.
Qed.

(** What decodes is whole quanta of printable letters, and no more than three
    bytes per quantum. *)
Lemma decode_quanta_shape s l :
  decode_quanta s = Some l ->
  Forall solid_byte s /\ Z.of_nat (length s) mod 4 = 0
  /\ 4 * Z.of_nat (length l) <= 3 * Z.of_nat (length s) /\ Forall byte_ok l.
Proof.
  revert l. induction s as [| | | |a b c d r IH] using list_ind4; intros l; try done.
  { intros [= <-]. split_and!; try done; constructor. }
  cbn [decode_quanta]. destruct (sextet a) as [x|] eqn:Ea; [|done]. destruct (sextet b) as [y|] eqn:Eb; [|done].
  cbn [mbind option_bind]. apply sextet_solid in Ea as [? ?], Eb as [? ?].
  destruct (is_pad d) eqn:Ed.
  - destruct r; [|done]. pose proof (is_pad_solid _ Ed). destruct (is_pad c) eqn:Ec.
    + intros [= <-]. pose proof (is_pad_solid _ Ec).
      split; [by rewrite !Forall_cons|]. split; [done|]. split; [simpl; lia|].
      constructor; [solve_sextet|constructor].
    + destruct (sextet c) as [z|] eqn:Es; [|done]. intros [= <-]. apply sextet_solid in Es as [? ?].
      split; [by rewrite !Forall_cons|]. split; [done|]. split; [simpl; lia|].
      constructor; [solve_sextet|]. constructor; [solve_sextet|constructor].
  - destruct (sextet c) as [z|] eqn:Es; [|done]. destruct (sextet d) as [w|] eqn:Ew; [|done].
    cbn [mbind option_bind]. destruct (decode_quanta r) as [l'|]; [|done]. intros [= <-].
    apply sextet_solid in Es as [? ?], Ew as [? ?]. destruct (IH _ eq_refl) as (Hs & Hm & Hl & Hb).
    split; [by rewrite !Forall_cons|]. split.
    { simpl length. rewrite !Nat2Z.inj_succ.
      replace (Z.succ (Z.succ (Z.succ (Z.succ (Z.of_nat (length r)))))) with (Z.of_nat (length r) + 1 * 4) by lia.
      by rewrite Z.mod_add by lia. }
    split; [simpl length; lia|]. repeat (constructor; [solve_sextet|]). done.
Qed.

Lemma filter_short {A} (f : A -> bool) l : (length (List.filter f l) <= length l)%nat.
Proof. induction l as [|x l IH]; simpl; [lia|]. destruct (f x); simpl; lia. Qed.

Lemma filter_full {A} (f : A -> bool) l : length (List.filter f l) = length l -> List.filter f l = l.
Proof.
  induction l as [|x l IH]; simpl; [done|]. destruct (f x); simpl; intros H; [f_equal; apply IH; lia|].
  pose proof (filter_short f l). lia.
Qed.

Lemma DecodeKey_shape s raw :
  DecodeKey s = Ok raw ->
  length raw = 32%nat /\ Forall byte_ok raw /\ length s = 44%nat /\ Forall solid_byte s.
Proof.
  unfold DecodeKey, Base64KeyLen, KeyLen. destruct (Z.of_nat (length s) =? 44) eqn:El; [|done]. simpl.
  destruct (b64_DecodeString s) as [l|] eqn:Ed; [|done].
  destruct (Z.of_nat (length l) =? 32) eqn:Er; [|done]. simpl. intros [= ->]. bool_to_prop.
  unfold b64_DecodeString in Ed. apply decode_quanta_shape in Ed as (Hs & Hm & Hle & Hb).
  pose proof (filter_short not_newline s).
  assert (length (List.filter not_newline s) = length s) as Hlen.
  { apply Z.mod_divide in Hm as [q Hq]; [|lia]. lia. }
  rewrite filter_full in Hs by done. split_and!; [lia|done|lia|done].
Qed.

(** (Keys are single tokens.) A text accepted as a key decodes to exactly 32
    bytes and is 44 printable ASCII characters: it has no blank, line break or
    other control character anywhere, although the base64 decoder itself skips
    line breaks; so a client-supplied key cannot break out of its config line. *)
Theorem ValidateKey_token s :
  ValidateKey s = Ok tt ->
  length s = 44%nat /\ Forall solid_byte s /\ (nl ∉ s) /\ solid s
  /\ exists raw, b64_DecodeString s = Some raw /\ length raw = 32%nat /\ Forall byte_ok raw.
Proof.
  unfold ValidateKey. destruct (DecodeKey s) as [raw|] eqn:E; [|done]. intros _.
  destruct (DecodeKey_shape _ _ E) as (H1 & H2 & H3 & H4). split_and!; [done|done| | |].
  - intros Hn. eapply Forall_forall in H4; [|exact Hn]. revert H4. unfold solid_byte. change (code nl) with 10. lia.
  - apply solid_Forall; [by intros ->|done].
  - exists raw. split_and!; [|done|done]. unfold DecodeKey in E.
    destruct (negb _); [done|]. destruct (b64_DecodeString s) as [l|]; [|done]. destruct (negb _) in E; [done|]. congruence.
Qed.

(** ** Generation *)

(** A buffer of 32 bytes. *)
Definition key_bytes (b : list Z) : Prop := length b = 32%nat /\ Forall byte_ok b.

Lemma DecodeKey_encode b : key_bytes b -> DecodeKey (b64_EncodeToString b) = Ok b.
Proof.
  intros [Hl Hb]. unfold DecodeKey. rewrite b64_encode_length, Hl, b64_decode_encode by done.
  simpl. by rewrite Hl.
Qed.

Lemma land_byte_ok x m : byte_ok x -> 0 <= m < 256 -> byte_ok (Z.land x m).
Proof.
  unfold byte_ok. intros Hx Hm. split; [apply Z.land_nonneg; lia|].
  destruct (Z.eq_dec (Z.land x m) 0) as [->|Hne]; [lia|].
  change 256 with (2 ^ 8). apply Z.log2_lt_pow2; [pose proof (proj2 (Z.land_nonneg x m)); lia|].
  eapply Z.le_lt_trans; [apply Z.log2_land; lia|]. apply Z.min_lt_iff. right.
  destruct (Z.eq_dec m 0) as [->|]; [done|]. apply Z.log2_lt_pow2; lia.
Qed.

Lemma lor_byte_ok x m : byte_ok x -> 0 <= m < 256 -> byte_ok (Z.lor x m).
Proof.
  unfold byte_ok. intros Hx Hm. split; [apply Z.lor_nonneg; lia|].
  destruct (Z.eq_dec (Z.lor x m) 0) as [->|Hne]; [lia|].
  change 256 with (2 ^ 8). apply Z.log2_lt_pow2; [pose proof (proj2 (Z.lor_nonneg x m)); lia|].
  rewrite Z.log2_lor by lia. apply Z.max_lub_lt;
    match goal with |- Z.log2 ?y < _ => destruct (Z.eq_dec y 0) as [->|]; [done|apply Z.log2_lt_pow2; lia] end.
Qed.

Lemma lookup_byte_ok l i : key_bytes l -> (i < 32)%nat -> byte_ok (l !!! i).
Proof.
  intros [Hl Hb] Hi. eapply Forall_lookup_1 in Hb; [exact Hb|]. apply list_lookup_lookup_total_lt. lia.
Qed.

Lemma insert_key_bytes l i x : key_bytes l -> byte_ok x -> key_bytes (<[i := x]> l).
Proof. intros [Hl Hb] Hx. split; [by rewrite length_insert|]. by apply Forall_insert. Qed.

Lemma clamp_key_bytes b : key_bytes b -> key_bytes (clamp b).
Proof.
  intros Hb. unfold clamp.
  assert (H1 : key_bytes (<[0%nat := Z.land (b !!! 0%nat) 248]> b)).
  { apply insert_key_bytes; [done|]. apply land_byte_ok; [apply lookup_byte_ok; [done|lia]|lia]. }
  assert (H2 : key_bytes (<[31%nat := Z.land (<[0%nat := Z.land (b !!! 0%nat) 248]> b !!! 31%nat) 127]>
                            (<[0%nat := Z.land (b !!! 0%nat) 248]> b))).
  { apply insert_key_bytes; [done|]. apply land_byte_ok; [apply lookup_byte_ok; [done|lia]|lia]. }
  apply insert_key_bytes; [done|]. apply lor_byte_ok; [apply lookup_byte_ok; [done|lia]|lia].
Qed.

(** The scalar bits RFC 7748 prescribes: multiple of 8, bit 254 set, bit 255
    clear. *)
Lemma clamp_bits b :
  length b = 32%nat -> Forall byte_ok b ->
  Z.land (clamp b !!! 0%nat) 7 = 0 /\ Z.testbit (clamp b !!! 31%nat) 6 = true
  /\ Z.testbit (clamp b !!! 31%nat) 7 = false.
Proof.
  intros Hl Hb. unfold clamp. cbv zeta.
  rewrite !list_lookup_total_insert_eq by (rewrite ?length_insert; lia).
  rewrite !list_lookup_total_insert_ne, list_lookup_total_insert_eq by (done || lia).
  split_and!.
  - rewrite <- Z.land_assoc. change (Z.land 248 7) with 0. apply Z.land_0_r.
  - rewrite Z.lor_spec. apply orb_true_r.
  - rewrite Z.lor_spec, Z.land_spec. change (Z.testbit 127 7) with false. by rewrite andb_false_r.
Qed.

(** (Generated keys.) When the random source gives 32 bytes and X25519
    returns 32 bytes, a generated key pair consists of two acceptable keys, the
    private one clamped as RFC 7748 prescribes, and deriving the public key from
    the private text gives the pair's public key. *)
Theorem GenerateKeyPair_valid rand_Read X25519 b :
  rand_Read = Ok b -> key_bytes b -> (forall k, key_bytes k -> exists p, X25519 k = Ok p /\ key_bytes p) ->
  exists kp, GenerateKeyPair rand_Read X25519 = Ok kp /\ DecodeKey (kp_PrivateKey kp) = Ok (clamp b)
    /\ ValidateKey (kp_PublicKey kp) = Ok tt /\ DerivePublicKey X25519 (kp_PrivateKey kp) = Ok (kp_PublicKey kp)
    /\ Z.land (clamp b !!! 0%nat) 7 = 0 /\ Z.testbit (clamp b !!! 31%nat) 6 = true
    /\ Z.testbit (clamp b !!! 31%nat) 7 = false.
Proof.
  intros Hr Hb Hx. pose proof (clamp_key_bytes b Hb) as Hc. destruct (Hx _ Hc) as (p & Hp & Hpk).
  unfold GenerateKeyPair. rewrite Hr. cbv zeta. rewrite Hp. eexists. split; [reflexivity|]. cbn [kp_PrivateKey kp_PublicKey].
  unfold ValidateKey, DerivePublicKey. rewrite !DecodeKey_encode, Hp by done.
  split_and!; try done; apply clamp_bits; apply Hb.
Qed.

Lemma ValidateKey_token_witness :
  (nl ∉ #"AAAAAAAAAAAAAAAAAAAAAAAAAAAAAAAAAAAAAAAAAAA=").
Proof.
  apply (ValidateKey_token #"AAAAAAAAAAAAAAAAAAAAAAAAAAAAAAAAAAAAAAAAAAA="). vm_compute. reflexivity.
Defined.

Lemma GenerateKeyPair_valid_witness :
  exists kp, GenerateKeyPair (Ok (replicate 32 255)) (fun k => Ok k) = Ok kp
             /\ ValidateKey (kp_PublicKey kp) = Ok tt.
Proof.
  destruct (GenerateKeyPair_valid (Ok (replicate 32 255)) (fun k => Ok k) (replicate 32 255)) as (kp & H & _ & Hv & _).
  - reflexivity.
  - split; [reflexivity|]. unfold byte_ok. apply (bool_decide_unpack _). vm_compute. exact I.
  - intros k Hk. exists k. split; [reflexivity|exact Hk].
  - exists kp. split; [exact H|exact Hv].
Defined.
