(* ===== verification/Bootstrap.v ===== *)
(** * Bootstrap: seeding and provisioning ([internal/bootstrap])

    Reading the seed settings from the environment, seeding an empty database and
    writing the node's first config ([bootstrap.go]), and creating a parallel V3.1
    node in one transaction ([provision_v31.go]).  The state is the file system and
    the store; ids, clock, random bytes and the outcome of the commit are
    arguments. *)

From S2P Require Import Prelude GoStrings Strconv Errors Effects Files Profile Netip NetText Ipam AwgConfig Render Executor Store Crypto.

(** ** Settings *)

(** [os.LookupEnv] *)
Abbreviation Environ := (bytes -> option bytes).

Definition env (E : Environ) (k def : bytes) : bytes :=
  match E k with
  | Some v => if bool_decide (v = []) then def else v
  | None => def
  end.

(** The decimal digits a text starts with. *)
Fixpoint digit_prefix (s : bytes) : bytes :=
  match s with
  | c :: rest => match digit c with Some _ => c :: digit_prefix rest | None => [] end
  | [] => []
  end.

(** [fmt.Sscanf(v, "%d", &i)]: blanks but no newline, a sign, digits; what follows
    is not read. *)
Definition Sscanf_d (v : bytes) : option Z :=
  let s := trim_left v in
  if bool_decide (nl ∈ take (length v - length s) v) then None
  else
    match s with
    | ("+"%char | "-"%char) as c :: rest =>
        if bool_decide (digit_prefix rest = []) then None else ParseInt10 (c :: digit_prefix rest)
    | _ => if bool_decide (digit_prefix s = []) then None else ParseInt10 (digit_prefix s)
    end.

Definition envInt (E : Environ) (k : bytes) (def : Z) : Z :=
  match E k with
  | Some v => if bool_decide (v = []) then def else default def (Sscanf_d v)
  | None => def
  end.

Definition envBool (E : Environ) (k : bytes) (def : bool) : bool :=
  match E k with
  | Some v =>
      if bool_decide (v = []) then def
      else
        let w := ToLower (TrimSpace v) in
        if bool_decide (w ∈ [ #"1"; #"true"; #"yes"; #"on" ]) then true
        else if bool_decide (w ∈ [ #"0"; #"false"; #"no"; #"off" ]) then false
        else def
  | None => def
  end.

Record Defaults : Type := mkDefaults {
  d_Enabled : bool;
  d_TenantSlug : bytes;
  d_ProfileName : bytes;
  d_NodeRegion : bytes;
  d_NodeHostname : bytes;
  d_NodeEndpoint : bytes;
  d_NodeBasePort : Z;
  d_NodeIface : bytes;
  d_PoolCIDR : bytes;
  d_BootstrapConfDir : bytes;
  d_EnableNAT : bool;
  d_EgressIface : bytes }.

Definition defaultNodeBasePort : Z := 38823.
Definition defaultSpecialJunk1 : bytes :=
  #"<r 2><b 0x858000010001000000000669636c6f756403636f6d0000010001c00c000100010000105a00044d583737>".

Definition EnvDefaults (E : Environ) : Defaults :=
  mkDefaults
    (envBool E #"BOOTSTRAP_ENABLED" false)
    (env E #"BOOTSTRAP_TENANT_SLUG" #"default")
    (env E #"BOOTSTRAP_PROFILE_NAME" #"default-v2")
    (env E #"BOOTSTRAP_NODE_REGION" #"default")
    (env E #"BOOTSTRAP_NODE_HOSTNAME" #"awg-node-1")
    (env E #"BOOTSTRAP_NODE_ENDPOINT" #"127.0.0.1")
    (envInt E #"BOOTSTRAP_NODE_BASE_PORT" defaultNodeBasePort)
    (env E #"BOOTSTRAP_NODE_IFACE" #"awg0")
    (env E #"BOOTSTRAP_POOL_CIDR" #"10.200.0.0/24")
    (env E #"BOOTSTRAP_CONF_DIR" [])
    (envBool E #"BOOTSTRAP_ENABLE_NAT" true)
    (env E #"BOOTSTRAP_EGRESS_IFACE" #"eth0").

(** ** Addresses and hooks *)

Definition endpointWithPort (hostport : bytes) (port : Z) : bytes :=
  let hostport := TrimSpace hostport in
  let hostport := if bool_decide (hostport = []) then #"127.0.0.1" else hostport in
  match SplitHostPort hostport with
  | Some _ => hostport
  | None => JoinHostPort hostport (FormatInt port)
  end.

Definition serverAddressFromPool (pool : Prefix) : result error bytes :=
  let pool := Masked pool in
  if negb (Is4 (pf_addr pool)) then
    Err (EMsg (#"bootstrap currently supports IPv4 pools only, got " ++ Prefix_String pool))
  else
    let addr := Next (pf_addr pool) in
    if negb (Addr_IsValid addr) || negb (Prefix_Contains pool addr) then
      Err (EMsg (#"BOOTSTRAP_POOL_CIDR " ++ Prefix_String pool ++ #" is too small for a server address"))
    else Ok (Addr_String addr ++ #"/" ++ FormatInt (pf_bits pool)).

Definition natHooks (pool : Prefix) (iface egress : bytes) (enabled : bool) : bytes * bytes :=
  if negb enabled then ([], [])
  else
    let cidr := Prefix_String pool in
    let forward i o rest := #" FORWARD -i " ++ i ++ #" -o " ++ o ++ rest in
    let accept := #" -j ACCEPT" in
    let established := #" -m state --state RELATED,ESTABLISHED -j ACCEPT" in
    let masquerade := #" POSTROUTING -s " ++ cidr ++ #" -o " ++ egress ++ #" -j MASQUERADE" in
    let up rule := #"iptables -C" ++ rule ++ #" || iptables -A" ++ rule in
    let quiet := #" 2>/dev/null || true" in
    (Join [ up (forward iface egress accept);
            up (forward egress iface established);
            #"iptables -t nat -C" ++ masquerade ++ #" || iptables -t nat -A" ++ masquerade ] #"; ",
     Join [ #"iptables -D" ++ forward iface egress accept ++ quiet;
            #"iptables -D" ++ forward egress iface established ++ quiet;
            #"iptables -t nat -D" ++ masquerade ++ quiet ] #"; ").

(** ** State *)

(** Run a file operation, or a statement outside any transaction. *)
Definition on_files {A} (m : SE FS A) : SE (FS * Store) A :=
  fun '(fs, s) => let '(r, fs') := m fs in (r, (fs', s)).

Section bootstrap.
Context {fenv : FileEnv}.
(** [strconv.Quote], the error text of [netip.ParsePrefix], and X25519. *)
Context (Quote : bytes -> bytes) (prefix_error : bytes -> bytes) (X25519 : list Z -> result bytes (list Z)).

Definition parseCIDR (s : bytes) : result error Prefix :=
  match ParsePrefix s with
  | None => Err (EWrap (#"invalid BOOTSTRAP_POOL_CIDR " ++ Quote s ++ #": ") (EMsg (prefix_error s)) [])
  | Some p => Ok (Masked p)
  end.

Definition bootstrap_interface (serverPrivKey address : bytes) (port : Z) (hooks : bytes * bytes) : Interface :=
  mkInterface serverPrivKey [address] port 0 [] (fst hooks) (snd hooks).

(** [d.BootstrapConfDir + "/" + d.NodeIface + ".conf"] *)
Definition bootstrap_path (d : Defaults) : bytes := d_BootstrapConfDir d ++ #"/" ++ d_NodeIface d ++ #".conf".

Definition writeBootstrapConf (d : Defaults) (pool : Prefix) (serverPrivKey : bytes) (profile : ProtocolProfile) : SE FS unit :=
  if negb (ValidInterfaceName (d_NodeIface d)) then
    fail (EMsg (#"invalid BOOTSTRAP_NODE_IFACE " ++ Quote (d_NodeIface d)))
  else if d_EnableNAT d && negb (ValidInterfaceName (d_EgressIface d)) then
    fail (EMsg (#"invalid BOOTSTRAP_EGRESS_IFACE " ++ Quote (d_EgressIface d)))
  else
    address ← of_result (serverAddressFromPool pool);
    MkdirAll (d_BootstrapConfDir d) ;;
    let hooks := natHooks pool (d_NodeIface d) (d_EgressIface d) (d_EnableNAT d) in
    let cfg := Server (bootstrap_interface serverPrivKey address (d_NodeBasePort d) hooks) profile [] in
    WriteFile (bootstrap_path d) cfg mode_private.

(** The profile seeded for a fresh installation. *)
Definition default_profile (name : bytes) : ProtocolProfile :=
  mkProfile uuid_Nil name ProtocolV2 5 10 50 130 89 31 18
    (mkIntRange 1820352565 1967349318) (mkIntRange 2027388662 2115196205)
    (mkIntRange 2144626841 2145335687) (mkIntRange 2146302274 2147385353)
    defaultSpecialJunk1 [] [] [] [] [] (mkU16 0 0) (mkU16 0 0) (mkU16 0 0) (mkU16 0 0) (mkU16 0 0) (mkU16 0 0)
    (mkU16 0 0) false false #"fixed" 0.

(** What one run draws: the ids of the rows, the clock, the random bytes. *)
Record SeedDraws : Type := mkSeed {
  sd_tenant : uuid; sd_profile : uuid; sd_node : uuid; sd_pool : uuid; sd_now : Z;
  sd_key : result bytes (list Z); sd_psk : result bytes (list Z) }.

(** Each statement commits by itself. *)
Definition RunIfEmpty (dr : SeedDraws) (d : Defaults) : SE (FS * Store) unit :=
  if negb (d_Enabled d) then mret tt
  else if bool_decide (d_BootstrapConfDir d = []) then
    fail (EMsg #"BOOTSTRAP_CONF_DIR is required when BOOTSTRAP_ENABLED=true")
  else
    poolCIDR ← of_result (parseCIDR (d_PoolCIDR d));
    tenants ← asks (fun st => st_tenants (snd st));
    if negb (bool_decide (length tenants = O)) then mret tt
    else
      t ← wrapping #"bootstrap tenant: " (on_store (Tenants_Upsert (sd_tenant dr) (sd_now dr) (d_TenantSlug d)));
      profile ← wrapping #"bootstrap profile: "
                  (on_store (insertProfile (sd_profile dr) (sd_now dr) (default_profile (d_ProfileName d))));
      kp ← wrapping #"bootstrap keygen: " (of_result (GenerateKeyPair (sd_key dr) X25519));
      node ← wrapping #"bootstrap node: " (on_store (insertNode (sd_node dr) (sd_now dr)
               (mkNode uuid_Nil (Some (pp_ID profile)) (d_NodeRegion d) (d_NodeHostname d) []
                  (endpointWithPort (d_NodeEndpoint d) (d_NodeBasePort d)) (d_NodeBasePort d) None
                  (d_NodeIface d) (kp_PublicKey kp) 0)));
      wrapping #"bootstrap pool: " (on_store (createPool (sd_pool dr) (t_ID t) (n_ID node) poolCIDR)) ;;
      wrapping #"bootstrap conf: " (on_files (writeBootstrapConf d poolCIDR (kp_PrivateKey kp) profile)).

(** ** The V3.1 node *)

Record V31NodeOptions : Type := mkV31Options {
  vo_TenantSlug : bytes;
  vo_ProfileName : bytes;
  vo_NodeRegion : bytes;
  vo_NodeHostname : bytes;
  vo_NodeEndpoint : bytes;
  vo_NodeBasePort : Z;
  vo_NodeIface : bytes;
  vo_PoolCIDR : bytes;
  vo_BootstrapConfDir : bytes;
  vo_EnableNAT : bool;
  vo_EgressIface : bytes }.

Record V31NodeResult : Type := mkV31Result {
  vr_TenantID : uuid;
  vr_ProfileID : uuid;
  vr_NodeID : uuid;
  vr_PoolID : uuid;
  vr_ProfileName : bytes;
  vr_NodeHostname : bytes;
  vr_InterfaceName : bytes;
  vr_PublicEndpoint : bytes;
  vr_PoolCIDR : bytes;
  vr_ConfigPath : bytes;
  vr_ServerPublicKey : bytes }.

Definition defaultV31Profile (name headerProtectionKey : bytes) : ProtocolProfile :=
  mkProfile uuid_Nil name ProtocolV31 5 10 50 12 12 12 12
    (mkIntRange 1 1) (mkIntRange 2 2) (mkIntRange 3 3) (mkIntRange 4 4)
    defaultSpecialJunk1 [] [] [] [] headerProtectionKey
    (mkU16 0 0) (mkU16 100 120) (mkU16 3 7) (mkU16 150 180) (mkU16 5 15) (mkU16 15 20) (mkU16 25 35)
    true true #"fixed" 0.

Definition normalizeV31NodeOptions (o : V31NodeOptions) : V31NodeOptions :=
  mkV31Options (TrimSpace (vo_TenantSlug o)) (TrimSpace (vo_ProfileName o)) (TrimSpace (vo_NodeRegion o))
    (TrimSpace (vo_NodeHostname o)) (TrimSpace (vo_NodeEndpoint o)) (vo_NodeBasePort o) (TrimSpace (vo_NodeIface o))
    (TrimSpace (vo_PoolCIDR o)) (TrimSpace (vo_BootstrapConfDir o)) (vo_EnableNAT o) (TrimSpace (vo_EgressIface o)).

(** The required options in the order they are checked. *)
Definition required_options (o : V31NodeOptions) : list (bytes * bytes) :=
  [ (#"tenant", vo_TenantSlug o); (#"profile-name", vo_ProfileName o); (#"node-region", vo_NodeRegion o);
    (#"node-hostname", vo_NodeHostname o); (#"node-endpoint", vo_NodeEndpoint o); (#"node-iface", vo_NodeIface o);
    (#"pool-cidr", vo_PoolCIDR o); (#"bootstrap-conf-dir", vo_BootstrapConfDir o) ].

Definition validateV31NodeOptions (o : V31NodeOptions) : result error unit :=
  match find (fun '(_, value) => bool_decide (TrimSpace value = [])) (required_options o) with
  | Some (name, _) => Err (EMsg (name ++ #" is required"))
  | None =>
      if (vo_NodeBasePort o <? 1) || (65535 <? vo_NodeBasePort o) then Err (EMsg #"node-port must be in [1, 65535]")
      else if negb (ValidInterfaceName (vo_NodeIface o)) then Err (EMsg (#"invalid node-iface " ++ Quote (vo_NodeIface o)))
      else if vo_EnableNAT o && negb (ValidInterfaceName (vo_EgressIface o))
      then Err (EMsg (#"invalid egress-iface " ++ Quote (vo_EgressIface o)))
      else Ok tt
  end.

(** The [&&] operator of two networks. *)
Definition cidr_overlaps (p q : Prefix) : bool := Prefix_Contains p (pf_addr q) || Prefix_Contains q (pf_addr p).

Definition in_use (what arg : bytes) : error := EMsg (what ++ #" " ++ arg ++ #" is already in use").

Definition ensureV31ProvisioningAvailable (o : V31NodeOptions) (pool : Prefix) : SE Store unit :=
  e ← asks (fun s => existsb (fun r => bool_decide (pw_name r = vo_ProfileName o)) (st_profiles s));
  check (negb e) (in_use #"profile name" (vo_ProfileName o)) ;;
  e ← asks (fun s => existsb (fun n => bool_decide (n_Hostname n = vo_NodeHostname o)) (st_nodes s));
  check (negb e) (in_use #"node hostname" (vo_NodeHostname o)) ;;
  e ← asks (fun s => existsb (fun n => bool_decide (n_InterfaceName n = vo_NodeIface o)) (st_nodes s));
  check (negb e) (in_use #"interface name" (vo_NodeIface o)) ;;
  e ← asks (fun s => existsb (fun n => n_BasePort n =? vo_NodeBasePort o) (st_nodes s));
  check (negb e) (in_use #"UDP port" (FormatInt (vo_NodeBasePort o))) ;;
  overlaps ← asks (fun s => existsb (fun a => cidr_overlaps (ap_CIDR a) pool) (st_pools s));
  check (negb overlaps) (EMsg (#"pool CIDR " ++ Prefix_String pool ++ #" overlaps an existing address pool")).

(** The file is closed on return and removed unless everything succeeded. *)
Definition writeBootstrapConfigExclusive (path config : bytes) : SE FS unit :=
  wrapping #"create bootstrap config dir: " (MkdirAll (path_Dir path)) ;;
  f ← attempt (OpenExclusive path mode_private);
  match f with
  | Err e =>
      if os_IsExist e then fail (EMsg (#"bootstrap config " ++ path ++ #" already exists; refusing to overwrite"))
      else fail (EWrap #"create bootstrap config: " e [])
  | Ok _ =>
      r ← attempt (wrapping #"write bootstrap config: " (WriteString path config) ;;
                   wrapping #"sync bootstrap config: " (Sync path) ;;
                   wrapping #"close bootstrap config: " (Close path));
      attempt (Close path) ;;
      match r with
      | Err e => attempt (Remove path) ;; fail e
      | Ok _ => mret tt
      end
  end.

(** The variables the transaction assigns: files aside, [configCreated] and
    [result]. *)
Record ProvisionVars : Type := mkVars { pv_fs : FS; pv_configCreated : bool; pv_result : V31NodeResult }.

Definition on_var_files {A} (m : SE FS A) : SE (ProvisionVars * Store) A :=
  fun '(v, s) => let '(r, fs) := m (pv_fs v) in (r, (mkVars fs (pv_configCreated v) (pv_result v), s)).

Definition zero_result : V31NodeResult := mkV31Result uuid_Nil uuid_Nil uuid_Nil uuid_Nil [] [] [] [] [] [] [].

(** [configCreated = true; result = r] *)
Definition created (r : V31NodeResult) : SE (ProvisionVars * Store) unit :=
  fun '(v, s) => (Ok tt, (mkVars (pv_fs v) true r, s)).

(** The advisory lock makes concurrent runs one after the other. *)
Definition provision_tx (dr : SeedDraws) (o : V31NodeOptions) (poolCIDR : Prefix) (tenant : Tenant) (serverKP : KeyPair)
    (profile : ProtocolProfile) (configPath config : bytes) : SE (ProvisionVars * Store) unit :=
  on_store (ensureV31ProvisioningAvailable o poolCIDR) ;;
  insertedProfile ← wrapping #"insert v3.1 profile: " (on_store (insertProfile (sd_profile dr) (sd_now dr) profile));
  node ← wrapping #"insert v3.1 node: " (on_store (insertNode (sd_node dr) (sd_now dr)
           (mkNode uuid_Nil (Some (pp_ID insertedProfile)) (vo_NodeRegion o) (vo_NodeHostname o) []
              (endpointWithPort (vo_NodeEndpoint o) (vo_NodeBasePort o)) (vo_NodeBasePort o) None
              (vo_NodeIface o) (kp_PublicKey serverKP) 0)));
  poolID ← wrapping #"insert v3.1 pool: " (on_store (createPool (sd_pool dr) (t_ID tenant) (n_ID node) poolCIDR));
  on_var_files (writeBootstrapConfigExclusive configPath config) ;;
  created (mkV31Result (t_ID tenant) (pp_ID insertedProfile) (n_ID node) poolID (pp_Name insertedProfile)
             (n_Hostname node) (n_InterfaceName node) (n_PublicEndpoint node) (Prefix_String poolCIDR) configPath
             (n_ServerPublicKey node)).

(** Run the transaction, whose commit answers [commit], and remove the config it
    created when it did not commit. *)
Definition provision_commit (dr : SeedDraws) (commit : result error unit) (o : V31NodeOptions) (poolCIDR : Prefix)
    (tenant : Tenant) (serverKP : KeyPair) (profile : ProtocolProfile) (configPath config : bytes)
    : SE (FS * Store) V31NodeResult :=
  fun '(fs, s) =>
    match InTx (provision_tx dr o poolCIDR tenant serverKP profile configPath config ;; of_result commit)
            (mkVars fs false zero_result, s) with
    | (Err e, (v, s')) =>
        (Err e, (if pv_configCreated v then ignored (Remove configPath) (pv_fs v) else pv_fs v, s'))
    | (Ok _, (v, s')) =>
        (Ok (pv_result v), (pv_fs v, s'))
    end.

Definition ProvisionV31Node (dr : SeedDraws) (commit : result error unit) (opts : V31NodeOptions)
    : SE (FS * Store) V31NodeResult :=
  let o := normalizeV31NodeOptions opts in
  of_result (validateV31NodeOptions o) ;;
  poolCIDR ← of_result (parseCIDR (vo_PoolCIDR o));
  tenant ← wrapping (#"tenant " ++ Quote (vo_TenantSlug o) ++ #": ") (on_store (Tenants_GetBySlug (TrimSpace (vo_TenantSlug o))));
  headerProtectionKey ← wrapping #"generate header-protection key: " (of_result (GeneratePresharedKey (sd_psk dr)));
  serverKP ← wrapping #"generate server keypair: " (of_result (GenerateKeyPair (sd_key dr) X25519));
  let profile := defaultV31Profile (TrimSpace (vo_ProfileName o)) headerProtectionKey in
  (match Validate profile with
   | [] => mret tt
   | errs => fail (EWrap #"generated v3.1 profile invalid: " (EValidation errs) [])
   end) ;;
  address ← of_result (serverAddressFromPool poolCIDR);
  let hooks := natHooks poolCIDR (vo_NodeIface o) (vo_EgressIface o) (vo_EnableNAT o) in
  let config := Server (bootstrap_interface (kp_PrivateKey serverKP) address (vo_NodeBasePort o) hooks) profile [] in
  let configPath := path_Join (vo_BootstrapConfDir o) (vo_NodeIface o ++ #".conf") in
  provision_commit dr commit o poolCIDR tenant serverKP profile configPath config.
End bootstrap.
