(* ===== verification/BootstrapFacts.v ===== *)
(** * BootstrapFacts: what seeding and provisioning guarantee

    Provisioning a V3.1 node is all or nothing in the database and on disk and never
    overlaps what exists; seeding gives a usable installation, but one that failed
    half way is never repaired. *)

From S2P Require Import Prelude GoStrings Strconv Sorting Base64 Errors Effects Files Profile Netip NetText Ipam AwgConfig Render Executor Store StoreFacts Crypto Bootstrap.

(** ** The statements *)

Lemma check_inv {S} ok e (s : S) r s' : check ok e s = (r, s') -> s' = s /\ (r = Ok tt /\ ok = true \/ r = Err e /\ ok = false).
Proof. destruct ok; intros [= <- <-]; auto. Qed.

Lemma insertProfile_inv newID now p s r s' :
  insertProfile newID now p s = (r, s') ->
  (exists e, r = Err e /\ s' = s)
  \/ (Validate p = [] /\ r = Ok (scanProfile (profile_row newID now p))
      /\ s' = set_profiles (fun l => l ++ [profile_row newID now p]) s).
Proof.
  unfold insertProfile. destruct (Validate p); [|intros [= <- <-]; eauto]. run_session.
  destruct (negb _); intros [= <- <-]; [by right|]. eauto.
Qed.

Definition node_row (newID : uuid) (now : Z) (n : Node) : Node :=
  mkNode newID (n_ProfileID n) (n_Region n) (n_Hostname n) #"unknown" (n_PublicEndpoint n)
    (n_BasePort n) None (n_InterfaceName n) (n_ServerPublicKey n) now.

Lemma insertNode_inv newID now n s r s' :
  insertNode newID now n s = (r, s') ->
  (exists e, r = Err e /\ s' = s) \/ (r = Ok (node_row newID now n) /\ s' = set_nodes (fun l => l ++ [node_row newID now n]) s).
Proof.
  unfold insertNode. run_session. destruct (negb _); [|intros [= <- <-]; eauto].
  run_session. destruct (profile_ref_ok _ _); intros [= <- <-]; eauto.
Qed.

Lemma createPool_inv newID t n cidr s r s' :
  createPool newID t n cidr s = (r, s') ->
  (exists e, r = Err e /\ s' = s)
  \/ (r = Ok newID /\ s' = set_pools (fun l => l ++ [mkPool newID t n cidr None #"sequential"]) s).
Proof.
  unfold createPool. run_session. destruct (negb _); [|intros [= <- <-]; eauto].
  run_session. destruct (_ && _); intros [= <- <-]; eauto.
Qed.

Lemma Upsert_inv newID now slug s r s' :
  Tenants_Upsert newID now slug s = (r, s') ->
  s' = s \/ (st_tenants s' = st_tenants s ++ [mkTenant newID slug #"active" now] /\ r = Ok (mkTenant newID slug #"active" now)).
Proof.
  unfold Tenants_Upsert. run_session. destruct (find _ _); [intros [= <- <-]; auto|].
  run_session. destruct (negb _); intros [= <- <-]; auto.
Qed.

(** A statement that keeps the invariant did so in this run. *)
Lemma preserves_after {A} {m : SE Store A} {s r s'} : m s = (r, s') -> preserves m -> store_ok s -> store_ok s'.
Proof. intros H Hm Hs. specialize (Hm s Hs). by rewrite H in Hm. Qed.

Lemma existsb_false {A} (f : A -> bool) l : existsb f l = false -> Forall (fun x => f x = false) l.
Proof. induction l as [|x l IH]; simpl; [constructor|]. intros [H1 H2]%orb_false_iff. constructor; [done|by apply IH]. Qed.

(** What the availability checks establish; they change nothing. *)
Lemma ensure_inv o pool s r s' :
  ensureV31ProvisioningAvailable o pool s = (r, s') ->
  s' = s /\ (r = Ok tt ->
    Forall (fun row => pw_name row <> vo_ProfileName o) (st_profiles s)
    /\ Forall (fun n => n_Hostname n <> vo_NodeHostname o /\ n_InterfaceName n <> vo_NodeIface o
                        /\ n_BasePort n <> vo_NodeBasePort o) (st_nodes s)
    /\ Forall (fun a => cidr_overlaps (ap_CIDR a) pool = false) (st_pools s)).
Proof.
  unfold ensureV31ProvisioningAvailable. run_session.
  do 4 (destruct (existsb _ _) eqn:? at 1; cbn [negb]; [intros [= <- <-]; split; [done|intros [=]]|]; run_session).
  intros H. apply check_inv in H as [-> [[-> E]|[-> E]]]; (split; [done|]); [|done]. intros _. bool_to_prop.
  repeat match goal with H : existsb _ _ = false |- _ => apply existsb_false in H end.
  split_and!.
  - eapply Forall_impl; [eassumption|]. intros row E'. by apply bool_decide_eq_false in E'.
  - repeat match goal with H : Forall _ (st_nodes s) |- _ => rewrite Forall_forall in H end.
    apply Forall_forall. intros n Hn. split_and!; intros E'.
    + eapply Heqb0 in Hn. by apply bool_decide_eq_false in Hn.
    + eapply Heqb1 in Hn. by apply bool_decide_eq_false in Hn.
    + eapply Heqb2 in Hn. by apply Z.eqb_neq in Hn.
  - done.
Qed.

(** ** Networks that do not overlap share no address *)

Lemma div_nested x a b h k : 0 <= h <= k -> x / 2 ^ h = a / 2 ^ h -> x / 2 ^ k = b / 2 ^ k ->
  a / 2 ^ k = b / 2 ^ k.
Proof.
  intros Hh E1 E2. assert (Hs : forall z, z / 2 ^ k = z / 2 ^ h / 2 ^ (k - h)).
  { intros z. rewrite Z.div_div by lia. rewrite <- Z.pow_add_r by lia. by replace (h + (k - h)) with k by lia. }
  rewrite <- E2, (Hs x), E1, (Hs a). done.
Qed.

Lemma Contains_num p a : prefix_ok p -> Prefix_Contains p a = true <->
  BitLen (pf_addr p) = BitLen a /\ addr_zone a = [] /\ addr_num a / 2 ^ host_bits p = addr_num (pf_addr p) / 2 ^ host_bits p.
Proof.
  intros Hp. split.
  - intros H. pose proof (Prefix_Contains_family _ _ H) as (Hb & Hz & _). split_and!; [done..|].
    apply (Prefix_Contains_num p _ Hp). rewrite same_family; [done|done|]. by rewrite Hz, (proj1 (proj2 (proj2 Hp))).
  - intros (Hb & Hz & Hd). apply (Prefix_Contains_num p _ Hp) in Hd. rewrite same_family in Hd; [done|done|].
    by rewrite Hz, (proj1 (proj2 (proj2 Hp))).
Qed.

Lemma overlaps_shared p q x :
  prefix_ok p -> prefix_ok q -> Prefix_Contains p x = true -> Prefix_Contains q x = true -> cidr_overlaps p q = true.
Proof.
  intros Hp Hq H1 H2. apply (Contains_num p x Hp) in H1 as (B1 & Z1 & D1).
  apply (Contains_num q x Hq) in H2 as (B2 & Z2 & D2). unfold cidr_overlaps. apply orb_true_iff.
  pose proof Hp as (_ & _ & Hpz & Hpb). pose proof Hq as (_ & _ & Hqz & Hqb).
  assert (0 <= host_bits p) by (unfold host_bits; lia). assert (0 <= host_bits q) by (unfold host_bits; lia).
  destruct (Z.le_ge_cases (host_bits q) (host_bits p)).
  - left. apply Contains_num; [done|]. split_and!; [congruence|done|]. by apply (div_nested (addr_num x) _ _ (host_bits q)).
  - right. apply Contains_num; [done|]. split_and!; [congruence|done|]. by apply (div_nested (addr_num x) _ _ (host_bits p)).
Qed.

(** ** The exclusive write *)

Section provision.
Context {fenv : FileEnv}.

(** The files are as they were, or a new one at [path] could not be removed. *)
Definition undone (path : bytes) (m m' : gmap bytes file) : Prop :=
  m' = m \/ (m !! path = None /\ delete path m' = m /\ removal_fails path).

Lemma removed_undone path m m' fs r fs' :
  m !! path = None -> fs_files fs = m' -> delete path m' = m -> Remove path fs = (r, fs') -> undone path m (fs_files fs').
Proof.
  intros Hn Hf Hd H. unfold Remove, sys_atomic, sys in H. destruct (fault _ (OpRemove path)) as [|e k] eqn:E; injection H as _ <-; cbn.
  - left. by rewrite Hf.
  - right. unfold id. rewrite Hf. split_and!; [done..|]. by eexists _, _, _.
Qed.

Lemma sys_atomic_cases op eff fs r fs' :
  sys_atomic op eff fs = (r, fs') ->
  (r = Ok tt /\ fs_files fs' = eff (fs_files fs)) \/ (exists e, r = Err e /\ fs_files fs' = fs_files fs).
Proof. unfold sys_atomic, sys. destruct (fault _ op); intros [= <- <-]; eauto. Qed.

(** A call that leaves every file but [path] alone. *)
Definition local_to {A} (path : bytes) (m : SE FS A) : Prop :=
  forall fs r fs', m fs = (r, fs') -> delete path (fs_files fs') = delete path (fs_files fs).

Lemma local_bind {A B} path (m : SE FS A) (f : A -> SE FS B) :
  local_to path m -> (forall a, local_to path (f a)) -> local_to path (m ≫= f).
Proof.
  intros Hm Hf fs r fs' H. apply bind_cases in H as [(a & s1 & H1 & H)|(e & H & _)]; [|by eapply Hm].
  rewrite (Hf _ _ _ _ H). by eapply Hm.
Qed.
Lemma local_wrapping {A} path pre (m : SE FS A) : local_to path m -> local_to path (wrapping pre m).
Proof. intros Hm fs r fs' H. apply wrapping_inv in H as [(a & H & _)|(e & H & _)]; by eapply Hm. Qed.
Lemma local_id path op : local_to path (sys_atomic op id).
Proof. intros fs r fs' H. by apply sys_atomic_cases in H as [[_ ->]|(e & _ & ->)]. Qed.
Lemma delete_alter_eq {A} (f : A -> A) (p : bytes) (m : gmap bytes A) : delete p (alter f p m) = delete p m.
Proof.
  apply map_eq. intros q. destruct (decide (q = p)) as [->|Hq]; [by rewrite !lookup_delete_eq|].
  by rewrite !lookup_delete_ne, lookup_alter_ne by done.
Qed.
Lemma local_write path data : local_to path (WriteString path data).
Proof. intros fs r fs'. unfold WriteString, sys. destruct (fault _ _); intros [= <- <-]; apply delete_alter_eq. Qed.

Definition fill (path config : bytes) : SE FS unit :=
  wrapping #"write bootstrap config: " (WriteString path config) ;;
  wrapping #"sync bootstrap config: " (Sync path) ;;
  wrapping #"close bootstrap config: " (Close path).

Lemma fill_local path config : local_to path (fill path config).
Proof.
  unfold fill. apply local_bind; [apply local_wrapping, local_write|intros _].
  apply local_bind; [apply local_wrapping, local_id|intros _; apply local_wrapping, local_id].
Qed.

Lemma atomic_id_ok {A} pre op (k : unit -> SE FS A) fs a fs' :
  (wrapping pre (sys_atomic op id) ≫= k) fs = (Ok a, fs') ->
  exists fs1, fs_files fs1 = fs_files fs /\ k tt fs1 = (Ok a, fs').
Proof.
  intros H. apply bind_inv in H as ([] & fs1 & H1 & H). apply wrapping_inv in H1 as [([] & H1 & _)|(? & _ & [=])].
  apply sys_atomic_cases in H1 as [[_ H1]|(? & [=] & _)]. eauto.
Qed.

Lemma fill_ok path config fs fs' :
  fill path config fs = (Ok tt, fs') ->
  fs_files fs' = alter (fun f => mkFile (f_data f ++ config) (f_mode f)) path (fs_files fs).
Proof.
  intros H. apply bind_inv in H as ([] & fs1 & H1 & H). apply wrapping_inv in H1 as [([] & H1 & _)|(? & _ & [=])].
  assert (fs_files fs1 = alter (fun f => mkFile (f_data f ++ config) (f_mode f)) path (fs_files fs)) as <-.
  { unfold WriteString, sys in H1. destruct (fault _ _); by simplify_eq. }
  apply atomic_id_ok in H as (fs2 & <- & H). apply wrapping_inv in H as [([] & H & _)|(? & _ & [=])].
  by apply sys_atomic_cases in H as [[_ H]|(? & [=] & _)].
Qed.

(** The new file is complete and private, or nothing has changed, unless the new file
    could not be removed. *)
Lemma exclusive_spec path config fs r fs' :
  writeBootstrapConfigExclusive path config fs = (r, fs') ->
  (r = Ok tt /\ fs_files fs !! path = None /\ fs_files fs' = <[path := mkFile config mode_private]> (fs_files fs))
  \/ (exists e, r = Err e /\ undone path (fs_files fs) (fs_files fs')).
Proof.
  unfold writeBootstrapConfigExclusive. fold (fill path config). intros H.
  apply bind_cases in H as [([] & fs1 & H1 & H)|(e & H & ->)].
  2:{ right. exists e. split; [done|]. left. apply wrapping_inv in H as [(? & _ & [=])|(e' & H & _)].
      by apply sys_atomic_cases in H as [[[=] _]|(? & _ & H)]. }
  assert (fs_files fs1 = fs_files fs) as <-.
  { apply wrapping_inv in H1 as [([] & H1 & _)|(? & _ & [=])]. by apply sys_atomic_cases in H1 as [[_ H1]|(? & [=] & _)]. }
  unfold mbind at 1, SE_bind at 1, attempt at 1 in H. destruct (OpenExclusive path mode_private fs1) as [ro fs2] eqn:Ho.
  unfold OpenExclusive in Ho. rewrite asks_bind in Ho. destruct (fs_files fs1 !! path) as [f|] eqn:Hf.
  { injection Ho as <- <-. right. destruct (os_IsExist _); injection H as <- <-; eexists; (split; [done|by left]). }
  apply sys_atomic_cases in Ho as [[-> Ho]|(e & -> & Ho)].
  2:{ right. destruct (os_IsExist e); injection H as <- <-; eexists; (split; [done|by left]). }
  unfold mbind at 1, SE_bind at 1, attempt at 1 in H. destruct (fill path config fs2) as [rf fs3] eqn:E.
  unfold mbind at 1, SE_bind at 1, attempt at 1 in H. destruct (Close path fs3) as [rc fs4] eqn:Ec.
  assert (fs_files fs4 = fs_files fs3) as H4 by (by apply sys_atomic_cases in Ec as [[_ Ec]|(? & _ & Ec)]).
  destruct rf as [[]|e].
  - injection H as <- <-. left. split_and!; [done..|]. apply fill_ok in E. rewrite H4, E, Ho. by rewrite alter_insert_eq.
  - unfold mbind, SE_bind, attempt, fail in H. destruct (Remove path fs4) as [rr fs5] eqn:Er. injection H as <- <-.
    right. exists e. split; [done|]. eapply removed_undone; [done|reflexivity| |exact Er].
    rewrite H4, (fill_local _ _ _ _ _ E), Ho. by apply delete_insert_id.
Qed.

(** ** The transaction *)

Context (Quote : bytes -> bytes) (prefix_error : bytes -> bytes) (X25519 : list Z -> result bytes (list Z)).

(** A statement of the transaction under its error prefix. *)
Lemma wrapped_store_inv {A} pre (m : SE Store A) (v : ProvisionVars) s r v' s' :
  wrapping pre (on_store m) (v, s) = (r, (v', s')) ->
  v' = v /\ exists r0, m s = (r0, s') /\ match r0 with Ok a => r = Ok a | Err e => r = Err (EWrap pre e []) end.
Proof.
  intros H. apply wrapping_inv in H as [(a & H & ->)|(e & H & ->)]; apply on_store_inv in H as [-> H];
    (split; [done|eexists; split; [exact H|done]]).
Qed.

(** The rows a provisioning run adds. *)
Definition v31_profile_row (dr : SeedDraws) (profile : ProtocolProfile) : ProfileRow := profile_row (sd_profile dr) (sd_now dr) profile.
Definition v31_node (dr : SeedDraws) (o : V31NodeOptions) (pub : bytes) : Node :=
  mkNode (sd_node dr) (Some (sd_profile dr)) (vo_NodeRegion o) (vo_NodeHostname o) #"unknown"
    (endpointWithPort (vo_NodeEndpoint o) (vo_NodeBasePort o)) (vo_NodeBasePort o) None (vo_NodeIface o) pub (sd_now dr).
Definition v31_pool (dr : SeedDraws) (tenant : Tenant) (cidr : Prefix) : AddressPool :=
  mkPool (sd_pool dr) (t_ID tenant) (sd_node dr) cidr None #"sequential".
Definition v31_store (dr : SeedDraws) (o : V31NodeOptions) (tenant : Tenant) (profile : ProtocolProfile) (pub : bytes)
    (cidr : Prefix) (s : Store) : Store :=
  set_pools (fun l => l ++ [v31_pool dr tenant cidr])
    (set_nodes (fun l => l ++ [v31_node dr o pub])
      (set_profiles (fun l => l ++ [v31_profile_row dr profile]) s)).

(** What the availability checks establish. *)
Definition available (o : V31NodeOptions) (cidr : Prefix) (s : Store) : Prop :=
  Forall (fun row => pw_name row <> vo_ProfileName o) (st_profiles s)
  /\ Forall (fun n => n_Hostname n <> vo_NodeHostname o /\ n_InterfaceName n <> vo_NodeIface o
                      /\ n_BasePort n <> vo_NodeBasePort o) (st_nodes s)
  /\ Forall (fun a => cidr_overlaps (ap_CIDR a) cidr = false) (st_pools s).

Lemma provision_tx_cases dr o cidr tenant kp profile path config v s r v' s' :
  pv_configCreated v = false ->
  provision_tx dr o cidr tenant kp profile path config (v, s) = (r, (v', s')) ->
  (r = Ok tt /\ available o cidr s /\ s' = v31_store dr o tenant profile (kp_PublicKey kp) cidr s
   /\ pv_configCreated v' = true /\ fs_files (pv_fs v) !! path = None
   /\ fs_files (pv_fs v') = <[path := mkFile config mode_private]> (fs_files (pv_fs v))
   /\ vr_ServerPublicKey (pv_result v') = kp_PublicKey kp /\ vr_NodeID (pv_result v') = sd_node dr
   /\ vr_ConfigPath (pv_result v') = path /\ (store_ok s -> prefix_ok cidr -> store_ok s'))
  \/ (exists e, r = Err e /\ pv_configCreated v' = false /\ undone path (fs_files (pv_fs v)) (fs_files (pv_fs v'))).
Proof.
  intros Hv H. unfold provision_tx in H.
  apply bind_cases in H as [([] & [v0 s0] & H1 & H)|(e & H & ->)].
  2:{ right. apply on_store_inv in H as [-> _]. exists e. split_and!; [done..|by left]. }
  apply on_store_inv in H1 as [-> H1]. apply ensure_inv in H1 as [-> Hav]. specialize (Hav eq_refl).
  apply bind_cases in H as [(p & [v1 s1] & H1 & H)|(e & H & ->)].
  2:{ right. apply wrapped_store_inv in H as [-> _]. exists e. split_and!; [done..|by left]. }
  apply wrapped_store_inv in H1 as (-> & r0 & H1 & Hr0). destruct r0 as [p0|e0]; [injection Hr0 as <-|done].
  assert (KP : store_ok s -> store_ok s1) by (intros Hs; apply (preserves_after H1); [by apply preserves_InsertProfile|done]).
  apply insertProfile_inv in H1 as [(? & [=] & _)|(_ & [= ->] & ->)].
  apply bind_cases in H as [(n & [v2 s2] & H1 & H)|(e & H & ->)].
  2:{ right. apply wrapped_store_inv in H as [-> _]. exists e. split_and!; [done..|by left]. }
  apply wrapped_store_inv in H1 as (-> & r0 & H1 & Hr0). destruct r0 as [n0|e0]; [injection Hr0 as <-|done].
  assert (KN : store_ok _ -> store_ok s2) by (intros Hs; apply (preserves_after H1); [by apply preserves_insertNode|done]).
  apply insertNode_inv in H1 as [(? & [=] & _)|([= ->] & ->)].
  apply bind_cases in H as [(pid & [v3 s3] & H1 & H)|(e & H & ->)].
  2:{ right. apply wrapped_store_inv in H as [-> _]. exists e. split_and!; [done..|by left]. }
  apply wrapped_store_inv in H1 as (-> & r0 & H1 & Hr0). destruct r0 as [pid0|e0]; [injection Hr0 as <-|done].
  assert (KC : prefix_ok cidr -> store_ok _ -> store_ok s3) by (intros Hc Hs; apply (preserves_after H1); [by apply preserves_createPool|done]).
  apply createPool_inv in H1 as [(? & [=] & _)|([= ->] & ->)].
  apply bind_cases in H as [([] & [v4 s4] & H1 & H)|(e & H & ->)].
  - unfold on_var_files in H1. destruct (writeBootstrapConfigExclusive path config (pv_fs v)) as [rw fs] eqn:E.
    injection H1 as -> <- <-. apply exclusive_spec in E as [(_ & Hn & Hf)|(? & [=] & _)].
    injection H as <- <- <-. left. split_and!; try done. auto.
  - unfold on_var_files in H. destruct (writeBootstrapConfigExclusive path config (pv_fs v)) as [rw fs] eqn:E.
    injection H as -> <- <-. apply exclusive_spec in E as [([=] & _)|(e' & _ & Hf)]. right. eauto.
Qed.

(** What the database has after a run, whatever happens to the files. *)
Lemma provision_tx_store dr o cidr tenant kp profile path config v s v' s' :
  provision_tx dr o cidr tenant kp profile path config (v, s) = (Ok tt, (v', s')) ->
  s' = v31_store dr o tenant profile (kp_PublicKey kp) cidr s /\ (store_ok s -> prefix_ok cidr -> store_ok s').
Proof.
  intros H. unfold provision_tx in H. apply bind_inv in H as ([] & [v0 s0] & H1 & H).
  apply on_store_inv in H1 as [-> H1]. apply ensure_inv in H1 as [-> _].
  apply bind_inv in H as (p & [v1 s1] & H1 & H). apply wrapped_store_inv in H1 as (-> & [p0|e0] & H1 & Hr0); [injection Hr0 as <-|done].
  pose proof (preserves_after H1 (preserves_InsertProfile _ _ _)) as KP.
  apply insertProfile_inv in H1 as [(? & [=] & _)|(_ & [= ->] & ->)].
  apply bind_inv in H as (n & [v2 s2] & H1 & H). apply wrapped_store_inv in H1 as (-> & [n0|e0] & H1 & Hr0); [injection Hr0 as <-|done].
  pose proof (preserves_after H1 (preserves_insertNode _ _ _)) as KN.
  apply insertNode_inv in H1 as [(? & [=] & _)|([= ->] & ->)].
  apply bind_inv in H as (pid & [v3 s3] & H1 & H). apply wrapped_store_inv in H1 as (-> & [pid0|e0] & H1 & Hr0); [injection Hr0 as <-|done].
  assert (KC : prefix_ok cidr -> store_ok _ -> store_ok s3) by (intros Hc Hs; apply (preserves_after H1); [by apply preserves_createPool|done]).
  apply createPool_inv in H1 as [(? & [=] & _)|([= ->] & ->)].
  apply bind_inv in H as ([] & [v4 s4] & H1 & H). unfold on_var_files in H1.
  destruct (writeBootstrapConfigExclusive path config (pv_fs v)) as [rw fs]. injection H1 as _ _ <-. injection H as _ <-. auto.
Qed.

Lemma provision_commit_store dr commit o cidr tenant kp profile path config fs s :
  let s' := snd (snd (provision_commit dr commit o cidr tenant kp profile path config (fs, s))) in
  s' = s \/ (s' = v31_store dr o tenant profile (kp_PublicKey kp) cidr s /\ (store_ok s -> prefix_ok cidr -> store_ok s')).
Proof.
  cbv zeta. unfold provision_commit, InTx. destruct ((_ ;; of_result commit) _) as [[[]|e] [v1 s1]] eqn:H; [right|by left].
  apply bind_inv in H as ([] & [v0 s0] & H1 & H). apply provision_tx_store in H1. destruct commit as [[]|e]; [|done].
  injection H as <- <-. exact H1.
Qed.

Lemma provision_commit_cases dr commit o cidr tenant kp profile path config fs s r fs' s' :
  provision_commit dr commit o cidr tenant kp profile path config (fs, s) = (r, (fs', s')) ->
  (exists res, r = Ok res /\ commit = Ok tt /\ available o cidr s
     /\ s' = v31_store dr o tenant profile (kp_PublicKey kp) cidr s /\ fs_files fs !! path = None
     /\ fs_files fs' = <[path := mkFile config mode_private]> (fs_files fs)
     /\ vr_ServerPublicKey res = kp_PublicKey kp /\ vr_NodeID res = sd_node dr /\ vr_ConfigPath res = path
     /\ (store_ok s -> prefix_ok cidr -> store_ok s'))
  \/ (exists e, r = Err e /\ s' = s /\ undone path (fs_files fs) (fs_files fs')).
Proof.
  unfold provision_commit, InTx. destruct ((_ ;; of_result commit) _) as [rt [v1 s1]] eqn:H.
  apply bind_cases in H as [([] & [v0 s0] & H1 & H)|(e & H & ->)].
  - apply provision_tx_cases in H1 as [(_ & Hav & -> & Hc & Hn & Hf & Hk & Hid & Hp & Hok)|(? & [=] & _)]; [|done].
    cbn in Hf, Hn. injection H as <- <- <-. destruct commit as [[]|e]; intros [= <- <- <-].
    + left. exists (pv_result v0). split_and!; done.
    + right. exists e. split_and!; [done..|]. rewrite Hc. unfold ignored. destruct (Remove path (pv_fs v0)) as [rr fs5] eqn:Er.
      eapply removed_undone; [done|exact Hf| |exact Er]. by apply delete_insert_id.
  - apply provision_tx_cases in H as [([=] & _)|(e' & _ & Hc & Hf)]; [|done].
    intros [= <- <- <-]. right. exists e. rewrite Hc. split_and!; done.
Qed.
End provision.

(** ** The written config *)

Lemma last_app_r {A} (a b : list A) c : last b = Some c -> last (a ++ b) = Some c.
Proof. intros H. rewrite last_app_ne; [done|]. by intros ->. Qed.

Lemma key_text_line s : s <> [] -> key_text s -> line_ok s.
Proof.
  intros Hn H. split; [by apply solid_Forall|]. intros Hin. eapply Forall_forall in H; [|exact Hin].
  destruct H as [H _]. by vm_compute in H.
Qed.

(** No newline in a text put together from such pieces. *)
Ltac no_nl := repeat (apply not_elem_of_app; split); try done; apply (bool_decide_unpack _); by vm_compute.

Lemma natHooks_lines pool iface egress enabled :
  nl ∉ Prefix_String pool -> nl ∉ iface -> nl ∉ egress ->
  opt_value_ok (fst (natHooks pool iface egress enabled)) /\ opt_value_ok (snd (natHooks pool iface egress enabled)).
Proof.
  intros Hp Hi He. unfold natHooks. destruct enabled; cbn [negb fst snd]; [|split; by left].
  assert (Hc : solid_byte "i"%char /\ solid_byte "E"%char /\ solid_byte "e"%char) by (by vm_compute).
  destruct Hc as (Hc1 & Hc2 & Hc3). split; right; split.
  - split; [by exists "i"%char|]. exists "E"%char. split; [|done]. cbn [Join].
    repeat lazymatch goal with |- last (_ ++ _) = _ => apply last_app_r end. reflexivity.
  - cbn [Join]. no_nl.
  - split; [by exists "i"%char|]. exists "e"%char. split; [|done]. cbn [Join].
    repeat lazymatch goal with |- last (_ ++ _) = _ => apply last_app_r end. reflexivity.
  - cbn [Join]. no_nl.
Qed.

(** The address of the server is the one after the network's. *)
Lemma serverAddress_ok pool text :
  prefix_ok pool -> serverAddressFromPool pool = Ok text ->
  exists z, pf_addr (Masked pool) = A4 z /\ Next (A4 z) = A4 (z + 1) /\ Prefix_Contains (Masked pool) (A4 (z + 1)) = true
    /\ text = Prefix_String (mkPrefix (A4 (z + 1)) (pf_bits pool)) /\ prefix_ok (mkPrefix (A4 (z + 1)) (pf_bits pool)).
Proof.
  intros Hp. pose proof (masked_ok_Masked _ Hp) as [Hm _]. unfold serverAddressFromPool.
  assert (pf_bits (Masked pool) = pf_bits pool) as Hb.
  { unfold Masked, Prefix_IsValid. destruct Hp as (_ & _ & _ & Hb). by rewrite (proj2 (Z.leb_le 0 _)) by lia. }
  destruct (pf_addr (Masked pool)) as [|z|z zn] eqn:Ea; cbn [Is4 negb]; try done.
  unfold Next. cbn [addr_num BitLen with_num]. destruct (Z.ltb_spec (z + 1) (2 ^ 32)) as [Hz|Hz]; [|done].
  cbn [Addr_IsValid negb orb]. destruct (Prefix_Contains (Masked pool) (A4 (z + 1))) eqn:Hc; [|done].
  intros [= <-]. destruct Hm as (Ha & _ & _ & Hbits). rewrite Ea in Ha, Hbits. unfold addr_ok in Ha. cbn in Ha, Hbits.
  rewrite Hb in *. exists z. split_and!; try done.
  - by rewrite (proj2 (Z.ltb_lt _ _)).
  - unfold Prefix_String, Prefix_IsValid. cbn [pf_bits pf_addr]. by rewrite (proj2 (Z.leb_le 0 _)) by lia.
  - unfold prefix_ok, addr_ok. cbn [pf_addr pf_bits addr_num BitLen Addr_IsValid addr_zone]. split_and!; try done; lia.
Qed.

Lemma ParsePrefix_masked s p : ParsePrefix s = Some p -> prefix_ok p /\ masked_ok (Masked p).
Proof. intros H%ParsePrefix_ok. split; [done|]. by apply masked_ok_Masked. Qed.

Lemma parseCIDR_ok Quote prefix_error text p : parseCIDR Quote prefix_error text = Ok p -> prefix_ok p.
Proof.
  unfold parseCIDR. destruct (ParsePrefix _) as [q|] eqn:E; [|done]. intros [= <-].
  by apply ParsePrefix_masked in E as [_ [? _]].
Qed.

Lemma Valid_nl name : ValidInterfaceName name = true -> nl ∉ name.
Proof.
  intros Hv Hin. destruct (ValidInterfaceName_safe name Hv) as (_ & _ & _ & _ & _ & H).
  eapply Forall_forall in H; [|exact Hin]. destruct H as [H _]. by vm_compute in H.
Qed.

(** The hooks of a run whose names were checked fit their lines. *)
Lemma hooks_ok pool iface egress enabled :
  prefix_ok pool -> ValidInterfaceName iface = true -> (enabled = true -> ValidInterfaceName egress = true) ->
  opt_value_ok (fst (natHooks pool iface egress enabled)) /\ opt_value_ok (snd (natHooks pool iface egress enabled)).
Proof.
  intros Hp Hi He. destruct enabled; [|split; by left].
  apply natHooks_lines; [by apply Prefix_String_item|by apply Valid_nl|by apply Valid_nl, He].
Qed.

(** What a node needs of its first config: its key and its port can be read from
    it. *)
Lemma bootstrap_config priv address port hooks profile :
  line_ok priv -> line_ok address -> opt_value_ok (fst hooks) -> opt_value_ok (snd hooks) -> printable_profile profile ->
  let config := Server (bootstrap_interface priv address port hooks) profile [] in
  InterfaceValue config #"PrivateKey" = priv
  /\ (0 < port -> InterfaceValue config #"ListenPort" = FormatInt port)
  /\ InterfaceValue config #"Address" = address.
Proof.
  intros Hk Ha H1 H2 Hp config.
  assert (Hi : printable_interface (bootstrap_interface priv address port hooks)).
  { split_and!; cbn.
    - constructor; [by right|]. by repeat (constructor; [done|]).
    - by constructor.
    - constructor. }
  assert (Hne : nonempty priv = true) by (destruct Hk as [[(c & Hc & _) _] _]; by destruct priv).
  assert (Hv : forall key, InterfaceValue config key
    = default [] (kv_lookup (ToLower (TrimSpace key)) (interface_kvs (bootstrap_interface priv address port hooks) profile))).
  { intros key. by apply InterfaceValue_Server. }
  unfold interface_kvs in Hv. cbn [bootstrap_interface if_Address if_ListenPort if_PrivateKey fmap list_fmap app] in Hv. rewrite Hne in Hv.
  split_and!.
  - rewrite Hv. by destruct (0 <? port).
  - intros Hport. rewrite Hv. by rewrite (proj2 (Z.ltb_lt 0 port)).
  - by rewrite Hv.
Qed.

(** ** Provisioning a V3.1 node *)

Section theorems.
Context {fenv : FileEnv}.
Context (Quote : bytes -> bytes) (prefix_error : bytes -> bytes) (X25519 : list Z -> result bytes (list Z)).

(** Something computed from the arguments alone. *)
Lemma of_result_bind {S A B} (x : result error A) (f : A -> SE S B) s r s' :
  (of_result x ≫= f) s = (r, s') -> (exists e, x = Err e /\ r = Err e /\ s' = s) \/ (exists a, x = Ok a /\ f a s = (r, s')).
Proof. destruct x as [a|e]; [by right; exists a|]. intros [= <- <-]. left. eauto. Qed.

Lemma wrapped_result_bind {S A B} pre (x : result error A) (f : A -> SE S B) s r s' :
  (wrapping pre (of_result x) ≫= f) s = (r, s') ->
  (exists e, x = Err e /\ r = Err (EWrap pre e []) /\ s' = s) \/ (exists a, x = Ok a /\ f a s = (r, s')).
Proof. destruct x as [a|e]; [by right; exists a|]. intros [= <- <-]. left. eauto. Qed.

(** The parts of a run: a failure that changed nothing, or everything up to the
    transaction. *)
Lemma provision_parts dr commit opts fs s r fs' s' :
  let o := normalizeV31NodeOptions opts in
  let path := path_Join (vo_BootstrapConfDir o) (vo_NodeIface o ++ #".conf") in
  ProvisionV31Node Quote prefix_error X25519 dr commit opts (fs, s) = (r, (fs', s')) ->
  (exists e, r = Err e /\ s' = s /\ fs' = fs)
  \/ (exists pool tenant hk kp address,
        validateV31NodeOptions Quote o = Ok tt /\ ParsePrefix (vo_PoolCIDR o) = Some pool
        /\ tenant ∈ st_tenants s /\ t_Slug tenant = TrimSpace (vo_TenantSlug o)
        /\ GeneratePresharedKey (sd_psk dr) = Ok hk /\ GenerateKeyPair (sd_key dr) X25519 = Ok kp
        /\ serverAddressFromPool (Masked pool) = Ok address
        /\ Validate (defaultV31Profile (TrimSpace (vo_ProfileName o)) hk) = []
        /\ provision_commit dr commit o (Masked pool) tenant kp (defaultV31Profile (TrimSpace (vo_ProfileName o)) hk) path
             (Server (bootstrap_interface (kp_PrivateKey kp) address (vo_NodeBasePort o)
                        (natHooks (Masked pool) (vo_NodeIface o) (vo_EgressIface o) (vo_EnableNAT o)))
                (defaultV31Profile (TrimSpace (vo_ProfileName o)) hk) []) (fs, s) = (r, (fs', s'))).
Proof.
  intros o path H. unfold ProvisionV31Node in H. fold o in H.
  apply of_result_bind in H as [(e & _ & -> & [= -> ->])|([] & Hval & H)]; [eauto|].
  apply of_result_bind in H as [(e & _ & -> & [= -> ->])|(pool' & Hpool & H)]; [eauto|].
  unfold parseCIDR in Hpool. destruct (ParsePrefix (vo_PoolCIDR o)) as [pool|]; [injection Hpool as <-|done].
  apply bind_cases in H as [(tenant & [fs1 s1] & H1 & H)|(e & H & ->)].
  2:{ left. apply wrapping_inv in H as [(? & _ & [=])|(e' & H & _)]. apply on_store_inv in H as [-> H].
      unfold Tenants_GetBySlug in H. rewrite asks_bind in H. destruct (find _ _); by injection H as _ ->; eauto. }
  apply wrapping_inv in H1 as [(? & H1 & [= <-])|(? & _ & [=])]. apply on_store_inv in H1 as [-> H1].
  unfold Tenants_GetBySlug in H1. rewrite asks_bind in H1.
  destruct (find _ _) as [t|] eqn:Hfind; [injection H1 as -> <-|done].
  apply find_some in Hfind as [Hin%list_elem_of_In Hslug%bool_decide_eq_true].
  apply wrapped_result_bind in H as [(e & _ & -> & [= -> ->])|(hk & Hhk & H)]; [eauto|].
  apply wrapped_result_bind in H as [(e & _ & -> & [= -> ->])|(kp & Hkp & H)]; [eauto|].
  destruct (Validate _) eqn:Hprof in H; [|injection H as <- <- <-; eauto].
  change ((of_result (serverAddressFromPool (Masked pool)) ≫= fun address =>
    provision_commit dr commit o (Masked pool) tenant kp (defaultV31Profile (TrimSpace (vo_ProfileName o)) hk) path
      (Server (bootstrap_interface (kp_PrivateKey kp) address (vo_NodeBasePort o)
        (natHooks (Masked pool) (vo_NodeIface o) (vo_EgressIface o) (vo_EnableNAT o)))
        (defaultV31Profile (TrimSpace (vo_ProfileName o)) hk) [])) (fs, s) = (r, (fs', s'))) in H.
  apply of_result_bind in H as [(e & _ & -> & [= -> ->])|(address & Haddr & H)]; [eauto|].
  right. exists pool, tenant, hk, kp, address. split_and!; done.
Qed.

(** (Provisioning is all or nothing.) Whatever goes wrong while a V3.1 node is
    provisioned - an option, a name, port, interface or network already in use, a
    constraint, the directory, the write, the sync or the commit - the database is
    as it was, and so are the files: an existing config was never touched, and the one
    created for the attempt is gone unless removing it failed too. *)
Theorem provision_atomic dr commit opts fs s e fs' s' :
  ProvisionV31Node Quote prefix_error X25519 dr commit opts (fs, s) = (Err e, (fs', s')) ->
  let o := normalizeV31NodeOptions opts in
  s' = s /\ undone (path_Join (vo_BootstrapConfDir o) (vo_NodeIface o ++ #".conf")) (fs_files fs) (fs_files fs').
Proof.
  intros H o. apply provision_parts in H as [(_ & _ & -> & ->)|(pool & tenant & hk & kp & address & _ & _ & _ & _ & _ & _ & _ & _ & H)];
    [by split; [|left]|]. by apply provision_commit_cases in H as [(? & [=] & _)|(_ & _ & -> & Hu)].
Qed.

Lemma pair_lines b kp : key_bytes b -> (forall k, key_bytes k -> exists p, X25519 k = Ok p /\ key_bytes p) ->
  GenerateKeyPair (Ok b) X25519 = Ok kp ->
  line_ok (kp_PrivateKey kp) /\ DerivePublicKey X25519 (kp_PrivateKey kp) = Ok (kp_PublicKey kp).
Proof.
  intros Hb Hx H. pose proof (clamp_key_bytes b Hb) as Hc. destruct (Hx _ Hc) as (p & Hp & Hpk).
  unfold GenerateKeyPair in H. rewrite Hp in H. injection H as <-. cbn [kp_PrivateKey kp_PublicKey].
  split; [|by unfold DerivePublicKey; rewrite DecodeKey_encode, Hp].
  apply key_text_line; [|apply b64_encode_solid, Hc]. intros E.
  pose proof (DecodeKey_encode _ Hc) as Hd. by rewrite E in Hd.
Qed.

Lemma junk1_line : line_ok defaultSpecialJunk1.
Proof. split; [apply solidb_solid; by vm_compute|]. apply (bool_decide_unpack _). by vm_compute. Qed.

Lemma psk_line b hk : key_bytes b -> GeneratePresharedKey (Ok b) = Ok hk -> opt_value_ok hk.
Proof.
  intros Hb [= <-]. right. apply key_text_line; [|apply b64_encode_solid, Hb]. intros E.
  pose proof (DecodeKey_encode _ Hb) as Hd. by rewrite E in Hd.
Qed.

Lemma validated_options o : validateV31NodeOptions Quote o = Ok tt ->
  1 <= vo_NodeBasePort o <= 65535 /\ ValidInterfaceName (vo_NodeIface o) = true
  /\ (vo_EnableNAT o = true -> ValidInterfaceName (vo_EgressIface o) = true).
Proof.
  unfold validateV31NodeOptions. destruct (find _ _) as [[name v]|]; [done|].
  destruct (_ || _) eqn:Hp; [done|]. destruct (ValidInterfaceName (vo_NodeIface o)) eqn:Hi; cbn [negb]; [|done].
  destruct (vo_EnableNAT o); cbn [andb]; [|intros _; bool_to_prop; split_and!; [lia..|done|done]].
  destruct (ValidInterfaceName (vo_EgressIface o)) eqn:He; cbn [negb]; [|done]. intros _. bool_to_prop. by split_and!; [lia|lia|..].
Qed.

(** C16: (What provisioning creates.) With random bytes of key length and an X25519 that
    answers every key, a provisioning run that succeeds committed: it
    adds exactly one profile, one node and one pool of the named tenant and keeps
    the database invariant; no address of the new pool belongs to an existing one,
    and no existing node has its hostname, interface or port.  The only file that
    changed is the node's config, which did not exist, is private to its owner and
    holds the port and the private key whose public key the new node row and the
    result carry. *)
Theorem provision_effect dr commit opts fs s res fs' s' b h :
  store_ok s ->
  sd_key dr = Ok b -> key_bytes b -> sd_psk dr = Ok h -> key_bytes h ->
  (forall k, key_bytes k -> exists p, X25519 k = Ok p /\ key_bytes p) ->
  ProvisionV31Node Quote prefix_error X25519 dr commit opts (fs, s) = (Ok res, (fs', s')) ->
  let o := normalizeV31NodeOptions opts in
  let path := path_Join (vo_BootstrapConfDir o) (vo_NodeIface o ++ #".conf") in
  exists tenant pool hk config,
    tenant ∈ st_tenants s /\ t_Slug tenant = TrimSpace (vo_TenantSlug o) /\ ParsePrefix (vo_PoolCIDR o) = Some pool
    /\ s' = v31_store dr o tenant (defaultV31Profile (TrimSpace (vo_ProfileName o)) hk) (vr_ServerPublicKey res) (Masked pool) s
    /\ store_ok s'
    /\ (forall a x, a ∈ st_pools s -> Prefix_Contains (ap_CIDR a) x = true -> Prefix_Contains (Masked pool) x = false)
    /\ Forall (fun n => n_Hostname n <> vo_NodeHostname o /\ n_InterfaceName n <> vo_NodeIface o
                        /\ n_BasePort n <> vo_NodeBasePort o) (st_nodes s)
    /\ fs_files fs !! path = None /\ fs_files fs' = <[path := mkFile config mode_private]> (fs_files fs)
    /\ InterfaceValue config #"ListenPort" = FormatInt (vo_NodeBasePort o)
    /\ DerivePublicKey X25519 (InterfaceValue config #"PrivateKey") = Ok (vr_ServerPublicKey res).
Proof.
  intros Hs Hb Hbk Hh Hhk Hx H o path.
  apply provision_parts in H as [(? & [=] & _)|(pool & tenant & hk & kp & address & Hval & Hpool & Hin & Hslug & Ghk & Gkp & Haddr & _ & H)].
  fold o path in Hval, Hpool, Hslug, H.
  apply provision_commit_cases in H as [(r & [= <-] & _ & (_ & Hnodes & Hpools) & -> & Hfree & Hfs & Hpub & _ & _ & Hok)|(? & [=] & _)].
  apply ParsePrefix_masked in Hpool as Hpm. destruct Hpm as [Hpok [Hmok _]].
  destruct (serverAddress_ok _ _ Hmok Haddr) as (z & _ & _ & _ & Htext & Haok). apply Prefix_String_item in Haok as (Hsolid & Hnl & _).
  destruct (validated_options _ Hval) as (Hport & Hiface & Hegress).
  rewrite Hb in Gkp. destruct (pair_lines b kp Hbk Hx Gkp) as [Hpriv Hder].
  rewrite Hh in Ghk. pose proof (psk_line h hk Hhk Ghk) as Hhkl.
  destruct (hooks_ok (Masked pool) (vo_NodeIface o) (vo_EgressIface o) (vo_EnableNAT o) Hmok Hiface Hegress) as [Hup Hdown].
  assert (printable_profile (defaultV31Profile (TrimSpace (vo_ProfileName o)) hk)) as Hprof.
  { unfold printable_profile. cbn. constructor; [right; apply junk1_line|]. do 4 (constructor; [by left|]). by constructor. }
  assert (line_ok address) as Hal by (rewrite Htext; by split).
  destruct (bootstrap_config _ _ (vo_NodeBasePort o) _ _ Hpriv Hal Hup Hdown Hprof) as (Hk & Hl & _).
  eexists tenant, pool, hk, _. rewrite Hpub. do 3 (split; [done|]). split; [done|]. split; [by auto|]. split.
  { intros a x Ha Hc. destruct (Prefix_Contains (Masked pool) x) eqn:Hc'; [|done].
    eapply Forall_forall in Hpools; [|exact Ha]. rewrite (overlaps_shared _ _ x) in Hpools; [done| |done..].
    destruct Hs as [_ _ _ Hp _ _ _ _]. by eapply Forall_forall in Hp. }
  split; [done|]. split; [done|]. split; [exact Hfs|]. split; [apply Hl; lia|]. by rewrite Hk.
Qed.
End theorems.

(** ** The server's own address *)

(** (The server's address and the allocator.) In a pool of up to 30 bits the
    address written into the server's config is exactly the gateway address, which
    the allocator never hands out.  In a pool of 31 bits the config gives the server
    the second address all the same, but nothing reserves it there: it is one of the
    addresses the allocator gives to peers. *)
Theorem server_address_reserved pool text :
  prefix_ok pool -> serverAddressFromPool pool = Ok text ->
  exists a, text = Prefix_String (mkPrefix a (pf_bits pool)) /\ pf_bits pool <= 31
    /\ (pf_bits pool < 31 -> gatewayAddress pool = Some a)
    /\ (pf_bits pool = 31 -> gatewayAddress pool = None /\ usable pool a).
Proof.
  intros Hp H. destruct (serverAddress_ok _ _ Hp H) as (z & Ha & Hn & Hc & -> & Hok). exists (A4 (z + 1)).
  pose proof (masked_ok_Masked _ Hp) as [Hm Hz].
  assert (pf_bits (Masked pool) = pf_bits pool) as Hb.
  { unfold Masked, Prefix_IsValid. destruct Hp as (_ & _ & _ & Hb). by rewrite (proj2 (Z.leb_le 0 _)) by lia. }
  assert (Hv : Prefix_IsValid (Masked pool) = true).
  { unfold Prefix_IsValid. rewrite Hb. apply Z.leb_le. destruct Hp as (_ & _ & _ & ?). lia. }
  assert (H31 : pf_bits pool <= 31).
  { apply (Contains_num _ _ Hm) in Hc as (_ & _ & Hd). rewrite Ha in Hd, Hz. cbn [addr_num] in Hd, Hz.
    unfold host_bits in *. rewrite Ha, Hb in *. cbn [BitLen] in *.
    destruct (Z.le_gt_cases (pf_bits pool) 31) as [?|Hg]; [done|].
    destruct Hok as (_ & _ & _ & Hbits). cbn in Hbits. replace (32 - pf_bits pool) with 0 in Hd by lia.
    rewrite !Z.div_1_r in Hd. lia. }
  split_and!; [done|done| |].
  - intros Hlt. unfold gatewayAddress. rewrite Hv, Ha, Hb. cbn [Is4 negb orb].
    rewrite (proj2 (Z.leb_gt 31 _)) by lia. rewrite Hn. cbn [Addr_IsValid negb orb]. by rewrite Hc.
  - intros He. unfold gatewayAddress. rewrite Hv, Ha, Hb. cbn [Is4 negb orb].
    rewrite (proj2 (Z.leb_le 31 _)) by lia. split; [done|]. exists (z + 1).
    assert (exists y, pf_addr pool = A4 y) as [y ->].
    { unfold Masked in Ha. destruct (Prefix_IsValid pool); [|done]. cbn in Ha. destruct (pf_addr pool); try done. eauto. }
    split; [done|]. unfold usable_lo, usable_hi, skips_ends, host_bits. rewrite Ha, Hb, He. cbn. lia.
Qed.

Lemma server_address_reserved_witness :
  serverAddressFromPool (mkPrefix (A4 0x0a080000) 31) = Ok #"10.8.0.1/31"
  /\ gatewayAddress (mkPrefix (A4 0x0a080000) 31) = None /\ usable (mkPrefix (A4 0x0a080000) 31) (A4 0x0a080001).
Proof.
  destruct (server_address_reserved (mkPrefix (A4 0x0a080000) 31) #"10.8.0.1/31") as (a & Ht & _ & _ & H).
  - apply (bool_decide_unpack _). vm_compute. exact I.
  - vm_compute. reflexivity.
  - destruct (H eq_refl) as [Hg Hu]. split; [vm_compute; reflexivity|]. split; [exact Hg|].
    destruct Hu as (x & -> & Hx). exists 0x0a080001. split; [reflexivity|]. vm_compute. split; discriminate.
Defined.

(** ** Seeding *)

Section seeding.
Context {fenv : FileEnv}.
Context (Quote : bytes -> bytes) (prefix_error : bytes -> bytes) (X25519 : list Z -> result bytes (list Z)).

Local Abbreviation Seed := (RunIfEmpty Quote prefix_error X25519).

(** Settings that reach the check of the tenants. *)
Definition runs (d : Defaults) : Prop :=
  d_Enabled d = true /\ d_BootstrapConfDir d <> [] /\ is_Some (ParsePrefix (d_PoolCIDR d)).

(** With a tenant in the database nothing happens. *)
Lemma seed_skips dr d fs s : runs d -> st_tenants s <> [] -> Seed dr d (fs, s) = (Ok tt, (fs, s)).
Proof.
  intros (He & Hd & pool & Hp) Ht. unfold RunIfEmpty. rewrite He, bool_decide_eq_false_2 by done. cbn [negb].
  unfold parseCIDR. rewrite Hp. unfold mbind at 1, SE_bind at 1, of_result at 1. rewrite asks_bind. cbn [snd].
  rewrite bool_decide_eq_false_2; [done|]. by destruct (st_tenants s).
Qed.

Definition seed_tenant (dr : SeedDraws) (d : Defaults) : Tenant := mkTenant (sd_tenant dr) (d_TenantSlug d) #"active" (sd_now dr).
Definition seed_node (dr : SeedDraws) (d : Defaults) (pub : bytes) : Node :=
  mkNode (sd_node dr) (Some (sd_profile dr)) (d_NodeRegion d) (d_NodeHostname d) #"unknown"
    (endpointWithPort (d_NodeEndpoint d) (d_NodeBasePort d)) (d_NodeBasePort d) None (d_NodeIface d) pub (sd_now dr).
Definition seeded (dr : SeedDraws) (d : Defaults) (pub : bytes) (cidr : Prefix) (s : Store) : Store :=
  set_pools (fun l => l ++ [mkPool (sd_pool dr) (sd_tenant dr) (sd_node dr) cidr None #"sequential"])
    (set_nodes (fun l => l ++ [seed_node dr d pub])
      (set_profiles (fun l => l ++ [profile_row (sd_profile dr) (sd_now dr) (default_profile (d_ProfileName d))])
        (set_tenants (fun l => l ++ [seed_tenant dr d]) s))).

Lemma Upsert_empty newID now slug s r s' :
  st_tenants s = [] -> Tenants_Upsert newID now slug s = (r, s') ->
  r = Ok (mkTenant newID slug #"active" now) /\ s' = set_tenants (fun l => l ++ [mkTenant newID slug #"active" now]) s.
Proof.
  intros E. unfold Tenants_Upsert. run_session. rewrite E. cbn [find]. run_session. rewrite E.
  cbn [has_id existsb negb]. intros H. by inversion H.
Qed.

(** A statement outside a transaction. *)
Lemma seed_stmt {A B} pre (m : SE Store A) (f : A -> SE (FS * Store) B) fs s r st' :
  (wrapping pre (on_store m) ≫= f) (fs, s) = (r, st') ->
  (exists a s1, m s = (Ok a, s1) /\ f a (fs, s1) = (r, st')) \/ (exists e s1, m s = (Err e, s1) /\ r = Err (EWrap pre e []) /\ st' = (fs, s1)).
Proof.
  intros H. apply bind_cases in H as [(a & [fs1 s1] & H1 & H)|(e & H & ->)].
  - apply wrapping_inv in H1 as [(? & H1 & [= <-])|(? & _ & [=])]. apply on_store_inv in H1 as [-> H1]. eauto.
  - destruct st' as [fs1 s1]. apply wrapping_inv in H as [(? & _ & [=])|(e' & H & [= ->])].
    apply on_store_inv in H as [-> H]. right. eauto 6.
Qed.

Lemma WriteFile_ok p data mode fs fs' :
  WriteFile p data mode fs = (Ok tt, fs') ->
  exists m, fs_files fs' = <[p := mkFile data m]> (fs_files fs) /\ (fs_files fs !! p = None -> m = mode).
Proof.
  unfold WriteFile. intros H. apply bind_inv in H as ([] & fs1 & H1 & H).
  apply sys_atomic_cases in H1 as [[_ H1]|(? & [=] & _)].
  assert (exists m, fs_files fs1 = <[p := mkFile [] m]> (fs_files fs) /\ (fs_files fs !! p = None -> m = mode)) as (m & H1' & Hm).
  { destruct (fs_files fs !! p) as [f|] eqn:E; [by exists (f_mode f)|by exists mode]. }
  apply bind_inv in H as (r & fs2 & H2 & H). unfold attempt in H2. destruct (WriteString p data fs1) as [rw fsw] eqn:Ew.
  injection H2 as <- <-. apply bind_inv in H as (c & fs3 & H3 & H). unfold attempt in H3.
  destruct (Close p fsw) as [rc fsc] eqn:Ec. injection H3 as <- <-. destruct rw as [[]|e]; [|done].
  injection H as -> <-. exists m. split; [|done]. apply sys_atomic_cases in Ec as [[_ ->]|(? & [=] & _)]. unfold id.
  unfold WriteString, sys in Ew. destruct (fault _ _); [|done]. injection Ew as <-. cbn. rewrite H1'. by rewrite alter_insert_eq.
Qed.

(** A successful run on a database without tenants executed every statement. *)
Lemma seed_parts dr d fs s fs' s' :
  d_Enabled d = true -> st_tenants s = [] -> Seed dr d (fs, s) = (Ok tt, (fs', s')) ->
  exists pool kp, runs d /\ ParsePrefix (d_PoolCIDR d) = Some pool /\ GenerateKeyPair (sd_key dr) X25519 = Ok kp
    /\ s' = seeded dr d (kp_PublicKey kp) (Masked pool) s /\ (store_ok s -> prefix_ok (Masked pool) -> store_ok s')
    /\ writeBootstrapConf Quote d (Masked pool) (kp_PrivateKey kp)
         (scanProfile (profile_row (sd_profile dr) (sd_now dr) (default_profile (d_ProfileName d)))) fs = (Ok tt, fs').
Proof.
  intros He Ht H. unfold RunIfEmpty in H. rewrite He in H. cbn [negb] in H. case_bool_decide as Hd; [done|].
  apply of_result_bind in H as [(? & _ & [=] & _)|(pool' & Hp & H)]. unfold parseCIDR in Hp.
  destruct (ParsePrefix (d_PoolCIDR d)) as [pool|] eqn:Hpool; [injection Hp as <-|done].
  rewrite asks_bind in H. cbn [snd] in H. rewrite Ht in H. cbn [length] in H. rewrite bool_decide_eq_true_2 in H by done. cbn [negb] in H.
  apply seed_stmt in H as [(t & s1 & H1 & H)|(? & ? & _ & [=] & _)].
  pose proof (preserves_after H1 (preserves_Upsert _ _ _)) as K1. apply Upsert_empty in H1 as [[= ->] ->]; [|done].
  apply seed_stmt in H as [(p & s2 & H1 & H)|(? & ? & _ & [=] & _)].
  pose proof (preserves_after H1 (preserves_InsertProfile _ _ _)) as K2.
  apply insertProfile_inv in H1 as [(? & [=] & _)|(_ & [= ->] & ->)].
  apply wrapped_result_bind in H as [(? & _ & [=] & _)|(kp & Hkp & H)].
  apply seed_stmt in H as [(n & s3 & H1 & H)|(? & ? & _ & [=] & _)].
  pose proof (preserves_after H1 (preserves_insertNode _ _ _)) as K3.
  apply insertNode_inv in H1 as [(? & [=] & _)|([= ->] & ->)].
  apply seed_stmt in H as [(pid & s4 & H1 & H)|(? & ? & _ & [=] & _)].
  assert (K4 : prefix_ok (Masked pool) -> store_ok _ -> store_ok s4)
    by (intros Hc Hs; apply (preserves_after H1); [by apply preserves_createPool|done]).
  apply createPool_inv in H1 as [(? & [=] & _)|([= ->] & ->)].
  apply wrapping_inv in H as [([] & H & _)|(? & _ & [=])]. unfold on_files in H.
  destruct (writeBootstrapConf _ _ _ _ _ fs) as [rw fs1] eqn:Ew. injection H as -> <- <-.
  exists pool, kp. split; [|split_and!; try done; auto]. split_and!; [done..|by rewrite Hpool].
Qed.

(** (A fresh installation.) Seeding a database without tenants that succeeds adds
    exactly the tenant, a valid profile, the node on it and its pool, keeps the
    database invariant, and leaves the node's config on disk with the private key
    that belongs to the node row's public key; running it again, whatever it would
    draw, changes nothing. *)
Theorem seed_effect dr d fs s fs' s' b :
  d_Enabled d = true -> st_tenants s = [] -> store_ok s ->
  sd_key dr = Ok b -> key_bytes b -> (forall k, key_bytes k -> exists p, X25519 k = Ok p /\ key_bytes p) ->
  Seed dr d (fs, s) = (Ok tt, (fs', s')) ->
  exists pub pool config m,
    ParsePrefix (d_PoolCIDR d) = Some pool /\ s' = seeded dr d pub (Masked pool) s /\ store_ok s'
    /\ fs_files fs' = <[bootstrap_path d := mkFile config m]> (fs_files fs)
    /\ (fs_files fs !! bootstrap_path d = None -> m = mode_private)
    /\ DerivePublicKey X25519 (InterfaceValue config #"PrivateKey") = Ok pub
    /\ forall dr', Seed dr' d (fs', s') = (Ok tt, (fs', s')).
Proof.
  intros He Ht Hs Hb Hbk Hx H. apply seed_parts in H as (pool & kp & Hruns & Hpool & Hkp & -> & Hok & Hw); [|done..].
  apply ParsePrefix_masked in Hpool as Hpm. destruct Hpm as [_ [Hmok _]].
  rewrite Hb in Hkp. destruct (pair_lines X25519 b kp Hbk Hx Hkp) as [Hpriv Hder].
  unfold writeBootstrapConf in Hw. destruct (ValidInterfaceName (d_NodeIface d)) eqn:Hi; [|done].
  destruct (d_EnableNAT d && _) eqn:Hn; [done|]. cbn [negb] in Hw.
  apply of_result_bind in Hw as [(? & _ & [=] & _)|(address & Haddr & Hw)].
  destruct (serverAddress_ok _ _ Hmok Haddr) as (z & _ & _ & _ & Htext & Haok). apply Prefix_String_item in Haok as (Hsolid & Hnl & _).
  apply bind_inv in Hw as ([] & fs1 & Hm & Hw). apply sys_atomic_cases in Hm as [[_ Hm]|(? & [=] & _)]. unfold id in Hm.
  apply WriteFile_ok in Hw as (m & Hf & Hmode). rewrite Hm in Hf, Hmode.
  destruct (hooks_ok (Masked pool) (d_NodeIface d) (d_EgressIface d) (d_EnableNAT d) Hmok Hi) as [Hup Hdown].
  { intros E. rewrite E in Hn. cbn in Hn. by apply negb_false_iff in Hn. }
  assert (line_ok address) as Hal by (rewrite Htext; by split).
  destruct (bootstrap_config (kp_PrivateKey kp) address (d_NodeBasePort d) _
              (scanProfile (profile_row (sd_profile dr) (sd_now dr) (default_profile (d_ProfileName d)))) Hpriv Hal Hup Hdown) as (Hk & _ & _).
  { unfold printable_profile. cbn. constructor; [right; apply junk1_line|]. by repeat (constructor; [by left|]). }
  eexists (kp_PublicKey kp), pool, _, m. split_and!; [done|done|by auto|exact Hf|done|by rewrite Hk|].
  intros dr'. apply seed_skips; [done|]. cbn. rewrite Ht. done.
Qed.

(** The statements on tables that are empty. *)
Lemma insertProfile_run newID now p s :
  Validate p = [] -> st_profiles s = [] ->
  insertProfile newID now p s
  = (Ok (scanProfile (profile_row newID now p)), set_profiles (fun l => l ++ [profile_row newID now p]) s).
Proof. intros Hv E. unfold insertProfile. rewrite Hv, asks_bind, E. reflexivity. Qed.

Lemma insertNode_run newID now n s :
  st_nodes s = [] -> profile_ref_ok s (n_ProfileID n) = true ->
  insertNode newID now n s = (Ok (node_row newID now n), set_nodes (fun l => l ++ [node_row newID now n]) s).
Proof.
  intros E Hr. unfold insertNode. rewrite asks_bind, E. cbn [existsb has_id orb negb check].
  unfold mbind at 1, SE_bind at 1. cbn [mret SE_ret]. rewrite asks_bind, Hr. reflexivity.
Qed.

Lemma createPool_run newID tid nid cidr s :
  st_pools s = [] -> has_id t_ID (st_tenants s) tid = true -> has_id n_ID (st_nodes s) nid = true ->
  createPool newID tid nid cidr s
  = (Ok newID, set_pools (fun l => l ++ [mkPool newID tid nid cidr None #"sequential"]) s).
Proof.
  intros E Ht Hn. unfold createPool. rewrite asks_bind, E. cbn [existsb has_id orb negb check].
  unfold mbind at 1, SE_bind at 1. cbn [mret SE_ret]. rewrite asks_bind, Ht, Hn. reflexivity.
Qed.

(** A computation or a statement that succeeds. *)
Lemma of_result_ok {S A B} (a : A) (f : A -> SE S B) s : (of_result (Ok a) ≫= f) s = f a s.
Proof. done. Qed.

Lemma wrapped_result_ok {S A B} pre (a : A) (f : A -> SE S B) s : (wrapping pre (of_result (Ok a)) ≫= f) s = f a s.
Proof. done. Qed.

Lemma seed_run {A B} pre (m : SE Store A) (f : A -> SE (FS * Store) B) fs s a s1 :
  m s = (Ok a, s1) -> (wrapping pre (on_store m) ≫= f) (fs, s) = f a (fs, s1).
Proof. intros H. unfold mbind, SE_bind, wrapping, on_store. by rewrite H. Qed.

(** (A failed seeding is never repaired.) With an interface name that is not
    acceptable, seeding an empty database inserts every row and only then refuses to
    write the config; from then on every run, with whatever settings, sees a tenant,
    reports success and changes nothing: the node's config is never written and its
    private key is lost. *)
Theorem seed_never_repaired dr d fs kp :
  runs d -> Validate (default_profile (d_ProfileName d)) = [] -> GenerateKeyPair (sd_key dr) X25519 = Ok kp ->
  ValidInterfaceName (d_NodeIface d) = false ->
  exists e s1, Seed dr d (fs, empty_store) = (Err e, (fs, s1)) /\ n_ServerPublicKey <$> st_nodes s1 = [kp_PublicKey kp]
    /\ forall dr' d' fs2, runs d' -> Seed dr' d' (fs2, s1) = (Ok tt, (fs2, s1)).
Proof.
  intros (He & Hd & pool & Hp) Hv Hk Hi. eexists _, (seeded dr d (kp_PublicKey kp) (Masked pool) empty_store). split_and!.
  - unfold RunIfEmpty. rewrite He, bool_decide_eq_false_2 by done. cbn [negb]. unfold parseCIDR. rewrite Hp.
    rewrite of_result_ok, asks_bind. cbn [snd st_tenants empty_store length].
    rewrite bool_decide_eq_true_2 by done. cbn [negb].
    erewrite seed_run by (destruct (Tenants_Upsert _ _ _ _) as [x y] eqn:E; by apply Upsert_empty in E as [-> ->]).
    erewrite seed_run by by apply insertProfile_run.
    rewrite Hk, wrapped_result_ok.
    erewrite seed_run by (apply insertNode_run; [done|]; cbn; by rewrite N.eqb_refl).
    erewrite seed_run by (apply createPool_run; cbn; by rewrite ?N.eqb_refl).
    unfold writeBootstrapConf. rewrite Hi. reflexivity.
  - done.
  - intros dr' d' fs2 Hr. by apply seed_skips.
Qed.
End seeding.

(** ** Concrete runs *)

(** Nothing fails, or every write to a file does after ten bytes. *)
Definition quiet_files : FileEnv := {| fault := fun _ _ => Done; temp_number := N.of_nat; TempDir := #"/tmp" |}.
Definition full_disk : FileEnv :=
  {| fault := fun _ op => match op with OpWrite _ => Failed (EMsg #"no space left on device") 10 | _ => Done end;
     temp_number := N.of_nat; TempDir := #"/tmp" |}.

Definition no_files : FS := mkFS ∅ 0.
Definition demo_bytes (n : Z) : list Z := replicate 32 n.
Definition demo_draws : SeedDraws := mkSeed 21 22 23 24 1000 (Ok (demo_bytes 7)) (Ok (demo_bytes 9)).
Definition demo_seed : Defaults :=
  mkDefaults true #"acme" #"default-v2" #"eu" #"awg-node-1" #"vpn.example.com" 38823 #"awg0" #"10.200.0.0/24"
    #"/etc/amnezia/bootstrap" true #"eth0".
Definition demo_v31 : V31NodeOptions :=
  mkV31Options #" acme " #"v31" #"eu" #"awg-v31" #"vpn.example.com" 38824 #"awg1" #"10.201.0.0/24"
    #"/etc/amnezia/bootstrap" true #"eth0".
Definition demo_seeded : FS * Store :=
  snd (@RunIfEmpty quiet_files id id Ok demo_draws demo_seed (no_files, empty_store)).
Definition demo_draws31 : SeedDraws := mkSeed 31 32 33 34 2000 (Ok (demo_bytes 5)) (Ok (demo_bytes 6)).

Lemma demo_bytes_ok n : 0 <= n < 256 -> key_bytes (demo_bytes n).
Proof. intros H. split; [reflexivity|]. apply Forall_replicate. exact H. Qed.

Lemma demo_X25519 : forall k, key_bytes k -> exists p, (Ok k : result bytes (list Z)) = Ok p /\ key_bytes p.
Proof. eauto. Qed.

Lemma demo_runs : runs demo_seed.
Proof. split; [reflexivity|]. split; [discriminate|]. eexists. vm_compute. reflexivity. Qed.

Lemma demo_seeded_ok : store_ok (snd demo_seeded).
Proof.
  destruct (@seed_parts quiet_files id id Ok demo_draws demo_seed no_files empty_store (fst demo_seeded) (snd demo_seeded))
    as (pool & kp & _ & Hp & _ & _ & Hok & _); [reflexivity..|vm_compute; reflexivity|].
  apply Hok; [exact empty_store_ok|]. by apply ParsePrefix_masked in Hp as [_ [? _]].
Qed.

(** A fresh installation. *)
Lemma seed_effect_witness :
  store_ok (snd demo_seeded)
  /\ is_Some (fs_files (fst demo_seeded) !! #"/etc/amnezia/bootstrap/awg0.conf")
  /\ @RunIfEmpty quiet_files id id Ok demo_draws31 demo_seed demo_seeded = (Ok tt, demo_seeded).
Proof.
  destruct (@seed_effect quiet_files id id Ok demo_draws demo_seed no_files empty_store (fst demo_seeded) (snd demo_seeded)
              (demo_bytes 7)) as (pub & pool & config & m & _ & _ & Hok & Hf & _ & _ & Hagain).
  - reflexivity.
  - reflexivity.
  - exact empty_store_ok.
  - reflexivity.
  - apply demo_bytes_ok. lia.
  - exact demo_X25519.
  - vm_compute. reflexivity.
  - split; [exact Hok|]. split; [|exact (Hagain demo_draws31)].
    rewrite Hf. change (bootstrap_path demo_seed) with #"/etc/amnezia/bootstrap/awg0.conf". rewrite lookup_insert_eq. by eexists.
Defined.

(** An interface name with a slash. *)
Lemma seed_never_repaired_witness :
  exists e s1, @RunIfEmpty quiet_files id id Ok demo_draws
      (mkDefaults true #"acme" #"default-v2" #"eu" #"awg-node-1" #"vpn.example.com" 38823 #"awg/0" #"10.200.0.0/24"
         #"/etc/amnezia/bootstrap" true #"eth0") (no_files, empty_store) = (Err e, (no_files, s1))
    /\ @RunIfEmpty quiet_files id id Ok demo_draws31 demo_seed (no_files, s1) = (Ok tt, (no_files, s1)).
Proof.
  edestruct (@seed_never_repaired quiet_files id id Ok demo_draws
      (mkDefaults true #"acme" #"default-v2" #"eu" #"awg-node-1" #"vpn.example.com" 38823 #"awg/0" #"10.200.0.0/24"
         #"/etc/amnezia/bootstrap" true #"eth0") no_files) as (e & s1 & H & _ & Hagain).
  - split; [reflexivity|]. split; [discriminate|]. eexists. vm_compute. reflexivity.
  - vm_compute. reflexivity.
  - vm_compute. reflexivity.
  - vm_compute. reflexivity.
  - exists e, s1. split; [exact H|]. exact (Hagain demo_draws31 demo_seed no_files demo_runs).
Defined.

(** A second node beside the seeded one. *)
Lemma provision_effect_witness :
  let '(r, (fs', s')) := @ProvisionV31Node quiet_files id id Ok demo_draws31 (Ok tt) demo_v31 demo_seeded in
  (exists res, r = Ok res) /\ store_ok s' /\ length (st_nodes s') = 2%nat
  /\ fs_files fs' !! #"/etc/amnezia/bootstrap/awg0.conf" = fs_files (fst demo_seeded) !! #"/etc/amnezia/bootstrap/awg0.conf".
Proof.
  destruct (@ProvisionV31Node quiet_files id id Ok demo_draws31 (Ok tt) demo_v31 demo_seeded) as [r [fs' s']] eqn:E.
  assert (exists res, r = Ok res) as [res ->].
  { change r with (fst (r, (fs', s'))). rewrite <- E. eexists. vm_compute. reflexivity. }
  destruct (@provision_effect quiet_files id id Ok demo_draws31 (Ok tt) demo_v31 (fst demo_seeded) (snd demo_seeded) res fs' s'
              (demo_bytes 5) (demo_bytes 6))
    as (tenant & pool & hk & config & _ & _ & _ & Es & Hok & _ & _ & _ & Hf & _).
  - exact demo_seeded_ok.
  - reflexivity.
  - apply demo_bytes_ok. lia.
  - reflexivity.
  - apply demo_bytes_ok. lia.
  - exact demo_X25519.
  - rewrite <- surjective_pairing. exact E.
  - split; [by exists res|]. split; [exact Hok|]. split; [rewrite Es; vm_compute; reflexivity|].
    rewrite Hf. apply lookup_insert_ne. vm_compute. discriminate.
Defined.

(** The disk is full while the config is written. *)
Lemma provision_atomic_witness :
  let '(r, (fs', s')) := @ProvisionV31Node full_disk id id Ok demo_draws31 (Ok tt) demo_v31 demo_seeded in
  (exists e, r = Err e) /\ s' = snd demo_seeded /\ fs_files fs' = fs_files (fst demo_seeded).
Proof.
  destruct (@ProvisionV31Node full_disk id id Ok demo_draws31 (Ok tt) demo_v31 demo_seeded) as [r [fs' s']] eqn:E.
  assert (exists e, r = Err e) as [e ->].
  { change r with (fst (r, (fs', s'))). rewrite <- E. eexists. vm_compute. reflexivity. }
  split; [by exists e|].
  destruct (@provision_atomic full_disk id id Ok demo_draws31 (Ok tt) demo_v31 (fst demo_seeded) (snd demo_seeded) e fs' s')
    as [Es [Ef|(_ & _ & n & e' & k & Hf)]].
  - rewrite <- surjective_pairing. exact E.
  - split; [exact Es|exact Ef].
  - vm_compute in Hf. discriminate Hf.
Defined.
