(* ===== verification/Service.v ===== *)
(** * Service: the application service ([internal/api/service.go])

    [CreatePeer], [RevokePeer] and the read operations over the store, with
    their idempotency, authorization and transaction boundaries.  The uuid
    library, the request hash and the values drawn during a request (ids, keys,
    time) are parameters, so that every theorem holds for all of them. *)

From S2P Require Import Prelude GoStrings Strconv Times Errors Effects Profile Netip Ipam Crypto Auth AwgConfig Render Store StoreFacts.

(** ** Model *)

Record CreatePeerRequest : Type := mkCreateRequest {
  rq_ExternalID : bytes;
  rq_DisplayName : bytes;
  rq_NodeID : option bytes;
  rq_ProfileID : option bytes;
  rq_ProfileName : option bytes;
  rq_PublicKey : option bytes;
  rq_ExpiresAt : option Time }.

(** The settings of the service; durations and times are in nanoseconds. *)
Record Service : Type := mkService { sv_IdempotencyTTL : Z; sv_ClientDNS : list bytes }.

Definition idempotencyTTL (s : Service) : Z :=
  if 0 <? sv_IdempotencyTTL s then sv_IdempotencyTTL s else 24 * 3600 * 10 ^ 9.

(** What one request draws: the clock, the ids of the rows it inserts, the two
    random reads of the key generators. *)
Record Draws : Type := mkDraws {
  d_now : Z;
  d_peerID : uuid;
  d_opID : uuid;
  d_jobID : uuid;
  d_rand_key : result bytes (list Z);
  d_rand_psk : result bytes (list Z) }.

Definition authorizeTenant (ctx : option Principal) (tenantID : uuid) (roles : list Role) : result error unit :=
  match FromContext ctx with
  | Err e => Err e
  | Ok p =>
      if negb (HasAnyRole p roles) then Err (ESentinel ErrForbidden)
      else if HasRole p RolePlatformAdmin then Ok tt
      else if (pr_TenantID p =? uuid_Nil)%N || negb (pr_TenantID p =? tenantID)%N
      then Err (ESentinel ErrForbidden)
      else Ok tt
  end.

Definition write_roles : list Role := [RolePlatformAdmin; RoleTenantAdmin; RoleAutomationClient].
Definition read_roles : list Role := [RolePlatformAdmin; RoleTenantAdmin; RoleSupportReadOnly; RoleAutomationClient].

(** A single-field [domain.ValidationErrors]. *)
Definition invalid_field (field code msg : bytes) : error := EValidation [mkVE field code msg].

Definition op_status_text (st : OperationStatus) : bytes :=
  match st with
  | OpPending => #"pending" | OpRunning => #"running" | OpApplied => #"applied"
  | OpFailed => #"failed_terminal" | OpRetrying => #"failed_retryable"
  end.

(** [json.Unmarshal] of a stored body into a [CreatePeerResponse]. *)
Definition unmarshal_response (b : ResponseBody) : CreatePeerResponse :=
  match b with
  | BodyCreate r => r
  | BodyRevoke id => mkResponse id [] [] [] [] [] [] [] [] []
  end.

(** The response without its one-time secrets. *)
Definition sanitize_response (r : CreatePeerResponse) : CreatePeerResponse :=
  mkResponse (cr_OperationID r) (cr_PeerID r) (cr_Status r) (cr_AllowedIP r) (cr_PublicKey r)
    [] [] [] (cr_NodeID r) (cr_ProfileID r).

Section service.
Context (uuid_Parse : bytes -> option uuid) (uuid_String : uuid -> bytes).
(** [requestHash] of the two request structs, and [mustJSON] of the reason. *)
Context (hash_create : CreatePeerRequest -> bytes -> bytes) (hash_revoke : uuid -> uuid -> bytes -> bytes).
Context (reason_json : bytes -> bytes).
(** [curve25519.X25519] with the base point. *)
Context (X25519 : list Z -> result bytes (list Z)).
Context (sv : Service).

Definition validateRequestedProfile (profile : ProtocolProfile) (req : CreatePeerRequest) : result error unit :=
  match rq_ProfileID req with
  | Some raw =>
      match uuid_Parse (TrimSpace raw) with
      | None => Err (invalid_field #"profile_id" #"invalid" #"must be a UUID")
      | Some id =>
          if negb (id =? pp_ID profile)%N
          then Err (invalid_field #"profile_id" #"node_profile_mismatch" #"profile_id must match the selected node profile")
          else Ok tt
      end
  | None => Ok tt
  end ≫= fun _ =>
  match rq_ProfileName req with
  | Some name =>
      if negb (bool_decide (TrimSpace name = pp_Name profile))
      then Err (invalid_field #"profile_name" #"node_profile_mismatch" #"profile_name must match the selected node profile")
      else Ok tt
  | None => Ok tt
  end.

(** [req.PublicKey != nil && *req.PublicKey != ""] gives the supplied key. *)
Definition supplied_key (req : CreatePeerRequest) : bytes := default [] (rq_PublicKey req).

(** The captured variables [resp] and [status]. *)
Abbreviation create_vars := (CreatePeerResponse * Z)%type.

(** The response of a fresh creation. *)
Definition fresh_response (node : Node) (profile : ProtocolProfile) (peer : Peer) (op : Operation)
    (priv psk : bytes) : CreatePeerResponse :=
  mkResponse (uuid_String (o_ID op)) (uuid_String (p_ID peer)) (op_status_text (o_Status op))
    (Prefix_String (p_AllowedIP peer)) (p_PublicKey peer) priv
    (AmneziaClient (mkClientArgs priv [Prefix_String (p_AllowedIP peer)] (sv_ClientDNS sv) 0
                      (n_ServerPublicKey node) (n_PublicEndpoint node) psk [] 25) profile)
    psk (uuid_String (n_ID node)) (uuid_String (pp_ID profile)).

(** Steps 1a to 5 of the transaction, after an idempotency miss. *)
Definition create_fresh (dr : Draws) (tenant : Tenant) (node : Node) (profile : ProtocolProfile)
    (req : CreatePeerRequest) (idemKey hash : bytes) : SE (create_vars * Store) unit :=
  keys ← of_result (match supplied_key req with
                    | [] => kp ← GenerateKeyPair (d_rand_key dr) X25519; Ok (kp_PublicKey kp, kp_PrivateKey kp)
                    | pub => Ok (pub, [])
                    end);
  let '(pub, priv) := keys in
  psk ← of_result (GeneratePresharedKey (d_rand_psk dr));
  peer ← on_store (AllocateAndInsert uuid_String (d_peerID dr) (d_now dr)
           (mkInsertParams (t_ID tenant) (n_ID node) (pp_ID profile) (rq_ExternalID req)
              (rq_DisplayName req) pub (Some psk) (tm_UnixNano <$> rq_ExpiresAt req)));
  op ← on_store (Operations_Insert (d_opID dr) (d_now dr) (t_ID tenant) (n_ID node) (Some (p_ID peer))
         OpCreatePeer hash);
  on_store (Outbox_Insert (d_jobID dr) (d_now dr)
    (mkJob 0 (Some (o_ID op)) (n_ID node) #"peer" (p_ID peer) OpCreatePeer #"{}" 0)) ;;
  on_store (Audit_Append (mkAudit (Some (t_ID tenant)) None #"peer.create" #"peer" (uuid_String (p_ID peer))
              (Some peer) [] idemKey (d_now dr))) ;;
  let resp := fresh_response node profile peer op priv psk in
  assign (resp, 202) ;;
  on_store (Idem_Store (d_now dr) (t_ID tenant) idemKey hash (Some (o_ID op)) 202
              (BodyCreate (sanitize_response resp)) (idempotencyTTL sv)).

Definition create_tx (dr : Draws) (tenant : Tenant) (node : Node) (profile : ProtocolProfile)
    (req : CreatePeerRequest) (idemKey hash : bytes) : SE (create_vars * Store) unit :=
  rec ← attempt (on_store (Idem_Lookup (d_now dr) (t_ID tenant) idemKey));
  match rec with
  | Ok rec =>
      if negb (bool_decide (ir_RequestHash rec = hash)) then fail (ESentinel ErrIdempotencyConflict)
      else assign (unmarshal_response (ir_ResponseBody rec), ir_ResponseStatus rec) ;;
           fail (ESentinel errAlreadyHandled)
  | Err e =>
      if negb (errors_Is e ErrNotFound) then fail e
      else create_fresh dr tenant node profile req idemKey hash
  end.

(** Everything before the transaction: who asks, which node and profile, is the
    supplied key a key. *)
Definition create_checks (ctx : option Principal) (tenantSlug idemKey : bytes) (req : CreatePeerRequest)
    : SE Store (Tenant * Node * ProtocolProfile) :=
  if bool_decide (TrimSpace (rq_ExternalID req) = [])
  then fail (invalid_field #"external_id" #"required" #"external_id is required")
  else if bool_decide (idemKey = [])
  then fail (invalid_field #"idempotency-key" #"required" #"Idempotency-Key header is required")
  else
    tenant ← Tenants_GetBySlug tenantSlug;
    of_result (authorizeTenant ctx (t_ID tenant) write_roles) ;;
    node ← match rq_NodeID req with
           | Some raw =>
               match uuid_Parse raw with
               | None => fail (invalid_field #"node_id" #"invalid" #"must be a UUID")
               | Some id => Nodes_GetByID id
               end
           | None => PickFirst
           end;
    match n_ProfileID node with
    | None => fail (invalid_field #"node_id" #"profile_unassigned" #"node has no protocol profile assigned")
    | Some pid =>
        profile ← Profiles_GetByID pid;
        of_result (validateRequestedProfile profile req) ;;
        match supplied_key req with
        | [] => mret (tenant, node, profile)
        | key => match ValidateKey key with
                 | Err _ => fail (ESentinel ErrInvalidKey)
                 | Ok _ => mret (tenant, node, profile)
                 end
        end
    end.

(** Run a transaction whose closure assigns [V]; the replay sentinel is not an
    error. *)
Definition with_tx {V} (fn : SE (V * Store) unit) (v0 : V) : SE Store V :=
  fun s => match InTx fn (v0, s) with
           | (Ok _, (v, s')) => (Ok v, s')
           | (Err e, (v, s')) => if errors_Is e errAlreadyHandled then (Ok v, s') else (Err e, s')
           end.

Definition CreatePeer (dr : Draws) (ctx : option Principal) (tenantSlug idemKey : bytes)
    (req : CreatePeerRequest) : SE Store (CreatePeerResponse * Z) :=
  tnp ← create_checks ctx tenantSlug idemKey req;
  let '(tenant, node, profile) := tnp in
  with_tx (create_tx dr tenant node profile req idemKey (hash_create req tenantSlug)) (empty_response, 0).

(** *** Revocation *)

(** The closure of [RevokePeer]; its captured variable is [opID]. *)
Definition revoke_tx (dr : Draws) (tenant : Tenant) (pid : uuid) (idemKey reason : bytes)
    : SE (uuid * Store) unit :=
  let hash := hash_revoke (t_ID tenant) pid reason in
  rec ← attempt (on_store (Idem_Lookup (d_now dr) (t_ID tenant) idemKey));
  match rec with
  | Ok rec =>
      if negb (bool_decide (ir_RequestHash rec = hash)) then fail (ESentinel ErrIdempotencyConflict)
      else match ir_OperationID rec with Some id => assign id | None => mret tt end ;;
           fail (ESentinel errAlreadyHandled)
  | Err e =>
      if negb (errors_Is e ErrNotFound) then fail e
      else
        peer ← on_store (MarkRevoked pid (d_now dr) (d_now dr));
        if negb (p_TenantID peer =? t_ID tenant)%N then fail (ESentinel ErrNotFound)
        else
          op ← on_store (Operations_Insert (d_opID dr) (d_now dr) (t_ID tenant) (p_NodeID peer)
                 (Some (p_ID peer)) OpRevokePeer hash);
          assign (o_ID op) ;;
          on_store (Outbox_Insert (d_jobID dr) (d_now dr)
            (mkJob 0 (Some (o_ID op)) (p_NodeID peer) #"peer" (p_ID peer) OpRevokePeer (reason_json reason) 0)) ;;
          on_store (Audit_Append (mkAudit (Some (t_ID tenant)) None #"peer.revoke" #"peer"
                      (uuid_String (p_ID peer)) (Some peer) [] idemKey (d_now dr))) ;;
          on_store (Idem_Store (d_now dr) (t_ID tenant) idemKey hash (Some (o_ID op)) 202
                      (BodyRevoke (uuid_String (o_ID op))) (idempotencyTTL sv))
  end.

Definition revoke_checks (ctx : option Principal) (tenantSlug peerID idemKey : bytes) : SE Store (Tenant * uuid) :=
  if bool_decide (idemKey = [])
  then fail (invalid_field #"idempotency-key" #"required" #"Idempotency-Key header is required")
  else
    tenant ← Tenants_GetBySlug tenantSlug;
    of_result (authorizeTenant ctx (t_ID tenant) write_roles) ;;
    match uuid_Parse peerID with
    | None => fail (invalid_field #"peer_id" #"invalid" #"must be a UUID")
    | Some pid => mret (tenant, pid)
    end.

(** On error Go also returns the captured [opID], which the caller drops. *)
Definition RevokePeer (dr : Draws) (ctx : option Principal) (tenantSlug peerID idemKey reason : bytes)
    : SE Store uuid :=
  tp ← revoke_checks ctx tenantSlug peerID idemKey;
  let '(tenant, pid) := tp in
  with_tx (revoke_tx dr tenant pid idemKey reason) uuid_Nil.

(** *** Reads *)

Definition GetOperation (ctx : option Principal) (id : bytes) : SE Store Operation :=
  match uuid_Parse id with
  | None => fail (invalid_field #"id" #"invalid" #"must be a UUID")
  | Some uid =>
      op ← Operations_GetByID uid;
      of_result (authorizeTenant ctx (o_TenantID op) read_roles) ;;
      mret op
  end.

Definition GetPeer (ctx : option Principal) (tenantSlug id : bytes) : SE Store Peer :=
  tenant ← Tenants_GetBySlug tenantSlug;
  of_result (authorizeTenant ctx (t_ID tenant) read_roles) ;;
  match uuid_Parse id with
  | None => fail (invalid_field #"id" #"invalid" #"must be a UUID")
  | Some uid =>
      p ← Peers_GetByID uid;
      if negb (p_TenantID p =? t_ID tenant)%N then fail (ESentinel ErrNotFound) else mret p
  end.

(** [publicProfile.HeaderProtectionKey = ""] *)
Definition public_profile (p : ProtocolProfile) : ProtocolProfile :=
  mkProfile (pp_ID p) (pp_Name p) (pp_ProtocolVersion p) (pp_Jc p) (pp_Jmin p) (pp_Jmax p)
    (pp_S1 p) (pp_S2 p) (pp_S3 p) (pp_S4 p) (pp_H1 p) (pp_H2 p) (pp_H3 p) (pp_H4 p)
    (pp_I1 p) (pp_I2 p) (pp_I3 p) (pp_I4 p) (pp_I5 p) []
    (pp_ContentPaddingAddition p) (pp_RekeyAfterTime p) (pp_RekeyTimeout p) (pp_RejectAfterTime p)
    (pp_KeepaliveTimeout p) (pp_MaxHandshakeAttempts p) (pp_PersistentKeepalive p)
    (pp_RandomTrailers p) (pp_DisableCookies p) (pp_ListenPortPolicy p) (pp_CreatedAt p).

Definition PeerConfiguration (ctx : option Principal) (tenantSlug peerID : bytes) : SE Store bytes :=
  peer ← GetPeer ctx tenantSlug peerID;
  node ← Nodes_GetByID (p_NodeID peer);
  match n_ProfileID node with
  | None => fail (invalid_field #"node_id" #"profile_unassigned" #"node has no protocol profile assigned")
  | Some pid =>
      profile ← Profiles_GetByID pid;
      mret (AmneziaClient (mkClientArgs [] [Prefix_String (p_AllowedIP peer)] (sv_ClientDNS sv) 0
                             (n_ServerPublicKey node) (n_PublicEndpoint node) [] [] 25) (public_profile profile))
  end.

Definition EnsureTenant (newID : uuid) (now : Z) (slug : bytes) : SE Store Tenant := Tenants_Upsert newID now slug.

(** [AuthSubjectFromCtx] *)
Definition AuthSubjectFromCtx (ctx : option Principal) : option uuid :=
  match FromContext ctx with
  | Err _ => None
  | Ok p => if (pr_SubjectID p =? uuid_Nil)%N then None else Some (pr_SubjectID p)
  end.
End service.
