(* ===== verification/ServiceFacts.v ===== *)
(** * ServiceFacts: what a client of the API can rely on

    Atomicity, idempotent replay, tenant isolation and authorization of the
    service operations, their effect on the store, and which secrets they can
    reveal. *)

From S2P Require Import Prelude GoStrings Strconv Times Errors Effects Profile Netip Ipam Crypto Auth AwgConfig Render Store StoreFacts Service.

(** ** Sessions that do not write *)

Definition pure {S A} (m : SE S A) : Prop := forall s, snd (m s) = s.

Lemma pure_ret {S A} (a : A) : pure (S := S) (mret a).
Proof. done. Qed.
Lemma pure_fail {S A} e : pure (@fail S A e).
Proof. done. Qed.
Lemma pure_asks {S A} (f : S -> A) : pure (asks f).
Proof. done. Qed.
Lemma pure_of_result {S A} (r : result error A) : pure (S := S) (of_result r).
Proof. done. Qed.
Lemma pure_row {S A} (r : option A) : pure (@row_or_not_found S A r).
Proof. by destruct r. Qed.
Lemma pure_bind {S A B} (m : SE S A) (f : A -> SE S B) : pure m -> (forall a, pure (f a)) -> pure (m ≫= f).
Proof.
  intros Hm Hf s. unfold mbind, SE_bind. specialize (Hm s).
  destruct (m s) as [[a|e] s']; simpl in *; subst; [apply Hf|done].
Qed.
Lemma pure_fmap {S A B} (g : A -> B) (m : SE S A) : pure m -> pure (g <$> m).
Proof. intros Hm s. specialize (Hm s). unfold fmap, SE_fmap. by destruct (m s) as [[a|e] s']. Qed.

#[export] Hint Resolve pure_ret pure_fail pure_asks pure_of_result pure_row pure_fmap : awg.

Lemma pure_lookup {A B} (g : Store -> option A) (h : A -> B) :
  pure (r ← asks g; h <$> row_or_not_found r).
Proof. apply pure_bind; auto with awg. Qed.
Lemma pure_lookup_id {A} (g : Store -> option A) : pure (r ← asks g; row_or_not_found r).
Proof. apply pure_bind; auto with awg. Qed.

#[export] Hint Resolve pure_lookup pure_lookup_id : awg.

Lemma pure_run {S A} (m : SE S A) s r s' : pure m -> m s = (r, s') -> s' = s.
Proof. intros Hm E. specialize (Hm s). by rewrite E in Hm. Qed.

Lemma on_store_run {V A} (m : SE Store A) (v : V) s :
  on_store m (v, s) = let '(r, s') := m s in (r, (v, s')).
Proof. done. Qed.

(** Take a successful session apart, statement by statement. *)
Ltac inv_session :=
  repeat match goal with
  | H : (_ ≫= _) _ = (Ok _, _) |- _ => apply bind_inv in H as (? & [? ?] & ? & H)
  | H : on_store _ (_, _) = (_, (_, _)) |- _ => apply on_store_inv in H as [-> ?]
  | H : of_result _ _ = (Ok _, _) |- _ => unfold of_result in H; injection H as ? <- <-
  | H : assign _ _ = (Ok _, _) |- _ => unfold assign in H; injection H as <- <- <-
  end.

(** ** Statements that succeed *)

Lemma check_true {S B} ok e (f : unit -> SE S B) s b s' :
  (check ok e ≫= f) s = (Ok b, s') -> ok = true /\ f tt s = (Ok b, s').
Proof. rewrite check_bind. by destruct ok. Qed.

Lemma Operations_Insert_Ok newID now t n p k h s op s' :
  Operations_Insert newID now t n p k h s = (Ok op, s') ->
  op = mkOperation newID t p n k OpPending h [] [] now None /\ s' = set_operations (fun l => l ++ [op]) s.
Proof.
  unfold Operations_Insert. cbv zeta. rewrite asks_bind. intros [_ H]%check_true.
  rewrite asks_bind in H. apply check_true in H as [_ H]. by injection H as <- <-.
Qed.

Lemma Outbox_Insert_Ok newID now j s id s' :
  Outbox_Insert newID now j s = (Ok id, s') ->
  s' = set_outbox (fun l => l ++ [mkOutbox (mkJob newID (j_OperationID j) (j_NodeID j) (j_AggregateType j)
                                    (j_AggregateID j) (j_Kind j) (j_Payload j) 0) JobPending None None now now]) s.
Proof.
  unfold Outbox_Insert. cbv zeta. rewrite asks_bind. intros [_ H]%check_true.
  rewrite asks_bind in H. apply check_true in H as [_ H]. by injection H as <- <-.
Qed.

Lemma Audit_Append_Ok row s u s' : Audit_Append row s = (Ok u, s') -> s' = set_audit (fun l => l ++ [audit_row row]) s.
Proof. unfold Audit_Append. rewrite asks_bind. intros [_ H]%check_true. by injection H as _ <-. Qed.

Lemma Idem_Store_Ok now t k h op st body ttl s u s' :
  Idem_Store now t k h op st body ttl s = (Ok u, s') ->
  st_idem s !! (t, k) = None
  /\ s' = set_idem (<[(t, k) := mkRecord op h st body (now + ttl)]>) s.
Proof.
  unfold Idem_Store. rewrite asks_bind. intros [Hn H]%check_true. rewrite asks_bind in H.
  apply check_true in H as [_ H]. injection H as _ <-. split; [|done].
  bool_to_prop. by apply eq_None_not_Some.
Qed.

Lemma MarkRevoked_run id when now s :
  MarkRevoked id when now s =
  match find_id p_ID (st_peers s) id with
  | None => (Err (ESentinel ErrNotFound), s)
  | Some p => (Ok (scanPeer (revoke_row when now p)), set_peers (update_id p_ID id (revoke_row when now)) s)
  end.
Proof. unfold MarkRevoked. rewrite asks_bind. by destruct (find_id _ _ _). Qed.

(** Take the inserts of a request apart. *)
Ltac inv_rows :=
  repeat match goal with
  | H : Operations_Insert _ _ _ _ _ _ _ _ = (Ok _, _) |- _ => apply Operations_Insert_Ok in H as [-> ->]
  | H : Outbox_Insert _ _ _ _ = (Ok _, _) |- _ => apply Outbox_Insert_Ok in H as ->
  | H : Audit_Append _ _ = (Ok _, _) |- _ => apply Audit_Append_Ok in H as ->
  | H : Idem_Store _ _ _ _ _ _ _ _ _ = (Ok _, _) |- _ => apply Idem_Store_Ok in H as [? ->]
  end.

(** *** The replay sentinel *)

(** A session whose errors are never the sentinel that ends a replay. *)
Definition no_replay {S A} (m : SE S A) : Prop :=
  forall s e s', m s = (Err e, s') -> errors_Is e errAlreadyHandled = false.

Lemma no_replay_ret {S A} (a : A) : no_replay (S := S) (mret a).
Proof. by intros s e s' [=]. Qed.
Lemma no_replay_asks {S A} (f : S -> A) : no_replay (asks f).
Proof. by intros s e s' [=]. Qed.
Lemma no_replay_modify {S} (f : S -> S) : no_replay (modify f).
Proof. by intros s e s' [=]. Qed.
Lemma no_replay_assign {V} (v : V) : no_replay (assign v).
Proof. by intros [? ?] e s' [=]. Qed.
Lemma no_replay_fail {S A} e : errors_Is e errAlreadyHandled = false -> no_replay (@fail S A e).
Proof. intros He s e' s' [= <- <-]. done. Qed.
Lemma no_replay_check {S} ok e : errors_Is e errAlreadyHandled = false -> no_replay (@check S ok e).
Proof. intros He. destruct ok; [apply no_replay_ret|by apply no_replay_fail]. Qed.
Lemma no_replay_of_result {S A} (r : result error A) :
  (forall e, r = Err e -> errors_Is e errAlreadyHandled = false) -> no_replay (S := S) (of_result r).
Proof. intros Hr s e s' [= -> _]. by apply Hr. Qed.
Lemma no_replay_on_store {V A} (m : SE Store A) : no_replay m -> no_replay (on_store (V := V) m).
Proof. intros Hm [v s] e [v' s'] H. apply on_store_inv in H as [_ H]. by apply Hm in H. Qed.
Lemma no_replay_bind {S A B} (m : SE S A) (f : A -> SE S B) :
  no_replay m -> (forall a, no_replay (f a)) -> no_replay (m ≫= f).
Proof.
  intros Hm Hf s e s'. unfold mbind, SE_bind. destruct (m s) as [[a|e1] s1] eqn:E; [apply Hf|].
  intros [= <- _]. by apply Hm in E.
Qed.

#[export] Hint Resolve no_replay_ret no_replay_asks no_replay_modify no_replay_assign no_replay_fail
  no_replay_check no_replay_on_store : awg.

Ltac no_replay :=
  repeat first [ solve [auto with awg] | (apply no_replay_bind; [|intros ?]) | progress cbv zeta ].

Lemma no_replay_OpInsert newID now t n p k h : no_replay (Operations_Insert newID now t n p k h).
Proof. unfold Operations_Insert. no_replay. Qed.
Lemma no_replay_OutboxInsert newID now j : no_replay (Outbox_Insert newID now j).
Proof. unfold Outbox_Insert. no_replay. Qed.
Lemma no_replay_Audit row : no_replay (Audit_Append row).
Proof. unfold Audit_Append. no_replay. Qed.
Lemma no_replay_IdemStore now t k h op st body ttl : no_replay (Idem_Store now t k h op st body ttl).
Proof. unfold Idem_Store. no_replay. Qed.
Lemma no_replay_MarkRevoked id when now : no_replay (MarkRevoked id when now).
Proof. unfold MarkRevoked. no_replay. match goal with |- context [match ?r with _ => _ end] => destruct r end; no_replay. Qed.
Lemma no_replay_AllocateAndInsert us newID now p : no_replay (AllocateAndInsert us newID now p).
Proof.
  intros s e s' E. pose proof (AllocateAndInsert_cases us newID now p s) as H. unfold AllocateAndInsert in E.
  rewrite asks_bind in E. destruct (pool_of _ _ _) as [row|]; [|by injection E as <- _].
  rewrite asks_bind in E. destruct (Allocate _ _ _) as [[al|e1]|] eqn:Ea.
  - revert E. cbv zeta. rewrite modify_bind, asks_bind, check_bind. case_match; [|by intros [= <- _]].
    rewrite asks_bind, check_bind. case_match; [done|by intros [= <- _]].
  - destruct (errors_Is e1 ErrPoolExhausted); injection E as <- _; [done|].
    by apply Allocate_error in Ea as [->|[m ->]].
  - by injection E as <- _.
Qed.

#[export] Hint Resolve no_replay_OpInsert no_replay_OutboxInsert no_replay_Audit no_replay_IdemStore
  no_replay_MarkRevoked no_replay_AllocateAndInsert : awg.

Lemma AllocateAndInsert_Ok uuid_String newID now p s peer s' :
  AllocateAndInsert uuid_String newID now p s = (Ok peer, s') ->
  exists row al, pool_of s (ip_NodeID p) (ip_TenantID p) = Some row
    /\ Allocate (ap_CIDR row) (default AInvalid (ap_Cursor row))
         (Some (reserved_for s (ap_CIDR row) (ip_NodeID p))) = Some (Ok al)
    /\ peer = scanPeer (new_peer newID now p (Address al))
    /\ s' = set_peers (fun l => l ++ [new_peer newID now p (Address al)])
              (set_pools (update_id ap_ID (ap_ID row) (set_cursor (NextCursor al))) s).
Proof.
  intros E. pose proof (AllocateAndInsert_cases uuid_String newID now p s) as H. rewrite E in H.
  destruct (pool_of _ _ _) as [row|]; [|by destruct H as [e ?]].
  destruct (Allocate _ _ _) as [[al|e]|] eqn:Ea; [|done..]. cbv zeta in H.
  destruct (existsb _ _); [done|]. destruct (peer_refs_ok _ _); [|done].
  injection H as -> ->. by exists row, al.
Qed.

(** The peer an allocation returns is the row it appends. *)
Lemma AllocateAndInsert_scan uuid_String newID now p s peer s' :
  store_ok s -> AllocateAndInsert uuid_String newID now p s = (Ok peer, s') ->
  exists a row c, peer = new_peer newID now p a
    /\ s' = set_peers (fun l => l ++ [peer]) (set_pools (update_id ap_ID (ap_ID row) (set_cursor c)) s)
    /\ row ∈ st_pools s /\ ap_TenantID row = ip_TenantID p.
Proof.
  intros Hs E. apply AllocateAndInsert_Ok in E as (row & al & Ep & Ea & -> & ->).
  apply pool_of_elem in Ep as (Hin & _ & Ht). pose proof (so_pools _ Hs) as Hp.
  eapply (Forall_forall _ _) in Hp; [|exact Hin]. apply Allocate_Ok in Ea as [Hu _]; [|done].
  apply usable_valid in Hu as (Ha & Hv & Hz); [|done]. destruct (host_prefix_ok _ Ha Hv Hz) as [_ He].
  assert (scanPeer (new_peer newID now p (Address al)) = new_peer newID now p (Address al)) as ->.
  { unfold scanPeer, new_peer. simpl. by rewrite He. }
  by exists (Address al), row, (NextCursor al).
Qed.

Lemma update_peer_row f l p :
  peers_distinct l -> p ∈ l -> update_id p_ID (p_ID p) f l = (fun q => if decide (q = p) then f p else q) <$> l.
Proof.
  intros Hd Hin. unfold update_id. apply list_fmap_ext. intros i q Hq. simpl.
  apply list_elem_of_lookup_2 in Hq. destruct (p_ID q =? p_ID p)%N eqn:E.
  - assert (q = p) as ->; [|by rewrite decide_True]. apply (distinct_eq l); try done.
    unfold peer_conflicts. by rewrite E.
  - rewrite decide_False; [done|]. intros ->. by rewrite N.eqb_refl in E.
Qed.

(** Only the pool itself has its id. *)
Lemma pool_row_tenant l row t :
  NoDup (ap_ID <$> l) -> row ∈ l -> ap_TenantID row <> t ->
  forall a, a ∈ l -> ap_ID a = ap_ID row -> ap_TenantID a <> t.
Proof. intros Hd Hr Ht a Ha He. by rewrite (unique_id ap_ID l a row). Qed.

(** *** Sessions that read the catalogue *)

(** The tables that requests only read: tenants, nodes, profiles. *)
Definition same_catalog (s1 s2 : Store) : Prop :=
  st_tenants s1 = st_tenants s2 /\ st_nodes s1 = st_nodes s2 /\ st_profiles s1 = st_profiles s2.

Definition reads_catalog {A} (m : SE Store A) : Prop :=
  pure m /\ forall s1 s2, same_catalog s1 s2 -> fst (m s1) = fst (m s2).

Lemma reads_ret {A} (a : A) : reads_catalog (mret a).
Proof. by split. Qed.
Lemma reads_fail {A} e : reads_catalog (@fail Store A e).
Proof. by split. Qed.
Lemma reads_of_result {A} (r : result error A) : reads_catalog (of_result r).
Proof. by split. Qed.
Lemma reads_asks {A} (f : Store -> A) :
  (forall s1 s2, same_catalog s1 s2 -> f s1 = f s2) -> reads_catalog (asks f).
Proof. intros Hf. split; [done|]. intros s1 s2 H. unfold asks. simpl. by rewrite (Hf s1 s2). Qed.
Lemma reads_row {A} (r : option A) : reads_catalog (@row_or_not_found Store A r).
Proof. by destruct r. Qed.
Lemma reads_fmap {A B} (g : A -> B) (m : SE Store A) : reads_catalog m -> reads_catalog (g <$> m).
Proof.
  intros [Hp Hm]. split; [by apply pure_fmap|]. intros s1 s2 H. specialize (Hm s1 s2 H).
  unfold fmap, SE_fmap. destruct (m s1) as [[]], (m s2) as [[]]; simpl in *; by simplify_eq.
Qed.
Lemma reads_bind {A B} (m : SE Store A) (f : A -> SE Store B) :
  reads_catalog m -> (forall a, reads_catalog (f a)) -> reads_catalog (m ≫= f).
Proof.
  intros [Hp Hm] Hf. split; [apply pure_bind; [done|apply Hf]|]. intros s1 s2 H.
  specialize (Hm s1 s2 H). pose proof (Hp s1) as H1. pose proof (Hp s2) as H2.
  unfold mbind, SE_bind. destruct (m s1) as [[a|]], (m s2) as [[b|]]; simpl in *; simplify_eq; [|done].
  by apply Hf.
Qed.

#[export] Hint Resolve reads_ret reads_fail reads_of_result reads_row reads_fmap : awg.

Ltac reads :=
  repeat first [ solve [auto with awg] | (apply reads_bind; [|intros ?]) | (apply reads_asks; intros ? ? (? & ? & ?); congruence) ].

Lemma reads_GetBySlug slug : reads_catalog (Tenants_GetBySlug slug).
Proof. unfold Tenants_GetBySlug. reads. Qed.
Lemma reads_Nodes_GetByID id : reads_catalog (Nodes_GetByID id).
Proof. unfold Nodes_GetByID. reads. Qed.
Lemma reads_PickFirst : reads_catalog PickFirst.
Proof.
  unfold PickFirst. apply reads_bind; [apply reads_asks|auto with awg].
  intros s1 s2 (_ & Hn & Hp). unfold node_before, node_rank. by rewrite Hn, Hp.
Qed.
Lemma reads_Profiles_GetByID id : reads_catalog (Profiles_GetByID id).
Proof. unfold Profiles_GetByID. reads. Qed.

#[export] Hint Resolve reads_GetBySlug reads_Nodes_GetByID reads_PickFirst reads_Profiles_GetByID : awg.

(** *** Transactions that keep the invariant *)

Definition preserves_v {V A} (m : SE (V * Store) A) : Prop :=
  forall v s, store_ok s -> store_ok (snd (snd (m (v, s)))).

Lemma pv_on_store {V A} (m : SE Store A) : preserves m -> preserves_v (on_store (V := V) m).
Proof. intros Hm v s Hs. specialize (Hm s Hs). unfold on_store. by destruct (m s). Qed.
Lemma pv_ret {V A} (a : A) : preserves_v (V := V) (mret a).
Proof. by intros v s Hs. Qed.
Lemma pv_assign {V} (v : V) : preserves_v (assign v).
Proof. by intros v' s Hs. Qed.
Lemma pv_fail {V A} e : preserves_v (@fail (V * Store) A e).
Proof. by intros v' s Hs. Qed.
Lemma pv_of_result {V A} (r : result error A) : preserves_v (V := V) (of_result r).
Proof. by intros v' s Hs. Qed.
Lemma pv_bind {V A B} (m : SE (V * Store) A) (f : A -> SE (V * Store) B) :
  preserves_v m -> (forall a, preserves_v (f a)) -> preserves_v (m ≫= f).
Proof.
  intros Hm Hf v s Hs. specialize (Hm v s Hs). unfold mbind, SE_bind.
  destruct (m (v, s)) as [[a|e] [v' s']]; [by apply Hf|done].
Qed.
Lemma pv_attempt {V A} (m : SE (V * Store) A) : preserves_v m -> preserves_v (attempt m).
Proof. intros Hm v s Hs. specialize (Hm v s Hs). unfold attempt. by destruct (m (v, s)). Qed.
Lemma preserves_with_tx {V} (fn : SE (V * Store) unit) v0 : preserves_v fn -> preserves (with_tx fn v0).
Proof.
  intros Hf s Hs. specialize (Hf v0 s Hs). unfold with_tx, InTx.
  destruct (fn (v0, s)) as [[?|e] [v s']]; [done|]. by destruct (errors_Is e _).
Qed.

#[export] Hint Resolve pv_on_store pv_ret pv_assign pv_fail pv_of_result pv_attempt : awg.

Ltac preserves_v :=
  repeat first [ solve [auto 6 with awg] | (apply pv_bind; [|intros ?]) | progress cbv zeta | case_match ].

(** A response without the one-time secrets. *)
Definition no_secrets (r : CreatePeerResponse) : Prop :=
  cr_PrivateKey r = [] /\ cr_ClientConfig r = [] /\ cr_PresharedKey r = [].

(** *** The rows a write request adds *)

Definition request_op (dr : Draws) (tid : uuid) (kind : OperationKind) (hash : bytes) (peer : Peer) : Operation :=
  mkOperation (d_opID dr) tid (Some (p_ID peer)) (p_NodeID peer) kind OpPending hash [] [] (d_now dr) None.

Definition request_job (dr : Draws) (kind : OperationKind) (payload : bytes) (peer : Peer) : OutboxRow :=
  mkOutbox (mkJob (d_jobID dr) (Some (d_opID dr)) (p_NodeID peer) #"peer" (p_ID peer) kind payload 0)
    JobPending None None (d_now dr) (d_now dr).

Definition request_event (uuid_String : uuid -> bytes) (dr : Draws) (tid : uuid) (action key : bytes) (peer : Peer)
    : AuditRow :=
  audit_row (mkAudit (Some tid) None action #"peer" (uuid_String (p_ID peer)) (Some peer) [] key (d_now dr)).

Definition request_record (sv : Service) (dr : Draws) (hash : bytes) (body : ResponseBody) : Record' :=
  mkRecord (Some (d_opID dr)) hash 202 body (d_now dr + idempotencyTTL sv).

(** The store with one operation, job, audit event and idempotency record more. *)
Definition add_rows (op : Operation) (job : OutboxRow) (event : AuditRow) (k : uuid * bytes) (rec : Record')
    (s : Store) : Store :=
  set_idem (<[k := rec]>) (set_audit (fun l => l ++ [event])
    (set_outbox (fun l => l ++ [job]) (set_operations (fun l => l ++ [op]) s))).

Section facts.
Context (uuid_Parse : bytes -> option uuid) (uuid_String : uuid -> bytes).
Context (hash_create : CreatePeerRequest -> bytes -> bytes) (hash_revoke : uuid -> uuid -> bytes -> bytes).
Context (reason_json : bytes -> bytes) (X25519 : list Z -> result bytes (list Z)) (sv : Service).

Local Abbreviation CreatePeer' := (CreatePeer uuid_Parse uuid_String hash_create X25519 sv).
Local Abbreviation RevokePeer' := (RevokePeer uuid_Parse uuid_String hash_revoke reason_json sv).

Lemma reads_create_checks ctx slug key req : reads_catalog (create_checks uuid_Parse ctx slug key req).
Proof. unfold create_checks. repeat first [ progress reads | case_match ]. Qed.

Lemma reads_revoke_checks ctx slug pid key : reads_catalog (revoke_checks uuid_Parse ctx slug pid key).
Proof. unfold revoke_checks. repeat first [ progress reads | case_match ]. Qed.

(** A transaction that reports an error, or a replay, leaves the store as it
    was. *)
Lemma with_tx_Err {V} (fn : SE (V * Store) unit) v0 s e s' :
  with_tx fn v0 s = (Err e, s') -> s' = s.
Proof.
  unfold with_tx. destruct (InTx fn (v0, s)) as [[?|e'] [v s1]] eqn:E; [done|].
  apply InTx_rollback in E. simpl in E. subst. destruct (errors_Is e' errAlreadyHandled); [done|by intros [= _ <-]].
Qed.

Lemma with_tx_cases {V} (fn : SE (V * Store) unit) v0 s :
  with_tx fn v0 s =
  match fn (v0, s) with
  | (Ok _, (v, s')) => (Ok v, s')
  | (Err e, (v, _)) => if errors_Is e errAlreadyHandled then (Ok v, s) else (Err e, s)
  end.
Proof. unfold with_tx, InTx. by destruct (fn (v0, s)) as [[?|e] [v s']]. Qed.

Lemma CreatePeer_run dr ctx slug key req s :
  CreatePeer' dr ctx slug key req s =
  match create_checks uuid_Parse ctx slug key req s with
  | (Ok (tenant, node, profile), _) =>
      with_tx (create_tx uuid_String X25519 sv dr tenant node profile req key (hash_create req slug)) (empty_response, 0) s
  | (Err e, _) => (Err e, s)
  end.
Proof.
  unfold CreatePeer, mbind, SE_bind. pose proof (proj1 (reads_create_checks ctx slug key req) s) as Hp.
  destruct (create_checks _ _ _ _ _ s) as [[[[t n] p]|e] s1]; simpl in Hp; by subst.
Qed.

Lemma RevokePeer_run dr ctx slug pid key reason s :
  RevokePeer' dr ctx slug pid key reason s =
  match revoke_checks uuid_Parse ctx slug pid key s with
  | (Ok (tenant, id), _) =>
      with_tx (revoke_tx uuid_String hash_revoke reason_json sv dr tenant id key reason) uuid_Nil s
  | (Err e, _) => (Err e, s)
  end.
Proof.
  unfold RevokePeer, mbind, SE_bind. pose proof (proj1 (reads_revoke_checks ctx slug pid key) s) as Hp.
  destruct (revoke_checks _ _ _ _ _ s) as [[[t id]|e] s1]; simpl in Hp; by subst.
Qed.

(** C5: (Atomicity.) A create or revoke request that ends in an error, at
    whatever statement, leaves the whole store as it was: no peer without its
    operation, job, audit event and idempotency record, no moved address cursor,
    no bumped revision. *)
Theorem write_requests_atomic dr ctx slug key req pid reason s :
  (forall e s', CreatePeer uuid_Parse uuid_String hash_create X25519 sv dr ctx slug key req s = (Err e, s') -> s' = s)
  /\ (forall e s', RevokePeer uuid_Parse uuid_String hash_revoke reason_json sv dr ctx slug pid key reason s = (Err e, s') ->
       s' = s).
Proof.
  split; intros e s'.
  - rewrite CreatePeer_run. destruct (create_checks _ _ _ _ _ s) as [[[[t n] p]|e'] s1]; [apply with_tx_Err|].
    by intros [= _ <-].
  - rewrite RevokePeer_run. destruct (revoke_checks _ _ _ _ _ s) as [[[t id]|e'] s1]; [apply with_tx_Err|].
    by intros [= _ <-].
Qed.

(** ** Creation *)

Definition create_params (tenant : Tenant) (node : Node) (profile : ProtocolProfile) (req : CreatePeerRequest)
    (pub psk : bytes) : InsertParams :=
  mkInsertParams (t_ID tenant) (n_ID node) (pp_ID profile) (rq_ExternalID req) (rq_DisplayName req)
    pub (Some psk) (tm_UnixNano <$> rq_ExpiresAt req).

(** Where the key pair comes from. *)
Definition keys_for (dr : Draws) (req : CreatePeerRequest) (pub priv : bytes) : Prop :=
  (supplied_key req = [] /\ GenerateKeyPair (d_rand_key dr) X25519 = Ok (mkKeyPair priv pub)) \/ (supplied_key req = pub /\ pub <> [] /\ priv = []).

(** The store a fresh creation leaves. *)
Definition created_store (dr : Draws) (tenant : Tenant) (key hash : bytes) (resp : CreatePeerResponse) (peer : Peer)
    (s1 : Store) : Store :=
  add_rows (request_op dr (t_ID tenant) OpCreatePeer hash peer) (request_job dr OpCreatePeer #"{}" peer)
    (request_event uuid_String dr (t_ID tenant) #"peer.create" key peer) (t_ID tenant, key)
    (request_record sv dr hash (BodyCreate (sanitize_response resp))) s1.

Lemma create_fresh_Ok dr tenant node profile req key hash v s v' s' :
  create_fresh uuid_String X25519 sv dr tenant node profile req key hash (v, s) = (Ok tt, (v', s')) ->
  exists pub priv psk peer s1,
    let resp := fresh_response uuid_String sv node profile peer
                  (request_op dr (t_ID tenant) OpCreatePeer hash peer) priv psk in
    keys_for dr req pub priv /\ GeneratePresharedKey (d_rand_psk dr) = Ok psk
    /\ AllocateAndInsert uuid_String (d_peerID dr) (d_now dr) (create_params tenant node profile req pub psk) s
       = (Ok peer, s1)
    /\ st_idem s !! (t_ID tenant, key) = None
    /\ v' = (resp, 202) /\ s' = created_store dr tenant key hash resp peer s1.
Proof.
  unfold create_fresh. intros H. apply bind_inv in H as ([pub priv] & vs & Hk & H).
  unfold of_result in Hk. injection Hk as Hk <-.
  apply bind_inv in H as (psk & vs & Hp & H). unfold of_result in Hp. injection Hp as Hp <-.
  apply bind_inv in H as (peer & [v1 s1] & Ha & H). apply on_store_inv in Ha as [-> Ha].
  pose proof Ha as (row & al & _ & _ & Hpeer & Hs1)%AllocateAndInsert_Ok.
  assert (p_NodeID peer = n_ID node) as Hn by (by subst). rewrite <- Hn in H.
  inv_session. inv_rows.
  exists pub, priv, psk, peer, s1. split_and!; try done.
  - unfold keys_for. destruct (supplied_key req) eqn:Es.
    + left. split; [done|]. by destruct (GenerateKeyPair _ _) as [[]|]; simplify_eq/=.
    + right. by simplify_eq/=.
  - by subst s1.
Qed.

Lemma no_replay_create_fresh dr tenant node profile req key hash :
  no_replay (create_fresh uuid_String X25519 sv dr tenant node profile req key hash).
Proof.
  unfold create_fresh. apply no_replay_bind; [apply no_replay_of_result|intros [pub priv]].
  { intros e. destruct (supplied_key req); [|done]. unfold GenerateKeyPair.
    destruct (d_rand_key dr); [|by intros [= <-]]. cbv zeta. destruct (X25519 _); [done|by intros [= <-]]. }
  apply no_replay_bind; [apply no_replay_of_result|intros psk].
  { intros e. unfold GeneratePresharedKey. destruct (d_rand_psk dr); [done|by intros [= <-]]. }
  no_replay.
Qed.

(** The idempotency record of a key that has not expired. *)
Definition live_record (now : Z) (k : uuid * bytes) (s : Store) : option Record' :=
  match st_idem s !! k with
  | Some rec => if now <? ir_ExpiresAt rec then Some rec else None
  | None => None
  end.

Lemma Idem_Lookup_live now t k s :
  Idem_Lookup now t k s =
  match live_record now (t, k) s with Some rec => (Ok rec, s) | None => (Err (ESentinel ErrNotFound), s) end.
Proof.
  unfold Idem_Lookup, live_record. rewrite asks_bind. destruct (st_idem s !! (t, k)) as [rec|]; [|done].
  by destruct (now <? _).
Qed.

Lemma attempt_lookup {V} now t k (v : V) s :
  attempt (on_store (Idem_Lookup now t k)) (v, s) =
  (Ok (match live_record now (t, k) s with Some rec => Ok rec | None => Err (ESentinel ErrNotFound) end), (v, s)).
Proof. unfold attempt. rewrite on_store_run, Idem_Lookup_live. by destruct (live_record _ _ _). Qed.

(** What the transaction of a create request does. *)
Lemma create_tx_cases dr tenant node profile req key hash s :
  with_tx (create_tx uuid_String X25519 sv dr tenant node profile req key hash) (empty_response, 0) s =
  match live_record (d_now dr) (t_ID tenant, key) s with
  | Some rec =>
      if bool_decide (ir_RequestHash rec = hash)
      then (Ok (unmarshal_response (ir_ResponseBody rec), ir_ResponseStatus rec), s)
      else (Err (ESentinel ErrIdempotencyConflict), s)
  | None =>
      match create_fresh uuid_String X25519 sv dr tenant node profile req key hash ((empty_response, 0), s) with
      | (Ok _, (v, s')) => (Ok v, s')
      | (Err e, _) => (Err e, s)
      end
  end.
Proof.
  rewrite with_tx_cases. unfold create_tx.
  rewrite (bind_ok _ _ _ _ _ (attempt_lookup _ _ _ _ _)).
  destruct (live_record _ _ s) as [rec|]; [by case_bool_decide|]. cbn [errors_Is negb].
  rewrite bool_decide_eq_true_2 by done. cbn [negb].
  destruct (create_fresh _ _ _ _ _ _ _ _ _ _ _) as [[?|e] [v s']] eqn:E; [done|].
  by rewrite (no_replay_create_fresh _ _ _ _ _ _ _ _ _ _ E).
Qed.

(** What [CreatePeer] does, after its checks. *)
Lemma CreatePeer_cases dr ctx slug key req s tenant node profile s0 :
  create_checks uuid_Parse ctx slug key req s = (Ok (tenant, node, profile), s0) ->
  CreatePeer' dr ctx slug key req s =
  match live_record (d_now dr) (t_ID tenant, key) s with
  | Some rec =>
      if bool_decide (ir_RequestHash rec = hash_create req slug)
      then (Ok (unmarshal_response (ir_ResponseBody rec), ir_ResponseStatus rec), s)
      else (Err (ESentinel ErrIdempotencyConflict), s)
  | None =>
      match create_fresh uuid_String X25519 sv dr tenant node profile req key (hash_create req slug)
              ((empty_response, 0), s) with
      | (Ok _, (v, s')) => (Ok v, s')
      | (Err e, _) => (Err e, s)
      end
  end.
Proof. intros Hc. by rewrite CreatePeer_run, Hc, create_tx_cases. Qed.

Lemma create_checks_auth ctx slug key req s tenant node profile s0 :
  create_checks uuid_Parse ctx slug key req s = (Ok (tenant, node, profile), s0) ->
  find (fun t => bool_decide (t_Slug t = slug)) (st_tenants s) = Some tenant
  /\ authorizeTenant ctx (t_ID tenant) write_roles = Ok tt.
Proof.
  unfold create_checks. do 2 (destruct (bool_decide _); [done|]). intros H.
  apply bind_inv in H as (t & s1 & Ht & H). apply bind_inv in H as ([] & s2 & Ha & H).
  unfold of_result in Ha. injection Ha as Ha <-. unfold Tenants_GetBySlug in Ht. rewrite asks_bind in Ht.
  destruct (find _ _) as [t'|] eqn:Ef; [|done]. injection Ht as -> <-.
  assert (t = tenant) as ->; [|done].
  apply bind_inv in H as (n & s3 & _ & H). destruct (n_ProfileID n); [|done].
  apply bind_inv in H as (pr & s4 & _ & H). apply bind_inv in H as ([] & s5 & _ & H).
  destruct (supplied_key req); [|destruct (ValidateKey _); [|done]]; by injection H as -> _ _ _.
Qed.

Lemma preserves_CreatePeer dr ctx slug key req : preserves (CreatePeer' dr ctx slug key req).
Proof.
  unfold CreatePeer. apply preserves_bind.
  - intros s Hs. by rewrite (proj1 (reads_create_checks ctx slug key req) s).
  - intros [[t n] p]. apply preserves_with_tx. unfold create_tx, create_fresh. preserves_v.
Qed.

Lemma preserves_RevokePeer dr ctx slug pid key reason : preserves (RevokePeer' dr ctx slug pid key reason).
Proof.
  unfold RevokePeer. apply preserves_bind.
  - intros s Hs. by rewrite (proj1 (reads_revoke_checks ctx slug pid key) s).
  - intros [t id]. apply preserves_with_tx. unfold revoke_tx. preserves_v.
Qed.

(** Every outcome of a create request: the store is unchanged, or a creation
    wrote all its rows. *)
Lemma CreatePeer_outcome dr ctx slug key req s r s' :
  CreatePeer' dr ctx slug key req s = (r, s') ->
  s' = s \/ exists tenant node profile pub priv psk peer s1 resp,
    r = Ok (resp, 202)
    /\ create_checks uuid_Parse ctx slug key req s = (Ok (tenant, node, profile), s)
    /\ keys_for dr req pub priv /\ GeneratePresharedKey (d_rand_psk dr) = Ok psk
    /\ AllocateAndInsert uuid_String (d_peerID dr) (d_now dr) (create_params tenant node profile req pub psk) s
       = (Ok peer, s1)
    /\ st_idem s !! (t_ID tenant, key) = None
    /\ resp = fresh_response uuid_String sv node profile peer
                (request_op dr (t_ID tenant) OpCreatePeer (hash_create req slug) peer) priv psk
    /\ s' = created_store dr tenant key (hash_create req slug) resp peer s1.
Proof.
  intros H. pose proof (proj1 (reads_create_checks ctx slug key req) s) as Hp.
  destruct (create_checks uuid_Parse ctx slug key req s) as [[[[t n] p]|e] s0] eqn:Ec; simpl in Hp; subst.
  - rewrite (CreatePeer_cases _ _ _ _ _ _ _ _ _ _ Ec) in H. destruct (live_record _ _ s) as [rec|].
    { left. case_bool_decide; by injection H as _ <-. }
    destruct (create_fresh _ _ _ _ _ _ _ _ _ _ _) as [[[]|e] [v s1]] eqn:Ef; [|left; by injection H as _ <-].
    injection H as <- ->. apply create_fresh_Ok in Ef as (pub & priv & psk & peer & s1 & H1 & H2 & H3 & H4 & H5 & H6).
    subst v. right. by eexists t, n, p, pub, priv, psk, peer, s1, _.
  - left. rewrite CreatePeer_run, Ec in H. by injection H as _ <-.
Qed.

(** A creation that writes, with all it wrote. *)
Lemma CreatePeer_fresh dr ctx slug key req s resp status s' :
  CreatePeer' dr ctx slug key req s = (Ok (resp, status), s') -> s' <> s ->
  exists tenant node profile pub priv psk peer s1,
    create_checks uuid_Parse ctx slug key req s = (Ok (tenant, node, profile), s)
    /\ keys_for dr req pub priv /\ GeneratePresharedKey (d_rand_psk dr) = Ok psk
    /\ AllocateAndInsert uuid_String (d_peerID dr) (d_now dr) (create_params tenant node profile req pub psk) s
       = (Ok peer, s1)
    /\ st_idem s !! (t_ID tenant, key) = None
    /\ resp = fresh_response uuid_String sv node profile peer
                (request_op dr (t_ID tenant) OpCreatePeer (hash_create req slug) peer) priv psk
    /\ status = 202
    /\ s' = created_store dr tenant key (hash_create req slug) resp peer s1.
Proof.
  intros H Hne. destruct (CreatePeer_outcome _ _ _ _ _ _ _ _ H)
    as [?|(t & n & p & pub & priv & psk & peer & s1 & r & Hr & H1)]; [done|].
  injection Hr as -> ->. destruct_and! H1. by exists t, n, p, pub, priv, psk, peer, s1.
Qed.

(** C3: (Creation.) A create request that writes adds exactly one row to each
    of peers, operations, outbox, audit and idempotency records, all of them for
    the tenant of the URL and referring to one another, and moves at most a pool
    cursor besides: the peer is pending at revision 1 with the requested external
    id, the operation and the job are pending, and the response (202) reports the
    stored address, key and preshared key while the stored copy of the response
    has no secret.  The store invariant still holds. *)
Theorem CreatePeer_effect dr ctx slug key req s resp status s' :
  store_ok s -> CreatePeer' dr ctx slug key req s = (Ok (resp, status), s') -> s' <> s ->
  exists tenant peer,
    let hash := hash_create req slug in
    let op := request_op dr (t_ID tenant) OpCreatePeer hash peer in
    find (fun t => bool_decide (t_Slug t = slug)) (st_tenants s) = Some tenant
    /\ p_TenantID peer = t_ID tenant /\ p_ExternalID peer = rq_ExternalID req
    /\ p_State peer = PeerPending /\ p_DesiredRevision peer = 1 /\ p_AppliedRevision peer = 0
    /\ (supplied_key req <> [] -> p_PublicKey peer = supplied_key req)
    /\ st_peers s' = st_peers s ++ [peer] /\ st_operations s' = st_operations s ++ [op]
    /\ st_outbox s' = st_outbox s ++ [request_job dr OpCreatePeer #"{}" peer]
    /\ st_audit s' = st_audit s ++ [request_event uuid_String dr (t_ID tenant) #"peer.create" key peer]
    /\ st_idem s' = <[(t_ID tenant, key) := request_record sv dr hash (BodyCreate (sanitize_response resp))]> (st_idem s)
    /\ no_secrets (sanitize_response resp) /\ same_catalog s' s /\ st_runtime s' = st_runtime s
    /\ (exists id c, st_pools s' = update_id ap_ID id (set_cursor c) (st_pools s))
    /\ status = 202 /\ cr_PeerID resp = uuid_String (p_ID peer) /\ cr_OperationID resp = uuid_String (o_ID op)
    /\ cr_AllowedIP resp = Prefix_String (p_AllowedIP peer) /\ cr_PublicKey resp = p_PublicKey peer
    /\ p_PresharedKeyRef peer = Some (cr_PresharedKey resp)
    /\ store_ok s'.
Proof.
  intros Hs H Hne. pose proof (preserves_CreatePeer dr ctx slug key req s Hs) as Hok. rewrite H in Hok.
  destruct (CreatePeer_fresh _ _ _ _ _ _ _ _ _ H Hne)
    as (tenant & node & profile & pub & priv & psk & peer & s1 & Hc & Hk & Hpsk & Ha & _ & Hr & Hst & Hs').
  apply create_checks_auth in Hc as [Hf _]. pose proof Ha as Hpeer.
  apply AllocateAndInsert_scan in Hpeer as (a & row & c & Hpeer & Hs1 & _ & _); [|done].
  exists tenant, peer. subst peer s1 resp s' status. split_and!; try done.
  - intros Hsk. by destruct Hk as [[? _]|[-> _]].
  - by eexists _, _.
Qed.

(** ** Replays *)

Lemma create_checks_same ctx slug key req s s2 tenant node profile :
  create_checks uuid_Parse ctx slug key req s = (Ok (tenant, node, profile), s) -> same_catalog s s2 ->
  create_checks uuid_Parse ctx slug key req s2 = (Ok (tenant, node, profile), s2).
Proof.
  intros H Hc. destruct (reads_create_checks ctx slug key req) as [Hp Hr].
  specialize (Hr s s2 Hc). specialize (Hp s2). rewrite H in Hr.
  destruct (create_checks _ _ _ _ _ s2). simpl in *. by subst.
Qed.

(** C4: (Idempotent creation.) After a create request that wrote, the same
    request of the same principal with the same key, retried before the record expires
    and whatever ids, time and randomness the retry draws, changes nothing and returns
    the first response with its one-time secrets removed; and a request with the same key
    whose hash differs, and which passes the checks before the transaction, is refused
    with the idempotency conflict, also without any change.  Other requests may have been
    served in between, as long as the catalogue is the same and the record is still
    there. *)
Theorem CreatePeer_idempotent dr ctx slug key req s resp status s' dr2 s2 :
  CreatePeer' dr ctx slug key req s = (Ok (resp, status), s') -> s' <> s ->
  d_now dr2 < d_now dr + idempotencyTTL sv ->
  same_catalog s' s2 -> (forall t, st_idem s2 !! (t, key) = st_idem s' !! (t, key)) ->
  CreatePeer' dr2 ctx slug key req s2 = (Ok (sanitize_response resp, status), s2)
  /\ no_secrets (sanitize_response resp) /\ cr_PeerID (sanitize_response resp) = cr_PeerID resp
  /\ forall req2 tnp, create_checks uuid_Parse ctx slug key req2 s2 = (Ok tnp, s2) ->
       hash_create req2 slug <> hash_create req slug ->
       CreatePeer' dr2 ctx slug key req2 s2 = (Err (ESentinel ErrIdempotencyConflict), s2).
Proof.
  intros H Hne Hnow Hcat Hrec.
  destruct (CreatePeer_fresh _ _ _ _ _ _ _ _ _ H Hne)
    as (tenant & node & profile & pub & priv & psk & peer & s1 & Hc & _ & _ & Ha & _ & _ & -> & Hs').
  apply AllocateAndInsert_Ok in Ha as (row & al & _ & _ & _ & Hs1).
  assert (Hcat' : same_catalog s s2) by (subst s1 s'; exact Hcat).
  assert (Hlive : live_record (d_now dr2) (t_ID tenant, key) s2
                  = Some (request_record sv dr (hash_create req slug) (BodyCreate (sanitize_response resp)))).
  { unfold live_record. rewrite Hrec, Hs'. unfold created_store, add_rows. cbn [st_idem set_idem].
    rewrite lookup_insert_eq. cbn [ir_ExpiresAt request_record]. by rewrite (proj2 (Z.ltb_lt _ _)). }
  split_and!; [|done..|].
  - pose proof (create_checks_same _ _ _ _ _ _ _ _ _ Hc Hcat') as Hc2.
    rewrite (CreatePeer_cases _ _ _ _ _ _ _ _ _ _ Hc2), Hlive. cbn [ir_RequestHash request_record].
    by rewrite bool_decide_eq_true_2.
  - intros req2 [[t n] p] Hc2 Hh. rewrite (CreatePeer_cases _ _ _ _ _ _ _ _ _ _ Hc2).
    apply create_checks_auth in Hc as [Hf _], Hc2 as [Hf2 _].
    rewrite <- (proj1 Hcat'), Hf in Hf2. injection Hf2 as <-. rewrite Hlive. cbn [ir_RequestHash request_record].
    by rewrite bool_decide_eq_false_2.
Qed.

(** (Expired keys.) Once the idempotency record of a key has expired, no
    create request with that key succeeds any more, whatever it asks and draws:
    the lookup ignores the row, and storing the new record then violates its
    primary key, so the whole transaction fails and rolls back. *)
Theorem expired_key_unusable dr ctx slug key req s tenant node profile rec :
  create_checks uuid_Parse ctx slug key req s = (Ok (tenant, node, profile), s) ->
  st_idem s !! (t_ID tenant, key) = Some rec -> ir_ExpiresAt rec <= d_now dr ->
  exists e, CreatePeer uuid_Parse uuid_String hash_create X25519 sv dr ctx slug key req s = (Err e, s).
Proof.
  intros Hc Hrec Hexp. rewrite (CreatePeer_cases _ _ _ _ _ _ _ _ _ _ Hc).
  unfold live_record. rewrite Hrec, (proj2 (Z.ltb_ge _ _)) by done.
  destruct (create_fresh _ _ _ _ _ _ _ _ _ _ _) as [[[]|e] [v s1]] eqn:Ef; [|by exists e].
  apply create_fresh_Ok in Ef as (? & ? & ? & ? & ? & _ & _ & _ & Hn & _). congruence.
Qed.

(** ** Revocation *)

(** The store a revocation leaves. *)
Definition revoked_store (dr : Draws) (tenant : Tenant) (pid : uuid) (key reason : bytes) (p : Peer) (s : Store) : Store :=
  let hash := hash_revoke (t_ID tenant) pid reason in
  let peer := scanPeer (revoke_row (d_now dr) (d_now dr) p) in
  add_rows (request_op dr (t_ID tenant) OpRevokePeer hash peer) (request_job dr OpRevokePeer (reason_json reason) peer)
    (request_event uuid_String dr (t_ID tenant) #"peer.revoke" key peer) (t_ID tenant, key)
    (request_record sv dr hash (BodyRevoke (uuid_String (d_opID dr))))
    (set_peers (update_id p_ID pid (revoke_row (d_now dr) (d_now dr))) s).

Lemma revoke_checks_auth ctx slug pid key s tenant id s0 :
  revoke_checks uuid_Parse ctx slug pid key s = (Ok (tenant, id), s0) ->
  find (fun t => bool_decide (t_Slug t = slug)) (st_tenants s) = Some tenant
  /\ authorizeTenant ctx (t_ID tenant) write_roles = Ok tt /\ uuid_Parse pid = Some id.
Proof.
  unfold revoke_checks. destruct (bool_decide _); [done|]. intros H.
  apply bind_inv in H as (t & s1 & Ht & H). apply bind_inv in H as ([] & s2 & Ha & H).
  unfold of_result in Ha. injection Ha as Ha <-. unfold Tenants_GetBySlug in Ht. rewrite asks_bind in Ht.
  destruct (find _ _) as [t'|] eqn:Ef; [|done]. injection Ht as -> <-.
  destruct (uuid_Parse pid); [|done]. by injection H as <- <- _.
Qed.

(** What the transaction of a revoke request does, on every branch. *)
Lemma revoke_tx_cases dr tenant id key reason s :
  let hash := hash_revoke (t_ID tenant) id reason in
  let tx := with_tx (revoke_tx uuid_String hash_revoke reason_json sv dr tenant id key reason) uuid_Nil s in
  match live_record (d_now dr) (t_ID tenant, key) s with
  | Some rec =>
      tx =
      if bool_decide (ir_RequestHash rec = hash) then (Ok (default uuid_Nil (ir_OperationID rec)), s)
      else (Err (ESentinel ErrIdempotencyConflict), s)
  | None =>
      match find_id p_ID (st_peers s) id with
      | None => tx = (Err (ESentinel ErrNotFound), s)
      | Some p =>
          if (p_TenantID p =? t_ID tenant)%N
          then (exists e, tx = (Err e, s))
               \/ (tx
                   = (Ok (d_opID dr), revoked_store dr tenant id key reason p s)
                   /\ st_idem s !! (t_ID tenant, key) = None)
          else tx = (Err (ESentinel ErrNotFound), s)
      end
  end.
Proof.
  cbv zeta. rewrite with_tx_cases. unfold revoke_tx. cbv zeta.
  rewrite (bind_ok _ _ _ _ _ (attempt_lookup _ _ _ _ _)).
  destruct (live_record _ _ s) as [rec|].
  { case_bool_decide; [|done]. cbn [negb]. by destruct (ir_OperationID rec). }
  change (errors_Is (ESentinel ErrNotFound) ErrNotFound) with true. cbn [negb].
  destruct (find_id p_ID (st_peers s) id) as [p|] eqn:Ep.
  2:{ rewrite (bind_err _ _ _ (ESentinel ErrNotFound) (uuid_Nil, s)); [done|].
      by rewrite on_store_run, MarkRevoked_run, Ep. }
  assert (Hm : on_store (V := uuid) (MarkRevoked id (d_now dr) (d_now dr)) (uuid_Nil, s)
    = (Ok (scanPeer (revoke_row (d_now dr) (d_now dr) p)),
       (uuid_Nil, set_peers (update_id p_ID id (revoke_row (d_now dr) (d_now dr))) s))).
  { by rewrite on_store_run, MarkRevoked_run, Ep. }
  rewrite (bind_ok _ _ _ _ _ Hm). cbn [p_TenantID scanPeer revoke_row].
  destruct (p_TenantID p =? t_ID tenant)%N; [|done]. cbn [negb].
  match goal with |- context [match ?m ?x with _ => _ end] => destruct (m x) as [[[]|e] [v s1]] eqn:E end.
  - right. inv_session. inv_rows. by simplify_eq/=.
  - left. destruct (errors_Is e _) eqn:He; [|by exists e]. exfalso. revert E He.
    match goal with |- ?m _ = _ -> _ => assert (Hn : no_replay m) by no_replay end.
    intros E. apply Hn in E. by rewrite E.
Qed.

(** What [RevokePeer] does, after its checks, on every branch. *)
Lemma RevokePeer_cases dr ctx slug pid key reason s tenant id s0 :
  revoke_checks uuid_Parse ctx slug pid key s = (Ok (tenant, id), s0) ->
  let hash := hash_revoke (t_ID tenant) id reason in
  match live_record (d_now dr) (t_ID tenant, key) s with
  | Some rec =>
      RevokePeer' dr ctx slug pid key reason s =
      if bool_decide (ir_RequestHash rec = hash) then (Ok (default uuid_Nil (ir_OperationID rec)), s)
      else (Err (ESentinel ErrIdempotencyConflict), s)
  | None =>
      match find_id p_ID (st_peers s) id with
      | None => RevokePeer' dr ctx slug pid key reason s = (Err (ESentinel ErrNotFound), s)
      | Some p =>
          if (p_TenantID p =? t_ID tenant)%N
          then (exists e, RevokePeer' dr ctx slug pid key reason s = (Err e, s))
               \/ (RevokePeer' dr ctx slug pid key reason s
                   = (Ok (d_opID dr), revoked_store dr tenant id key reason p s)
                   /\ st_idem s !! (t_ID tenant, key) = None)
          else RevokePeer' dr ctx slug pid key reason s = (Err (ESentinel ErrNotFound), s)
      end
  end.
Proof. intros Hc. rewrite RevokePeer_run, Hc. apply revoke_tx_cases. Qed.

(** Every outcome of a revoke request. *)
Lemma RevokePeer_outcome dr ctx slug pid key reason s r s' :
  RevokePeer' dr ctx slug pid key reason s = (r, s') ->
  s' = s \/ exists tenant id p,
    r = Ok (d_opID dr) /\ revoke_checks uuid_Parse ctx slug pid key s = (Ok (tenant, id), s)
    /\ find_id p_ID (st_peers s) id = Some p /\ p_TenantID p = t_ID tenant
    /\ st_idem s !! (t_ID tenant, key) = None /\ s' = revoked_store dr tenant id key reason p s.
Proof.
  intros H. pose proof (proj1 (reads_revoke_checks ctx slug pid key) s) as Hp.
  destruct (revoke_checks uuid_Parse ctx slug pid key s) as [[[t id]|e] s0] eqn:Ec; simpl in Hp; subst.
  - pose proof (RevokePeer_cases dr ctx slug pid key reason s t id _ Ec) as Hc. cbv zeta in Hc. rewrite H in Hc.
    destruct (live_record _ _ s) as [rec|]; [left; case_bool_decide; by injection Hc|].
    destruct (find_id _ _ _) as [p|] eqn:Ep; [|left; by injection Hc].
    destruct (p_TenantID p =? t_ID t)%N eqn:Et; [|left; by injection Hc]. apply N.eqb_eq in Et.
    destruct Hc as [[e Hc]|[Hc Hi]]; [left; by injection Hc|right]. injection Hc as -> ->. by exists t, id, p.
  - left. rewrite RevokePeer_run, Ec in H. by injection H as _ <-.
Qed.

(** C33: (Revocation.) A revoke request that writes marks exactly the named
    peer, which is one of the tenant's, as revoked with a desired revision one
    higher, so that it is out of step with its applied revision until a worker
    applies it; it adds one pending operation, one pending job for the peer's
    node, one audit event and one idempotency record, and touches no other peer,
    pool, runtime row or catalogue table.  The store invariant still holds. *)
Theorem RevokePeer_effect dr ctx slug pid key reason s op s' :
  store_ok s -> RevokePeer' dr ctx slug pid key reason s = (Ok op, s') -> s' <> s ->
  exists tenant p,
    let p' := revoke_row (d_now dr) (d_now dr) p in
    let hash := hash_revoke (t_ID tenant) (p_ID p) reason in
    find (fun t => bool_decide (t_Slug t = slug)) (st_tenants s) = Some tenant
    /\ p ∈ st_peers s /\ uuid_Parse pid = Some (p_ID p) /\ p_TenantID p = t_ID tenant
    /\ st_peers s' = (fun q => if decide (q = p) then p' else q) <$> st_peers s
    /\ p_State p' = PeerRevoked /\ p_AppliedRevision p' < p_DesiredRevision p'
    /\ op = d_opID dr /\ st_operations s' = st_operations s ++ [request_op dr (t_ID tenant) OpRevokePeer hash p']
    /\ st_outbox s' = st_outbox s ++ [request_job dr OpRevokePeer (reason_json reason) p']
    /\ st_audit s' = st_audit s ++ [request_event uuid_String dr (t_ID tenant) #"peer.revoke" key p']
    /\ st_idem s' = <[(t_ID tenant, key) := request_record sv dr hash (BodyRevoke (uuid_String op))]> (st_idem s)
    /\ same_catalog s' s /\ st_runtime s' = st_runtime s /\ st_pools s' = st_pools s /\ store_ok s'.
Proof.
  intros Hs H Hne. pose proof (preserves_RevokePeer dr ctx slug pid key reason s Hs) as Hok. rewrite H in Hok.
  destruct (RevokePeer_outcome _ _ _ _ _ _ _ _ _ H) as [?|(tenant & id & p & Hop & Hc & Hf & Ht & _ & ->)]; [done|].
  injection Hop as ->.
  apply revoke_checks_auth in Hc as (Hten & _ & Hid). apply find_id_Some in Hf as [Hin Hp]. subst id.
  pose proof (so_peers _ Hs) as Hpo. eapply (Forall_forall _ _) in Hpo; [|exact Hin].
  destruct Hpo as (Hrev & _ & Hip & _).
  assert (Hscan : scanPeer (revoke_row (d_now dr) (d_now dr) p) = revoke_row (d_now dr) (d_now dr) p).
  { unfold scanPeer, revoke_row. simpl. by rewrite <- Hip. }
  unfold revoked_store in *. cbv zeta in *. rewrite !Hscan in *. exists tenant, p. split_and!; try done.
  - cbn [st_peers set_peers add_rows set_idem set_audit set_outbox set_operations].
    by apply update_peer_row; [apply Hs|].
  - cbn [p_AppliedRevision p_DesiredRevision revoke_row]. lia.
Qed.

(** (Peers of other tenants.) A revoke request that names a peer of another
    tenant, or one that does not exist, is answered as not found and leaves the
    store as it was, although the statement that marks the peer runs before the
    tenant is compared. *)
Theorem RevokePeer_foreign dr ctx slug pid key reason s tenant id :
  revoke_checks uuid_Parse ctx slug pid key s = (Ok (tenant, id), s) ->
  live_record (d_now dr) (t_ID tenant, key) s = None ->
  (forall p, find_id p_ID (st_peers s) id = Some p -> p_TenantID p <> t_ID tenant) ->
  RevokePeer' dr ctx slug pid key reason s = (Err (ESentinel ErrNotFound), s).
Proof.
  intros Hc Hl Hp. pose proof (RevokePeer_cases dr ctx slug pid key reason s tenant id _ Hc) as H.
  cbv zeta in H. rewrite Hl in H. destruct (find_id _ _ _) as [p|]; [|done].
  destruct (p_TenantID p =? t_ID tenant)%N eqn:Et; [|done]. apply N.eqb_eq in Et. by destruct (Hp p).
Qed.

(** ** Access control *)

Lemma authorizeTenant_Ok ctx tid roles :
  authorizeTenant ctx tid roles = Ok tt ->
  exists pr, ctx = Some pr /\ HasAnyRole pr roles = true
    /\ (HasRole pr RolePlatformAdmin = false -> pr_TenantID pr = tid /\ tid <> uuid_Nil).
Proof.
  unfold authorizeTenant, FromContext. destruct ctx as [pr|]; [|done].
  destruct (HasAnyRole pr roles) eqn:Er; [|done]. simpl. intros H. exists pr. split_and!; [done|done|].
  intros Ha. rewrite Ha in H. destruct (_ || _) eqn:E; [done|]. apply orb_false_iff in E as [E1 E2].
  apply negb_false_iff, N.eqb_eq in E2. apply N.eqb_neq in E1. by subst.
Qed.

Lemma GetPeer_Ok ctx slug id s peer s' :
  GetPeer uuid_Parse ctx slug id s = (Ok peer, s') ->
  exists tenant row, find (fun t => bool_decide (t_Slug t = slug)) (st_tenants s) = Some tenant
    /\ authorizeTenant ctx (t_ID tenant) read_roles = Ok tt
    /\ row ∈ st_peers s /\ uuid_Parse id = Some (p_ID row) /\ peer = scanPeer row
    /\ p_TenantID row = t_ID tenant /\ s' = s.
Proof.
  unfold GetPeer. intros H. apply bind_inv in H as (t & s1 & Ht & H). apply bind_inv in H as ([] & s2 & Ha & H).
  unfold of_result in Ha. injection Ha as Ha <-. unfold Tenants_GetBySlug in Ht. rewrite asks_bind in Ht.
  destruct (find _ _) as [t'|] eqn:Ef; [|done]. injection Ht as -> <-.
  destruct (uuid_Parse id) as [uid|]; [|done]. apply bind_inv in H as (p & s3 & Hp & H).
  unfold Peers_GetByID in Hp. rewrite asks_bind in Hp. destruct (find_id _ _ _) as [row|] eqn:Er; [|done].
  injection Hp as <- <-. destruct (_ =? _)%N eqn:Et; [|done]. injection H as <- <-.
  apply find_id_Some in Er as [Hin <-]. apply N.eqb_eq in Et. by exists t, row.
Qed.

Lemma GetOperation_Ok ctx id s op s' :
  GetOperation uuid_Parse ctx id s = (Ok op, s') ->
  authorizeTenant ctx (o_TenantID op) read_roles = Ok tt /\ op ∈ st_operations s
  /\ uuid_Parse id = Some (o_ID op) /\ s' = s.
Proof.
  unfold GetOperation. destruct (uuid_Parse id) as [uid|]; [|done]. intros H.
  apply bind_inv in H as (o & s1 & Ho & H). apply bind_inv in H as ([] & s2 & Ha & H).
  unfold of_result in Ha. injection Ha as Ha <-. injection H as <- <-.
  unfold Operations_GetByID in Ho. rewrite asks_bind in Ho. destruct (find_id _ _ _) as [o'|] eqn:Eo; [|done].
  injection Ho as -> <-. apply find_id_Some in Eo as [Hin <-]. done.
Qed.

(** C10: (Reads are confined to the caller's tenant.) A peer or an operation is
    returned only to an authenticated principal that has one of the reading roles
    and, unless it is a platform administrator, whose own (non-nil) tenant is the
    tenant of the returned row; the returned row is the one with the requested id,
    and a read never changes the store. *)
Theorem reads_confined ctx slug id s :
  (forall peer s', GetPeer uuid_Parse ctx slug id s = (Ok peer, s') ->
     s' = s /\ uuid_Parse id = Some (p_ID peer)
     /\ exists pr, ctx = Some pr /\ HasAnyRole pr read_roles = true
          /\ (HasRole pr RolePlatformAdmin = false -> pr_TenantID pr = p_TenantID peer /\ pr_TenantID pr <> uuid_Nil))
  /\ (forall op s', GetOperation uuid_Parse ctx id s = (Ok op, s') ->
     s' = s /\ uuid_Parse id = Some (o_ID op)
     /\ exists pr, ctx = Some pr /\ HasAnyRole pr read_roles = true
          /\ (HasRole pr RolePlatformAdmin = false -> pr_TenantID pr = o_TenantID op /\ pr_TenantID pr <> uuid_Nil)).
Proof.
  split.
  - intros peer s' H. apply GetPeer_Ok in H as (t & row & _ & Ha & _ & Hid & -> & Ht & ->).
    apply authorizeTenant_Ok in Ha as (pr & Hctx & Hr & Hn). split; [done|]. split; [done|].
    exists pr. split_and!; [done|done|]. intros E. destruct (Hn E) as [-> ?]. split; [exact (eq_sym Ht)|done].
  - intros op s' H. apply GetOperation_Ok in H as (Ha & _ & Hid & ->).
    apply authorizeTenant_Ok in Ha as (pr & Hctx & Hr & Hn). split; [done|]. split; [done|].
    exists pr. split_and!; [done|done|]. intros E. by destruct (Hn E) as [-> ?].
Qed.

(** What the tables hold of one tenant. *)
Definition tenant_view (t : uuid) (s : Store)
    : list Peer * list AddressPool * list Operation * list AuditRow :=
  (filter (fun p => p_TenantID p = t) (st_peers s), filter (fun a => ap_TenantID a = t) (st_pools s),
   filter (fun o => o_TenantID o = t) (st_operations s), filter (fun a => au_TenantID a = Some t) (st_audit s)).

Definition same_for (t : uuid) (s1 s2 : Store) : Prop :=
  tenant_view t s1 = tenant_view t s2 /\ forall k, st_idem s1 !! (t, k) = st_idem s2 !! (t, k).

Lemma confined_to ctx t tid :
  (forall pr, ctx = Some pr -> HasRole pr RolePlatformAdmin = false /\ pr_TenantID pr <> t) ->
  authorizeTenant ctx tid write_roles = Ok tt -> tid <> t.
Proof.
  intros Hctx Ha. apply authorizeTenant_Ok in Ha as (pr & Hp & _ & Hn).
  destruct (Hctx pr Hp) as [Hpa Ht]. by destruct (Hn Hpa) as [<- _].
Qed.

Lemma filter_other {A} (f : A -> uuid) t (l : list A) x :
  f x <> t -> filter (fun a => f a = t) (l ++ [x]) = filter (fun a => f a = t) l.
Proof. intros Hx. rewrite filter_app, filter_cons_False, filter_nil by done. apply app_nil_r. Qed.

(** Rows of tenant [t] are not touched by updates of other tenants' rows. *)
Lemma filter_update_other {A} (id f : A -> uuid) x g t (l : list A) :
  (forall a, a ∈ l -> id a = x -> f a <> t) -> (forall a, f (g a) = f a) ->
  filter (fun a => f a = t) (update_id id x g l) = filter (fun a => f a = t) l.
Proof.
  intros Hf Hg. induction l as [|a l IH]; [done|]. unfold update_id in *. rewrite fmap_cons. simpl.
  assert (IH' := IH (fun b Hb => Hf b (list_elem_of_further _ _ _ Hb))).
  destruct (id a =? x)%N eqn:E.
  - apply N.eqb_eq in E. pose proof (Hf a (list_elem_of_here _ _) E) as Ha.
    rewrite !filter_cons_False by (rewrite ?Hg; done). done.
  - rewrite !filter_cons. case_decide; [by f_equal|done].
Qed.

Lemma same_for_rows t tid op job ev key rec s s1 :
  tid <> t -> o_TenantID op = tid -> au_TenantID ev = Some tid ->
  same_for t s1 s -> same_for t (add_rows op job ev (tid, key) rec s1) s.
Proof.
  intros Ht Ho He [Hv Hi]. split.
  - rewrite <- Hv. unfold tenant_view, add_rows.
    cbn [st_peers st_pools st_operations st_audit set_idem set_audit set_outbox set_operations].
    rewrite filter_other by congruence. f_equal. rewrite filter_app, filter_cons_False, filter_nil by congruence.
    apply app_nil_r.
  - intros k. unfold add_rows. cbn [st_idem set_idem]. rewrite lookup_insert_ne by congruence. apply Hi.
Qed.

Definition foreign (t : uuid) (ctx : option Principal) : Prop :=
  forall pr, ctx = Some pr -> HasRole pr RolePlatformAdmin = false /\ pr_TenantID pr <> t.

Lemma create_confined dr ctx slug key req s t :
  store_ok s -> foreign t ctx -> same_for t (snd (CreatePeer' dr ctx slug key req s)) s.
Proof.
  intros Hs Hctx. destruct (CreatePeer' dr ctx slug key req s) as [r s'] eqn:E.
  destruct (CreatePeer_outcome _ _ _ _ _ _ _ _ E)
    as [->|(tenant & n & p & pub & priv & psk & peer & s1 & resp & _ & Hc & _ & _ & Ha & _ & _ & ->)]; [done|].
  apply create_checks_auth in Hc as [_ Hc]. pose proof (confined_to _ _ _ Hctx Hc).
  apply AllocateAndInsert_scan in Ha as (a & row & c & -> & -> & Hrow & Hrt); [|done].
  apply same_for_rows; try done. split; [|done]. unfold tenant_view.
  cbn [st_peers st_pools st_operations st_audit set_peers set_pools].
  rewrite filter_other by done.
  rewrite (filter_update_other ap_ID ap_TenantID); [done| |done].
  eapply pool_row_tenant; [apply Hs|exact Hrow|by rewrite Hrt].
Qed.

Lemma revoke_confined dr ctx slug pid key reason s t :
  store_ok s -> foreign t ctx -> same_for t (snd (RevokePeer' dr ctx slug pid key reason s)) s.
Proof.
  intros Hs Hctx. destruct (RevokePeer' dr ctx slug pid key reason s) as [r s'] eqn:E.
  destruct (RevokePeer_outcome _ _ _ _ _ _ _ _ _ E) as [->|(tenant & id & p & _ & Hc & Hf & Hpt & _ & ->)]; [done|].
  apply revoke_checks_auth in Hc as (_ & Hc & _). pose proof (confined_to _ _ _ Hctx Hc).
  apply find_id_Some in Hf as [Hin <-]. apply same_for_rows; try done. split; [|done]. unfold tenant_view.
  cbn [st_peers st_pools st_operations st_audit set_peers].
  rewrite filter_update_other; [done| |done]. intros q Hq Hqid.
  assert (q = p) as -> by (apply (distinct_eq (st_peers s)); [apply Hs|done|done|]; unfold peer_conflicts;
    by rewrite Hqid, N.eqb_refl). congruence.
Qed.

(** C9: (Writes are confined to the caller's tenant.) Whatever a create or
    revoke request of a principal that is not a platform administrator asks for,
    and however it ends, the peers, pools, operations, audit events and
    idempotency records of every other tenant are left as they were; and without
    an authenticated principal holding a writing role nothing changes at all. *)
Theorem writes_confined dr ctx slug key req pid reason s t :
  store_ok s -> (forall pr, ctx = Some pr -> HasRole pr RolePlatformAdmin = false /\ pr_TenantID pr <> t) ->
  same_for t (snd (CreatePeer' dr ctx slug key req s)) s
  /\ same_for t (snd (RevokePeer' dr ctx slug pid key reason s)) s.
Proof. intros Hs Hctx. split; [by apply create_confined|by apply revoke_confined]. Qed.

(** ** Secrets *)

(** The store without the preshared keys of the peers, and without the header
    protection keys of the profiles. *)
Definition strip_psk (s : Store) : Store := set_peers (fmap json_peer) s.

Definition strip_row (r : ProfileRow) : ProfileRow :=
  mkProfileRow (pw_id r) (pw_name r) (pw_protocol_version r) (pw_jc r) (pw_jmin r) (pw_jmax r)
    (pw_s1 r) (pw_s2 r) (pw_s3 r) (pw_s4 r) (pw_h1 r) (pw_h2 r) (pw_h3 r) (pw_h4 r)
    (pw_i1 r) (pw_i2 r) (pw_i3 r) (pw_i4 r) (pw_i5 r) (pw_listen_port_policy r) None
    (pw_content_padding_addition r) (pw_rekey_after_time r) (pw_rekey_timeout r) (pw_reject_after_time r)
    (pw_keepalive_timeout r) (pw_max_handshake_attempts r) (pw_persistent_keepalive r)
    (pw_random_trailers r) (pw_disable_cookies r) (pw_created_at r).

Definition strip (s : Store) : Store := set_profiles (fmap strip_row) (strip_psk s).

Lemma find_id_fmap {A} (id : A -> uuid) (g : A -> A) l x :
  (forall a, id (g a) = id a) -> find_id id (g <$> l) x = g <$> find_id id l x.
Proof.
  intros Hg. unfold find_id. induction l as [|a l IH]; [done|]. simpl. rewrite Hg. by destruct (id a =? x)%N.
Qed.

Lemma public_strip r : public_profile (scanProfile (strip_row r)) = public_profile (scanProfile r).
Proof. done. Qed.

Lemma GetPeer_strip ctx slug id s :
  GetPeer uuid_Parse ctx slug id (strip s) =
  match GetPeer uuid_Parse ctx slug id s with
  | (Ok p, _) => (Ok (json_peer p), strip s)
  | (Err e, _) => (Err e, strip s)
  end.
Proof.
  unfold GetPeer, Tenants_GetBySlug, of_result, mbind, SE_bind, asks.
  cbn [st_tenants strip strip_psk set_profiles set_peers]. destruct (find _ _) as [t|]; [|done].
  cbn [row_or_not_found mret SE_ret]. destruct (authorizeTenant _ _ _) as [[]|]; [|done].
  destruct (uuid_Parse id) as [uid|]; [|done]. unfold Peers_GetByID, mbind, SE_bind, asks.
  cbn [st_peers strip strip_psk set_profiles set_peers]. rewrite find_id_fmap by done.
  destruct (find_id p_ID _ uid) as [p|]; [|done]. simpl. by destruct (p_TenantID p =? t_ID t)%N.
Qed.

Lemma PeerConfiguration_strip ctx slug id s :
  fst (PeerConfiguration uuid_Parse sv ctx slug id (strip s)) = fst (PeerConfiguration uuid_Parse sv ctx slug id s).
Proof.
  unfold PeerConfiguration. unfold mbind at 1 4, SE_bind at 1 4. rewrite GetPeer_strip.
  destruct (GetPeer _ _ _ _ s) as [[p|] s'] eqn:E; [|done]. apply GetPeer_Ok in E as (_ & _ & _ & _ & _ & _ & _ & _ & ->).
  unfold Nodes_GetByID, Profiles_GetByID, mbind, SE_bind, asks.
  cbn [st_nodes st_profiles strip strip_psk set_profiles set_peers].
  change (p_NodeID (json_peer p)) with (p_NodeID p).
  destruct (find_id n_ID _ _) as [n|]; [|done]. simpl. destruct (n_ProfileID n) as [pid|]; [|done].
  change (st_profiles (strip s)) with (strip_row <$> st_profiles s). rewrite find_id_fmap by done.
  by destruct (find_id pw_id _ pid) as [r|].
Qed.

(** (The configuration skeleton holds no secret.) What
    [PeerConfiguration] returns, error or text, is the same for any two stores
    that differ only in the preshared keys of peers and the header protection keys
    of profiles: the endpoint cannot reveal them. *)
Theorem PeerConfiguration_no_secrets ctx slug id s1 s2 :
  strip s1 = strip s2 ->
  fst (PeerConfiguration uuid_Parse sv ctx slug id s1) = fst (PeerConfiguration uuid_Parse sv ctx slug id s2).
Proof. intros H. by rewrite <- (PeerConfiguration_strip _ _ _ s1), H, PeerConfiguration_strip. Qed.

(** C39: (Generated secrets are not stored.) Two runs of a create request, from
    the same store and with the same ids, clock and public key but any other
    private and preshared key, leave stores that are the same but for the
    preshared-key column of the peers: the private key is stored nowhere, and the
    preshared key neither in the audit log nor in the idempotency record. *)
Theorem secrets_not_stored dr1 dr2 ctx slug key req s r1 r2 st1 st2 s1 s2 :
  store_ok s ->
  CreatePeer' dr1 ctx slug key req s = (Ok (r1, st1), s1) -> s1 <> s ->
  CreatePeer' dr2 ctx slug key req s = (Ok (r2, st2), s2) -> s2 <> s ->
  (d_now dr1, d_peerID dr1, d_opID dr1, d_jobID dr1) = (d_now dr2, d_peerID dr2, d_opID dr2, d_jobID dr2) ->
  cr_PublicKey r1 = cr_PublicKey r2 ->
  strip_psk s1 = strip_psk s2.
Proof.
  intros Hs H1 Hn1 H2 Hn2 Hd Hpub. injection Hd as Hd1 Hd2 Hd3 Hd4.
  destruct (CreatePeer_fresh _ _ _ _ _ _ _ _ _ H1 Hn1)
    as (t1 & n1 & p1 & pub1 & priv1 & psk1 & peer1 & s1' & Hc1 & _ & _ & Ha1 & _ & -> & _ & ->).
  destruct (CreatePeer_fresh _ _ _ _ _ _ _ _ _ H2 Hn2)
    as (t2 & n2 & p2 & pub2 & priv2 & psk2 & peer2 & s2' & Hc2 & _ & _ & Ha2 & _ & -> & _ & ->).
  rewrite Hc1 in Hc2. injection Hc2 as <- <- <-.
  apply AllocateAndInsert_Ok in Ha1 as (row & al & Hrow & Hal & -> & ->).
  apply AllocateAndInsert_Ok in Ha2 as (row2 & al2 & Hrow2 & Hal2 & -> & ->).
  change (ip_NodeID (create_params t1 n1 p1 req pub2 psk2)) with (ip_NodeID (create_params t1 n1 p1 req pub1 psk1)) in *.
  change (ip_TenantID (create_params t1 n1 p1 req pub2 psk2)) with (ip_TenantID (create_params t1 n1 p1 req pub1 psk1)) in *.
  rewrite Hrow in Hrow2. injection Hrow2 as <-. rewrite Hal in Hal2. injection Hal2 as <-.
  cbn in Hpub. subst pub2. unfold created_store, add_rows, request_op, request_job, request_event, request_record.
  rewrite !Hd1, !Hd2, !Hd3, !Hd4. unfold strip_psk, set_peers. cbn [set_idem set_audit set_outbox set_operations
    set_pools st_tenants st_nodes st_profiles st_pools st_peers st_runtime st_operations st_outbox st_idem st_audit].
  f_equal. by rewrite !fmap_app.
Qed.
End facts.

(** ** A concrete run *)

Definition demo_uuid_Parse (b : bytes) : option uuid := if bool_decide (b = #"10") then Some 10%N else None.
Definition demo_uuid_String (u : uuid) : bytes := FormatInt (Z.of_N u).
Definition demo_hash (req : CreatePeerRequest) (slug : bytes) : bytes := rq_ExternalID req ++ slug.
Definition demo_hash_revoke (t p : uuid) (reason : bytes) : bytes := reason.
Definition demo_X25519 (k : list Z) : result bytes (list Z) := Ok (replicate 32 1).
Definition demo_service : Service := mkService 0 [ #"1.1.1.1" ].
Definition demo_admin : Principal := mkPrincipal 50 1 [RoleTenantAdmin] [] [] [].
Definition demo_draws (now : Z) (psk : Z) : Draws :=
  mkDraws now 30 31 32 (Ok (replicate 32 psk)) (Ok (replicate 32 psk)).
Definition demo_request (ext : bytes) : CreatePeerRequest := mkCreateRequest ext #"laptop" None None None None None.

Local Abbreviation demo_create := (CreatePeer demo_uuid_Parse demo_uuid_String demo_hash demo_X25519 demo_service).
Local Abbreviation demo_revoke :=
  (RevokePeer demo_uuid_Parse demo_uuid_String demo_hash_revoke (fun r => r) demo_service).

Definition demo_run (now psk : Z) := demo_create (demo_draws now psk) (Some demo_admin) #"acme" #"k1" (demo_request #"bob") demo_base.
Definition demo_created : Store := snd (demo_run 100 9).
Definition demo_response : CreatePeerResponse :=
  match fst (demo_run 100 9) with Ok (r, _) => r | Err _ => empty_response end.

Lemma demo_created_changed : demo_created <> demo_base.
Proof. intros H. apply (f_equal (fun s => length (st_peers s))) in H. by vm_compute in H. Qed.

Lemma write_requests_atomic_witness :
  snd (demo_create (demo_draws 100 9) None #"acme" #"k1" (demo_request #"bob") demo_base) = demo_base.
Proof.
  eapply (proj1 (write_requests_atomic demo_uuid_Parse demo_uuid_String demo_hash demo_hash_revoke (fun r => r)
    demo_X25519 demo_service (demo_draws 100 9) None #"acme" #"k1" (demo_request #"bob") #"10" [] demo_base)
    (ESentinel ErrUnauthorized)).
  vm_compute. reflexivity.
Defined.

Lemma CreatePeer_effect_witness :
  exists peer, st_peers demo_created = st_peers demo_base ++ [peer] /\ store_ok demo_created.
Proof.
  destruct (CreatePeer_effect demo_uuid_Parse demo_uuid_String demo_hash demo_X25519 demo_service (demo_draws 100 9)
    (Some demo_admin) #"acme" #"k1" (demo_request #"bob") demo_base demo_response 202 demo_created demo_base_ok)
    as (tenant & peer & _ & _ & _ & _ & _ & _ & _ & Hp & H).
  - vm_compute. reflexivity.
  - exact demo_created_changed.
  - exists peer. split; [exact Hp|]. apply H.
Defined.

Lemma CreatePeer_idempotent_witness :
  demo_create (demo_draws 200 77) (Some demo_admin) #"acme" #"k1" (demo_request #"bob") demo_created
  = (Ok (sanitize_response demo_response, 202), demo_created).
Proof.
  apply (CreatePeer_idempotent demo_uuid_Parse demo_uuid_String demo_hash demo_X25519 demo_service (demo_draws 100 9)
    (Some demo_admin) #"acme" #"k1" (demo_request #"bob") demo_base demo_response 202 demo_created).
  - vm_compute. reflexivity.
  - exact demo_created_changed.
  - vm_compute. reflexivity.
  - split_and!; reflexivity.
  - intros t. reflexivity.
Defined.

Lemma expired_key_unusable_witness :
  exists e, demo_create (demo_draws (10 ^ 18) 77) (Some demo_admin) #"acme" #"k1" (demo_request #"carol") demo_created
            = (Err e, demo_created).
Proof.
  eapply (expired_key_unusable demo_uuid_Parse demo_uuid_String demo_hash demo_X25519 demo_service).
  - vm_compute. reflexivity.
  - vm_compute. reflexivity.
  - vm_compute. discriminate.
Defined.

Lemma RevokePeer_effect_witness :
  exists p, p ∈ st_peers demo_live
    /\ snd (demo_revoke (demo_draws 100 9) (Some demo_admin) #"acme" #"10" #"k2" #"lost" demo_live) <> demo_live.
Proof.
  destruct (RevokePeer_effect demo_uuid_Parse demo_uuid_String demo_hash_revoke (fun r => r) demo_service
    (demo_draws 100 9) (Some demo_admin) #"acme" #"10" #"k2" #"lost" demo_live 31
    (snd (demo_revoke (demo_draws 100 9) (Some demo_admin) #"acme" #"10" #"k2" #"lost" demo_live)))
    as (tenant & p & _ & Hin & _).
  - apply preserves_AllocateAndInsert, demo_base_ok.
  - vm_compute. reflexivity.
  - intros H. apply (f_equal (fun s => length (st_outbox s))) in H. vm_compute in H. discriminate.
  - exists p. split; [exact Hin|].
    intros H. apply (f_equal (fun s => length (st_outbox s))) in H. vm_compute in H. discriminate.
Defined.

(** A second tenant, whose administrator asks for the first tenant's peer. *)
Definition demo_two : Store := snd (Tenants_Upsert 5 0 #"other" demo_live).
Definition demo_other : Principal := mkPrincipal 51 5 [RoleTenantAdmin] [] [] [].

Lemma RevokePeer_foreign_witness :
  demo_revoke (demo_draws 100 9) (Some demo_other) #"other" #"10" #"k2" #"lost" demo_two
  = (Err (ESentinel ErrNotFound), demo_two).
Proof.
  eapply (RevokePeer_foreign demo_uuid_Parse demo_uuid_String demo_hash_revoke (fun r => r) demo_service).
  - vm_compute. reflexivity.
  - vm_compute. reflexivity.
  - intros p H. vm_compute in H. injection H as <-. vm_compute. discriminate.
Defined.

Lemma reads_confined_witness :
  exists pr, Some demo_admin = Some pr /\ HasAnyRole pr read_roles = true.
Proof.
  destruct (proj1 (reads_confined demo_uuid_Parse (Some demo_admin) #"acme" #"10" demo_live)
    (new_peer 10 5 demo_params (A4 0x0a080002)) demo_live) as (_ & _ & pr & H1 & H2 & _).
  - vm_compute. reflexivity.
  - exists pr. split; [exact H1|exact H2].
Defined.

Lemma writes_confined_witness :
  same_for 1 (snd (demo_create (demo_draws 100 9) (Some demo_other) #"other" #"k1" (demo_request #"bob") demo_two)) demo_two.
Proof.
  refine (proj1 (writes_confined demo_uuid_Parse demo_uuid_String demo_hash demo_hash_revoke (fun r => r)
    demo_X25519 demo_service (demo_draws 100 9) (Some demo_other) #"other" #"k1" (demo_request #"bob") [] [] demo_two 1 _ _)).
  - apply preserves_Upsert, preserves_AllocateAndInsert, demo_base_ok.
  - intros pr H. injection H as <-. split; [reflexivity|discriminate].
Defined.

Lemma PeerConfiguration_no_secrets_witness :
  fst (PeerConfiguration demo_uuid_Parse demo_service (Some demo_admin) #"acme" #"10" demo_live)
  = fst (PeerConfiguration demo_uuid_Parse demo_service (Some demo_admin) #"acme" #"10" (strip_psk demo_live)).
Proof. apply (PeerConfiguration_no_secrets demo_uuid_Parse demo_service). vm_compute. reflexivity. Defined.

Lemma secrets_not_stored_witness : strip_psk (snd (demo_run 100 9)) = strip_psk (snd (demo_run 100 77)).
Proof.
  eapply (secrets_not_stored demo_uuid_Parse demo_uuid_String demo_hash demo_X25519 demo_service
    (demo_draws 100 9) (demo_draws 100 77) (Some demo_admin) #"acme" #"k1" (demo_request #"bob") demo_base).
  - exact demo_base_ok.
  - vm_compute. reflexivity.
  - intros H. apply (f_equal (fun s => length (st_peers s))) in H. vm_compute in H. discriminate.
  - vm_compute. reflexivity.
  - intros H. apply (f_equal (fun s => length (st_peers s))) in H. vm_compute in H. discriminate.
  - reflexivity.
  - vm_compute. reflexivity.
Defined.
