(* ===== verification/Hashes.v ===== *)
(** * Hashes: what the idempotency fingerprint stands for

    [requestHash] and [mustJSON] of [api/service.go] with the two structs they hash, and
    [HashConfig] of [awg/executor.go], on the SHA-256 of Sha256.v.  The service's
    theorems hold for any hash; here its requests are run with the real one: a key that
    has been used answers the request it was used for and no other. *)

From S2P Require Import Prelude GoStrings Strconv Times Json Sha256 Errors Effects Profile Netip Ipam Crypto Auth Tokens AwgConfig Render Store StoreFacts Service ServiceFacts.

(** ** Definitions *)

Definition HashConfig (s : bytes) : bytes := hex_EncodeToString (Sum256 s).

(** A value that [json.Marshal] refuses is hashed as the empty text. *)
Definition mustJSON (v : option json) : bytes := default [] (Marshal <$> v).
Definition requestHash (v : option json) : bytes := hex_EncodeToString (Sum256 (mustJSON v)).

(** [omitempty] of a pointer leaves out [nil] only. *)
Definition omit_nil (k : bytes) (v : option bytes) : list (bytes * json) :=
  match v with None => [] | Some s => [(k, JStr s)] end.

(** A pointer to a time; the outer [None] is a time without JSON. *)
Definition expires_text (t : option Time) : option (option bytes) :=
  match t with None => Some None | Some t => Some <$> MarshalTime t end.

Definition json_CreatePeerRequest (r : CreatePeerRequest) : option json :=
  expires ← expires_text (rq_ExpiresAt r);
  Some (JObj ((#"external_id", JStr (rq_ExternalID r)) :: (#"display_name", JStr (rq_DisplayName r))
              :: omit_nil #"node_id" (rq_NodeID r) ++ omit_nil #"profile_id" (rq_ProfileID r)
              ++ omit_nil #"profile_name" (rq_ProfileName r) ++ omit_nil #"public_key" (rq_PublicKey r)
              ++ omit_nil #"expires_at" expires)).

(** What [CreatePeer] and [RevokePeer] hash. *)
Definition create_fingerprint (req : CreatePeerRequest) (tenantSlug : bytes) : option json :=
  r ← json_CreatePeerRequest req; Some (JObj [ (#"Req", r); (#"Tenant", JStr tenantSlug) ]).

Definition revoke_fingerprint (uuid_String : uuid -> bytes) (tenant pid : uuid) (reason : bytes) : option json :=
  Some (JObj [ (#"TID", JStr (uuid_String tenant)); (#"PID", JStr (uuid_String pid)); (#"Reason", JStr reason) ]).

Definition create_hash (req : CreatePeerRequest) (tenantSlug : bytes) : bytes := requestHash (create_fingerprint req tenantSlug).
Definition revoke_hash (uuid_String : uuid -> bytes) (tenant pid : uuid) (reason : bytes) : bytes :=
  requestHash (revoke_fingerprint uuid_String tenant pid reason).

(** The payload of a revocation's job. *)
Definition reason_payload (reason : bytes) : bytes := mustJSON (Some (JObj [ (#"reason", JStr reason) ])).

Example create_hash_bob :
  mustJSON (create_fingerprint (mkCreateRequest #"bob" #"laptop" None None None (Some []) (Some (mkTime 0 3600))) #"acme")
  = [qm] ≫= fun q => #"{" ++ q :: #"Req" ++ q :: #":{" ++ q :: #"external_id" ++ q :: #":" ++ q :: #"bob" ++ q :: #","
    ++ q :: #"display_name" ++ q :: #":" ++ q :: #"laptop" ++ q :: #"," ++ q :: #"public_key" ++ q :: #":" ++ q :: q :: #","
    ++ q :: #"expires_at" ++ q :: #":" ++ q :: #"1970-01-01T01:00:00+01:00" ++ q :: #"}," ++ q :: #"Tenant" ++ q :: #":"
    ++ q :: #"acme" ++ q :: #"}".
Proof. vm_compute. reflexivity. Qed.

(** ** Requests with one text *)

(** Up to bytes that are not UTF-8. *)
Definition same_text (a b : bytes) : Prop := valid_text a = valid_text b.
Definition same_option (a b : option bytes) : Prop := valid_text <$> a = valid_text <$> b.

Record same_create (r1 r2 : CreatePeerRequest) : Prop := {
  sc_external : same_text (rq_ExternalID r1) (rq_ExternalID r2);
  sc_display : same_text (rq_DisplayName r1) (rq_DisplayName r2);
  sc_node : same_option (rq_NodeID r1) (rq_NodeID r2);
  sc_profile : same_option (rq_ProfileID r1) (rq_ProfileID r2);
  sc_profile_name : same_option (rq_ProfileName r1) (rq_ProfileName r2);
  sc_key : same_option (rq_PublicKey r1) (rq_PublicKey r2);
  sc_expires : rq_ExpiresAt r1 = rq_ExpiresAt r2 }.

(** A time that has a text, in a zone of whole minutes, as every time read from JSON. *)
Definition exact_time (t : Time) : Prop := tm_Offset t mod 60 = 0 /\ is_Some (MarshalTime t).
Definition exact_request (r : CreatePeerRequest) : Prop := forall t, rq_ExpiresAt r = Some t -> exact_time t.

Lemma Marshal_inj j1 j2 : integral j1 -> integral j2 -> Marshal j1 = Marshal j2 -> valid_json j1 = valid_json j2.
Proof.
  intros H1 H2 E. pose proof (Decode_Marshal j1 [] H1 I) as D1. pose proof (Decode_Marshal j2 [] H2 I) as D2.
  rewrite E, D2 in D1. by injection D1.
Qed.

Abbreviation vfields l := ((fun kv : bytes * json => (valid_text (fst kv), valid_json (snd kv))) <$> l).

(** Fields that may be left out are told apart by their keys. *)
Lemma omit_nil_inj k v1 v2 l1 l2 :
  Forall (fun kv : bytes * json => fst kv <> valid_text k) (vfields l1) -> Forall (fun kv : bytes * json => fst kv <> valid_text k) (vfields l2) ->
  vfields (omit_nil k v1 ++ l1) = vfields (omit_nil k v2 ++ l2) -> same_option v1 v2 /\ vfields l1 = vfields l2.
Proof.
  rewrite !fmap_app. unfold same_option. intros H1 H2 E. destruct v1 as [a|], v2 as [b|]; cbn in E |- *.
  - injection E as Ea El. split; congruence.
  - rewrite <- E in H2. apply Forall_cons in H2 as [H2 _]. by destruct H2.
  - rewrite E in H1. apply Forall_cons in H1 as [H1 _]. by destruct H1.
  - done.
Qed.

Lemma omit_nil_keys (P : bytes -> Prop) k v l :
  P (valid_text k) -> Forall (fun kv : bytes * json => P (fst kv)) (vfields l) ->
  Forall (fun kv : bytes * json => P (fst kv)) (vfields (omit_nil k v ++ l)).
Proof. intros Hk Hl. rewrite fmap_app. apply Forall_app. split; [|done]. destruct v; repeat constructor. done. Qed.

Ltac other_key_in H := vm_compute in H; discriminate H.
Ltac other_key := let H := fresh in intros H; other_key_in H.
Ltac other_keys := repeat (apply (omit_nil_keys (fun k => k <> _)); [other_key|]); constructor.

Lemma integral_omit k v l :
  foldr (fun (kv : bytes * json) P => integral (snd kv) /\ P) True l ->
  foldr (fun (kv : bytes * json) P => integral (snd kv) /\ P) True (omit_nil k v ++ l).
Proof. by destruct v. Qed.

Lemma json_request_integral r j : json_CreatePeerRequest r = Some j -> integral j.
Proof.
  unfold json_CreatePeerRequest. destruct (expires_text _) as [e|]; [|done]. cbn [mbind option_bind].
  intros [= <-]. cbn [integral foldr snd]. split_and!; [done..|]. rewrite <- (app_nil_r (omit_nil #"expires_at" e)).
  by repeat apply integral_omit.
Qed.

Lemma fixed_ascii w n : ascii_text (fixed w n).
Proof. eapply Forall_impl; [apply fixed_digits|]. intros c H. cbv beta in *. lia. Qed.

Lemma MarshalTime_ascii t s : MarshalTime t = Some s -> ascii_text s.
Proof.
  unfold MarshalTime, ascii_text. destruct (date _) as [[y m] d]. destruct (_ && _); [|done].
  destruct (zone_text _) as [z|] eqn:Ez; [|done]. cbn [mbind option_bind]. intros <-%(inj Some).
  assert (Hz : ascii_text z).
  { unfold zone_text in Ez. destruct (_ =? 0); [by injection Ez as <-; repeat constructor|].
    destruct (_ <? 24); [|done]. apply (inj Some) in Ez as <-. constructor; [by destruct (_ <? 0)|].
    apply Forall_app; split; [apply fixed_ascii|]. constructor; [done|apply fixed_ascii]. }
  assert (Hf : forall n, ascii_text (fraction n)).
  { intros n. eapply Forall_impl; [apply fraction_bytes|]. unfold fraction_byte. intros c H. cbv beta in *. lia. }
  repeat (apply Forall_app; split; [apply fixed_ascii|]; constructor; [done|]).
  apply Forall_app; split; [apply fixed_ascii|]. apply Forall_app; split; [apply Hf|exact Hz].
Qed.

Lemma expires_inj r1 r2 e1 e2 :
  exact_request r1 -> exact_request r2 ->
  expires_text (rq_ExpiresAt r1) = Some e1 -> expires_text (rq_ExpiresAt r2) = Some e2 -> same_option e1 e2 ->
  rq_ExpiresAt r1 = rq_ExpiresAt r2.
Proof.
  unfold exact_request, expires_text, same_option. intros X1 X2 E1 E2.
  destruct (rq_ExpiresAt r1) as [t1|], (rq_ExpiresAt r2) as [t2|]; simplify_option_eq; try done.
  destruct (X1 t1 eq_refl) as [M1 _], (X2 t2 eq_refl) as [M2 _]. rewrite !valid_text_ascii by (by eapply MarshalTime_ascii).
  intros [= ->]. f_equal. by eapply MarshalTime_inj.
Qed.

(** (The text of a request.) Two requests whose JSON is the same ask for the same, for
    the same tenant. *)
Lemma create_text_inj r1 s1 r2 s2 j1 j2 :
  exact_request r1 -> exact_request r2 -> create_fingerprint r1 s1 = Some j1 -> create_fingerprint r2 s2 = Some j2 ->
  Marshal j1 = Marshal j2 -> same_create r1 r2 /\ same_text s1 s2.
Proof.
  intros X1 X2. unfold create_fingerprint.
  destruct (json_CreatePeerRequest r1) as [k1|] eqn:K1; [|done]. destruct (json_CreatePeerRequest r2) as [k2|] eqn:K2; [|done].
  cbn [mbind option_bind]. intros <-%(inj Some) <-%(inj Some) E.
  pose proof (json_request_integral _ _ K1) as I1. pose proof (json_request_integral _ _ K2) as I2.
  apply Marshal_inj in E; [|by repeat split..]. cbn [valid_json fmap list_fmap fst snd] in E. injection E as E Es. split; [|done].
  unfold json_CreatePeerRequest in K1, K2. destruct (expires_text (rq_ExpiresAt r1)) as [e1|] eqn:E1; [|done].
  destruct (expires_text (rq_ExpiresAt r2)) as [e2|] eqn:E2; [|done]. cbn [mbind option_bind] in K1, K2.
  apply (inj Some) in K1, K2. subst k1 k2. cbn [valid_json] in E. injection E as Ee Ed E.
  rewrite <- (app_nil_r (omit_nil #"expires_at" e1)), <- (app_nil_r (omit_nil #"expires_at" e2)) in E.
  apply omit_nil_inj in E as [E3 E]; [|other_keys..]. apply omit_nil_inj in E as [E4 E]; [|other_keys..].
  apply omit_nil_inj in E as [E5 E]; [|other_keys..]. apply omit_nil_inj in E as [E6 E]; [|other_keys..].
  apply omit_nil_inj in E as [E7 _]; [|constructor..]. constructor; try done. by apply (expires_inj r1 r2 e1 e2).
Qed.

Lemma revoke_text_inj uuid_Parse uuid_String t u1 r1 u2 r2 j1 j2 :
  (forall u, uuid_Parse (uuid_String u) = Some u) -> (forall u, ascii_text (uuid_String u)) ->
  revoke_fingerprint uuid_String t u1 r1 = Some j1 -> revoke_fingerprint uuid_String t u2 r2 = Some j2 ->
  Marshal j1 = Marshal j2 -> u1 = u2 /\ same_text r1 r2.
Proof.
  intros Hu Ha <-%(inj Some) <-%(inj Some) E. apply Marshal_inj in E; [|by repeat split..].
  cbn [valid_json fmap list_fmap fst snd] in E. injection E as E Er. split; [|done].
  rewrite !valid_text_ascii in E by done. apply (f_equal uuid_Parse) in E. rewrite !Hu in E. by injection E.
Qed.

(** ** A key stands for one request *)

(** The requests that need a key, and how they are answered. *)
Inductive Write : Type := WCreate (req : CreatePeerRequest) | WRevoke (peerID reason : bytes).
Inductive Answer : Type := Created (r : CreatePeerResponse) (status : Z) | Revoked (op : uuid).

(** The answer to a retry of an answered request. *)
Definition replayed (a : Answer) : Answer :=
  match a with Created r status => Created (sanitize_response r) status | Revoked op => Revoked op end.

Section keys.
Context (uuid_Parse : bytes -> option uuid) (uuid_String : uuid -> bytes).
Context (X25519 : list Z -> result bytes (list Z)) (sv : Service).

Definition handle (dr : Draws) (ctx : option Principal) (slug key : bytes) (w : Write) : SE Store Answer :=
  match w with
  | WCreate req =>
      r ← CreatePeer uuid_Parse uuid_String create_hash X25519 sv dr ctx slug key req;
      mret (Created (fst r) (snd r))
  | WRevoke peerID reason =>
      op ← RevokePeer uuid_Parse uuid_String (revoke_hash uuid_String) reason_payload sv dr ctx slug peerID key reason;
      mret (Revoked op)
  end.

(** The text that is hashed for a request, by the tenant's id. *)
Definition fingerprint (tenant : uuid) (slug : bytes) (w : Write) : option json :=
  match w with
  | WCreate req => create_fingerprint req slug
  | WRevoke peerID reason => id ← uuid_Parse peerID; revoke_fingerprint uuid_String tenant id reason
  end.

Definition same_request (w1 w2 : Write) : Prop :=
  match w1, w2 with
  | WCreate r1, WCreate r2 => same_create r1 r2
  | WRevoke p1 r1, WRevoke p2 r2 => uuid_Parse p1 = uuid_Parse p2 /\ same_text r1 r2
  | _, _ => False
  end.

Definition exact_write (w : Write) : Prop := match w with WCreate r => exact_request r | WRevoke _ _ => True end.

(** Two different texts with the same digest. *)
Definition collides (a b : bytes) : Prop := a <> b /\ Sum256 a = Sum256 b.

(** What a record answers to a request. *)
Definition recorded_answer (rec : Record') (w : Write) : Answer :=
  match w with
  | WCreate _ => Created (unmarshal_response (ir_ResponseBody rec)) (ir_ResponseStatus rec)
  | WRevoke _ _ => Revoked (default uuid_Nil (ir_OperationID rec))
  end.

(** The peer id of a revocation is a UUID. *)
Definition parses (w : Write) : Prop := is_Some (match w with WCreate _ => Some uuid_Nil | WRevoke p _ => uuid_Parse p end).

Local Abbreviation tenant_of slug s := (find (fun t => bool_decide (t_Slug t = slug)) (st_tenants s)).

(** A request that writes leaves the record of its answer. *)
Lemma handle_records dr ctx slug key w s a s' :
  handle dr ctx slug key w s = (Ok a, s') -> s' <> s ->
  exists tenant rec, tenant_of slug s = Some tenant /\ st_tenants s' = st_tenants s
    /\ st_idem s' !! (t_ID tenant, key) = Some rec /\ ir_RequestHash rec = requestHash (fingerprint (t_ID tenant) slug w)
    /\ ir_ExpiresAt rec = d_now dr + idempotencyTTL sv /\ recorded_answer rec w = replayed a
    /\ parses w.
Proof.
  destruct w as [req|pid reason]; cbn [handle]; intros H Hne; apply bind_inv in H as (r & s1 & H & Hr); injection Hr as <- <-.
  - destruct r as [resp status]. cbn [fst snd].
    destruct (CreatePeer_fresh _ _ _ _ _ _ _ _ _ _ _ _ _ _ H Hne)
      as (tenant & node & profile & pub & priv & psk & peer & s2 & Hc & _ & _ & Ha & _ & _ & -> & ->).
    apply create_checks_auth in Hc as [Hf _]. apply AllocateAndInsert_Ok in Ha as (row & al & _ & _ & _ & ->).
    eexists tenant, _. split_and!; [done|reflexivity|apply lookup_insert_eq|reflexivity| | |by eexists]; done.
  - apply RevokePeer_outcome in H as [->|(tenant & id & p & [= ->] & Hc & _ & _ & _ & ->)]; [done|].
    apply revoke_checks_auth in Hc as (Hf & _ & Hp).
    eexists tenant, _. split_and!; [done|reflexivity|apply lookup_insert_eq| | | |].
    + transitivity (revoke_hash uuid_String (t_ID tenant) id reason); [reflexivity|]. unfold revoke_hash, fingerprint. rewrite Hp. reflexivity.
    + done.
    + done.
    + by exists id.
Qed.

(** A request that meets a record is answered from it, if its hash is the record's. *)
Lemma handle_replays dr ctx slug key w s a s' tenant rec :
  tenant_of slug s = Some tenant -> live_record (d_now dr) (t_ID tenant, key) s = Some rec ->
  handle dr ctx slug key w s = (Ok a, s') ->
  s' = s /\ ir_RequestHash rec = requestHash (fingerprint (t_ID tenant) slug w) /\ a = recorded_answer rec w
  /\ parses w.
Proof.
  intros Ht Hrec. destruct w as [req|pid reason]; cbn [handle]; intros H; apply bind_inv in H as (r & s1 & H & Hr); injection Hr as <- <-.
  - destruct (create_checks uuid_Parse ctx slug key req s) as [[[[t n] p]|e] s0] eqn:Hc.
    2:{ rewrite CreatePeer_run, Hc in H. discriminate H. }
    rewrite (CreatePeer_cases _ _ _ _ _ _ _ _ _ _ _ _ _ _ _ Hc) in H. apply create_checks_auth in Hc as [Hf _].
    rewrite Ht in Hf. injection Hf as <-. rewrite Hrec in H. case_bool_decide as E; [|discriminate H]. injection H as <- ->. split_and!; [done|exact E|done|by eexists].
  - destruct (revoke_checks uuid_Parse ctx slug pid key s) as [[[t id]|e] s0] eqn:Hc.
    2:{ rewrite RevokePeer_run, Hc in H. discriminate H. }
    pose proof (RevokePeer_cases uuid_Parse uuid_String (revoke_hash uuid_String) reason_payload sv dr ctx slug pid key reason s t id s0 Hc) as Hk.
    cbv zeta in Hk. apply revoke_checks_auth in Hc as (Hf & _ & Hp). rewrite Ht in Hf. injection Hf as <-. rewrite Hrec in Hk.
    rewrite Hk in H. case_bool_decide as E; [|discriminate H]. injection H as <- ->. split_and!; [done|rewrite E; unfold fingerprint; rewrite Hp; reflexivity|done|by exists id].
Qed.

Lemma create_fingerprint_some r slug : exact_request r -> exists j, create_fingerprint r slug = Some j.
Proof.
  intros X. unfold create_fingerprint, json_CreatePeerRequest, expires_text. destruct (rq_ExpiresAt r) as [t|] eqn:E; [|by eexists].
  destruct (X t E) as [_ [s ->]]. by eexists.
Qed.

Lemma create_revoke_text r slug t u reason j1 j2 :
  create_fingerprint r slug = Some j1 -> revoke_fingerprint uuid_String t u reason = Some j2 -> Marshal j1 <> Marshal j2.
Proof.
  unfold create_fingerprint. destruct (json_CreatePeerRequest r) as [k|] eqn:K; [|done]. cbn [mbind option_bind].
  intros <-%(inj Some) <-%(inj Some) E. apply Marshal_inj in E; [|by repeat split; try eapply json_request_integral|by repeat split].
  cbn [valid_json fmap list_fmap fst snd] in E. injection E as E. other_key_in E.
Qed.

Context (uuid_round : forall u, uuid_Parse (uuid_String u) = Some u) (uuid_ascii : forall u, ascii_text (uuid_String u)).

Lemma fingerprint_inj t slug w1 w2 :
  exact_write w1 -> exact_write w2 -> parses w1 -> parses w2 ->
  mustJSON (fingerprint t slug w1) = mustJSON (fingerprint t slug w2) -> same_request w1 w2.
Proof.
  destruct w1 as [r1|p1 n1], w2 as [r2|p2 n2]; cbn [fingerprint exact_write same_request]; unfold parses; intros X1 X2.
  - intros _ _. destruct (create_fingerprint_some r1 slug X1) as [j1 E1], (create_fingerprint_some r2 slug X2) as [j2 E2].
    rewrite E1, E2. intros E. by apply (create_text_inj r1 slug r2 slug j1 j2).
  - intros _ [id E0]. rewrite E0. destruct (create_fingerprint_some r1 slug X1) as [j1 E1]. rewrite E1. cbn [mbind option_bind].
    intros E. by destruct (create_revoke_text r1 slug t id n2 j1 _ E1 eq_refl).
  - intros [id E0] _. rewrite E0. destruct (create_fingerprint_some r2 slug X2) as [j2 E2]. rewrite E2. cbn [mbind option_bind].
    intros E. by destruct (create_revoke_text r2 slug t id n1 j2 _ E2 eq_refl).
  - intros [u1 E1] [u2 E2]. rewrite E1, E2. cbn [mbind option_bind]. intros E.
    destruct (revoke_text_inj uuid_Parse uuid_String t u1 n1 u2 n2 _ _ uuid_round uuid_ascii eq_refl eq_refl E) as [-> ?]. done.
Qed.

(** C20: (A key stands for one request.) After a create or revoke request that wrote, a
    request with the same key for the same tenant that succeeds before the record expires
    changes nothing; and it is the same request - every field of it, or the same peer and
    reason - answered as the first one was without its one-time secrets, unless the two
    JSON texts that were hashed are a collision of SHA-256. *)
Theorem key_means_request dr ctx slug key w s a s' dr2 ctx2 w2 s2 a2 s3 :
  handle dr ctx slug key w s = (Ok a, s') -> s' <> s ->
  d_now dr2 < d_now dr + idempotencyTTL sv ->
  st_tenants s2 = st_tenants s' -> (forall t, st_idem s2 !! (t, key) = st_idem s' !! (t, key)) ->
  exact_write w -> exact_write w2 ->
  handle dr2 ctx2 slug key w2 s2 = (Ok a2, s3) ->
  s3 = s2
  /\ ((same_request w w2 /\ a2 = replayed a)
      \/ exists tenant, collides (mustJSON (fingerprint tenant slug w)) (mustJSON (fingerprint tenant slug w2))).
Proof.
  intros H Hne Hnow Ht Hi X1 X2 H2.
  destruct (handle_records _ _ _ _ _ _ _ _ H Hne) as (tenant & rec & Hf & Ht' & Hrec & Hh & He & Ha & P1).
  rewrite <- Ht', <- Ht in Hf. rewrite <- Hi in Hrec.
  assert (Hl : live_record (d_now dr2) (t_ID tenant, key) s2 = Some rec).
  { unfold live_record. rewrite Hrec, He. by rewrite (proj2 (Z.ltb_lt _ _) Hnow). }
  destruct (handle_replays _ _ _ _ _ _ _ _ _ _ Hf Hl H2) as (-> & Hh2 & -> & P2). split; [done|].
  rewrite Hh in Hh2. apply hex_inj in Hh2.
  destruct (decide (mustJSON (fingerprint (t_ID tenant) slug w) = mustJSON (fingerprint (t_ID tenant) slug w2))) as [E|E].
  - left. pose proof (fingerprint_inj _ _ _ _ X1 X2 P1 P2 E) as Hs. split; [done|]. rewrite <- Ha. by destruct w, w2.
  - right. by exists (t_ID tenant).
Qed.
End keys.

(** ** A concrete run *)

Lemma demo_uuid_ascii u : ascii_text (Tokens.demo_uuid_String u).
Proof. unfold Tokens.demo_uuid_String. induction (encode u); simpl; repeat (constructor; [vm_compute; reflexivity|]); first [assumption|constructor]. Qed.

Local Abbreviation demo_handle now :=
  (handle Tokens.demo_uuid_Parse Tokens.demo_uuid_String ServiceFacts.demo_X25519 demo_service (demo_draws now 9) (Some demo_admin) #"acme" #"k1").

Definition demo_write : Write := WCreate (mkCreateRequest #"bob" #"laptop" None None None None (Some (mkTime 86400000000000 3600))).
Definition demo_stored : Store := snd (demo_handle 100 demo_write demo_base).

Lemma demo_write_exact : exact_write demo_write.
Proof. intros t [= <-]. split; [reflexivity|]. eexists. reflexivity. Qed.

(** The same request twice. *)
Lemma key_means_request_witness :
  exists a a2, demo_handle 100 demo_write demo_base = (Ok a, demo_stored)
    /\ demo_handle 200 demo_write demo_stored = (Ok a2, demo_stored) /\ a2 = replayed a.
Proof.
  assert (exists a, fst (demo_handle 100 demo_write demo_base) = Ok a) as [a Ea] by (eexists; vm_compute; reflexivity).
  assert (exists a2, fst (demo_handle 200 demo_write demo_stored) = Ok a2) as [a2 Ea2] by (eexists; vm_compute; reflexivity).
  assert (length (st_peers demo_stored) = 1%nat) as Hn by (vm_compute; reflexivity).
  assert (demo_handle 100 demo_write demo_base = (Ok a, demo_stored)) as H by (rewrite <- Ea; unfold demo_stored; apply surjective_pairing).
  assert (demo_handle 200 demo_write demo_stored = (Ok a2, snd (demo_handle 200 demo_write demo_stored))) as H2
    by (rewrite <- Ea2; apply surjective_pairing).
  destruct (key_means_request Tokens.demo_uuid_Parse Tokens.demo_uuid_String ServiceFacts.demo_X25519 demo_service
    Tokens.demo_uuid_round demo_uuid_ascii (demo_draws 100 9) (Some demo_admin) #"acme" #"k1" demo_write demo_base a demo_stored
    (demo_draws 200 9) (Some demo_admin) demo_write demo_stored a2 _ H ltac:(intros E; rewrite E in Hn; vm_compute in Hn; discriminate Hn)
    ltac:(reflexivity) eq_refl (fun _ => eq_refl) demo_write_exact demo_write_exact H2) as [E [[_ E2]|[t [Hne _]]]].
  - exists a, a2. split; [exact H|]. split; [rewrite E in H2; exact H2|exact E2].
  - destruct Hne. reflexivity.
Defined.
