(* ===== verification/HttpApi.v ===== *)
(** * HttpApi: handlers, middleware and router ([internal/api])

    The HTTP side of the API: [problem.go]'s replies, [handlers.go], [middleware.go]
    and [router.go] over the service and any rate limiter.  A handler takes the
    request's context and parameters and the state - the store and the limiter - and
    ends in a reply or in a panic.  The bearer-token validator and chi's matching of
    paths are parameters; clock, ids and random bytes come with the request. *)

From S2P Require Import Prelude GoStrings Strconv Times Json Errors Effects Float64 RateLimit Profile Netip Executor NodeAgent FakeExecutor Auth Store Service.

(** ** Replies *)

Record Reply : Type := mkReply { rp_Status : Z; rp_Header : gmap bytes bytes; rp_Body : bytes }.

(** The header a handler or middleware sets before the reply is written. *)
Definition with_header (k v : bytes) (r : Reply) : Reply := mkReply (rp_Status r) (<[k := v]> (rp_Header r)) (rp_Body r).

(** A value that cannot be encoded leaves the body empty. *)
Definition json_reply (status : Z) (v : option json) : Reply :=
  mkReply status {[ #"Content-Type" := #"application/json" ]} (match v with Some j => Marshal j ++ [nl] | None => [] end).

Definition json_error_item (e : ValidationError) : json :=
  JObj [ (#"field", JStr (ve_Field e)); (#"code", JStr (ve_Code e)); (#"message", JStr (ve_Message e)) ].

(** The fields of [Problem] in their order; [instance] is never set. *)
Definition json_Problem (p : Problem) : json :=
  JObj ([ (#"type", JStr (pb_Type p)); (#"title", JStr (pb_Title p)); (#"status", json_int (pb_Status p)) ]
        ++ omit_string #"detail" (pb_Detail p) ++ omit_string #"code" (pb_Code p)
        ++ match pb_Errors p with [] => [] | es => [ (#"errors", JArr (json_error_item <$> es)) ] end).

Definition Problem_Write (p : Problem) : Reply :=
  mkReply (pb_Status p) {[ #"Content-Type" := #"application/problem+json" ]} (Marshal (json_Problem p) ++ [nl]).

Definition WriteError (e : error) : Reply := Problem_Write (FromError (Some e)).

(** How a handler ends; a panic may come after a reply was written. *)
Inductive outcome : Type := Replied (r : Reply) | Panicked (sent : option Reply).

(** ** Requests *)

Record HttpRequest : Type := mkHttpRequest {
  hr_Method : bytes;
  hr_Path : bytes;
  hr_Header : bytes -> bytes;        (* Header.Get *)
  hr_Query : bytes -> bytes;         (* URL.Query().Get *)
  hr_RemoteAddr : bytes;
  hr_Body : result error bytes }.

(** What the request's context carries. *)
Record Ctx : Type := mkCtx { cx_RequestID : bytes; cx_Principal : option Principal }.

(** [RequestIDFromContext] *)
Definition RequestIDFromContext (ctx : Ctx) : bytes := cx_RequestID ctx.

(** What the outside supplies while one request is served. *)
Record Turn : Type := mkTurn { tn_draws : Draws; tn_now : Z; tn_newID : bytes; tn_ping : result error unit; tn_elapsed : Z }.

(** ** JSON of the requests and rows *)

Definition decode_ptr (old : option bytes) (j : json) : option bytes * bool :=
  match j with JStr s => (Some s, true) | JNull => (None, true) | _ => (old, false) end.

Definition reason_field (d k : bytes) (v : json) : bytes * bool :=
  if is_field #"reason" k then decode_string d v else (d, true).

Definition peer_state_text (s : PeerState) : bytes :=
  match s with
  | PeerPending => #"pending" | PeerActive => #"active" | PeerRevoked => #"revoked"
  | PeerExpired => #"expired" | PeerRotating => #"rotating"
  end.

Definition op_kind_text (k : OperationKind) : bytes :=
  match k with
  | OpCreatePeer => #"peer.create" | OpRevokePeer => #"peer.revoke" | OpDeletePeer => #"peer.delete"
  | OpRotatePeer => #"peer.rotate" | OpReconcileNode => #"node.reconcile"
  end.

Definition json_CreatePeerResponse (r : CreatePeerResponse) : json :=
  JObj ([ (#"operation_id", JStr (cr_OperationID r)); (#"peer_id", JStr (cr_PeerID r)); (#"status", JStr (cr_Status r));
          (#"allowed_ip", JStr (cr_AllowedIP r)); (#"public_key", JStr (cr_PublicKey r)) ]
        ++ omit_string #"private_key" (cr_PrivateKey r) ++ omit_string #"client_config" (cr_ClientConfig r)
        ++ omit_string #"preshared_key" (cr_PresharedKey r)
        ++ [ (#"node_id", JStr (cr_NodeID r)); (#"profile_id", JStr (cr_ProfileID r)) ]).

Section rows.
(** [UUID.String], [time.Time.MarshalJSON] without its quotes ([None] for a year it
    refuses) and [UnmarshalJSON]. *)
Context (uuid_String : uuid -> bytes) (time_text : Z -> option bytes) (time_parse : bytes -> option Time).

Definition decode_time_ptr (old : option Time) (j : json) : option Time * bool :=
  match j with
  | JStr s => match time_parse s with Some t => (Some t, true) | None => (old, false) end
  | JNull => (None, true)
  | _ => (old, false)
  end.

Definition request_field (r : CreatePeerRequest) (k : bytes) (v : json) : CreatePeerRequest * bool :=
  let '(mkCreateRequest ext name node pid pname pub exp) := r in
  if is_field #"external_id" k then let '(x, o) := decode_string ext v in (mkCreateRequest x name node pid pname pub exp, o)
  else if is_field #"display_name" k then let '(x, o) := decode_string name v in (mkCreateRequest ext x node pid pname pub exp, o)
  else if is_field #"node_id" k then let '(x, o) := decode_ptr node v in (mkCreateRequest ext name x pid pname pub exp, o)
  else if is_field #"profile_id" k then let '(x, o) := decode_ptr pid v in (mkCreateRequest ext name node x pname pub exp, o)
  else if is_field #"profile_name" k then let '(x, o) := decode_ptr pname v in (mkCreateRequest ext name node pid x pub exp, o)
  else if is_field #"public_key" k then let '(x, o) := decode_ptr pub v in (mkCreateRequest ext name node pid pname x exp, o)
  else if is_field #"expires_at" k then let '(x, o) := decode_time_ptr exp v in (mkCreateRequest ext name node pid pname pub x, o)
  else (r, true).

Definition decode_CreatePeerRequest : json -> CreatePeerRequest * bool :=
  decode_object request_field (mkCreateRequest [] [] None None None None None).

(** An optional time under a key. *)
Definition omit_time (k : bytes) (t : option Z) : option (list (bytes * json)) :=
  match t with None => Some [] | Some t => s ← time_text t; Some [(k, JStr s)] end.

(** [PresharedKeyRef] has the tag [json:"-"]. *)
Definition json_Peer (p : Peer) : option json :=
  created ← time_text (p_CreatedAt p);
  updated ← time_text (p_UpdatedAt p);
  expires ← omit_time #"expires_at" (p_ExpiresAt p);
  revoked ← omit_time #"revoked_at" (p_RevokedAt p);
  Some (JObj ([ (#"id", JStr (uuid_String (p_ID p))); (#"tenant_id", JStr (uuid_String (p_TenantID p)));
                (#"node_id", JStr (uuid_String (p_NodeID p))); (#"profile_id", JStr (uuid_String (p_ProfileID p)));
                (#"external_id", JStr (p_ExternalID p)); (#"display_name", JStr (p_DisplayName p));
                (#"public_key", JStr (p_PublicKey p)); (#"allowed_ip", JStr (Prefix_String (p_AllowedIP p)));
                (#"state", JStr (peer_state_text (p_State p))); (#"desired_revision", json_int (p_DesiredRevision p));
                (#"applied_revision", json_int (p_AppliedRevision p)); (#"created_at", JStr created);
                (#"updated_at", JStr updated) ] ++ expires ++ revoked)).

(** [RequestHash] has the tag [json:"-"]. *)
Definition json_Operation (o : Operation) : option json :=
  started ← time_text (o_StartedAt o);
  finished ← omit_time #"finished_at" (o_FinishedAt o);
  Some (JObj ([ (#"id", JStr (uuid_String (o_ID o))); (#"tenant_id", JStr (uuid_String (o_TenantID o))) ]
              ++ match o_PeerID o with Some p => [ (#"peer_id", JStr (uuid_String p)) ] | None => [] end
              ++ [ (#"node_id", JStr (uuid_String (o_NodeID o))); (#"kind", JStr (op_kind_text (o_Kind o)));
                   (#"status", JStr (op_status_text (o_Status o))) ]
              ++ omit_string #"error_code" (o_ErrorCode o) ++ omit_string #"error_message" (o_ErrorMessage o)
              ++ [ (#"started_at", JStr started) ] ++ finished)).
End rows.

(** ** Handlers ([handlers.go]) *)

Section api.
Context {L : Type} {RL : Limiter L}.
(** The service's parameters. *)
Context (uuid_Parse : bytes -> option uuid) (uuid_String : uuid -> bytes).
Context (hash_create : CreatePeerRequest -> bytes -> bytes) (hash_revoke : uuid -> uuid -> bytes -> bytes).
Context (reason_json : bytes -> bytes) (X25519 : list Z -> result bytes (list Z)) (sv : Service).
(** Times in JSON, the text of a decoding error, and a float out of range. *)
Context (time_text : Z -> option bytes) (time_parse : bytes -> option Time).
Context (json_error : bytes -> bytes) (out_of_range : float64 -> Z).

(** The store and the rate limiter, which may be missing ([nil]). *)
Abbreviation World := (Store * option L)%type.

Definition handler : Type := Ctx -> World -> outcome * World.

(** Run a service operation and answer with its result. *)
Definition answer {A} (m : SE Store A) (ok : A -> Reply) (w : World) : outcome * World :=
  let '(s, l) := w in
  match m s with
  | (Err e, s') => (Replied (WriteError e), (s', l))
  | (Ok a, s') => (Replied (ok a), (s', l))
  end.

Definition CreatePeer_handler (tn : Turn) (rq : HttpRequest) (tenant : bytes) : handler := fun ctx w =>
  let idemKey := hr_Header rq #"Idempotency-Key" in
  match decode_body json_error (decode_CreatePeerRequest time_parse) (hr_Body rq) with
  | Err text => (Replied (WriteError (invalid_field #"body" #"invalid_json" text)), w)
  | Ok req =>
      answer (CreatePeer uuid_Parse uuid_String hash_create X25519 sv (tn_draws tn) (cx_Principal ctx) tenant idemKey req)
        (fun '(resp, status) => json_reply status (Some (json_CreatePeerResponse resp))) w
  end.

Definition GetPeer_handler (tenant id : bytes) : handler := fun ctx =>
  answer (GetPeer uuid_Parse (cx_Principal ctx) tenant id) (fun p => json_reply 200 (json_Peer uuid_String time_text p)).

(** The body is optional and an error of decoding it is ignored. *)
Definition revoke_reason (body : result error bytes) : bytes :=
  match body with
  | Ok b => match Decode b with Some j => fst (decode_object reason_field [] j) | None => [] end
  | Err _ => []
  end.

Definition RevokePeer_handler (tn : Turn) (rq : HttpRequest) (tenant id : bytes) : handler := fun ctx =>
  let idemKey := hr_Header rq #"Idempotency-Key" in
  answer (RevokePeer uuid_Parse uuid_String hash_revoke reason_json sv (tn_draws tn) (cx_Principal ctx) tenant id idemKey
            (revoke_reason (hr_Body rq)))
    (fun opID => json_reply 202 (Some (JObj [ (#"operation_id", JStr (uuid_String opID)); (#"status", JStr #"pending") ]))).

Definition GetPeerConfiguration (rq : HttpRequest) (tenant id : bytes) : handler := fun ctx w =>
  if negb (bool_decide (hr_Query rq #"client_private_key" = [])) then
    (Replied (WriteError (invalid_field #"client_private_key" #"unsupported"
                            #"client private keys must not be sent in query parameters")), w)
  else
    answer (PeerConfiguration uuid_Parse sv (cx_Principal ctx) tenant id)
      (fun cfg => mkReply 200 {[ #"Content-Type" := #"text/plain; charset=utf-8"; #"Cache-Control" := #"no-store" ]} cfg) w.

Definition GetOperation_handler (id : bytes) : handler := fun ctx =>
  answer (GetOperation uuid_Parse (cx_Principal ctx) id) (fun op => json_reply 200 (json_Operation uuid_String time_text op)).

Definition status_reply (text : bytes) : Reply := json_reply 200 (Some (JObj [ (#"status", JStr text) ])).

Definition HealthLive : handler := fun _ w => (Replied (status_reply #"ok"), w).

Definition HealthReady (tn : Turn) : handler := fun _ w =>
  match tn_ping tn with
  | Err e => (Replied (WriteError e), w)
  | Ok _ => (Replied (status_reply #"ready"), w)
  end.

(** ** Middleware ([middleware.go]) *)

(** The header is set first and goes out with whatever reply is written. *)
Definition map_outcome (f : Reply -> Reply) (o : outcome) : outcome :=
  match o with Replied r => Replied (f r) | Panicked sent => Panicked (f <$> sent) end.

(** The lines the middleware logs: one for a request and one for a panic. *)
Inductive LogLine : Type :=
| HttpAccess (method path : bytes) (status duration : Z) (request_id : bytes)
| PanicLine.

(** A handler with the lines it logs. *)
Definition logged : Type := Ctx -> World -> (outcome * World) * list LogLine.

Definition RequestID (tn : Turn) (rq : HttpRequest) (next : logged) : logged := fun ctx w =>
  let id := hr_Header rq #"X-Request-Id" in
  let id := if bool_decide (id = []) then tn_newID tn else id in
  let '((o, w'), lines) := next (mkCtx id (cx_Principal ctx)) w in
  ((map_outcome (with_header #"X-Request-Id" id) o, w'), lines).

(** The problem of a panic; after a reply was begun its text is only appended. *)
Definition panic_problem : Problem := mkProblem #"about:blank" #"internal_error" 500 [] #"internal_error" [].

Definition Recoverer (next : logged) : logged := fun ctx w =>
  match next ctx w with
  | ((Replied r, w'), lines) => ((Replied r, w'), lines)
  | ((Panicked None, w'), lines) => ((Replied (Problem_Write panic_problem), w'), lines ++ [PanicLine])
  | ((Panicked (Some r), w'), lines) =>
      ((Replied (mkReply (rp_Status r) (rp_Header r) (rp_Body r ++ rp_Body (Problem_Write panic_problem))), w'), lines ++ [PanicLine])
  end.

(** The line is written after the handler has returned, so not when it panics. *)
Definition AccessLog (tn : Turn) (rq : HttpRequest) (next : handler) : logged := fun ctx w =>
  match next ctx w with
  | (Replied r, w') =>
      ((Replied r, w'), [HttpAccess (hr_Method rq) (hr_Path rq) (rp_Status r) (tn_elapsed tn) (RequestIDFromContext ctx)])
  | (Panicked sent, w') => ((Panicked sent, w'), [])
  end.

Definition bearer : bytes := #"Bearer ".

Definition Authenticator (Validate : bytes -> result error Principal) (rq : HttpRequest) (next : handler) : handler := fun ctx w =>
  let h := hr_Header rq #"Authorization" in
  if negb (HasPrefix h bearer) then (Replied (WriteError (ESentinel ErrUnauthorized)), w)
  else
    match Validate (drop (length bearer) h) with
    | Err e => (Replied (WriteError (EJoin (ESentinel ErrUnauthorized) e)), w)
    | Ok p => next (mkCtx (cx_RequestID ctx) (WithPrincipal (cx_Principal ctx) p)) w
    end.

Definition RequireRoles (roles : list Role) (next : handler) : handler := fun ctx w =>
  match FromContext (cx_Principal ctx) with
  | Err _ => (Replied (WriteError (ESentinel ErrUnauthorized)), w)
  | Ok p => if negb (HasAnyRole p roles) then (Replied (WriteError (ESentinel ErrForbidden)), w) else next ctx w
  end.

(** [itoa] of this file also prints a sign; [-i] of the least int64 is itself. *)
Definition api_itoa (i : Z) : bytes :=
  if i =? 0 then #"0"
  else
    let neg := i <? 0 in
    let i := if neg then wrap_int64 (- i) else i in
    (if neg then #"-" else []) ++ itoa_loop 20 i [].

Definition retryAfterSeconds (d : Z) : bytes :=
  let secs := f_trunc out_of_range (Seconds d) in
  api_itoa (if secs <? 1 then 1 else secs).

(** The key function of the router. *)
Definition limit_key (rq : HttpRequest) (tenant : bytes) (ctx : Ctx) : bytes :=
  match FromContext (cx_Principal ctx) with
  | Ok p => uuid_String (pr_SubjectID p) ++ #"|" ++ tenant
  | Err _ => hr_RemoteAddr rq
  end.

Definition RateLimit_Middleware (now : Z) (KeyFn : Ctx -> bytes) (next : handler) : handler := fun ctx w =>
  let '(s, l) := w in
  match l with
  | None => next ctx w
  | Some l =>
      let '((ok, retryAfter), l') := Allow now (KeyFn ctx) l in
      if negb ok then
        let r := WriteError (ESentinel ErrRateLimited) in
        (Replied (if 0 <? retryAfter then with_header #"Retry-After" (retryAfterSeconds retryAfter) r else r), (s, Some l'))
      else next ctx (s, Some l')
  end.

(** ** Router ([router.go]) *)

Inductive endpoint : Type :=
| EHealthLive | EHealthReady | EMetrics
| EGetOperation (id : bytes)
| EGetPeer (tenant id : bytes)
| EGetPeerConfiguration (tenant id : bytes)
| ECreatePeer (tenant : bytes)
| ERevokePeer (tenant id : bytes).

(** What the router makes of a method and a path: nothing of its own, something
    under the mounted peers router that matches no route of it, or an endpoint. *)
Inductive routed : Type := NoRoute (r : Reply) | NoPeersRoute (r : Reply) | To (e : endpoint).

Context (Validate : Z -> bytes -> result error Principal).
Context (route : bytes -> bytes -> routed) (metrics : option handler).

(** Routes behind the authenticator, and the further middleware of each. *)
Definition guarded (tn : Turn) (rq : HttpRequest) (next : handler) : handler := Authenticator (Validate (tn_now tn)) rq next.

Definition read_route (next : handler) : handler :=
  RequireRoles [RolePlatformAdmin; RoleTenantAdmin; RoleSupportReadOnly; RoleAutomationClient] next.

Definition write_route (tn : Turn) (rq : HttpRequest) (tenant : bytes) (next : handler) : handler :=
  RateLimit_Middleware (tn_now tn) (limit_key rq tenant)
    (RequireRoles [RoleTenantAdmin; RolePlatformAdmin; RoleAutomationClient] next).

Definition not_found_reply : Reply := mkReply 404 {[ #"Content-Type" := #"text/plain; charset=utf-8" ]} (#"404 page not found" ++ [nl]).

Definition endpoint_handler (tn : Turn) (rq : HttpRequest) (e : endpoint) : handler :=
  match e with
  | EHealthLive => HealthLive
  | EHealthReady => HealthReady tn
  | EMetrics => default (fun _ w => (Replied not_found_reply, w)) metrics
  | EGetOperation id => guarded tn rq (read_route (GetOperation_handler id))
  | EGetPeer tenant id => guarded tn rq (read_route (GetPeer_handler tenant id))
  | EGetPeerConfiguration tenant id => guarded tn rq (read_route (GetPeerConfiguration rq tenant id))
  | ECreatePeer tenant => guarded tn rq (write_route tn rq tenant (CreatePeer_handler tn rq tenant))
  | ERevokePeer tenant id => guarded tn rq (write_route tn rq tenant (RevokePeer_handler tn rq tenant id))
  end.

Definition route_request (tn : Turn) (rq : HttpRequest) : handler := fun ctx w =>
  match route (hr_Method rq) (hr_Path rq) with
  | NoRoute r => (Replied r, w)
  | NoPeersRoute r => guarded tn rq (fun _ w => (Replied r, w)) ctx w
  | To e => endpoint_handler tn rq e ctx w
  end.

Definition NewRouter (tn : Turn) (rq : HttpRequest) : logged :=
  RequestID tn rq (Recoverer (AccessLog tn rq (route_request tn rq))).

(** One request, from a context that carries nothing, and what it logs. *)
Definition serve_http (tn : Turn) (rq : HttpRequest) (w : World) : outcome * World := fst (NewRouter tn rq (mkCtx [] None) w).
Definition serve_log (tn : Turn) (rq : HttpRequest) (w : World) : list LogLine := snd (NewRouter tn rq (mkCtx [] None) w).
End api.
