(* ===== verification/HttpFacts.v ===== *)
(** * HttpFacts: what the HTTP interface guarantees

    Which requests reach the service and which are turned away and how; that whatever
    is requested, only an authenticated principal with a writing role changes the
    store, within its tenant. *)

From S2P Require Import Prelude GoStrings Strconv Times Json Errors Effects Float64 RateLimit Profile Netip Executor NodeAgent FakeExecutor Auth Tokens Config Store StoreFacts Service ServiceFacts HttpApi.

(** ** Reads *)

Definition read_only {A} (m : SE Store A) : Prop := forall s, snd (m s) = s.

Lemma read_only_bind {A B} (m : SE Store A) (f : A -> SE Store B) :
  read_only m -> (forall a, read_only (f a)) -> read_only (m ≫= f).
Proof.
  intros Hm Hf s. unfold mbind, SE_bind. specialize (Hm s). destruct (m s) as [[a|e] s']; cbn in *; subst; [apply Hf|done].
Qed.

Lemma read_only_fmap {A B} (g : A -> B) (m : SE Store A) : read_only m -> read_only (g <$> m).
Proof. intros Hm s. specialize (Hm s). unfold fmap, SE_fmap. by destruct (m s) as [[a|e] s']. Qed.

Lemma read_only_asks {A} (f : Store -> A) : read_only (asks f). Proof. done. Qed.
Lemma read_only_ret {A} (a : A) : read_only (mret a). Proof. done. Qed.
Lemma read_only_fail {A} e : read_only (@fail Store A e). Proof. done. Qed.
Lemma read_only_result {A} (r : result error A) : read_only (of_result r). Proof. done. Qed.
Lemma read_only_row {A} (r : option A) : read_only (row_or_not_found (S := Store) r). Proof. by destruct r. Qed.

Create HintDb read_only.
#[export] Hint Resolve read_only_bind read_only_fmap read_only_asks read_only_ret read_only_fail read_only_result read_only_row : read_only.

Ltac reading := repeat first [progress intros | progress eauto with read_only | apply read_only_bind | apply read_only_fmap | case_match].

Lemma read_only_GetPeer uuid_Parse ctx slug id : read_only (GetPeer uuid_Parse ctx slug id).
Proof. unfold GetPeer, Tenants_GetBySlug, Peers_GetByID. reading. Qed.

Lemma read_only_GetOperation uuid_Parse ctx id : read_only (GetOperation uuid_Parse ctx id).
Proof. unfold GetOperation, Operations_GetByID. reading. Qed.

Lemma read_only_PeerConfiguration uuid_Parse sv ctx slug id : read_only (PeerConfiguration uuid_Parse sv ctx slug id).
Proof.
  unfold PeerConfiguration. apply read_only_bind; [apply read_only_GetPeer|].
  intros peer. unfold Nodes_GetByID, Profiles_GetByID. reading.
Qed.

(** ** The gate *)

Section gate.
Context {L : Type} {RL : Limiter L}.
Context (uuid_Parse : bytes -> option uuid) (uuid_String : uuid -> bytes).
Context (hash_create : CreatePeerRequest -> bytes -> bytes) (hash_revoke : uuid -> uuid -> bytes -> bytes).
Context (reason_json : bytes -> bytes) (X25519 : list Z -> result bytes (list Z)) (sv : Service).
Context (time_text : Z -> option bytes) (time_parse : bytes -> option Time).
Context (json_error : bytes -> bytes) (out_of_range : float64 -> Z).
Context (Validate : Z -> bytes -> result error Principal).
Context (route : bytes -> bytes -> routed) (metrics : option (handler (L := L))).

Local Abbreviation World := (Store * option L)%type.
Local Abbreviation serve :=
  (serve_http uuid_Parse uuid_String hash_create hash_revoke reason_json X25519 sv time_text time_parse json_error out_of_range
     Validate route metrics).
Local Abbreviation handle :=
  (endpoint_handler uuid_Parse uuid_String hash_create hash_revoke reason_json X25519 sv time_text time_parse json_error out_of_range
     Validate metrics).

(** The principal of a request. *)
Definition principal_of (tn : Turn) (rq : HttpRequest) : option Principal :=
  let h := hr_Header rq #"Authorization" in
  if HasPrefix h bearer then
    match Validate (tn_now tn) (drop (length bearer) h) with Ok p => Some p | Err _ => None end
  else None.

(** Endpoints that change something, with their tenant. *)
Definition write_tenant (e : endpoint) : option bytes :=
  match e with ECreatePeer t | ERevokePeer t _ => Some t | _ => None end.

Definition needs_token (e : endpoint) : bool :=
  match e with EHealthLive | EHealthReady | EMetrics => false | _ => true end.

(** What is behind the gate. *)
Definition behind (tn : Turn) (rq : HttpRequest) (e : endpoint) : handler (L := L) :=
  match e with
  | EHealthLive | EHealthReady | EMetrics => fun _ w => (Panicked None, w)
  | EGetOperation id => GetOperation_handler uuid_Parse uuid_String time_text id
  | EGetPeer tenant id => GetPeer_handler uuid_Parse uuid_String time_text tenant id
  | EGetPeerConfiguration tenant id => GetPeerConfiguration uuid_Parse sv rq tenant id
  | ECreatePeer tenant => CreatePeer_handler uuid_Parse uuid_String hash_create X25519 sv time_parse json_error tn rq tenant
  | ERevokePeer tenant id => RevokePeer_handler uuid_Parse uuid_String hash_revoke reason_json sv tn rq tenant id
  end.

(** The decision: refused with a status, or let through as a principal; and what
    has become of the limiter. *)
Inductive verdict : Type := Refused (status : Z) (l : option L) | Passed (p : Principal) (l : option L).

Definition decide_request (tn : Turn) (rq : HttpRequest) (e : endpoint) (l : option L) : verdict :=
  match principal_of tn rq with
  | None => Refused 401 l
  | Some p =>
      match write_tenant e with
      | None => if HasAnyRole p read_roles then Passed p l else Refused 403 l
      | Some tenant =>
          let '(ok, l') := match l with
                           | None => (true, None)
                           | Some lm => let '((ok, _), lm') := Allow (tn_now tn) (uuid_String (pr_SubjectID p) ++ #"|" ++ tenant) lm in
                                        (ok, Some lm')
                           end in
          if negb ok then Refused 429 l' else if HasAnyRole p write_roles then Passed p l' else Refused 403 l'
      end
  end.

(** A reply of the problem kind. *)
Definition problem_reply (status : Z) (r : Reply) : Prop :=
  rp_Status r = status /\ rp_Header r !! #"Content-Type" = Some #"application/problem+json".

Lemma WriteError_sentinel s : problem_reply (fst (sentinel_class s)) (WriteError (ESentinel s)).
Proof. by destruct s. Qed.

Lemma WriteError_join e : errors_Is e ErrNotFound = false -> problem_reply 401 (WriteError (EJoin (ESentinel ErrUnauthorized) e)).
Proof. intros H. unfold problem_reply, WriteError, FromError. cbn [errors_Is]. rewrite H. done. Qed.

Lemma write_roles_order p : HasAnyRole p [RoleTenantAdmin; RolePlatformAdmin; RoleAutomationClient] = HasAnyRole p write_roles.
Proof. cbn. by destruct (HasRole p RoleTenantAdmin), (HasRole p RolePlatformAdmin), (HasRole p RoleAutomationClient). Qed.

Context (validator_errors : forall now tok e, Validate now tok = Err e -> errors_Is e ErrNotFound = false).

Lemma guarded_spec tn rq (next : handler (L := L)) id (w : World) :
  match principal_of tn rq with
  | Some p => guarded Validate tn rq next (mkCtx id None) w = next (mkCtx id (Some p)) w
  | None => exists r, guarded Validate tn rq next (mkCtx id None) w = (Replied r, w) /\ problem_reply 401 r
  end.
Proof using validator_errors.
  unfold guarded, Authenticator, principal_of. destruct (HasPrefix _ _); cbn [negb].
  - destruct (Validate _ _) as [p|e] eqn:E; [done|]. eexists. split; [done|]. eapply WriteError_join, validator_errors, E.
  - eexists. split; [done|]. apply (WriteError_sentinel ErrUnauthorized).
Qed.

Lemma RequireRoles_spec roles (next : handler (L := L)) id p w :
  if HasAnyRole p roles then RequireRoles roles next (mkCtx id (Some p)) w = next (mkCtx id (Some p)) w
  else exists r, RequireRoles roles next (mkCtx id (Some p)) w = (Replied r, w) /\ problem_reply 403 r.
Proof.
  unfold RequireRoles. cbn [cx_Principal FromContext]. destruct (HasAnyRole p roles); [done|].
  eexists. split; [done|]. apply (WriteError_sentinel ErrForbidden).
Qed.

(** What the inner handler does to a request that is let through, and how others are
    answered. *)
Definition judged (tn : Turn) (rq : HttpRequest) (e : endpoint) (id : bytes) (s : Store) (v : verdict) (r : outcome * World) : Prop :=
  match v with
  | Refused status l => exists rp, r = (Replied rp, (s, l)) /\ problem_reply status rp
  | Passed p l => r = behind tn rq e (mkCtx id (Some p)) (s, l)
  end.

Lemma read_route_spec (next : handler (L := L)) id p w :
  if HasAnyRole p read_roles then read_route next (mkCtx id (Some p)) w = next (mkCtx id (Some p)) w
  else exists r, read_route next (mkCtx id (Some p)) w = (Replied r, w) /\ problem_reply 403 r.
Proof. apply RequireRoles_spec. Qed.

(** The limiter and then the roles. *)
Lemma write_route_spec tn rq tenant (next : handler (L := L)) id p s l :
  let '(ok, l') := match l with
                   | None => (true, None)
                   | Some lm => let '((ok, _), lm') := Allow (tn_now tn) (uuid_String (pr_SubjectID p) ++ #"|" ++ tenant) lm in
                                (ok, Some lm')
                   end in
  let r := write_route uuid_String out_of_range tn rq tenant next (mkCtx id (Some p)) (s, l) in
  if negb ok then exists rp, r = (Replied rp, (s, l')) /\ problem_reply 429 rp
  else if HasAnyRole p write_roles then r = next (mkCtx id (Some p)) (s, l')
  else exists rp, r = (Replied rp, (s, l')) /\ problem_reply 403 rp.
Proof.
  assert (forall l', if HasAnyRole p write_roles
      then RequireRoles [RoleTenantAdmin; RolePlatformAdmin; RoleAutomationClient] next (mkCtx id (Some p)) (s, l') = next (mkCtx id (Some p)) (s, l')
      else exists rp, RequireRoles [RoleTenantAdmin; RolePlatformAdmin; RoleAutomationClient] next (mkCtx id (Some p)) (s, l') = (Replied rp, (s, l'))
                      /\ problem_reply 403 rp) as Hr.
  { intros l'. rewrite <- write_roles_order. apply RequireRoles_spec. }
  unfold write_route, RateLimit_Middleware. destruct l as [lm|]; [|exact (Hr None)].
  cbn [limit_key FromContext cx_Principal]. destruct (Allow _ _ lm) as [[[] retry] lm']; cbn [negb]; [exact (Hr (Some lm'))|].
  destruct (0 <? retry); eexists; (split; [done|]); [|apply (WriteError_sentinel ErrRateLimited)].
  split; [done|]. cbn [rp_Header with_header]. by rewrite lookup_insert_ne.
Qed.

Lemma handle_judged tn rq e id s l : needs_token e = true ->
  judged tn rq e id s (decide_request tn rq e l) (handle tn rq e (mkCtx id None) (s, l)).
Proof using validator_errors.
  intros He. unfold decide_request.
  destruct e as [| | |oid|t i|t i|t|t i]; try done; cbn [endpoint_handler write_tenant];
    lazymatch goal with |- context [guarded Validate tn rq ?next (mkCtx id None) (s, l)] =>
      pose proof (guarded_spec tn rq next id (s, l)) as Hg; destruct (principal_of tn rq) as [p|]; [rewrite Hg; clear Hg|exact Hg] end;
    lazymatch goal with
    | |- context [read_route ?next _ _] => pose proof (read_route_spec next id p (s, l)) as Hr; by destruct (HasAnyRole p read_roles)
    | |- context [write_route _ _ _ _ ?tenant ?next _ _] => pose proof (write_route_spec tn rq tenant next id p s l) as Hw
    end.
  all: destruct (match l with Some _ => _ | None => _ end) as [ok l']; cbv zeta in Hw; destruct (negb ok); [exact Hw|];
    by destruct (HasAnyRole p write_roles).
Qed.

(** The id a request gets. *)
Definition request_id (tn : Turn) (rq : HttpRequest) : bytes :=
  if bool_decide (hr_Header rq #"X-Request-Id" = []) then tn_newID tn else hr_Header rq #"X-Request-Id".

Lemma behind_replies tn rq e ctx w : needs_token e = true -> exists r w', behind tn rq e ctx w = (Replied r, w').
Proof.
  intros He. assert (forall A (m : SE Store A) ok w, exists r (w' : World), answer m ok w = (Replied r, w')) as Ha.
  { intros A m ok [s l]. unfold answer. destruct (m s) as [[a|err] s']; eauto. }
  destruct e; try done; cbn [behind]; unfold GetOperation_handler, GetPeer_handler, GetPeerConfiguration, CreatePeer_handler, RevokePeer_handler.
  - apply Ha.
  - apply Ha.
  - destruct (negb _); [eauto|apply Ha].
  - destruct (decode_body _ _ _); [apply Ha|eauto].
  - apply Ha.
Qed.

(** The router's reply is the endpoint's, with the request id. *)
Lemma serve_handled tn rq e w r w' :
  route (hr_Method rq) (hr_Path rq) = To e ->
  handle tn rq e (mkCtx (request_id tn rq) None) w = (Replied r, w') ->
  serve tn rq w = (Replied (with_header #"X-Request-Id" (request_id tn rq) r), w').
Proof.
  intros Hroute E. unfold serve_http, NewRouter, RequestID, Recoverer, AccessLog, route_request. fold (request_id tn rq).
  rewrite Hroute. cbn [cx_Principal]. by rewrite E.
Qed.

(** C24: (The gate of the API.) A request for any endpoint but health and metrics is
    decided exactly as [decide_request] says: without a valid bearer token it is
    answered 401 and nothing changes, not even the limiter; a write beyond the rate is
    answered 429, and without a fitting role a request is answered 403, each time a
    problem document and an untouched store; otherwise the endpoint runs, as the token's
    principal, and its reply is sent.  Every reply carries the request id. *)
Theorem http_gate tn rq e s l :
  route (hr_Method rq) (hr_Path rq) = To e -> needs_token e = true ->
  let id := request_id tn rq in
  match decide_request tn rq e l with
  | Refused status l' =>
      exists r, serve tn rq (s, l) = (Replied (with_header #"X-Request-Id" id r), (s, l')) /\ problem_reply status r
  | Passed p l' =>
      exists r w', behind tn rq e (mkCtx id (Some p)) (s, l') = (Replied r, w')
        /\ serve tn rq (s, l) = (Replied (with_header #"X-Request-Id" id r), w')
  end.
Proof using validator_errors.
  intros Hroute He id. pose proof (handle_judged tn rq e id s l He) as Hj.
  destruct (decide_request tn rq e l) as [status l'|p l']; cbn [judged] in Hj.
  - destruct Hj as (r & E & Hp). exists r. split; [by apply (serve_handled tn rq e)|done].
  - destruct (behind_replies tn rq e (mkCtx id (Some p)) (s, l') He) as (r & w' & E). exists r, w'. rewrite E in Hj.
    split; [done|]. by apply (serve_handled tn rq e).
Qed.

(** ** What requests change *)

Context (metrics_inert : forall h, metrics = Some h -> forall ctx w, snd (h ctx w) = w).

Lemma serve_world tn rq (w : World) : exists id,
  snd (serve tn rq w) = snd (route_request uuid_Parse uuid_String hash_create hash_revoke reason_json X25519 sv time_text time_parse
    json_error out_of_range Validate route metrics tn rq (mkCtx id None) w).
Proof.
  exists (request_id tn rq). unfold serve_http, NewRouter, RequestID, Recoverer, AccessLog. fold (request_id tn rq). cbn [cx_Principal].
  destruct (route_request _ _ _ _ _ _ _ _ _ _ _ _ _ _ _ _ _ _) as [[r|[r|]] w']; done.
Qed.

Lemma answer_store {A} (m : SE Store A) ok s l : fst (snd (answer m ok (s, l) : outcome * World)) = snd (m s).
Proof. unfold answer. by destruct (m s) as [[a|e] s']. Qed.

(** What a request that is let through does to the store. *)
Lemma behind_store tn rq e id p s l :
  needs_token e = true ->
  let s' := fst (snd (behind tn rq e (mkCtx id (Some p)) (s, l))) in
  s' = s
  \/ (exists tenant req, e = ECreatePeer tenant
       /\ s' = snd (CreatePeer uuid_Parse uuid_String hash_create X25519 sv (tn_draws tn) (Some p) tenant (hr_Header rq #"Idempotency-Key") req s))
  \/ (exists tenant pid, e = ERevokePeer tenant pid
       /\ s' = snd (RevokePeer uuid_Parse uuid_String hash_revoke reason_json sv (tn_draws tn) (Some p) tenant pid
                     (hr_Header rq #"Idempotency-Key") (revoke_reason (hr_Body rq)) s)).
Proof.
  intros He. destruct e; try done; cbn [behind]; unfold GetOperation_handler, GetPeer_handler, GetPeerConfiguration, CreatePeer_handler, RevokePeer_handler.
  - left. rewrite answer_store. apply read_only_GetOperation.
  - left. rewrite answer_store. apply read_only_GetPeer.
  - left. destruct (negb _); [done|]. rewrite answer_store. apply read_only_PeerConfiguration.
  - destruct (decode_body _ _ _) as [req|]; [|by left]. right. left. rewrite answer_store. eauto.
  - right. right. rewrite answer_store. eauto.
Qed.

(** The store after any request: unchanged, or what a create or revoke by an
    authenticated principal with a writing role made of it. *)
Lemma serve_store tn rq s l :
  let s' := fst (snd (serve tn rq (s, l))) in
  s' = s
  \/ exists p, principal_of tn rq = Some p /\ HasAnyRole p write_roles = true
     /\ ((exists tenant req, route (hr_Method rq) (hr_Path rq) = To (ECreatePeer tenant)
            /\ s' = snd (CreatePeer uuid_Parse uuid_String hash_create X25519 sv (tn_draws tn) (Some p) tenant (hr_Header rq #"Idempotency-Key") req s))
         \/ (exists tenant pid, route (hr_Method rq) (hr_Path rq) = To (ERevokePeer tenant pid)
            /\ s' = snd (RevokePeer uuid_Parse uuid_String hash_revoke reason_json sv (tn_draws tn) (Some p) tenant pid
                          (hr_Header rq #"Idempotency-Key") (revoke_reason (hr_Body rq)) s))).
Proof using validator_errors metrics_inert.
  destruct (serve_world tn rq (s, l)) as [id ->]. unfold route_request.
  destruct (route (hr_Method rq) (hr_Path rq)) as [r|r|e] eqn:Hroute; [by left| |].
  { left. pose proof (guarded_spec tn rq (fun _ w => (Replied r, w)) id (s, l)) as Hg.
    destruct (principal_of tn rq); [by rewrite Hg|]. destruct Hg as (r' & -> & _). done. }
  destruct (needs_token e) eqn:He.
  2:{ left. destruct e; try done; cbn [endpoint_handler]; [unfold HealthReady; by destruct (tn_ping tn)|].
      destruct metrics as [h|] eqn:Em; [|done]. cbn. by rewrite (metrics_inert h). }
  pose proof (handle_judged tn rq e id s l He) as Hj. unfold decide_request in Hj.
  destruct (principal_of tn rq) as [p|] eqn:Hp; [|destruct Hj as (r & -> & _); by left].
  destruct (write_tenant e) as [tenant|] eqn:Ht.
  - destruct (match l with Some _ => _ | None => _ end) as [ok l']. destruct (negb ok); [destruct Hj as (r & -> & _); by left|].
    destruct (HasAnyRole p write_roles) eqn:Hw; [|destruct Hj as (r & -> & _); by left]. cbn [judged] in Hj. rewrite Hj.
    destruct (behind_store tn rq e id p s l' He) as [->|[(t & req & -> & ->)|(t & pid & -> & ->)]]; [by left| |];
      right; exists p; (split; [done|]); (split; [done|]); [left|right]; eauto.
  - destruct (HasAnyRole p read_roles); [|destruct Hj as (r & -> & _); by left]. cbn [judged] in Hj. rewrite Hj.
    destruct (behind_store tn rq e id p s l He) as [->|[(t & req & -> & _)|(t & pid & -> & _)]]; [by left|done..].
Qed.

(** (Requests are confined.) Whatever is sent to the API, the database invariant holds
    afterwards; the store is unchanged unless the request is a create or revoke with a
    valid token of a principal with a writing role; and a principal that is not a
    platform administrator leaves the peers, pools, operations, audit events and
    idempotency records of every other tenant as they were. *)
Theorem http_confined tn rq s l t :
  store_ok s ->
  let s' := fst (snd (serve tn rq (s, l))) in
  store_ok s'
  /\ (s' <> s -> exists e p, route (hr_Method rq) (hr_Path rq) = To e /\ is_Some (write_tenant e)
                             /\ principal_of tn rq = Some p /\ HasAnyRole p write_roles = true)
  /\ (foreign t (principal_of tn rq) -> same_for t s' s).
Proof using validator_errors metrics_inert.
  intros Hs s'. destruct (serve_store tn rq s l) as [E|(p & Hp & Hw & [(tenant & req & Hr & E)|(tenant & pid & Hr & E)])];
    fold s' in E; rewrite E.
  - done.
  - split; [by apply preserves_CreatePeer|]. split; [intros _; eexists _, p; by split_and!|].
    intros Hf. rewrite Hp in Hf. by apply create_confined.
  - split; [by apply preserves_RevokePeer|]. split; [intros _; eexists _, p; by split_and!|].
    intros Hf. rewrite Hp in Hf. by apply revoke_confined.
Qed.
End gate.

(** ** From the configuration to the store *)

Lemma validator_errors uuid_Parse Quote ParseWithClaims now v tok e :
  validator_Validate uuid_Parse Quote ParseWithClaims now v tok = Err e -> errors_Is e ErrNotFound = false.
Proof.
  assert (forall parsed issuer audience, principalFromClaims uuid_Parse Quote parsed issuer audience = Err e -> errors_Is e ErrNotFound = false) as H.
  { intros parsed issuer audience. unfold principalFromClaims. destruct parsed as [[[t|] claims]|pe]; [|by intros [= <-]..].
    destruct (tok_Valid t); simpl; [|by intros [= <-]]. destruct (bad_typ t); [by intros [= <-]|].
    destruct (negb _ && negb _); [by intros [= <-]|]. by destruct (negb _ && negb _); [intros [= <-]|]. }
  destruct v; apply H.
Qed.

Section end_to_end.
Context {L : Type} {RL : Limiter L}.
Context (uuid_Parse : bytes -> option uuid) (uuid_String : uuid -> bytes).
Context (hash_create : CreatePeerRequest -> bytes -> bytes) (hash_revoke : uuid -> uuid -> bytes -> bytes).
Context (reason_json : bytes -> bytes) (X25519 : list Z -> result bytes (list Z)) (sv : Service).
Context (time_text : Z -> option bytes) (time_parse : bytes -> option Time).
Context (json_error : bytes -> bytes) (out_of_range : float64 -> Z).
Context (route : bytes -> bytes -> routed) (metrics : option (handler (L := L))).
Context (pem_Decode : bytes -> option (Block * bytes)).
Context (ParsePKIXPublicKey : bytes -> result error crypto_key) (ParsePKCS1PublicKey : bytes -> result error N)
        (ParseCertificate : bytes -> result error crypto_key).
Context (Quote : bytes -> bytes) (type_name : crypto_key -> bytes).
Context (ParseWithClaims : Parser -> (Token -> result error crypto_key) -> bytes -> result error (option Token * MapClaims)).
Context (verifies : crypto_key -> bytes -> bytes -> Prop).

Local Abbreviation serve v :=
  (serve_http uuid_Parse uuid_String hash_create hash_revoke reason_json X25519 sv time_text time_parse json_error out_of_range
     (fun now => validator_Validate uuid_Parse Quote ParseWithClaims now v) route metrics).

(** (Only who holds the key can write.) With the validator the configuration chose,
    if any request at all changes the database then it came with a bearer token in
    force whose signature verifies under the configured key, whose claims give the
    principal one of the writing roles, and unless that role is platform administrator
    nothing of any tenant but the token's own has changed. *)
Theorem api_end_to_end cfg v tn rq s l :
  (forall s block rest, pem_Decode s = Some (block, rest) -> (length rest < length s)%nat) ->
  (forall p keyfunc raw tok claims, ParseWithClaims p keyfunc raw = Ok (Some tok, claims) ->
     tok_Alg tok ∈ ps_ValidMethods p /\ in_force p claims
     /\ exists key, keyfunc tok = Ok key /\ verifies key (tok_Alg tok) raw) ->
  (forall h, metrics = Some h -> forall ctx w, snd (h ctx w) = w) ->
  store_ok s ->
  buildJWTValidator pem_Decode ParsePKIXPublicKey ParsePKCS1PublicKey ParseCertificate Quote type_name cfg = Some (Ok v) ->
  let s' := fst (snd (serve v tn rq (s, l))) in
  s' = s
  \/ exists raw p, HasPrefix (hr_Header rq #"Authorization") bearer = true /\ raw = drop (length bearer) (hr_Header rq #"Authorization")
       /\ opens pem_Decode ParsePKIXPublicKey ParsePKCS1PublicKey ParseCertificate Quote type_name uuid_Parse verifies (tn_now tn) cfg raw p
       /\ HasAnyRole p write_roles = true
       /\ (HasRole p RolePlatformAdmin = false -> forall t, pr_TenantID p <> t -> same_for t s' s).
Proof.
  intros Hpem Hjwt Hm Hs Hb s'.
  destruct (built_opens pem_Decode ParsePKIXPublicKey ParsePKCS1PublicKey ParseCertificate Quote type_name uuid_Parse ParseWithClaims verifies (tn_now tn) cfg Hpem Hjwt) as (r & Hr & _ & Hopen).
  rewrite Hb in Hr. injection Hr as <-.
  pose proof (serve_store uuid_Parse uuid_String hash_create hash_revoke reason_json X25519 sv time_text time_parse json_error out_of_range
    (fun now => validator_Validate uuid_Parse Quote ParseWithClaims now v) route metrics
    (fun now tok e => validator_errors uuid_Parse Quote ParseWithClaims now v tok e) Hm tn rq s l) as Hst. fold s' in Hst.
  destruct Hst as [E|(p & Hp & Hw & Hch)]; [by left|right]. unfold principal_of in Hp.
  destruct (HasPrefix _ _) eqn:Hpre; [|done]. destruct (validator_Validate _ _ _ _ _ _) as [q|] eqn:Hv; [|done]. injection Hp as ->.
  eexists _, p. split; [done|]. split; [done|]. split; [by eapply Hopen|]. split; [done|]. intros Ha t Ht.
  assert (foreign t (Some p)) as Hf by (intros q [= <-]; done).
  destruct Hch as [(tenant & req & _ & ->)|(tenant & pid & _ & ->)]; [by apply create_confined|by apply revoke_confined].
Qed.
End end_to_end.

(** ** Concrete requests *)

Definition demo_token_check (now : Z) (tok : bytes) : result error Principal :=
  if bool_decide (tok = #"good") then Ok demo_admin else Err (ESentinel ErrUnauthorized).
Definition demo_route (method path : bytes) : routed :=
  if bool_decide (method = #"POST") && bool_decide (path = #"/v1/tenants/acme/peers/") then To (ECreatePeer #"acme") else NoRoute not_found_reply.
Definition demo_header (auth k : bytes) : bytes :=
  if bool_decide (k = #"Authorization") then auth else if bool_decide (k = #"Idempotency-Key") then #"k1" else [].
Definition demo_body : bytes := Marshal (JObj [ (#"external_id", JStr #"bob"); (#"display_name", JStr #"laptop") ]).
Definition demo_http (auth : bytes) : HttpRequest :=
  mkHttpRequest #"POST" #"/v1/tenants/acme/peers/" (demo_header auth) (fun _ => []) #"192.0.2.1:4711" (Ok demo_body).
Definition demo_turn : Turn := mkTurn (ServiceFacts.demo_draws 100 9) 100 #"req-1" (Ok tt) 5000000.

#[local] Instance demo_limiter_class : Limiter TokenBucket := TokenBucket_Limiter (fun _ => 0).

Local Abbreviation demo_serve Validate :=
  (serve_http (L := TokenBucket) demo_uuid_Parse demo_uuid_String demo_hash demo_hash_revoke (fun r => r) demo_X25519 demo_service
     (fun _ => Some #"2026-01-01T00:00:00Z") (fun _ => None) (fun _ => #"bad json") (fun _ => 0) Validate demo_route None).

Lemma demo_token_errors now tok e : demo_token_check now tok = Err e -> errors_Is e ErrNotFound = false.
Proof. unfold demo_token_check. destruct (bool_decide _); [discriminate|]. intros [= <-]. reflexivity. Qed.

(** The first request uses up the one token, the second is turned away; without a
    valid token nothing is used up. *)
Lemma http_gate_witness :
  let w0 := (demo_base, Some (NewTokenBucket 1 f_one)) in
  let first := demo_serve demo_token_check demo_turn (demo_http #"Bearer good") w0 in
  (exists r, fst first = Replied r /\ rp_Status r = 202)
  /\ (exists r, fst (demo_serve demo_token_check demo_turn (demo_http #"Bearer good") (snd first)) = Replied r /\ rp_Status r = 429)
  /\ (exists r, demo_serve demo_token_check demo_turn (demo_http #"Bearer bad") w0 = (Replied r, w0) /\ rp_Status r = 401).
Proof.
  intros w0 first.
  pose proof (http_gate (L := TokenBucket) demo_uuid_Parse demo_uuid_String demo_hash demo_hash_revoke (fun r => r) demo_X25519 demo_service
     (fun _ => Some #"2026-01-01T00:00:00Z") (fun _ => None) (fun _ => #"bad json") (fun _ => 0) demo_token_check demo_route None
     demo_token_errors demo_turn) as H.
  split; [eexists; split; vm_compute; reflexivity|]. split.
  - specialize (H (demo_http #"Bearer good") (ECreatePeer #"acme") (fst (snd first)) (snd (snd first)) eq_refl eq_refl).
    destruct (decide_request _ _ _ _ _ _) as [status l'|p l'] eqn:E; [|vm_compute in E; discriminate].
    destruct H as (r & Hr & Hp & _). rewrite (surjective_pairing (snd first)). rewrite Hr. eexists. split; [reflexivity|].
    change (rp_Status r = 429). rewrite Hp. vm_compute in E. injection E as <- <-. reflexivity.
  - specialize (H (demo_http #"Bearer bad") (ECreatePeer #"acme") demo_base (Some (NewTokenBucket 1 f_one)) eq_refl eq_refl).
    change (decide_request _ _ _ _ _ _) with (Refused (L := TokenBucket) 401 (Some (NewTokenBucket 1 f_one))) in H.
    destruct H as (r & Hr & Hp & _). eexists. split; [exact Hr|]. exact Hp.
Defined.

Lemma http_confined_witness :
  let '(_, (s', _)) := demo_serve demo_token_check demo_turn (demo_http #"Bearer good") (demo_base, None) in
  store_ok s' /\ length (st_peers s') = 1%nat /\ same_for 5 s' demo_base.
Proof.
  destruct (http_confined (L := TokenBucket) demo_uuid_Parse demo_uuid_String demo_hash demo_hash_revoke (fun r => r) demo_X25519 demo_service
     (fun _ => Some #"2026-01-01T00:00:00Z") (fun _ => None) (fun _ => #"bad json") (fun _ => 0) demo_token_check demo_route None
     demo_token_errors ltac:(discriminate) demo_turn (demo_http #"Bearer good") demo_base None 5 demo_base_ok) as (Hok & _ & Hsame).
  assert (Hn : length (st_peers (fst (snd (demo_serve demo_token_check demo_turn (demo_http #"Bearer good") (demo_base, None))))) = 1%nat)
    by (vm_compute; reflexivity).
  destruct (demo_serve demo_token_check demo_turn (demo_http #"Bearer good") (demo_base, None)) as [o [s' l']]. cbn [fst snd] in *.
  split; [exact Hok|]. split; [exact Hn|]. apply Hsame. intros pr [= <-]. split; [reflexivity|discriminate].
Defined.

(** A library that knows one signed token, and the id its claims name. *)
Definition signed_claims : MapClaims :=
  {[ #"iss" := CString #"awg-rest"; #"aud" := CString #"awg-control-plane"; #"exp" := CNumber 1000;
     #"roles" := CArray [ CString RoleTenantAdmin ]; #"tenant_id" := CString #"acme-id" ]}.
Definition signed_token : Token := mkToken ∅ #"HS256" true.
Definition known_jwt (p : Parser) (keyfunc : Token -> result error crypto_key) (raw : bytes) : result error (option Token * MapClaims) :=
  if bool_decide (raw = #"good") && bool_decide (#"HS256" ∈ ps_ValidMethods p) && in_forceb p signed_claims
     && bool_decide (keyfunc signed_token = Ok (SecretKey #"s3cret"))
  then Ok (Some signed_token, signed_claims) else Err (EMsg #"token is malformed").
Definition known_signature (key : crypto_key) (alg raw : bytes) : Prop :=
  key = SecretKey #"s3cret" /\ alg = #"HS256" /\ raw = #"good".
Definition http_uuid_Parse (s : bytes) : option uuid := if bool_decide (s = #"acme-id") then Some 1%N else demo_uuid_Parse s.

Lemma known_jwt_sound p keyfunc raw tok claims : known_jwt p keyfunc raw = Ok (Some tok, claims) ->
  tok_Alg tok ∈ ps_ValidMethods p /\ in_force p claims
  /\ exists key, keyfunc tok = Ok key /\ known_signature key (tok_Alg tok) raw.
Proof.
  unfold known_jwt. destruct (_ && _ && _ && _) eqn:E; [|discriminate]. intros [= <- <-].
  apply andb_true_iff in E as [[[Hr%bool_decide_eq_true Ha%bool_decide_eq_true]%andb_true_iff Hf%in_forceb_spec]%andb_true_iff Hk%bool_decide_eq_true].
  split; [exact Ha|]. split; [exact Hf|]. exists (SecretKey #"s3cret"). split; [exact Hk|]. split_and!; [reflexivity..|exact Hr].
Qed.

Lemma api_end_to_end_witness :
  exists cfg v, demo_config = Ok cfg
    /\ buildJWTValidator (fun _ => None) (fun _ => Err (EMsg [])) (fun _ => Err (EMsg [])) (fun _ => Err (EMsg [])) id (fun _ => []) cfg = Some (Ok v)
    /\ let s' := fst (snd (serve_http (L := TokenBucket) http_uuid_Parse demo_uuid_String demo_hash demo_hash_revoke (fun r => r) demo_X25519
                   demo_service (fun _ => Some #"2026-01-01T00:00:00Z") (fun _ => None) (fun _ => #"bad json") (fun _ => 0)
                   (fun now => validator_Validate http_uuid_Parse id known_jwt now v) demo_route None
                   demo_turn (demo_http #"Bearer good") (demo_base, None))) in
       length (st_peers s') = 1%nat
       /\ exists p, HasAnyRole p write_roles = true
            /\ (HasRole p RolePlatformAdmin = false -> forall t, pr_TenantID p <> t -> same_for t s' demo_base).
Proof.
  destruct demo_config as [cfg|e] eqn:E; [|vm_compute in E; discriminate]. exists cfg.
  destruct (buildJWTValidator (fun _ => None) (fun _ => Err (EMsg [])) (fun _ => Err (EMsg [])) (fun _ => Err (EMsg [])) id (fun _ => []) cfg)
    as [[v|e]|] eqn:Ev; vm_compute in E; injection E as Ec; [|subst cfg; vm_compute in Ev; discriminate..].
  exists v. split; [reflexivity|]. split; [reflexivity|]. intros s'.
  assert (Hn : length (st_peers s') = 1%nat) by (subst s' cfg; vm_compute in Ev; injection Ev as <-; vm_compute; reflexivity). split; [exact Hn|].
  destruct (api_end_to_end (L := TokenBucket) http_uuid_Parse demo_uuid_String demo_hash demo_hash_revoke (fun r => r) demo_X25519
    demo_service (fun _ => Some #"2026-01-01T00:00:00Z") (fun _ => None) (fun _ => #"bad json") (fun _ => 0) demo_route None
    (fun _ => None) (fun _ => Err (EMsg [])) (fun _ => Err (EMsg [])) (fun _ => Err (EMsg [])) id (fun _ => [])
    known_jwt known_signature cfg v demo_turn (demo_http #"Bearer good") demo_base None
    ltac:(discriminate) known_jwt_sound ltac:(discriminate) demo_base_ok Ev) as [Es|(raw & p & _ & _ & _ & Hw & Hs)].
  - exfalso. fold s' in Es. rewrite Es in Hn. vm_compute in Hn. discriminate.
  - exists p. split; [exact Hw|exact Hs].
Defined.
