(* ===== verification/OpenApi.v ===== *)
(** * OpenApi: the API against its document ([api/openapi.yaml])

    The document's schemas and responses as data, what it is for a JSON value to
    conform to a schema, and that every reply of the router does: a success has the
    documented status, media type and schema, and everything else is a problem
    document.  Which problems an operation answers with is documented incompletely;
    the requests that show it are at the end. *)

From S2P Require Import Prelude GoStrings Strconv Times Json Errors Effects Float64 RateLimit Profile Netip Executor NodeAgent FakeExecutor Auth Store StoreFacts Service ServiceFacts HttpApi HttpFacts.

(** ** Schemas *)

Inductive schema : Type :=
| SString
| SEnum (l : list bytes)
| SInteger
| SArray (items : schema)
| SObject (required : list bytes) (properties : list (bytes * schema)).

(** Strictly: an object has no property the schema does not name. *)
Fixpoint conforms (s : schema) (j : json) : bool :=
  match s, j with
  | SString, JStr _ => true
  | SEnum l, JStr x => bool_decide (x ∈ l)
  | SInteger, JNum _ => true
  | SArray s, JArr l => forallb (conforms s) l
  | SObject required props, JObj fields =>
      forallb (fun k => existsb (fun kv => bool_decide (fst kv = k)) fields) required
      && forallb (fun kv => (fix property props := match props with
                                                   | [] => false
                                                   | (k, s) :: props => if bool_decide (fst kv = k) then conforms s (snd kv) else property props
                                                   end) props) fields
  | _, _ => false
  end.

Definition problem_schema : schema :=
  SObject []
    [ (#"type", SString); (#"title", SString); (#"status", SInteger); (#"detail", SString); (#"code", SString);
      (#"errors", SArray (SObject [] [ (#"field", SString); (#"code", SString); (#"message", SString) ])) ].

Definition create_response_schema : schema :=
  SObject [ #"operation_id"; #"peer_id"; #"status"; #"allowed_ip"; #"public_key"; #"node_id"; #"profile_id" ]
    [ (#"operation_id", SString); (#"peer_id", SString); (#"status", SString); (#"allowed_ip", SString); (#"public_key", SString);
      (#"private_key", SString); (#"client_config", SString); (#"preshared_key", SString); (#"node_id", SString); (#"profile_id", SString) ].

Definition peer_schema : schema :=
  SObject []
    [ (#"id", SString); (#"tenant_id", SString); (#"node_id", SString); (#"profile_id", SString); (#"external_id", SString);
      (#"display_name", SString); (#"public_key", SString); (#"allowed_ip", SString);
      (#"state", SEnum [ #"pending"; #"active"; #"revoked"; #"expired"; #"rotating" ]); (#"desired_revision", SInteger);
      (#"applied_revision", SInteger); (#"expires_at", SString); (#"revoked_at", SString); (#"created_at", SString); (#"updated_at", SString) ].

Definition operation_schema : schema :=
  SObject []
    [ (#"id", SString); (#"tenant_id", SString); (#"peer_id", SString); (#"node_id", SString); (#"kind", SString);
      (#"status", SEnum [ #"pending"; #"running"; #"applied"; #"failed_terminal"; #"failed_retryable" ]); (#"error_code", SString);
      (#"error_message", SString); (#"started_at", SString); (#"finished_at", SString) ].

Definition revoke_response_schema : schema := SObject [] [ (#"operation_id", SString); (#"status", SString) ].

(** ** Responses *)

(** What a documented success carries: JSON, text, or something not described. *)
Inductive content : Type := CJson (s : schema) | CText | CAny.

Definition documented_success (e : endpoint) : option (Z * content) :=
  match e with
  | EHealthLive | EHealthReady => Some (200, CAny)
  | EMetrics => None
  | EGetOperation _ => Some (200, CJson operation_schema)
  | EGetPeer _ _ => Some (200, CJson peer_schema)
  | EGetPeerConfiguration _ _ => Some (200, CText)
  | ECreatePeer _ => Some (202, CJson create_response_schema)
  | ERevokePeer _ _ => Some (202, CJson revoke_response_schema)
  end.

(** The statuses of the documented problems. *)
Definition documented_problems (e : endpoint) : list Z :=
  match e with
  | EHealthLive | EMetrics => []
  | EHealthReady => [503]
  | EGetOperation _ | EGetPeer _ _ => [401; 403; 404]
  | EGetPeerConfiguration _ _ => [401; 403; 404; 422]
  | ECreatePeer _ => [400; 401; 403; 409; 422; 429]
  | ERevokePeer _ _ => [401; 403; 409; 404; 422]
  end.

(** ** Conforming replies *)

Definition sends_json (media : bytes) (s : schema) (r : Reply) (j : json) : Prop :=
  rp_Header r !! #"Content-Type" = Some media /\ Decode (rp_Body r) = Some j /\ conforms s j = true.

(** The value under a key. *)
Definition field (k : bytes) (j : json) : option json :=
  match j with JObj l => snd <$> find (fun kv => bool_decide (fst kv = k)) l | _ => None end.

Definition problem_ok (r : Reply) : Prop :=
  rp_Status r ∈ [400; 401; 403; 404; 409; 422; 429; 500]
  /\ exists j, sends_json #"application/problem+json" problem_schema r j /\ field #"status" j = Some (json_int (rp_Status r)).

(** The times of a row. *)
Definition peer_times (p : Peer) : list Z :=
  p_CreatedAt p :: p_UpdatedAt p :: option_list (p_ExpiresAt p) ++ option_list (p_RevokedAt p).
Definition operation_times (o : Operation) : list Z := o_StartedAt o :: option_list (o_FinishedAt o).

(** The row that is asked for has a time that JSON cannot carry. *)
Definition untellable (uuid_Parse : bytes -> option uuid) (time_text : Z -> option bytes) (s : Store) (e : endpoint) : Prop :=
  match e with
  | EGetPeer _ id => exists p t, p ∈ st_peers s /\ uuid_Parse id = Some (p_ID p) /\ t ∈ peer_times p /\ time_text t = None
  | EGetOperation id =>
      exists o t, o ∈ st_operations s /\ uuid_Parse id = Some (o_ID o) /\ t ∈ operation_times o /\ time_text t = None
  | _ => False
  end.

Definition success_ok (uuid_Parse : bytes -> option uuid) (time_text : Z -> option bytes) (s : Store) (e : endpoint) (r : Reply) : Prop :=
  match documented_success e with
  | None => False
  | Some (status, c) =>
      rp_Status r = status
      /\ match c with
         | CJson sch => (exists j, sends_json #"application/json" sch r j) \/ (rp_Body r = [] /\ untellable uuid_Parse time_text s e)
         | CText => rp_Header r !! #"Content-Type" = Some #"text/plain; charset=utf-8"
         | CAny => True
         end
  end.

(** ** Schemas and valid text *)

Fixpoint ascii_schema (s : schema) : bool :=
  match s with
  | SString | SInteger => true
  | SEnum l => forallb (fun x => bool_decide (ascii_text x)) l
  | SArray s => ascii_schema s
  | SObject _ props => forallb (fun kv => bool_decide (ascii_text (fst kv)) && ascii_schema (snd kv)) props
  end.

Section schema_ind.
Context (P : schema -> Prop).
Context (HString : P SString) (HEnum : forall l, P (SEnum l)) (HInteger : P SInteger) (HArray : forall s, P s -> P (SArray s)).
Context (HObject : forall required props, Forall (fun kv => P (snd kv)) props -> P (SObject required props)).

Fixpoint schema_nested_ind (s : schema) : P s :=
  match s with
  | SString => HString
  | SEnum l => HEnum l
  | SInteger => HInteger
  | SArray s => HArray s (schema_nested_ind s)
  | SObject required props =>
      HObject required props
        ((fix go props : Forall (fun kv : bytes * schema => P (snd kv)) props :=
            match props with
            | [] => @List.Forall_nil _ _
            | kv :: props => @List.Forall_cons _ _ kv props (schema_nested_ind (snd kv)) (go props)
            end) props)
  end.
End schema_ind.

(** A field conforms to the first property of its name. *)
Definition has_property (props : list (bytes * schema)) (kv : bytes * json) : Prop :=
  exists i k s, props !! i = Some (k, s) /\ fst kv = k /\ (forall j s', (j < i)%nat -> props !! j <> Some (k, s'))
    /\ conforms s (snd kv) = true.

Lemma forallb_Forall {A} (f : A -> bool) l : forallb f l = true <-> Forall (fun x => f x = true) l.
Proof. rewrite forallb_forall, Forall_forall. by setoid_rewrite list_elem_of_In. Qed.

Lemma has_key (fields : list (bytes * json)) k : existsb (fun kv => bool_decide (fst kv = k)) fields = true <-> k ∈ fields.*1.
Proof.
  rewrite existsb_exists, list_elem_of_fmap. split.
  - intros (kv & Hin%list_elem_of_In & Hk%bool_decide_eq_true). by exists kv.
  - intros (kv & -> & Hin). exists kv. rewrite bool_decide_eq_true_2 by done. split; [by apply list_elem_of_In|done].
Qed.

Lemma property_spec props k v :
  (fix property props := match props with
                         | [] => false
                         | (k', s) :: props => if bool_decide (k = k') then conforms s v else property props
                         end) props = true <-> has_property props (k, v).
Proof.
  unfold has_property. cbn [fst snd]. induction props as [|[k' s] props IH].
  - split; [done|]. by intros (i & ? & ? & ? & _).
  - case_bool_decide as E.
    + subst k'. split; [intros H; exists 0%nat, k, s; split_and!; [done..| |done]; lia|].
      intros ([|i] & k2 & s2 & Hi & -> & Hf & H); [by injection Hi as ->|]. by destruct (Hf 0%nat s ltac:(lia)).
    + rewrite IH. split.
      * intros (i & k2 & s2 & Hi & -> & Hf & H). exists (S i), k2, s2. split_and!; [done..| |done].
        intros [|j] s' Hj; [cbn; intros [= -> _]; done|]. cbn. apply Hf. lia.
      * intros ([|i] & k2 & s2 & Hi & -> & Hf & H); [by injection Hi as -> _|]. exists i, k2, s2. split_and!; [done..| |done].
        intros j s' Hj. apply (Hf (S j)). lia.
Qed.

(** The fields of an object, by the properties they match. *)
Lemma conforms_object required props fields :
  conforms (SObject required props) (JObj fields) = true <->
  Forall (fun k => k ∈ fields.*1) required /\ Forall (has_property props) fields.
Proof.
  cbn [conforms]. rewrite andb_true_iff, !forallb_Forall, !Forall_forall. setoid_rewrite has_key.
  split; intros [Hr Hf]; (split; [exact Hr|]); intros [k v] Hin; apply property_spec; exact (Hf (k, v) Hin).
Qed.

Lemma valid_keys props fields :
  forallb (fun kv : bytes * schema => bool_decide (ascii_text (fst kv)) && ascii_schema (snd kv)) props = true ->
  Forall (has_property props) fields ->
  Forall (fun kv => valid_text (fst kv) = fst kv) fields.
Proof.
  intros Ha H. eapply Forall_impl; [exact H|]. intros [k v] (i & k' & s & Hi & -> & _). cbn [fst] in *.
  apply valid_text_ascii. rewrite forallb_Forall, Forall_forall in Ha. apply list_elem_of_lookup_2 in Hi. specialize (Ha _ Hi). apply andb_true_iff in Ha as [Ha _]. by apply bool_decide_eq_true in Ha.
Qed.

(** Making the strings valid keeps a value within a schema whose own texts are ASCII. *)
Lemma conforms_valid s : ascii_schema s = true -> forall j, conforms s j = true -> conforms s (valid_json j) = true.
Proof.
  induction s as [|l| |s IH|required props IH] using schema_nested_ind; cbn [ascii_schema]; intros Ha j Hj.
  - by destruct j.
  - destruct j; try done. cbn in *. apply bool_decide_eq_true in Hj. apply bool_decide_eq_true.
    rewrite valid_text_ascii; [done|]. rewrite forallb_Forall, Forall_forall in Ha. by apply Ha, bool_decide_eq_true in Hj.
  - by destruct j.
  - destruct j as [| | | |l|]; try done. cbn in *. rewrite forallb_Forall, Forall_forall in *. intros x (y & -> & Hy)%list_elem_of_fmap. auto.
  - destruct j as [| | | | |fields]; try done. apply conforms_object in Hj as [Hr Hf].
    pose proof (valid_keys _ _ Ha Hf) as Hk. cbn [valid_json]. apply conforms_object. split.
    + assert (((fun kv => (valid_text (fst kv), valid_json (snd kv))) <$> fields).*1 = fields.*1) as ->; [|done].
      rewrite <- list_fmap_compose. apply Forall_fmap_ext_1 in Hk. exact Hk.
    + apply Forall_fmap. apply Forall_forall. intros [k v] Hin. rewrite Forall_forall in Hf, Hk.
      destruct (Hf _ Hin) as (i & k' & s & Hi & Hkk & Hfirst & Hc). specialize (Hk _ Hin). cbn [fst snd compose] in *.
      exists i, k', s. rewrite Hk. split_and!; [done..|]. rewrite Forall_forall in IH.
      apply list_elem_of_lookup_2 in Hi. apply (IH _ Hi); [|done].
      rewrite forallb_Forall, Forall_forall in Ha. specialize (Ha _ Hi). by apply andb_true_iff in Ha as [_ Ha].
Qed.

(** ** Replies *)

Lemma sends_marshalled media status s j :
  integral j -> ascii_schema s = true -> conforms s j = true ->
  sends_json media s (mkReply status {[ #"Content-Type" := media ]} (Marshal j ++ [nl])) (valid_json j).
Proof.
  intros Hi Ha Hc. split_and!; [by cbn; rewrite lookup_singleton_eq| |by apply conforms_valid].
  apply Decode_Marshal; [done|]. apply (bool_decide_unpack _). reflexivity.
Qed.

Lemma json_Problem_integral p : integral (json_Problem p).
Proof.
  unfold json_Problem, omit_string. assert (forall es, foldr (fun x P => integral x /\ P) True (json_error_item <$> es)) as Hes
    by (induction es; [done|split; [done|assumption]]).
  repeat case_bool_decide; destruct (pb_Errors p) as [|e es]; cbn; split_and!; eauto; apply Hes.
Qed.

Lemma json_Problem_conforms p : conforms problem_schema (json_Problem p) = true.
Proof.
  unfold json_Problem, omit_string. assert (forall es, conforms (SArray (SObject [] [ (#"field", SString); (#"code", SString); (#"message", SString) ]))
    (JArr (json_error_item <$> es)) = true) as Hes by (induction es; [done|cbn in *; done]).
  repeat case_bool_decide; destruct (pb_Errors p) as [|e es]; try reflexivity; pose proof (Hes (e :: es)) as He;
    set (v := JArr (json_error_item <$> (e :: es))) in *; clearbody v; cbn [app problem_schema conforms forallb existsb fst snd];
    vm_compute in He |- *; rewrite ?He; reflexivity.
Qed.

Lemma FromError_status e : pb_Status (FromError (Some e)) ∈ [400; 401; 403; 404; 409; 422; 429; 500].
Proof.
  unfold FromError. repeat (case_match; [apply (bool_decide_unpack _); reflexivity|]).
  apply (bool_decide_unpack _). reflexivity.
Qed.

Lemma problem_written p : pb_Status p ∈ [400; 401; 403; 404; 409; 422; 429; 500] -> problem_ok (Problem_Write p).
Proof.
  intros Hs. split; [done|]. exists (valid_json (json_Problem p)). split; [|reflexivity].
  apply sends_marshalled; [apply json_Problem_integral|reflexivity|apply json_Problem_conforms].
Qed.

Lemma error_written e : problem_ok (WriteError e).
Proof. apply problem_written, FromError_status. Qed.

(** *** Rows *)

Section rows.
Context (uuid_String : uuid -> bytes) (time_text : Z -> option bytes).

Lemma create_response_ok r :
  let j := json_CreatePeerResponse r in integral j /\ conforms create_response_schema j = true.
Proof. unfold json_CreatePeerResponse, omit_string. repeat case_bool_decide; (split; [by cbn|reflexivity]). Qed.

Lemma peer_ok p :
  match json_Peer uuid_String time_text p with
  | Some j => integral j /\ conforms peer_schema j = true
  | None => exists t, t ∈ peer_times p /\ time_text t = None
  end.
Proof.
  unfold json_Peer, omit_time, peer_times.
  destruct (time_text (p_CreatedAt p)) eqn:?; [|eexists; split; [by left|done]].
  destruct (time_text (p_UpdatedAt p)) eqn:?; [|eexists; split; [by right; left|done]].
  cbn [mbind option_bind].
  destruct (p_ExpiresAt p) as [x|]; [destruct (time_text x) eqn:?; [|exists x; cbn; set_solver]|]; cbn [mbind option_bind];
    (destruct (p_RevokedAt p) as [y|]; [destruct (time_text y) eqn:?; [|exists y; cbn; set_solver]|]); cbn [mbind option_bind];
    (split; [cbn; split_and!; eauto|]); destruct (p_State p); reflexivity.
Qed.

Lemma operation_ok o :
  match json_Operation uuid_String time_text o with
  | Some j => integral j /\ conforms operation_schema j = true
  | None => exists t, t ∈ operation_times o /\ time_text t = None
  end.
Proof.
  unfold json_Operation, omit_time, omit_string, operation_times.
  destruct (time_text (o_StartedAt o)) eqn:?; [|eexists; split; [by left|done]]. cbn [mbind option_bind].
  destruct (o_FinishedAt o) as [x|]; [destruct (time_text x) eqn:?; [|exists x; cbn; set_solver]|]; cbn [mbind option_bind];
    repeat case_bool_decide; destruct (o_PeerID o); (split; [cbn; split_and!; eauto|]); destruct (o_Status o); reflexivity.
Qed.
End rows.

(** *** Handlers *)

(** Every stored answer was an acceptance. *)
Definition answered (s : Store) : Prop := map_Forall (fun _ rec => ir_ResponseStatus rec = 202) (st_idem s).

Section replies.
Context {L : Type} {RL : Limiter L}.
Context (uuid_Parse : bytes -> option uuid) (uuid_String : uuid -> bytes).
Context (hash_create : CreatePeerRequest -> bytes -> bytes) (hash_revoke : uuid -> uuid -> bytes -> bytes).
Context (reason_json : bytes -> bytes) (X25519 : list Z -> result bytes (list Z)) (sv : Service).
Context (time_text : Z -> option bytes) (time_parse : bytes -> option Time).
Context (json_error : bytes -> bytes) (out_of_range : float64 -> Z).
Context (Validate : Z -> bytes -> result error Principal).
Context (route : bytes -> bytes -> routed) (metrics : option (handler (L := L))).

Local Abbreviation serve :=
  (serve_http uuid_Parse uuid_String hash_create hash_revoke reason_json X25519 sv time_text time_parse json_error out_of_range
     Validate route metrics).
Local Abbreviation log :=
  (serve_log uuid_Parse uuid_String hash_create hash_revoke reason_json X25519 sv time_text time_parse json_error out_of_range
     Validate route metrics).

Definition reply_ok (s : Store) (e : endpoint) (r : Reply) : Prop := success_ok uuid_Parse time_text s e r \/ problem_ok r.

Lemma CreatePeer_answered dr ctx slug key req s r s' :
  answered s -> CreatePeer uuid_Parse uuid_String hash_create X25519 sv dr ctx slug key req s = (r, s') ->
  answered s' /\ match r with Ok (_, status) => status = 202 | Err _ => True end.
Proof.
  intros Ha H. split.
  - apply CreatePeer_outcome in H as [->|(tenant & node & profile & pub & priv & psk & peer & s1 & resp & _ & _ & _ & _ & Hal & _ & _ & ->)]; [done|].
    apply AllocateAndInsert_Ok in Hal as (row & al & _ & _ & _ & ->). cbn. by apply map_Forall_insert_2.
  - destruct r as [[resp status]|e]; [|done].
    destruct (create_checks uuid_Parse ctx slug key req s) as [[[[t n] p]|e] s0] eqn:Hc.
    2:{ rewrite CreatePeer_run, Hc in H. discriminate H. }
    rewrite (CreatePeer_cases _ _ _ _ _ _ _ _ _ _ _ _ _ _ _ Hc) in H.
    destruct (live_record _ _ s) as [rec|] eqn:Hl.
    + case_bool_decide; [|done]. injection H as _ <- _. unfold live_record in Hl.
      destruct (st_idem s !! _) as [rec'|] eqn:E; [|done]. destruct (_ <? _); [|done]. injection Hl as ->. by apply (Ha _ _ E).
    + destruct (create_fresh _ _ _ _ _ _ _ _ _ _ _) as [[[]|e] [v s1]] eqn:Ef; [|done]. injection H as -> _.
      apply create_fresh_Ok in Ef as (? & ? & ? & ? & ? & _ & _ & _ & _ & Hv & _). by injection Hv.
Qed.

Lemma RevokePeer_answered dr ctx slug pid key reason s r s' :
  answered s -> RevokePeer uuid_Parse uuid_String hash_revoke reason_json sv dr ctx slug pid key reason s = (r, s') -> answered s'.
Proof.
  intros Ha H. apply RevokePeer_outcome in H as [->|(tenant & id & p & _ & _ & _ & _ & _ & ->)]; [done|].
  cbn. by apply map_Forall_insert_2.
Qed.

(** A handler that always replies, as the endpoint may, and keeps [answered]. *)
Definition fine (e : endpoint) (h : handler (L := L)) : Prop :=
  forall ctx s l, answered s ->
    exists r s' l', h ctx (s, l) = (Replied r, (s', l')) /\ reply_ok s e r /\ answered s'.

Lemma fine_error e err : fine e (fun _ w => (Replied (WriteError err), w)).
Proof. intros ctx s l Ha. eexists _, _, _. split_and!; [done|right; apply error_written|done]. Qed.

Lemma fine_answer {A} e (m : Ctx -> SE Store A) (ok : A -> Reply) :
  (forall ctx s r s', answered s -> m ctx s = (r, s') -> answered s' /\ match r with Ok a => success_ok uuid_Parse time_text s e (ok a) | Err _ => True end) ->
  fine e (fun ctx => answer (m ctx) ok).
Proof.
  intros Hm ctx s l Ha. unfold answer. destruct (m ctx s) as [[a|err] s'] eqn:E; destruct (Hm _ _ _ _ Ha E) as [Ha' Hr]; eexists _, _, _.
  - split_and!; [done|by left|done].
  - split_and!; [done|right; apply error_written|done].
Qed.

Lemma reads_fine {A} e (m : Ctx -> SE Store A) (ok : A -> Reply) :
  (forall ctx, read_only (m ctx)) -> (forall ctx s a, m ctx s = (Ok a, s) -> success_ok uuid_Parse time_text s e (ok a)) ->
  forall ctx s r s', answered s -> m ctx s = (r, s') ->
    answered s' /\ match r with Ok a => success_ok uuid_Parse time_text s e (ok a) | Err _ => True end.
Proof.
  intros Hm Hok ctx s r s' Ha E. specialize (Hm ctx s). rewrite E in Hm. cbn in Hm. subst s'. split; [done|].
  destruct r; [by eapply Hok|done].
Qed.

Lemma fine_guarded e tn rq next : fine e next -> fine e (guarded Validate tn rq next).
Proof.
  intros Hn ctx s l Ha. unfold guarded, Authenticator. destruct (negb _); [by apply fine_error|].
  destruct (Validate _ _); [by apply Hn|by apply fine_error].
Qed.

Lemma fine_roles e roles next : fine e next -> fine e (RequireRoles roles next).
Proof.
  intros Hn ctx s l Ha. unfold RequireRoles. destruct (FromContext _); [|by apply fine_error].
  destruct (negb _); [by apply fine_error|by apply Hn].
Qed.

(** A header of another name changes nothing. *)
Lemma reply_ok_header s e k v r : k <> #"Content-Type" -> reply_ok s e r -> reply_ok s e (with_header k v r).
Proof.
  intros Hk. assert (rp_Header (with_header k v r) !! #"Content-Type" = rp_Header r !! #"Content-Type") as E
    by (cbn; by rewrite lookup_insert_ne).
  intros [H|H]; [left|right].
  - unfold success_ok, sends_json in *. destruct (documented_success e) as [[status []]|]; rewrite ?E; done.
  - unfold problem_ok, sends_json in *. by rewrite E.
Qed.

Lemma fine_limited e tn key next : fine e next -> fine e (RateLimit_Middleware out_of_range tn key next).
Proof.
  intros Hn ctx s l Ha. unfold RateLimit_Middleware. destruct l as [l|]; [|by apply Hn].
  destruct (Allow _ _ l) as [[ok retry] l']. destruct (negb ok); [|by apply Hn]. eexists _, _, _. split; [done|]. split; [|done].
  destruct (0 <? retry); [apply reply_ok_header; [discriminate|]|]; right; apply error_written.
Qed.

Lemma sent_ok status s j :
  integral j /\ conforms s j = true -> ascii_schema s = true -> exists v, sends_json #"application/json" s (json_reply status (Some j)) v.
Proof. intros [Hi Hc] Ha. exists (valid_json j). by apply sends_marshalled. Qed.

Lemma fine_endpoint tn rq e :
  e <> EMetrics ->
  fine e (endpoint_handler uuid_Parse uuid_String hash_create hash_revoke reason_json X25519 sv time_text time_parse json_error out_of_range
            Validate metrics tn rq e).
Proof.
  intros He. destruct e as [| | |id|t id|t id|t|t id]; cbn [endpoint_handler]; try done.
  - intros ctx s l Ha. eexists _, _, _. split_and!; [done|by left|done].
  - intros ctx s l Ha. unfold HealthReady. destruct (tn_ping tn); [eexists _, _, _; split_and!; [done|by left|done]|by apply fine_error].
  - apply fine_guarded, fine_roles, (fine_answer _ (fun ctx => GetOperation uuid_Parse (cx_Principal ctx) id)), reads_fine.
    { intros ctx. apply read_only_GetOperation. }
    intros ctx s op (_ & Hin & Hid & _)%GetOperation_Ok. unfold success_ok, json_reply. cbn [documented_success].
    pose proof (operation_ok uuid_String time_text op) as Ho.
    destruct (json_Operation _ _ op) as [j|]; (split; [done|]); [left; by eapply sent_ok|right]. split; [done|].
    destruct Ho as (t0 & Ht & Hn). by exists op, t0.
  - apply fine_guarded, fine_roles, (fine_answer _ (fun ctx => GetPeer uuid_Parse (cx_Principal ctx) t id)), reads_fine.
    { intros ctx. apply read_only_GetPeer. }
    intros ctx s p (_ & row & _ & _ & Hin & Hid & Hrow & _)%GetPeer_Ok. unfold success_ok, json_reply. cbn [documented_success].
    pose proof (peer_ok uuid_String time_text p) as Ho.
    destruct (json_Peer _ _ p) as [j|]; (split; [done|]); [left; by eapply sent_ok|right]. split; [done|].
    destruct Ho as (t0 & Ht & Hn). exists row, t0. subst p. done.
  - apply fine_guarded, fine_roles. unfold GetPeerConfiguration. destruct (negb _); [by apply fine_error|].
    apply (fine_answer _ (fun ctx => PeerConfiguration uuid_Parse sv (cx_Principal ctx) t id)), reads_fine; [|done].
    intros ctx. apply read_only_PeerConfiguration.
  - apply fine_guarded, fine_limited, fine_roles. unfold CreatePeer_handler. destruct (decode_body _ _ _) as [req|text]; [|by apply fine_error].
    apply (fine_answer _ (fun ctx => CreatePeer uuid_Parse uuid_String hash_create X25519 sv (tn_draws tn) (cx_Principal ctx) t _ req)).
    intros ctx s r s' Ha E. destruct (CreatePeer_answered _ _ _ _ _ _ _ _ Ha E) as [Ha' Hr]. split; [done|].
    destruct r as [[resp status]|err]; [|done]. subst status. split; [done|]. left. eapply sent_ok; [apply create_response_ok|done].
  - apply fine_guarded, fine_limited, fine_roles. unfold RevokePeer_handler.
    apply (fine_answer _ (fun ctx => RevokePeer uuid_Parse uuid_String hash_revoke reason_json sv (tn_draws tn) (cx_Principal ctx) t id _ _)).
    intros ctx s r s' Ha E. split; [by eapply RevokePeer_answered|]. destruct r as [op|err]; [|done]. split; [done|]. left.
    by apply sent_ok.
Qed.

(** What serving a request for an endpoint comes to. *)
Lemma serve_endpoint tn rq e s l :
  route (hr_Method rq) (hr_Path rq) = To e -> e <> EMetrics -> answered s ->
  exists r s' l', serve tn rq (s, l) = (Replied (with_header #"X-Request-Id" (request_id tn rq) r), (s', l'))
    /\ log tn rq (s, l) = [HttpAccess (hr_Method rq) (hr_Path rq) (rp_Status r) (tn_elapsed tn) (request_id tn rq)]
    /\ reply_ok s e r /\ answered s'.
Proof.
  intros Hr He Ha. destruct (fine_endpoint tn rq e He (mkCtx (request_id tn rq) None) s l Ha) as (r & s' & l' & E & Hok & Ha').
  exists r, s', l'. unfold serve_http, serve_log, NewRouter, RequestID, Recoverer, AccessLog, route_request.
  fold (request_id tn rq). rewrite Hr. cbn [cx_Principal]. by rewrite E.
Qed.


(** (The access log.) A request for a documented operation leaves exactly one line in the
    log: its method and path without the query, the status of the reply that is sent,
    the time taken, and the request id the reply carries.  No token, key, query or body
    can get into it: the line is the same for every request of that method, path and
    id that is answered with that status. *)
Theorem access_log_line tn rq e s l :
  route (hr_Method rq) (hr_Path rq) = To e -> e <> EMetrics -> answered s ->
  exists r w' id, serve tn rq (s, l) = (Replied r, w') /\ rp_Header r !! #"X-Request-Id" = Some id
    /\ log tn rq (s, l) = [HttpAccess (hr_Method rq) (hr_Path rq) (rp_Status r) (tn_elapsed tn) id].
Proof.
  intros Hr He Ha. destruct (serve_endpoint tn rq e s l Hr He Ha) as (r & s' & l' & E & Hl & _).
  eexists _, _, _. split_and!; [exact E|cbn; by rewrite lookup_insert_eq|exact Hl].
Qed.

(** *** Where the document is wrong *)

Definition status_of (o : outcome) : option Z := match o with Replied r => Some (rp_Status r) | Panicked _ => None end.

(** The status of a reply is neither that of the documented success nor of a documented
    problem. *)
Definition undocumented (e : endpoint) (o : outcome) (status : Z) : Prop :=
  status_of o = Some status /\ (status ∉ documented_problems e) /\ ((fst <$> documented_success e) <> Some status).

Local Abbreviation decided := (decide_request uuid_String Validate).
Context (validator_errors : forall now tok e, Validate now tok = Err e -> errors_Is e ErrNotFound = false).

(** The status of a refused request, and of one that is let through. *)
Lemma status_refused tn rq e s l status l' :
  route (hr_Method rq) (hr_Path rq) = To e -> needs_token e = true -> decided tn rq e l = Refused status l' ->
  status_of (fst (serve tn rq (s, l))) = Some status.
Proof using validator_errors.
  intros Hr He Hd. pose proof (handle_judged uuid_Parse uuid_String hash_create hash_revoke reason_json X25519 sv time_text time_parse
    json_error out_of_range Validate metrics validator_errors tn rq e (request_id tn rq) s l He) as Hj. rewrite Hd in Hj.
  destruct Hj as (r & E & Hp & _). rewrite (serve_handled _ _ _ _ _ _ _ _ _ _ _ _ _ _ tn rq e _ _ _ Hr E). cbn. by rewrite Hp.
Qed.

Lemma status_passed tn rq e s l p l' r w' :
  route (hr_Method rq) (hr_Path rq) = To e -> needs_token e = true -> decided tn rq e l = Passed p l' ->
  behind uuid_Parse uuid_String hash_create hash_revoke reason_json X25519 sv time_text time_parse json_error tn rq e
    (mkCtx (request_id tn rq) (Some p)) (s, l') = (Replied r, w') ->
  status_of (fst (serve tn rq (s, l))) = Some (rp_Status r).
Proof using validator_errors.
  intros Hr He Hd Hb. pose proof (handle_judged uuid_Parse uuid_String hash_create hash_revoke reason_json X25519 sv time_text time_parse
    json_error out_of_range Validate metrics validator_errors tn rq e (request_id tn rq) s l He) as Hj. rewrite Hd in Hj.
  cbn [judged] in Hj. rewrite Hb in Hj. by rewrite (serve_handled _ _ _ _ _ _ _ _ _ _ _ _ _ _ tn rq e _ _ _ Hr Hj).
Qed.

(** Requests with an answer the document does not have. *)
Definition gap (tn : Turn) (rq : HttpRequest) (e : endpoint) (s : Store) (l : option L) (status : Z) : Prop :=
  match e with
  | EHealthReady => exists err, tn_ping tn = Err err /\ status = pb_Status (FromError (Some err))
  | ECreatePeer slug =>
      status = 404
      /\ exists p l' req, decided tn rq e l = Passed p l'
           /\ decode_body json_error (decode_CreatePeerRequest time_parse) (hr_Body rq) = Ok req
           /\ TrimSpace (rq_ExternalID req) <> [] /\ hr_Header rq #"Idempotency-Key" <> []
           /\ Forall (fun t => t_Slug t <> slug) (st_tenants s)
  | EGetPeer slug id =>
      status = 422 /\ uuid_Parse id = None
      /\ exists p l' tenant, decided tn rq e l = Passed p l'
           /\ find (fun t => bool_decide (t_Slug t = slug)) (st_tenants s) = Some tenant
           /\ authorizeTenant (Some p) (t_ID tenant) read_roles = Ok tt
  | EGetOperation id => status = 422 /\ uuid_Parse id = None /\ exists p l', decided tn rq e l = Passed p l'
  | ERevokePeer _ _ => status = 429 /\ exists l', decided tn rq e l = Refused 429 l'
  | _ => False
  end.

Lemma gap_status tn rq e s l status :
  route (hr_Method rq) (hr_Path rq) = To e -> gap tn rq e s l status ->
  status_of (fst (serve tn rq (s, l))) = Some status.
Proof using validator_errors.
  intros Hr. destruct e as [| | |id|slug id|slug id|slug|slug id]; cbn [gap]; try done.
  - intros (err & Hp & ->). rewrite (serve_handled _ _ _ _ _ _ _ _ _ _ _ _ _ _ tn rq EHealthReady (s, l) (WriteError err) (s, l) Hr);
      [done|]. cbn [endpoint_handler]. unfold HealthReady. by rewrite Hp.
  - intros (-> & Hid & p & l' & Hd). apply (status_passed tn rq (EGetOperation id) s l p l'
      (WriteError (invalid_field #"id" #"invalid" #"must be a UUID")) (s, l') Hr eq_refl Hd).
    cbn [behind]. unfold GetOperation_handler, GetOperation. rewrite Hid. reflexivity.
  - intros (-> & Hid & p & l' & tenant & Hd & Hf & Ha). apply (status_passed tn rq (EGetPeer slug id) s l p l'
      (WriteError (invalid_field #"id" #"invalid" #"must be a UUID")) (s, l') Hr eq_refl Hd).
    cbn [behind]. unfold GetPeer_handler, GetPeer, Tenants_GetBySlug. unfold answer.
    unfold mbind, SE_bind, asks. rewrite Hf. cbn [row_or_not_found]. unfold mret, SE_ret, of_result. cbn [cx_Principal]. rewrite Ha, Hid.
    reflexivity.
  - intros (-> & p & l' & req & Hd & Hb & Hx & Hk & Ht). apply (status_passed tn rq (ECreatePeer slug) s l p l'
      (WriteError (ESentinel ErrNotFound)) (s, l') Hr eq_refl Hd).
    cbn [behind]. unfold CreatePeer_handler. rewrite Hb. unfold answer. rewrite CreatePeer_run. unfold create_checks.
    rewrite !bool_decide_eq_false_2 by done. unfold Tenants_GetBySlug, mbind, SE_bind, asks.
    assert (find (fun t => bool_decide (t_Slug t = slug)) (st_tenants s) = None) as ->; [|reflexivity].
    clear -Ht. induction Ht as [|t ts Hn _ IH]; [done|]. cbn. by rewrite bool_decide_eq_false_2.
  - intros (-> & l' & Hd). by eapply status_refused.
Qed.

(** C15: (Where the document is wrong.) A readiness probe while the database does not answer is
    never replied to with the documented 503 but with the status of its error; creating a
    peer for an unknown tenant, by a request otherwise in order, is replied to with 404,
    asking for a peer of one's tenant or for an operation by something that is no UUID with
    422, and revoking beyond the rate with 429: none of these is documented for its
    operation.  And of the idempotency key, documented to have 8 to 128 characters, a
    create request only checks that it is not empty. *)
Theorem document_gaps tn rq e s l status :
  route (hr_Method rq) (hr_Path rq) = To e -> gap tn rq e s l status ->
  undocumented e (fst (serve tn rq (s, l))) status
  /\ (forall ctx slug key key' req s, key <> [] -> key' <> [] ->
       create_checks uuid_Parse ctx slug key req s = create_checks uuid_Parse ctx slug key' req s).
Proof using validator_errors.
  intros Hr Hg. split.
  - split; [by eapply gap_status|]. destruct e; cbn [gap] in Hg; try done.
    + destruct Hg as (err & _ & ->). pose proof (FromError_status err) as Hs. cbn. split; set_solver by lia.
    + destruct Hg as [-> _]. split; [apply (bool_decide_unpack _); reflexivity|done].
    + destruct Hg as [-> _]. split; [apply (bool_decide_unpack _); reflexivity|done].
    + destruct Hg as [-> _]. split; [apply (bool_decide_unpack _); reflexivity|done].
    + destruct Hg as [-> _]. split; [apply (bool_decide_unpack _); reflexivity|done].
  - intros ctx slug key key' req s0 Hk Hk'. unfold create_checks. case_bool_decide; [done|]. by rewrite !bool_decide_eq_false_2.
Qed.
End replies.

(** ** Concrete requests *)

#[local] Instance demo_bucket_class : Limiter TokenBucket := TokenBucket_Limiter (fun _ => 0).

Local Abbreviation demo_serve e ping :=
  (serve_http (L := TokenBucket) demo_uuid_Parse demo_uuid_String demo_hash demo_hash_revoke (fun r => r) demo_X25519 demo_service
     (fun _ => Some #"1970-01-01T00:00:00Z") (fun _ => None) (fun _ => #"bad json") (fun _ => 0) demo_token_check (fun _ _ => To e) None
     (mkTurn (ServiceFacts.demo_draws 100 9) 100 #"req-1" ping 5000000) (demo_http #"Bearer good")).

(** An empty bucket. *)
Definition drained_bucket : TokenBucket := NewTokenBucket 0 (f_of_int 0).

(** A probe without a database, a tenant that is not there, and an id that is no UUID. *)
Lemma document_gaps_witness :
  undocumented EHealthReady (fst (demo_serve EHealthReady (Err (EMsg #"no connection")) (demo_base, None))) 500
  /\ undocumented (ECreatePeer #"nobody") (fst (demo_serve (ECreatePeer #"nobody") (Ok tt) (demo_base, None))) 404
  /\ undocumented (EGetPeer #"acme" #"xyz") (fst (demo_serve (EGetPeer #"acme" #"xyz") (Ok tt) (demo_base, None))) 422
  /\ undocumented (ERevokePeer #"acme" #"10") (fst (demo_serve (ERevokePeer #"acme" #"10") (Ok tt) (demo_base, Some drained_bucket))) 429.
Proof.
  pose proof (fun e ping s l => document_gaps (L := TokenBucket) demo_uuid_Parse demo_uuid_String demo_hash demo_hash_revoke (fun r => r) demo_X25519
     demo_service (fun _ => Some #"1970-01-01T00:00:00Z") (fun _ => None) (fun _ => #"bad json") (fun _ => 0) demo_token_check (fun _ _ => To e) None
     demo_token_errors (mkTurn (ServiceFacts.demo_draws 100 9) 100 #"req-1" ping 5000000) (demo_http #"Bearer good") e s l) as H.
  split_and!.
  - apply (H EHealthReady (Err (EMsg #"no connection")) demo_base None 500 eq_refl). eexists. split; reflexivity.
  - apply (H (ECreatePeer #"nobody") (Ok tt) demo_base None 404 eq_refl). split; [reflexivity|].
    eexists _, _, _. split; [vm_compute; reflexivity|]. split; [vm_compute; reflexivity|].
    split; [vm_compute; discriminate|]. split; [vm_compute; discriminate|]. apply (bool_decide_unpack _). vm_compute. exact I.
  - apply (H (EGetPeer #"acme" #"xyz") (Ok tt) demo_base None 422 eq_refl). split; [reflexivity|]. split; [vm_compute; reflexivity|].
    eexists _, _, _. split; [vm_compute; reflexivity|]. split; vm_compute; reflexivity.
  - apply (H (ERevokePeer #"acme" #"10") (Ok tt) demo_base (Some drained_bucket) 429 eq_refl). split; [reflexivity|].
    eexists. vm_compute. reflexivity.
Defined.

Lemma demo_base_answered : answered demo_base.
Proof. intros k rec H. vm_compute in H. discriminate H. Qed.


Lemma access_log_line_witness :
  serve_log (L := TokenBucket) demo_uuid_Parse demo_uuid_String demo_hash demo_hash_revoke (fun r => r) demo_X25519 demo_service
     (fun _ => Some #"1970-01-01T00:00:00Z") (fun _ => None) (fun _ => #"bad json") (fun _ => 0) demo_token_check demo_route None
     demo_turn (demo_http #"Bearer good") (demo_base, None)
  = [HttpAccess #"POST" #"/v1/tenants/acme/peers/" 202 5000000 #"req-1"].
Proof.
  destruct (access_log_line (L := TokenBucket) demo_uuid_Parse demo_uuid_String demo_hash demo_hash_revoke (fun r => r) demo_X25519 demo_service
     (fun _ => Some #"1970-01-01T00:00:00Z") (fun _ => None) (fun _ => #"bad json") (fun _ => 0) demo_token_check demo_route None
     demo_turn (demo_http #"Bearer good") (ECreatePeer #"acme") demo_base None eq_refl ltac:(discriminate) demo_base_answered)
    as (r & w' & id & E & Hid & ->).
  assert (H : match fst (serve_http (L := TokenBucket) demo_uuid_Parse demo_uuid_String demo_hash demo_hash_revoke (fun r => r) demo_X25519
    demo_service (fun _ => Some #"1970-01-01T00:00:00Z") (fun _ => None) (fun _ => #"bad json") (fun _ => 0) demo_token_check demo_route None
    demo_turn (demo_http #"Bearer good") (demo_base, None)) with
    | Replied r => rp_Status r = 202 /\ rp_Header r !! #"X-Request-Id" = Some #"req-1" | Panicked _ => False end)
    by (vm_compute; split; reflexivity).
  rewrite E in H. cbn [fst] in H. destruct H as [-> H]. rewrite H in Hid. injection Hid as <-. reflexivity.
Defined.
