(* ===== verification/Worker.v ===== *)
(** * Worker: the durable-apply worker ([internal/outbox/worker.go])

    The worker claims outbox jobs, renders the desired configuration of a node
    from the store and drives any [Executor] to it, then records what the runtime
    reports.  Its state is the store and the executor's world.  The theorems are
    proved against the [Executor] interface and its laws. *)

From S2P Require Import Prelude GoStrings Strconv Sorting Errors Effects Files Profile Netip Ipam AwgConfig Render Executor FakeExecutor Store StoreFacts ServiceFacts.

(** ** Model *)

Record Worker : Type := mkWorker {
  wk_BootstrapConfigDir : bytes;
  wk_LeaseFor : Z }.

Definition peerPresharedKey (p : Peer) : bytes := default [] (p_PresharedKeyRef p).

Definition bootstrapConfigPath (w : Worker) (iface : bytes) : bytes :=
  let dir := if bool_decide (wk_BootstrapConfigDir w = []) then #"/etc/amnezia/bootstrap"
             else wk_BootstrapConfigDir w in
  path_Join dir (iface ++ #".conf").

Definition isMissingInterfaceError (err : error) : bool :=
  let msg := ToLower (err_Error err) in
  Contains msg #"interface not found" || Contains msg #"cannot find device"
  || Contains msg #"no such device" || Contains msg #"protocol not supported".

Definition classifyRetryable (err : error) : bool :=
  if errors_Is err ErrNotImplemented then false
  else if errors_Is err ErrCanceled || errors_Is err ErrDeadlineExceeded then true
  else
    let msg := err_Error err in
    negb (Contains msg #"validation" || Contains msg #"invalid").

(** The entry of one desired peer. *)
Definition peer_entry (p : Peer) : PeerEntry :=
  mkPeerEntry (p_PublicKey p) (peerPresharedKey p) [Prefix_String (p_AllowedIP p)] [] 0 (p_DisplayName p).

(** The loop that builds [entries]. *)
Definition desired_entries (peers : list Peer) : list PeerEntry :=
  peer_entry <$> filter (fun p => p_State p <> PeerRevoked) peers.

(** The server config of a node. *)
Definition node_config (node : Node) (profile : ProtocolProfile) (peers : list Peer) : bytes :=
  Server (mkInterface [] [] (n_BasePort node) 0 [] [] []) profile (desired_entries peers).

(** [byPub] *)
Definition by_pub (runtime : list PeerRuntime) : gmap bytes PeerRuntime :=
  fold_left (fun m r => <[pr_PublicKey r := r]> m) runtime ∅.

(** The zero value a missing map entry yields. *)
Definition zero_runtime : PeerRuntime := mkPeerRuntime [] [] [] [] None 0 0 0 [].

(** The upserted [peer_runtime] row: an absent handshake keeps the old one. *)
Definition runtime_row (now : Z) (rt : PeerRuntime) (present : bool) (old : option RuntimeRow) : RuntimeRow :=
  mkRuntimeRow
    (match pr_LastHandshake rt with
     | Some t => Some (t * 10 ^ 9)
     | None => old ≫= rr_LastHandshakeAt
     end)
    (pr_RxBytes rt) (pr_TxBytes rt) present (Some now) (pr_Endpoint rt).

Definition upsert_runtime (now : Z) (p : Peer) (rt : option PeerRuntime) : SE Store unit :=
  ref ← asks (fun s => has_id p_ID (st_peers s) (p_ID p));
  check ref (fk_violation #"peer_runtime") ;;
  modify (set_runtime (fun m =>
    <[p_ID p := runtime_row now (default zero_runtime rt) (bool_decide (is_Some rt)) (m !! p_ID p)]> m)).

(** The body of the loop of [persistRuntime]. *)
Definition persist_peer (now : Z) (byPub : gmap bytes PeerRuntime) (p : Peer) : SE Store unit :=
  upsert_runtime now p (byPub !! p_PublicKey p) ;;
  Peers_MarkApplied (p_ID p) (p_DesiredRevision p) now.

Fixpoint persist_all (now : Z) (byPub : gmap bytes PeerRuntime) (desired : list Peer) : SE Store unit :=
  match desired with
  | [] => mret tt
  | p :: desired => persist_peer now byPub p ;; persist_all now byPub desired
  end.

(** A transaction on the store alone. *)
Definition tx (m : SE Store unit) : SE Store unit :=
  fun s => match m s with (Ok _, s') => (Ok tt, s') | (Err e, _) => (Err e, s) end.

Definition persistRuntime (now : Z) (desired : list Peer) (runtime : list PeerRuntime) : SE Store unit :=
  tx (persist_all now (by_pub runtime) desired).

Section worker.
Context {W : Type} {EX : Executor W}.
(** [uuid.UUID.String] and [strconv.Quote] *)
Context (uuid_String : uuid -> bytes) (Quote : bytes -> bytes).
Context (wk : Worker).

(** What the worker runs on: the store and the executor's world. *)
Abbreviation WM := (SE (Store * W)).

(** A database call; under a done context it fails. *)
Definition on_db {A} (ctx : context) (m : SE Store A) : WM A :=
  fun '(s, w) => match ctx with
                 | Some e => (Err e, (s, w))
                 | None => let '(r, s') := m s in (r, (s', w))
                 end.

Definition on_exec {A} (m : W -> result error A * W) : WM A :=
  fun '(s, w) => let '(r, w') := m w in (r, (s, w')).

Definition preserveRuntimePrivateKey (ctx : context) (iface cfg : bytes) : WM bytes :=
  if negb (bool_decide (InterfaceValue cfg #"PrivateKey" = [])) then mret cfg
  else
    fun st => match on_exec (ShowConf ctx iface) st with
              | (Err _, st') => (Ok cfg, st')
              | (Ok current, st') => (Ok (PreserveInterfacePrivateKey cfg current), st')
              end.

(** [SyncConf] and the retry after a missing interface was brought up. *)
Definition sync_node (ctx : context) (iface cfg : bytes) : WM unit :=
  fun st =>
    match on_exec (SyncConf ctx iface cfg) st with
    | (Ok _, st) => (Ok tt, st)
    | (Err err, st) =>
        if negb (isMissingInterfaceError err) then (Err err, st)
        else
          match on_exec (InterfaceUp ctx iface (bootstrapConfigPath wk iface)) st with
          | (Err upErr, st) =>
              (Err (EWrap #"bring interface up after syncconf failed: " upErr
                      (#" (syncconf: " ++ err_Error err ++ #")")), st)
          | (Ok _, st) =>
              (cfg ← preserveRuntimePrivateKey ctx iface cfg;
               on_exec (SyncConf ctx iface cfg)) st
          end
    end.

Definition mismatch (node : Node) (got : bytes) : error :=
  EMsg (#"runtime public key mismatch for " ++ n_InterfaceName node ++ #": got " ++ Quote got
          ++ #" want " ++ Quote (n_ServerPublicKey node)).

Definition applyNode (ctx : context) (now : Z) (nodeID : uuid) : WM unit :=
  node ← on_db ctx (Nodes_GetByID nodeID);
  peers ← on_db ctx (ListByNodeIncludingRevoked nodeID);
  match n_ProfileID node with
  | None =>
      if bool_decide (peers = []) then mret tt
      else fail (EMsg (#"node " ++ uuid_String (n_ID node) ++ #" has peers but no protocol profile assigned"))
  | Some pid =>
      profile ← on_db ctx (Profiles_GetByID pid);
      cfg ← preserveRuntimePrivateKey ctx (n_InterfaceName node) (node_config node profile peers);
      sync_node ctx (n_InterfaceName node) cfg ;;
      dump ← on_exec (ShowDump ctx (n_InterfaceName node));
      let '(iface, runtimePeers) := dump in
      if negb (bool_decide (n_ServerPublicKey node = []))
         && negb (bool_decide (ir_PublicKey iface = n_ServerPublicKey node))
      then fail (mismatch node (ir_PublicKey iface))
      else on_db ctx (persistRuntime now peers runtimePeers)
  end.

Definition Reconcile := applyNode.

(** A call whose error is only logged or ignored. *)
Definition ignore {A} (m : WM A) : Store * W -> Store * W := fun st => snd (m st).

Definition processJob (ctx : context) (now : Z) (job : Job) : Store * W -> Store * W :=
  fun st =>
    match applyNode ctx now (j_NodeID job) st with
    | (Err err, st) =>
        let retryable := classifyRetryable err in
        let st := ignore (on_db ctx (Outbox_Fail (j_ID job) (err_Error err) retryable now)) st in
        match j_OperationID job with
        | Some op => ignore (on_db ctx (Operations_MarkFailed op #"apply_failed" (err_Error err) retryable now)) st
        | None => st
        end
    | (Ok _, st) =>
        match on_db ctx (Outbox_Complete (j_ID job) now) st with
        | (Err _, st) => st
        | (Ok _, st) =>
            match j_OperationID job with
            | Some op => ignore (on_db ctx (Operations_MarkApplied op now)) st
            | None => st
            end
        end
    end.

(** [LeaseFor], 30s when it is zero. *)
Definition lease_for : Z := if wk_LeaseFor wk =? 0 then 30 * 10 ^ 9 else wk_LeaseFor wk.

Definition RunOnce (ctx : context) (now : Z) : WM bool :=
  fun st =>
    match on_db ctx (ClaimNext now lease_for) st with
    | (Err e, st) => (Err e, st)
    | (Ok None, st) => (Ok false, st)
    | (Ok (Some job), st) => (Ok true, processJob ctx now job st)
    end.

(** The loop of [Run], over the context and the time each turn sees: [Some e] is
    the value it returns, [None] means it is still polling. *)
Fixpoint Run (turns : list (context * Z)) (st : Store * W) : option error * (Store * W) :=
  match turns with
  | [] => (None, st)
  | (Some e, _) :: _ => (Some e, st)
  | (None, now) :: turns =>
      match on_db None (ClaimNext now lease_for) st with
      | (Ok (Some job), st) => Run turns (processJob None now job st)
      | (_, st) => Run turns st
      end
  end.

(** [errors.Join]: nothing joined is no error. *)
Fixpoint errors_Join (l : list error) : option error :=
  match l with
  | [] => None
  | e :: l => match errors_Join l with None => Some e | Some e' => Some (EJoin e e') end
  end.

Fixpoint reconcile_nodes (ctx : context) (now : Z) (ids : list uuid) (st : Store * W)
    : list error * (Store * W) :=
  match ids with
  | [] => ([], st)
  | id :: ids =>
      let '(r, st) := Reconcile ctx now id st in
      let '(joined, st) := reconcile_nodes ctx now ids st in
      (match r with Ok _ => joined | Err err => EWrap (#"node " ++ uuid_String id ++ #": ") err [] :: joined end, st)
  end.

Definition host_less (a b : Node) : bool := bytes_ltb (n_Hostname a) (n_Hostname b).

Definition ReconcileAll (ctx : context) (now : Z) : WM unit :=
  fun st =>
    match on_db ctx (asks (fun s => n_ID <$> sort_Slice host_less (st_nodes s))) st with
    | (Err e, st) => (Err e, st)
    | (Ok ids, st) =>
        let '(joined, st) := reconcile_nodes ctx now ids st in
        (match errors_Join joined with None => Ok tt | Some e => Err e end, st)
    end.
End worker.
