(* ===== verification/WorkerFacts.v ===== *)
(** * WorkerFacts: what the worker guarantees

    Convergence of a node's runtime to the desired state, what is recorded of it,
    the outcome of a job, and the invariant of the whole system: requests and
    worker steps in any order. *)

From S2P Require Import Prelude GoStrings Strconv Sorting Errors Effects Files Profile Netip Ipam AwgConfig Render Executor FakeExecutor Store StoreFacts Service ServiceFacts Worker.

(** ** Recording the runtime *)

Lemma by_pub_fold (l : list PeerRuntime) (m : gmap bytes PeerRuntime) k :
  is_Some (fold_left (fun m r => <[pr_PublicKey r := r]> m) l m !! k)
  <-> k ∈ pr_PublicKey <$> l \/ is_Some (m !! k).
Proof.
  revert m. induction l as [|r l IH]; intros m; cbn [fold_left].
  - rewrite fmap_nil, elem_of_nil. tauto.
  - rewrite IH, fmap_cons, elem_of_cons.
    destruct (decide (k = pr_PublicKey r)) as [->|Hne].
    + rewrite lookup_insert_eq. split; [auto|]. intros _. right. by eexists.
    + rewrite lookup_insert_ne by done. tauto.
Qed.

Lemma by_pub_spec (l : list PeerRuntime) k : is_Some (by_pub l !! k) <-> k ∈ pr_PublicKey <$> l.
Proof. unfold by_pub. rewrite by_pub_fold, lookup_empty. split; [intros [?|[? ?]]; done|auto]. Qed.

(** The store after [persist_all]. *)
Definition apply_to (now : Z) (l : list Peer) (q : Peer) : Peer :=
  match find_id p_ID l (p_ID q) with Some p => apply_row (p_DesiredRevision p) now q | None => q end.

Definition runtime_after (now : Z) (byPub : gmap bytes PeerRuntime) (l : list Peer) (m : gmap uuid RuntimeRow) (id : uuid)
    : option RuntimeRow :=
  match find_id p_ID l id with
  | Some p => let rt := byPub !! p_PublicKey p in
              Some (runtime_row now (default zero_runtime rt) (bool_decide (is_Some rt)) (m !! id))
  | None => m !! id
  end.

Lemma find_id_cons {A} (id : A -> uuid) a l x :
  find_id id (a :: l) x = if (id a =? x)%N then Some a else find_id id l x.
Proof. done. Qed.

Lemma find_id_absent {A} (id : A -> uuid) l x : x ∉ id <$> l -> find_id id l x = None.
Proof.
  intros H. destruct (find_id id l x) as [a|] eqn:E; [|done]. apply find_id_Some in E as [Hin <-].
  exfalso. apply H. by apply list_elem_of_fmap_2.
Qed.

Lemma persist_all_spec now byPub l s :
  NoDup (p_ID <$> l) -> Forall (fun p => has_id p_ID (st_peers s) (p_ID p) = true) l ->
  exists m, persist_all now byPub l s
    = (Ok tt, set_runtime (fun _ => m) (set_peers (fmap (apply_to now l)) s))
  /\ forall id, m !! id = runtime_after now byPub l (st_runtime s) id.
Proof.
  revert s. induction l as [|p l IH]; intros s Hd Hin.
  - exists (st_runtime s). split; [|done]. unfold persist_all. destruct s. unfold set_runtime, set_peers. simpl.
    do 2 f_equal. symmetry. apply list_fmap_id.
  - rewrite fmap_cons in Hd. apply NoDup_cons in Hd as [Hp Hd]. inversion_clear Hin as [|? ? Hp' Hin'].
    cbn [persist_all]. unfold persist_peer, upsert_runtime.
    set (rt := byPub !! p_PublicKey p).
    set (s1 := set_peers (update_id p_ID (p_ID p) (apply_row (p_DesiredRevision p) now))
                 (set_runtime (fun m => <[p_ID p := runtime_row now (default zero_runtime rt)
                                            (bool_decide (is_Some rt)) (m !! p_ID p)]> m) s)).
    destruct (IH s1 Hd) as (m & Hm & Hspec).
    { eapply Forall_impl; [exact Hin'|]. intros q Hq. simpl.
      rewrite (has_id_fmap p_ID _ (st_peers s)); [done|]. by apply fmap_update_id. }
    exists m. split.
    + unfold mbind, SE_bind. unfold asks, check. rewrite Hp'. unfold modify, Peers_MarkApplied, modify. simpl.
      fold s1. rewrite Hm. unfold set_runtime, set_peers. simpl. do 2 f_equal. unfold update_id.
      rewrite <- list_fmap_compose. apply list_fmap_ext. intros i q _. simpl. unfold apply_to.
      rewrite find_id_cons, (N.eqb_sym (p_ID p)). destruct (p_ID q =? p_ID p)%N eqn:E; [|done].
      apply N.eqb_eq in E. cbn [p_ID apply_row]. rewrite E. by rewrite find_id_absent.
    + intros id. rewrite Hspec. unfold runtime_after. rewrite find_id_cons. cbn [st_runtime set_peers set_runtime s1].
      destruct (p_ID p =? id)%N eqn:E.
      * apply N.eqb_eq in E. subst id. rewrite find_id_absent by done. by rewrite lookup_insert_eq.
      * apply N.eqb_neq in E. by rewrite lookup_insert_ne.
Qed.

(** ** The desired peers of a node *)

Lemma insert_peer_perm p l : insert_peer p l ≡ₚ p :: l.
Proof.
  induction l as [|q l IH]; [done|]. simpl. destruct (bytes_ltb _ _); [|done]. rewrite IH. apply perm_swap.
Qed.

Lemma order_by_key_perm l : order_by_key l ≡ₚ l.
Proof. induction l as [|p l IH]; [done|]. simpl. by rewrite insert_peer_perm, IH. Qed.

(** The rows [ListByNodeIncludingRevoked] returns. *)
Definition node_peers (nodeID : uuid) (s : Store) : list Peer :=
  scanPeer <$> order_by_key (filter (fun p => p_NodeID p = nodeID) (st_peers s)).

Lemma scan_ok p : peer_ok p -> scanPeer p = p.
Proof. intros (_ & _ & Hip & _). destruct p. unfold scanPeer. simpl in *. by rewrite <- Hip. Qed.

Section store.
Context (s : Store) (Hs : store_ok s).

Lemma peer_row_ok q : q ∈ st_peers s -> peer_ok q.
Proof. intros Hq. pose proof (so_peers _ Hs) as H. by eapply (Forall_forall _ _) in H. Qed.

Lemma node_peers_elem nodeID p : p ∈ node_peers nodeID s <-> p ∈ st_peers s /\ p_NodeID p = nodeID.
Proof.
  unfold node_peers. rewrite list_elem_of_fmap. setoid_rewrite order_by_key_perm.
  setoid_rewrite list_elem_of_filter. split.
  - intros (q & -> & Hn & Hq). rewrite scan_ok by (by apply peer_row_ok). done.
  - intros [Hp Hn]. exists p. by rewrite scan_ok by (by apply peer_row_ok).
Qed.

Lemma peer_ids_unique : NoDup (p_ID <$> st_peers s).
Proof.
  pose proof (so_distinct _ Hs) as Hd. revert Hd. generalize (st_peers s). clear Hs.
  induction 1 as [|p l Hp Hd IH]; [constructor|]. rewrite fmap_cons. constructor; [|done].
  intros Hin. apply list_elem_of_fmap in Hin as (q & He & Hq). eapply (Forall_forall _ _) in Hp; [|exact Hq].
  unfold apart, peer_conflicts in Hp. by rewrite He, N.eqb_refl in Hp.
Qed.

Lemma node_peers_ids nodeID : NoDup (p_ID <$> node_peers nodeID s).
Proof.
  unfold node_peers. rewrite <- list_fmap_compose. change (p_ID ∘ scanPeer) with p_ID. rewrite order_by_key_perm.
  pose proof peer_ids_unique as H. revert H. induction (st_peers s) as [|p l IH]; [done|].
  rewrite fmap_cons, filter_cons. intros [Hn Hd]%NoDup_cons. case_decide; [|by apply IH].
  rewrite fmap_cons. constructor; [|by apply IH]. intros Hin. apply Hn.
  apply list_elem_of_fmap in Hin as (q & -> & Hq). apply list_elem_of_filter in Hq as [_ Hq].
  by apply list_elem_of_fmap_2.
Qed.

Lemma find_node_peer nodeID q :
  q ∈ st_peers s -> find_id p_ID (node_peers nodeID s) (p_ID q) = if decide (p_NodeID q = nodeID) then Some q else None.
Proof.
  intros Hq. destruct (find_id _ _ _) as [p|] eqn:E.
  - apply find_id_Some in E as [Hp He]. apply node_peers_elem in Hp as [Hp Hn].
    assert (p = q) as -> by (by apply (unique_id p_ID (st_peers s)); [apply peer_ids_unique|..]).
    by rewrite decide_True.
  - case_decide as Hn; [|done]. exfalso. unfold find_id in E.
    eapply find_none in E; [|apply list_elem_of_In, node_peers_elem; by split].
    simpl in E. by rewrite N.eqb_refl in E.
Qed.
End store.

(** ** One application *)

(** The stored texts that the server config of a node shows fit their lines (see
    [comment_injects_peer] for what a display name with a line break does), its
    public keys are ASCII and its interface name is one the executors accept. *)
Definition printable_row (p : Peer) : Prop :=
  (line_ok (p_PublicKey p) /\ key_text (p_PublicKey p)) /\ opt_value_ok (peerPresharedKey p) /\ (nl ∉ p_DisplayName p).

#[export] Instance printable_row_dec p : Decision (printable_row p).
Proof. unfold printable_row. apply _. Defined.

Definition printable_peers (nodeID : uuid) (s : Store) : Prop :=
  Forall (fun p => p_NodeID p = nodeID -> printable_row p) (st_peers s)
  /\ Forall (fun n => n_ID n = nodeID -> ValidInterfaceName (n_InterfaceName n) = true) (st_nodes s).

Lemma printable_peers_all s :
  Forall printable_row (st_peers s) -> Forall (fun n => ValidInterfaceName (n_InterfaceName n) = true) (st_nodes s) ->
  forall nodeID, printable_peers nodeID s.
Proof. intros H1 H2 nodeID. split; (eapply Forall_impl; [eassumption|]); auto. Qed.

Lemma printable_entries s nodeID :
  store_ok s -> printable_peers nodeID s ->
  Forall (fun e => printable_peer e /\ key_text (pe_PublicKey e)) (desired_entries (node_peers nodeID s)).
Proof.
  intros Hs [Hp _]. apply Forall_fmap, Forall_forall. intros p Hin. apply list_elem_of_filter in Hin as [_ Hin].
  apply node_peers_elem in Hin as [Hin Hn]; [|done]. pose proof (peer_row_ok s Hs p Hin) as (_ & Hpo & _ & _).
  eapply (Forall_forall _ _) in Hp; [|exact Hin]. destruct (Hp Hn) as ((H1 & H1') & H2 & H3).
  unfold printable_peer, compose, peer_entry. simpl. split_and!; try done.
  - repeat (constructor; [done || by left|]). constructor.
  - destruct (Prefix_String_item _ Hpo) as (? & ? & ?). by constructor.
Qed.

Section worker.
Context {W : Type} {EX : Executor W} {EL : ExecutorLaws W}.
Context (uuid_String : uuid -> bytes) (Quote : bytes -> bytes) (wk : Worker).

Local Abbreviation applyNode' := (applyNode uuid_String Quote wk).

Lemma on_db_run {A} (m : SE Store A) s (w : W) : on_db None m (s, w) = let '(r, s') := m s in (r, (s', w)).
Proof. done. Qed.

Lemma preserve_inv ctx iface cfg s w :
  exists cfg' w', preserveRuntimePrivateKey ctx iface cfg (s, w) = (Ok cfg', (s, w'))
    /\ forall base, carried base cfg -> carried base cfg'.
Proof.
  unfold preserveRuntimePrivateKey. destruct (negb _); [by exists cfg, w|]. unfold on_exec.
  destruct (ShowConf ctx iface w) as [[current|e] w']; [|by exists cfg, w'].
  exists (PreserveInterfacePrivateKey cfg current), w'. split; [done|]. intros base Hb. by constructor.
Qed.

Lemma sync_node_inv ctx iface cfg s w r st :
  sync_node wk ctx iface cfg (s, w) = (r, st) ->
  fst st = s /\ (r = Ok tt -> exists cfg' w1, (forall base, carried base cfg -> carried base cfg')
                                /\ SyncConf ctx iface cfg' w1 = (Ok tt, snd st)).
Proof.
  unfold sync_node, on_exec. destruct (SyncConf ctx iface cfg w) as [[[]|e] w1] eqn:E1.
  { intros [= <- <-]. split; [done|]. intros _. by exists cfg, w. }
  destruct (negb _); [by intros [= <- <-]|]. destruct (InterfaceUp ctx iface _ w1) as [[[]|e2] w2];
    [|by intros [= <- <-]].
  destruct (preserve_inv ctx iface cfg s w2) as (cfg' & w3 & Hp & Hc). rewrite (bind_ok _ _ _ _ _ Hp).
  destruct (SyncConf ctx iface cfg' w3) as [[[]|e3] w4] eqn:E2; intros [= <- <-]; [|done].
  split; [done|]. intros _. by exists cfg', w3.
Qed.

(** Every outcome of an application. *)
Lemma applyNode_inv ctx now nodeID s w r s' w' :
  applyNode' ctx now nodeID (s, w) = (r, (s', w')) ->
  (s' = s /\ (r = Ok tt -> exists node, find_id n_ID (st_nodes s) nodeID = Some node
                            /\ n_ProfileID node = None /\ node_peers nodeID s = []))
  \/ exists node pid row cfg w1 w2 ir ps,
       r = Ok tt /\ ctx = None /\ find_id n_ID (st_nodes s) nodeID = Some node /\ n_ProfileID node = Some pid
       /\ find_id pw_id (st_profiles s) pid = Some row
       /\ carried (node_config node (scanProfile row) (node_peers nodeID s)) cfg
       /\ SyncConf ctx (n_InterfaceName node) cfg w1 = (Ok tt, w2)
       /\ ShowDump ctx (n_InterfaceName node) w2 = (Ok (ir, ps), w')
       /\ (n_ServerPublicKey node = [] \/ ir_PublicKey ir = n_ServerPublicKey node)
       /\ persistRuntime now (node_peers nodeID s) ps s = (Ok tt, s').
Proof.
  intros H. unfold applyNode in H. destruct ctx as [e|].
  { unfold mbind, SE_bind, on_db in H. injection H as <- <- <-. by left. }
  unfold mbind at 1, SE_bind at 1 in H. rewrite on_db_run in H. unfold Nodes_GetByID in H. rewrite asks_bind in H.
  destruct (find_id n_ID (st_nodes s) nodeID) as [node|] eqn:En; [|injection H as <- <- <-; by left].
  cbn [row_or_not_found mret SE_ret] in H.
  unfold mbind at 1, SE_bind at 1 in H. rewrite on_db_run in H. unfold ListByNodeIncludingRevoked, asks in H.
  fold (node_peers nodeID s) in H. destruct (n_ProfileID node) as [pid|] eqn:Ep.
  2:{ case_bool_decide; injection H as <- <- <-; left; [|done]. split; [done|]. intros _. by exists node. }
  unfold mbind at 1, SE_bind at 1 in H. rewrite on_db_run in H. unfold Profiles_GetByID in H. rewrite asks_bind in H.
  destruct (find_id pw_id (st_profiles s) pid) as [row|] eqn:Er; [|injection H as <- <- <-; by left].
  cbn [row_or_not_found] in H. change ((scanProfile <$> (mret row : SE Store ProfileRow)) s) with (@Ok error _ (scanProfile row), s) in H.
  cbv iota beta in H.
  destruct (preserve_inv None (n_InterfaceName node) (node_config node (scanProfile row) (node_peers nodeID s)) s w)
    as (cfg & w1 & Hpr & Hc). rewrite (bind_ok _ _ _ _ _ Hpr) in H.
  unfold mbind at 1, SE_bind at 1 in H.
  destruct (sync_node wk None (n_InterfaceName node) cfg (s, w1)) as [rs [s2 w2]] eqn:Es.
  apply sync_node_inv in Es as [Hs2 Hok]. simpl in Hs2, Hok. subst s2.
  destruct rs as [[]|e]; [|injection H as <- <- <-; by left]. destruct (Hok eq_refl) as (cfg' & w0 & Hc' & Hsync).
  unfold mbind at 1, SE_bind at 1 in H. unfold on_exec at 1 in H.
  destruct (ShowDump None (n_InterfaceName node) w2) as [[[ir ps]|e] w3] eqn:Ed; [|injection H as <- <- <-; by left].
  destruct (negb _ && negb _) eqn:Ek; [injection H as <- <- <-; by left|]. rewrite on_db_run in H.
  destruct (persistRuntime now (node_peers nodeID s) ps s) as [[[]|e] s3] eqn:Epe.
  - injection H as <- <- <-. right. exists node, pid, row, cfg', w0, w2, ir, ps. split_and!; try done.
    + apply Hc', Hc. constructor.
    + apply andb_false_iff in Ek as [Ek|Ek]; apply negb_false_iff, bool_decide_eq_true in Ek; auto.
  - injection H as <- <- <-. left. split; [|done]. unfold persistRuntime, tx in Epe.
    destruct (persist_all _ _ _ s) as [[?|?] ?]; [done|]. by injection Epe.
Qed.

(** The keys a node's runtime should have. *)
Definition live_key (nodeID : uuid) (s : Store) (k : bytes) : Prop :=
  exists q, q ∈ st_peers s /\ p_NodeID q = nodeID /\ p_State q <> PeerRevoked /\ p_PublicKey q = k.

Lemma desired_keys nodeID s k :
  store_ok s -> k ∈ pe_PublicKey <$> desired_entries (node_peers nodeID s) <-> live_key nodeID s k.
Proof.
  intros Hs. unfold desired_entries. rewrite <- list_fmap_compose, list_elem_of_fmap. unfold live_key. split.
  - intros (q & -> & Hq). apply list_elem_of_filter in Hq as [Hst Hq]. apply node_peers_elem in Hq as [Hq Hn]; [|done].
    by exists q.
  - intros (q & Hq & Hn & Hst & <-). exists q. split; [done|]. apply list_elem_of_filter. split; [done|].
    by apply node_peers_elem.
Qed.

(** Only a live peer of the node has a live key of the node. *)
Lemma live_key_peer nodeID s q :
  store_ok s -> q ∈ st_peers s -> p_NodeID q = nodeID ->
  live_key nodeID s (p_PublicKey q) <-> p_State q <> PeerRevoked.
Proof.
  intros Hs Hq Hn. split; [|intros Hst; by exists q]. intros (p & Hp & Hpn & Hst & Hk).
  assert (p = q) as ->; [|done]. apply (distinct_eq (st_peers s)); [apply Hs|done|done|].
  unfold peer_conflicts. rewrite Hpn, Hn, N.eqb_refl, Hk, (bool_decide_eq_true_2 (p_PublicKey q = _)) by done.
  apply orb_true_r.
Qed.

Definition applied_peers (now : Z) (nodeID : uuid) (l : list Peer) : list Peer :=
  (fun q => if decide (p_NodeID q = nodeID) then apply_row (p_DesiredRevision q) now q else q) <$> l.

Lemma persistRuntime_spec now nodeID s ps :
  store_ok s ->
  exists m, persistRuntime now (node_peers nodeID s) ps s
            = (Ok tt, set_runtime (fun _ => m) (set_peers (applied_peers now nodeID) s))
    /\ forall q, q ∈ st_peers s ->
         m !! p_ID q = if decide (p_NodeID q = nodeID)
                       then let rt := by_pub ps !! p_PublicKey q in
                            Some (runtime_row now (default zero_runtime rt) (bool_decide (is_Some rt)) (st_runtime s !! p_ID q))
                       else st_runtime s !! p_ID q.
Proof.
  intros Hs. destruct (persist_all_spec now (by_pub ps) (node_peers nodeID s) s) as (m & Hm & Hspec).
  - by apply node_peers_ids.
  - apply Forall_forall. intros p Hp. apply node_peers_elem in Hp as [Hp _]; [|done]. apply has_id_spec. by exists p.
  - exists m. split.
    + unfold persistRuntime, tx. rewrite Hm. do 2 f_equal. unfold set_peers. f_equal.
      apply list_fmap_ext. intros i q Hq%list_elem_of_lookup_2. unfold apply_to. rewrite find_node_peer by done.
      by case_decide.
    + intros q Hq. rewrite Hspec. unfold runtime_after. rewrite find_node_peer by done. by case_decide.
Qed.

Lemma applied_peers_ok now nodeID s m :
  store_ok s -> store_ok (set_runtime (fun _ => m) (set_peers (applied_peers now nodeID) s)).
Proof.
  intros Hs. pose proof (fun q Hq => peer_row_ok s Hs q Hq) as Hrow. destruct Hs as [H1 H2 H3 H4 H5 H6 H7 H8].
  constructor; try done; cbn [st_peers set_peers set_runtime].
  - apply FOP_fmap; [|done]. intros x y. unfold apart. intros Hxy.
    rewrite (peer_conflicts_key _ _ x y); [done|..]; by case_decide.
  - apply Forall_fmap, Forall_forall. intros q Hq. simpl. case_decide; [|by apply Hrow].
    apply apply_row_ok; [done|by apply Hrow].
  - apply Forall_fmap, Forall_forall. intros q Hq. simpl.
    eapply (Forall_forall _ _) in H3; [|exact Hq]. by case_decide.
Qed.

Lemma applied_peers_node now nodeID s :
  store_ok s ->
  Forall (fun p => p_NodeID p = nodeID -> p_AppliedRevision p = p_DesiredRevision p /\ p_State p <> PeerPending)
    (applied_peers now nodeID (st_peers s)).
Proof.
  intros Hs. apply Forall_fmap, Forall_forall. intros q Hq. simpl. case_decide; [|done]. intros _.
  destruct (peer_row_ok s Hs q Hq) as ([? ?] & _). cbn [p_AppliedRevision p_DesiredRevision p_State apply_row].
  split; [lia|]. by case_bool_decide.
Qed.

Lemma applied_peers_none now nodeID s : store_ok s -> node_peers nodeID s = [] -> applied_peers now nodeID (st_peers s) = st_peers s.
Proof.
  intros Hs He. unfold applied_peers. rewrite <- (list_fmap_id (st_peers s)) at 2. apply list_fmap_ext.
  intros i q Hq%list_elem_of_lookup_2. rewrite decide_False; [done|]. intros Hn.
  assert (q ∈ node_peers nodeID s) as Hin by (by apply node_peers_elem). rewrite He in Hin. by apply elem_of_nil in Hin.
Qed.

(** What a successful application establishes. *)
Record converged (ctx : context) (now : Z) (nodeID : uuid) (s s' : Store) (w' : W) : Prop := {
  cv_peers : st_peers s' = applied_peers now nodeID (st_peers s);
  cv_applied : Forall (fun p => p_NodeID p = nodeID -> p_AppliedRevision p = p_DesiredRevision p /\ p_State p <> PeerPending)
                 (st_peers s');
  cv_present q : q ∈ st_peers s -> p_NodeID q = nodeID ->
    exists row, st_runtime s' !! p_ID q = Some row /\ rr_RuntimePresent row = bool_decide (p_State q <> PeerRevoked);
  cv_others q : q ∈ st_peers s -> p_NodeID q <> nodeID -> st_runtime s' !! p_ID q = st_runtime s !! p_ID q;
  cv_frame : exists m, s' = set_runtime (fun _ => m) (set_peers (fun _ => st_peers s') s);
  cv_store_ok : store_ok s';
  cv_dump q : q ∈ st_peers s -> p_NodeID q = nodeID ->
    exists node ir ps w2, find_id n_ID (st_nodes s) nodeID = Some node
      /\ ShowDump ctx (n_InterfaceName node) w2 = (Ok (ir, ps), w')
      /\ forall k, k ∈ pr_PublicKey <$> ps <-> live_key nodeID s k }.

Lemma applyNode_converged ctx now nodeID s w s' w' :
  store_ok s -> printable_peers nodeID s -> Forall (fun r => printable_profile (scanProfile r)) (st_profiles s) ->
  applyNode' ctx now nodeID (s, w) = (Ok tt, (s', w')) -> converged ctx now nodeID s s' w'.
Proof.
  intros Hs Hpp Hpf H. apply applyNode_inv in H as [[-> Hnone]|H].
  - destruct (Hnone eq_refl) as (node & Hn & Hp & He). pose proof (applied_peers_node now nodeID s Hs) as Hap.
    assert (Habs : forall q, q ∈ st_peers s -> p_NodeID q = nodeID -> False).
    { intros q Hq Hqn. assert (q ∈ node_peers nodeID s) as Hin by (by apply node_peers_elem). rewrite He in Hin.
      by apply elem_of_nil in Hin. }
    rewrite applied_peers_none in Hap by done. constructor; rewrite ?applied_peers_none by done; try done.
    + intros q Hq Hqn. by destruct (Habs q).
    + exists (st_runtime s). by destruct s.
    + intros q Hq Hqn. by destruct (Habs q).
  - destruct H as (node & pid & row & cfg & w1 & w2 & ir & ps & _ & -> & Hn & Hp & Hr & Hc & Hsync & Hdump & _ & Hper).
    destruct (persistRuntime_spec now nodeID s ps Hs) as (m & Hm & Hrt). rewrite Hm in Hper. injection Hper as <-.
    assert (Hkeys : forall k, k ∈ pr_PublicKey <$> ps <-> live_key nodeID s k).
    { pose proof (printable_entries s nodeID Hs Hpp) as He. apply Forall_and in He as [He1 He2].
      edestruct (SyncConf_dump (W := W) None None (n_InterfaceName node) (mkInterface [] [] (n_BasePort node) 0 [] [] [])
                  (scanProfile row) (desired_entries (node_peers nodeID s)) cfg) as [Hset _]; [|..|exact Hsync|exact Hdump|].
      - apply find_id_Some in Hn as [Hn He]. destruct Hpp as [_ Hnames]. eapply Forall_forall in Hnames; [|exact Hn]. auto.
      - apply (bool_decide_unpack _). by vm_compute.
      - apply find_id_Some in Hr as [Hr _]. by eapply (Forall_forall _ _) in Hpf.
      - done.
      - done.
      - done.
      - intros k. rewrite <- (elem_of_list_to_set (C := gset bytes)), Hset, <- desired_keys by done.
        by rewrite elem_of_list_to_set. }
    constructor; try done.
    + by apply applied_peers_node.
    + intros q Hq Hqn. cbn [st_runtime set_runtime]. rewrite Hrt, decide_True by done. eexists. split; [done|].
      cbn [rr_RuntimePresent runtime_row]. apply bool_decide_ext. rewrite by_pub_spec, Hkeys. by apply live_key_peer.
    + intros q Hq Hqn. cbn [st_runtime set_runtime]. by rewrite Hrt, decide_False.
    + by exists m.
    + by apply applied_peers_ok.
    + intros q _ _. by exists node, ir, ps, w2.
Qed.

(** C2: (Convergence.) Suppose the texts a node's config is rendered from fit their lines:
    no line break in a display name, a preshared key or a junk text, visible ASCII keys,
    an acceptable interface name.  When the worker's application of the node succeeds and
    it has peers, the runtime's last dump lists exactly the public keys of those that are
    not revoked; every peer of the node, revoked or not, has its applied revision
    equal to its desired one and is no longer pending, and its runtime row says it
    is present exactly when it is not revoked; the peers and runtime rows of other
    nodes and every other table are unchanged, and the store invariant holds.
    Proved for any executor that keeps the interface's laws. *)
Theorem applyNode_converges ctx now nodeID s w s' w' :
  store_ok s -> printable_peers nodeID s -> Forall (fun r => printable_profile (scanProfile r)) (st_profiles s) ->
  applyNode' ctx now nodeID (s, w) = (Ok tt, (s', w')) ->
  converged ctx now nodeID s s' w'.
Proof. exact (applyNode_converged ctx now nodeID s w s' w'). Qed.

(** (Failed application.) Whatever fails while a node is applied - the
    context, a read, the runtime, the public-key check, the recording - the store
    is left exactly as it was: no revision is marked applied and no runtime row
    changes. *)
Theorem applyNode_failure ctx now nodeID s w e s' w' :
  applyNode uuid_String Quote wk ctx now nodeID (s, w) = (Err e, (s', w')) -> s' = s.
Proof.
  intros H. apply applyNode_inv in H as [[-> _]|H]; [done|]. by destruct H as (? & ? & ? & ? & ? & ? & ? & ? & [=] & _).
Qed.

(** *** Applications that overlap with requests *)

(** (Stale applications are harmless.) The rows are read before the runtime
    is driven and recorded in a later transaction, so requests may have run in
    between.  If since the snapshot peers were only added or had their desired
    revision raised, recording the snapshot succeeds and keeps the store invariant,
    a peer whose desired revision was raised since (a revocation) keeps an applied
    revision below it, so it is still due, and a peer added since is not touched. *)
Theorem persistRuntime_stale now l ps s s' r :
  store_ok s -> NoDup (p_ID <$> l) ->
  Forall (fun p => exists q, q ∈ st_peers s /\ p_ID q = p_ID p /\ p_DesiredRevision p <= p_DesiredRevision q) l ->
  persistRuntime now l ps s = (r, s') ->
  r = Ok tt /\ store_ok s'
  /\ (forall q p, q ∈ st_peers s -> p ∈ l -> p_ID p = p_ID q -> p_DesiredRevision p < p_DesiredRevision q ->
        p_AppliedRevision q < p_DesiredRevision q ->
        exists q', q' ∈ st_peers s' /\ p_ID q' = p_ID q /\ p_DesiredRevision q' = p_DesiredRevision q
                   /\ p_AppliedRevision q' < p_DesiredRevision q')
  /\ (forall q, q ∈ st_peers s -> p_ID q ∉ p_ID <$> l -> q ∈ st_peers s').
Proof.
  intros Hs Hd Hl H. destruct (persist_all_spec now (by_pub ps) l s Hd) as (m & Hm & _).
  { eapply Forall_impl; [exact Hl|]. intros p (q & Hq & He & _). apply has_id_spec. by exists q. }
  unfold persistRuntime, tx in H. rewrite Hm in H. injection H as <- <-. split; [done|].
  cbn [st_peers set_peers set_runtime]. split_and!.
  - pose proof (fun q Hq => peer_row_ok s Hs q Hq) as Hrow. pose proof (peer_ids_unique s Hs) as Hu.
    destruct Hs as [H1 H2 H3 H4 H5 H6 H7 H8]. constructor; try done; cbn [st_peers set_peers set_runtime].
    + apply FOP_fmap; [|done]. intros x y. unfold apart, apply_to. intros Hxy.
      rewrite (peer_conflicts_key _ _ x y); [done|..]; by case_match.
    + apply Forall_fmap, Forall_forall. intros q Hq. simpl. unfold apply_to.
      destruct (find_id p_ID l (p_ID q)) as [p|] eqn:Ef; [|by apply Hrow]. apply apply_row_ok; [|by apply Hrow].
      apply find_id_Some in Ef as [Hp He]. eapply (Forall_forall _ _) in Hl; [|exact Hp].
      destruct Hl as (q' & Hq' & He' & Hle). assert (q' = q) as <- by (apply (unique_id p_ID (st_peers s)); congruence).
      done.
    + apply Forall_fmap, Forall_forall. intros q Hq. simpl. eapply (Forall_forall _ _) in H3; [|exact Hq].
      unfold apply_to. by case_match.
  - intros q p Hq Hp He Hlt Hap. exists (apply_to now l q). split; [by apply list_elem_of_fmap_2|].
    unfold apply_to. destruct (find_id p_ID l (p_ID q)) as [p'|] eqn:Ef; [|done].
    apply find_id_Some in Ef as [Hp' He']. assert (p' = p) as -> by (apply (unique_id p_ID l); congruence).
    cbn [p_ID p_DesiredRevision p_AppliedRevision apply_row]. split_and!; [done|done|lia].
  - intros q Hq Hn. apply list_elem_of_fmap. exists q. split; [|done]. unfold apply_to. by rewrite find_id_absent.
Qed.

(** ** Jobs *)

Lemma preserves_applyNode ctx now nodeID s w r s' w' :
  store_ok s -> applyNode' ctx now nodeID (s, w) = (r, (s', w')) -> store_ok s'.
Proof.
  intros Hs H. apply applyNode_inv in H as [[-> _]|H]; [done|].
  destruct H as (node & pid & row & cfg & w1 & w2 & ir & ps & _ & _ & _ & _ & _ & _ & _ & _ & _ & Hper).
  destruct (persistRuntime_spec now nodeID s ps Hs) as (m & Hm & _). rewrite Hm in Hper. injection Hper as <-.
  by apply applied_peers_ok.
Qed.

Lemma on_db_preserves {A} ctx (m : SE Store A) (st : Store * W) :
  preserves m -> store_ok (fst st) -> store_ok (fst (snd (on_db ctx m st))).
Proof.
  intros Hm. destruct st as [s w]. intros Hs. specialize (Hm s Hs). unfold on_db. destruct ctx; [done|].
  by destruct (m s).
Qed.

Lemma processJob_ok ctx now job st :
  store_ok (fst st) -> store_ok (fst (processJob uuid_String Quote wk ctx now job st)).
Proof.
  destruct st as [s w]. intros Hs. unfold processJob.
  destruct (applyNode' ctx now (j_NodeID job) (s, w)) as [[[]|e] [s1 w1]] eqn:E;
    apply preserves_applyNode in E; try done; cbv zeta.
  - pose proof (on_db_preserves ctx (Outbox_Complete (j_ID job) now) (s1, w1)) as H1.
    destruct (on_db ctx (Outbox_Complete (j_ID job) now) (s1, w1)) as [[?|?] st2]; simpl in H1.
    + destruct (j_OperationID job); [|apply H1; [by apply preserves_set_job|done]].
      apply on_db_preserves; [by apply preserves_set_op|]. apply H1; [by apply preserves_set_job|done].
    + apply H1; [by apply preserves_set_job|done].
  - assert (store_ok (fst (snd (on_db ctx (Outbox_Fail (j_ID job) (err_Error e) (classifyRetryable e) now) (s1, w1)))))
      by (apply on_db_preserves; [by apply preserves_set_job|done]).
    destruct (j_OperationID job); [|done]. apply on_db_preserves; [by apply preserves_set_op|done].
Qed.

Lemma RunOnce_ok ctx now st : store_ok (fst st) -> store_ok (fst (snd (RunOnce uuid_String Quote wk ctx now st))).
Proof.
  intros Hs. unfold RunOnce.
  pose proof (on_db_preserves ctx (ClaimNext now (lease_for wk)) st (preserves_ClaimNext _ _) Hs) as H.
  destruct (on_db ctx _ st) as [[[job|]|e] st1]; simpl in *; try done. by apply processJob_ok.
Qed.

Lemma reconcile_nodes_ok ctx now ids st :
  store_ok (fst st) -> store_ok (fst (snd (reconcile_nodes uuid_String Quote wk ctx now ids st))).
Proof.
  revert st. induction ids as [|id ids IH]; intros [s w] Hs; [done|]. cbn [reconcile_nodes].
  unfold Reconcile. destruct (applyNode' ctx now id (s, w)) as [r [s1 w1]] eqn:E.
  apply preserves_applyNode in E; [|done]. specialize (IH (s1, w1) E).
  by destruct (reconcile_nodes _ _ _ _ _ ids (s1, w1)).
Qed.

(** The job as it is left by a turn: done, or failed with the error's text. *)
Definition settled_status (r : result error unit) : JobStatus * OperationStatus :=
  match r with
  | Ok _ => (JobApplied, OpApplied)
  | Err e => if classifyRetryable e then (JobFailedRetryable, OpRetrying) else (JobFailedTerminal, OpFailed)
  end.

Definition settled_job (now : Z) (r : result error unit) : OutboxRow -> OutboxRow :=
  set_job_status (fst (settled_status r)) (match r with Ok _ => None | Err e => Some (err_Error e) end) now.

Definition settled_op (now : Z) (r : result error unit) : Operation -> Operation :=
  set_op_status (snd (settled_status r)) (match r with Ok _ => None | Err _ => Some #"apply_failed" end)
    (match r with Ok _ => None | Err e => Some (err_Error e) end) now.

Definition settle (now : Z) (job : Job) (r : result error unit) (s : Store) : Store :=
  let s := set_outbox (update_id ob_ID (j_ID job) (settled_job now r)) s in
  match j_OperationID job with
  | Some op => set_operations (update_id o_ID op (settled_op now r)) s
  | None => s
  end.

Lemma processJob_settles now job s w r s1 w1 :
  applyNode' None now (j_NodeID job) (s, w) = (r, (s1, w1)) ->
  processJob uuid_String Quote wk None now job (s, w) = (settle now job r s1, w1).
Proof.
  intros E. unfold processJob. rewrite E. unfold settle, settled_job, settled_op.
  destruct r as [[]|e]; [by destruct (j_OperationID job)|]. cbv zeta. unfold ignore, Outbox_Fail, Operations_MarkFailed.
  cbn [settled_status]. by destruct (classifyRetryable e), (j_OperationID job).
Qed.

(** What one turn of the worker does. *)
Lemma RunOnce_run now s w :
  RunOnce uuid_String Quote wk None now (s, w) =
  match next_job now s with
  | None => (Ok false, (s, w))
  | Some row =>
      let job := ob_Job (lease_row now (lease_for wk) row) in
      let s0 := set_outbox (update_id ob_ID (ob_ID row) (lease_row now (lease_for wk))) s in
      let '(r, (s1, w1)) := applyNode' None now (j_NodeID (ob_Job row)) (s0, w) in
      (Ok true, (settle now job r s1, w1))
  end.
Proof.
  unfold RunOnce. rewrite on_db_run, ClaimNext_run. destruct (next_job now s) as [row|]; [|done].
  cbv zeta. destruct (applyNode' None now (j_NodeID (ob_Job row)) _) as [r [s1 w1]] eqn:E.
  by rewrite (processJob_settles _ _ _ _ r s1 w1).
Qed.

(** The tables an application may change. *)
Lemma applyNode_frame ctx now nodeID s w r s' w' :
  store_ok s -> applyNode' ctx now nodeID (s, w) = (r, (s', w')) ->
  exists m l, s' = set_runtime (fun _ => m) (set_peers (fun _ => l) s).
Proof.
  intros Hs H. apply applyNode_inv in H as [[-> _]|H].
  - exists (st_runtime s), (st_peers s). by destruct s.
  - destruct H as (node & pid & row & cfg & w1 & w2 & ir & ps & _ & _ & _ & _ & _ & _ & _ & _ & _ & Hper).
    destruct (persistRuntime_spec now nodeID s ps Hs) as (m & Hm & _). rewrite Hm in Hper. injection Hper as <-.
    by exists m, (applied_peers now nodeID (st_peers s)).
Qed.

(** (Every claimed job is settled.) One turn of the worker either finds no
    claimable job and changes nothing, or takes a claimable job and leaves it
    applied, failed for retry or failed for good, never leased; the job's
    operation gets the matching status and, on failure, the error; nothing else of
    the queue and of the operations changes, and when the application failed no
    peer or runtime row changed either.  The invariant holds in every case. *)
Theorem RunOnce_settles now s w b s' w' :
  store_ok s -> RunOnce uuid_String Quote wk None now (s, w) = (Ok b, (s', w')) ->
  store_ok s' /\
  if b then
    exists row r, row ∈ st_outbox s /\ claimable now row = true
      /\ (fst (settled_status r) <> JobLeased /\ fst (settled_status r) <> JobPending)
      /\ st_outbox s' = update_id ob_ID (ob_ID row)
           (fun q => settled_job now r (lease_row now (lease_for wk) q)) (st_outbox s)
      /\ st_operations s' = match j_OperationID (ob_Job row) with
                            | Some op => update_id o_ID op (settled_op now r) (st_operations s)
                            | None => st_operations s
                            end
      /\ (r <> Ok tt -> st_peers s' = st_peers s /\ st_runtime s' = st_runtime s)
  else s' = s /\ w' = w /\ Forall (fun r => claimable now r = false) (st_outbox s).
Proof.
  intros Hs H. pose proof (RunOnce_ok None now (s, w) Hs) as Hok. rewrite H in Hok. split; [done|].
  rewrite RunOnce_run in H. destruct (next_job now s) as [row|] eqn:Ej.
  2:{ injection H as <- <- <-. by rewrite <- next_job_None. }
  cbv zeta in H. apply next_job_spec in Ej as (Hin & Hc & _).
  set (s0 := set_outbox _ s) in H.
  assert (Hs0 : store_ok s0).
  { pose proof (preserves_set_job (ob_ID row) (lease_row now (lease_for wk))) as Hp. by apply Hp. }
  destruct (applyNode' None now (j_NodeID (ob_Job row)) (s0, w)) as [r [s1 w1]] eqn:Ea.
  injection H as <- <- <-. exists row, r. pose proof (applyNode_frame _ _ _ _ _ _ _ _ Hs0 Ea) as (m & l & Hfr).
  split; [done|]. split; [done|]. split; [destruct r as [?|e]; [done|]; simpl; by destruct (classifyRetryable e)|].
  assert (Hcomp : forall f g : OutboxRow -> OutboxRow, (forall q, ob_ID (g q) = ob_ID q) ->
    update_id ob_ID (ob_ID row) f (update_id ob_ID (ob_ID row) g (st_outbox s))
    = update_id ob_ID (ob_ID row) (fun q => f (g q)) (st_outbox s)).
  { intros f g Hg. unfold update_id. rewrite <- list_fmap_compose. apply list_fmap_ext. intros i q _. simpl.
    destruct (ob_ID q =? ob_ID row)%N eqn:E; [by rewrite Hg, E|by rewrite E]. }
  split_and!.
  - subst s1. unfold settle. cbn [j_OperationID ob_Job lease_row].
    destruct (j_OperationID (ob_Job row));
      exact (Hcomp (settled_job now r) (lease_row now (lease_for wk)) (fun _ => eq_refl)).
  - subst s1. unfold settle. cbn [j_OperationID ob_Job lease_row]. by destruct (j_OperationID (ob_Job row)).
  - intros Hr. destruct r as [[]|e]; [done|]. apply applyNode_inv in Ea as [[-> _]|Ea];
      [|by destruct Ea as (? & ? & ? & ? & ? & ? & ? & ? & [=] & _)].
    unfold settle. by destruct (j_OperationID _).
Qed.
End worker.

(** ** A concrete run with the in-memory host *)

#[export] Instance demo_exec : Executor FakeExecutor := FakeExecutor_Executor (fun _ => None).
#[export] Instance demo_laws : ExecutorLaws FakeExecutor := FakeExecutor_Laws (fun _ => None).

Definition demo_worker : Worker := mkWorker [] 0.
Definition demo_world : FakeExecutor := Provision #"awg0" #"priv=" #"srv=" 51820 NewFakeExecutor.

Local Abbreviation demo_apply := (applyNode demo_uuid_String (fun b => b) demo_worker None 200 2).

Lemma demo_live_ok : store_ok demo_live.
Proof. apply preserves_AllocateAndInsert, demo_base_ok. Qed.

Lemma applyNode_converges_witness :
  let st := snd (demo_apply (demo_live, demo_world)) in
  store_ok (fst st)
  /\ st_peers (fst st) = [apply_row 1 200 (new_peer 10 5 demo_params (A4 0x0a080002))].
Proof.
  intros st.
  assert (H : converged None 200 2 demo_live (fst st) (snd st)).
  { apply (applyNode_converges demo_uuid_String (fun b => b) demo_worker None 200 2 demo_live demo_world).
    - exact demo_live_ok.
    - apply printable_peers_all; apply (bool_decide_unpack _); vm_compute; exact I.
    - apply (bool_decide_unpack _). vm_compute. exact I.
    - vm_compute. reflexivity. }
  split; [exact (cv_store_ok _ _ _ _ _ _ H)|]. rewrite (cv_peers _ _ _ _ _ _ H). vm_compute. reflexivity.
Defined.

Lemma applyNode_failure_witness :
  fst (snd (demo_apply (demo_live, mkFake ∅ ∅ None None None None None (Some (EMsg #"down"))))) = demo_live.
Proof.
  eapply (applyNode_failure demo_uuid_String (fun b => b) demo_worker None 200 2 demo_live
            (mkFake ∅ ∅ None None None None None (Some (EMsg #"down")))).
  vm_compute. reflexivity.
Defined.

Definition demo_peer_row : Peer := new_peer 10 5 demo_params (A4 0x0a080002).
Lemma demo_live_peers : st_peers demo_live = [demo_peer_row].
Proof. vm_compute. reflexivity. Qed.
Lemma demo_revoked_peers : st_peers demo_revoked = [revoke_row 6 6 demo_peer_row].
Proof. vm_compute. reflexivity. Qed.

(** A revocation between the read and the recording. *)
Lemma persistRuntime_stale_witness :
  let s' := snd (persistRuntime 200 (st_peers demo_live) [] demo_revoked) in
  exists q, q ∈ st_peers s' /\ p_AppliedRevision q < p_DesiredRevision q.
Proof.
  intros s'.
  destruct (persistRuntime_stale 200 (st_peers demo_live) [] demo_revoked s'
              (fst (persistRuntime 200 (st_peers demo_live) [] demo_revoked))) as (_ & _ & H & _).
  - apply preserves_MarkRevoked, demo_live_ok.
  - apply (bool_decide_unpack _). vm_compute. exact I.
  - rewrite demo_live_peers, demo_revoked_peers. constructor; [|constructor]. exists (revoke_row 6 6 demo_peer_row).
    split; [constructor|]. split; [reflexivity|]. vm_compute. discriminate.
  - vm_compute. reflexivity.
  - destruct (H (revoke_row 6 6 demo_peer_row) demo_peer_row) as (q & Hq & _ & _ & Hlt).
    + rewrite demo_revoked_peers. constructor.
    + rewrite demo_live_peers. constructor.
    + reflexivity.
    + vm_compute. reflexivity.
    + vm_compute. reflexivity.
    + exists q. split; [exact Hq|exact Hlt].
Defined.

Lemma RunOnce_settles_witness :
  store_ok (fst (snd (RunOnce demo_uuid_String (fun b => b) demo_worker None 200 (demo_queue, demo_world)))).
Proof.
  destruct (RunOnce_settles demo_uuid_String (fun b => b) demo_worker 200 demo_queue demo_world true
    (fst (snd (RunOnce demo_uuid_String (fun b => b) demo_worker None 200 (demo_queue, demo_world))))
    (snd (snd (RunOnce demo_uuid_String (fun b => b) demo_worker None 200 (demo_queue, demo_world))))) as [H _].
  - exact demo_queue_ok.
  - vm_compute. reflexivity.
  - exact H.
Defined.
