(* ===== verification/RemoteWorker.v ===== *)
(** * RemoteWorker: the worker driving a node through its agent

    The composition of [Worker] with [RemoteExecutor]: convergence carries over
    from any lawful local executor, the private key never leaves the node, and the
    errors the worker acts on keep their meaning on the way back. *)

From S2P Require Import Prelude GoStrings Strconv Json Sorting Errors Effects Files Profile AwgConfig Render Executor Dump FakeExecutor NodeAgent Redact NodeAgentFacts Store StoreFacts ServiceFacts Worker WorkerFacts.

Section remote.
Context {W : Type} {EX : Executor W} {EL : ExecutorLaws W}.
Context (time_text : option Z -> option bytes) (time_parse : bytes -> option (option Z)) (json_error : bytes -> bytes).
Context (route : bytes -> bytes -> result Response (pattern * list bytes)) (Hroute : routes_as_sent route).
Context (Quote : bytes -> bytes) (BaseURL : bytes) (uuid_String : uuid -> bytes) (wk : Worker).

#[local] Instance remote_exec : Executor (RemoteWorld W) :=
  RemoteExecutor time_text time_parse json_error route Quote BaseURL.
#[local] Instance remote_laws : ExecutorLaws (RemoteWorld W) :=
  RemoteExecutor_Laws time_text time_parse json_error route Hroute Quote BaseURL.

(** A worker that drives its node through the agent converges. *)
Lemma remote_worker_converges ctx now nodeID s (w : RemoteWorld W) s' w' :
  store_ok s -> printable_peers nodeID s -> Forall (fun r => printable_profile (scanProfile r)) (st_profiles s) ->
  applyNode uuid_String Quote wk ctx now nodeID (s, w) = (Ok tt, (s', w')) -> converged ctx now nodeID s s' w'.
Proof. apply applyNode_converged. Qed.

Lemma remote_ShowConf_redacted ctx iface (w w' : RemoteWorld W) current :
  ValidInterfaceName iface = true -> ShowConf ctx iface w = (Ok current, w') ->
  exists conf, current = redactConfigSecrets conf.
Proof.
  intros Hv H. cbn [ShowConf remote_exec RemoteExecutor] in H.
  assert (ctx = None /\ delivers w) as [-> Hd].
  { unfold remote_ShowConf in H. destruct (do _ _ _ _ _ ctx _ w) as [[r|e] w1] eqn:E; [|done]. by eapply do_ok. }
  rewrite remote_ShowConf_run in H by done. unfold across, map_ok in H.
  destruct (ShowConf None iface (rw_host w)) as [[conf|e] h]; simplify_eq/=. by exists conf.
Qed.

(** What the worker sends is what it rendered. *)
Lemma remote_preserve ctx iface cfg s (w : RemoteWorld W) :
  ValidInterfaceName iface = true ->
  exists w', preserveRuntimePrivateKey ctx iface cfg (s, w) = (Ok cfg, (s, w')).
Proof.
  intros Hv. unfold preserveRuntimePrivateKey. destruct (negb _); [by exists w|]. unfold on_exec.
  destruct (ShowConf ctx iface w) as [[current|e] w'] eqn:E; [|by exists w']. exists w'.
  apply remote_ShowConf_redacted in E as [conf ->]; [|done]. by rewrite Preserve_redacted.
Qed.

(** (The private key stays on its node.) A worker that applies a node through
    its agent sends exactly the config it rendered, since what the agent shows it
    is redacted; the agent then has its host apply a config whose private key is
    the one the host runs with and whose other interface keys are the rendered
    ones, and the worker sees the host's answer. *)
Theorem remote_key_handover ctx node profile peers s (w : RemoteWorld W) :
  let iface := n_InterfaceName node in
  let cfg := node_config node profile peers in
  ValidInterfaceName iface = true -> printable_profile profile -> Forall printable_peer (desired_entries peers) ->
  exists w1, preserveRuntimePrivateKey ctx iface cfg (s, w) = (Ok cfg, (s, w1))
  /\ forall current h, delivers w1 -> ShowConf None iface (rw_host w1) = (Ok current, h) ->
     line_ok (InterfaceValue current #"PrivateKey") ->
     EqualFold (InterfaceValue current #"PrivateKey") #"(redacted)" = false ->
     exists c', InterfaceValue c' #"PrivateKey" = InterfaceValue current #"PrivateKey"
       /\ (forall key, ToLower (TrimSpace key) <> #"privatekey" -> InterfaceValue c' key = InterfaceValue cfg key)
       /\ SyncConf None iface cfg w1
          = across (request #"POST" p_syncconf [iface] cfg) (SyncConf None iface c' h) (tail (rw_net w1)).
Proof.
  intros iface cfg Hv Hp Hps. destruct (remote_preserve ctx iface cfg s w Hv) as [w1 Hw1].
  exists w1. split; [exact Hw1|]. intros current h Hd Hs Hl Hr.
  assert (Hi : printable_interface (mkInterface [] [] (n_BasePort node) 0 [] [] [])) by (apply (bool_decide_unpack _); by vm_compute).
  assert (Hsec : well_sectioned cfg) by (by apply Server_well_sectioned).
  assert (Hno : InterfaceValue cfg #"PrivateKey" = []).
  { unfold cfg, node_config. rewrite InterfaceValue_Server by done.
    change (ToLower (TrimSpace #"PrivateKey")) with #"privatekey". by rewrite PrivateKey_absent. }
  assert (Hk : key_ok #"PrivateKey") by (apply (bool_decide_unpack _); by vm_compute).
  set (c' := PreserveInterfacePrivateKey cfg current).
  assert (Hc : c' = WithInterfaceValue cfg #"PrivateKey" (InterfaceValue current #"PrivateKey")).
  { unfold c', PreserveInterfacePrivateKey. by rewrite TrimSpace_solid, Hr by apply Hl. }
  exists c'. rewrite Hc. split_and!.
  - by rewrite InterfaceValue_patched by done.
  - intros key Hkey. rewrite InterfaceValue_patched by done. rewrite bool_decide_eq_false_2; [done|].
    change (ToLower #"PrivateKey") with #"privatekey". congruence.
  - cbn [SyncConf remote_exec RemoteExecutor]. rewrite remote_SyncConf_run by done.
    unfold agent_sync. rewrite Hs. fold c'. by rewrite <- Hc.
Qed.
End remote.

(** ** Errors on their way back *)

Lemma Contains_spec s sub : Contains s sub = true <-> exists a b, s = a ++ sub ++ b.
Proof.
  assert (Hp : forall p t, HasPrefix t p = true <-> exists b, t = p ++ b).
  { induction p as [|x p IH]; intros t.
    - destruct t; split; try done; intros _; by eexists.
    - destruct t as [|y t]; cbn [HasPrefix].
      { split; [done|]. by intros [b [=]]. }
      rewrite andb_true_iff, ascii_eqb_true, IH. split.
      + intros [-> [b ->]]. by exists b.
      + intros [b [= -> ->]]. split; [done|]. by exists b. }
  induction s as [|c s IH]; cbn [Contains]; rewrite orb_true_iff, Hp.
  - split; [|intros (a & b & E)]; [|left; destruct a; [by exists b|done]].
    intros [[b E]|?]; [by exists [], b|done].
  - rewrite IH. split.
    + intros [[b ->]|(a & b & ->)]; [by exists [], b|by exists (c :: a), b].
    + intros ([|d a] & b & E); [left; by exists b|right]. injection E as _ ->. by exists a, b.
Qed.

Lemma ToLower_cons c s : code c < 128 -> ToLower (c :: s) = lower_byte c :: ToLower s.
Proof.
  intros Hc. assert ((code c =? 0xC4) = false /\ (code c =? 0xE2) = false) as [H1 H2] by lia.
  destruct s as [|d [|e s]]; [done| |]; cbn [ToLower]; rewrite ?H1, ?H2; done.
Qed.

Lemma ToLower_ascii s : ascii_text s -> ToLower s = lower_byte <$> s.
Proof. induction 1 as [|c s Hc _ IH]; [done|]. by rewrite ToLower_cons, IH. Qed.

Lemma lower_byte_solid c : solid_byte (lower_byte c) -> solid_byte c.
Proof. destruct c as [[] [] [] [] [] [] [] []]; vm_compute; intuition congruence. Qed.

Lemma fmap_app_inv {A B} (f : A -> B) l a b : f <$> l = a ++ b -> exists a' b', l = a' ++ b' /\ f <$> a' = a /\ f <$> b' = b.
Proof.
  revert a. induction l as [|x l IH]; intros [|y a] E; cbn in E; simplify_eq.
  - by exists [], [].
  - by exists [], (x :: l).
  - destruct (IH a) as (a' & b' & -> & <- & <-); [done|]. by exists (x :: a'), b'.
Qed.

(** A phrase with printable ends survives trimming. *)
Lemma phrase_trimmed s sub :
  solid sub -> (exists a b, lower_byte <$> s = a ++ sub ++ b) -> exists a b, lower_byte <$> TrimSpace s = a ++ sub ++ b.
Proof.
  intros Hsub (a & b & E). apply fmap_app_inv in E as (a' & r & -> & _ & E).
  apply fmap_app_inv in E as (m & b' & -> & Em & _).
  destruct (solid_cases sub Hsub) as (x & [[-> Hx]|(y & mid & -> & Hx & Hy)]).
  - destruct m as [|x' [|? ?]]; simplify_eq/=. apply lower_byte_solid in Hx.
    rewrite TrimSpace_around by done. exists (lower_byte <$> trim_left a'), (lower_byte <$> trim_right b').
    by rewrite fmap_app.
  - destruct m as [|x' m]; [done|]. injection Em as <- Em. apply fmap_app_inv in Em as (m1 & m2 & -> & <- & Hm2).
    destruct m2 as [|y' [|? ?]]; try done. injection Hm2 as <-. apply lower_byte_solid in Hx, Hy.
    unfold TrimSpace. cbn [app]. rewrite trim_left_solid by done.
    assert (trim_left a' ++ x' :: (m1 ++ [y']) ++ b' = (trim_left a' ++ x' :: m1) ++ y' :: b') as ->
      by (by rewrite <- !app_assoc).
    rewrite trim_right_solid by done. exists (lower_byte <$> trim_left a'), (lower_byte <$> trim_right b').
    rewrite !fmap_app. cbn. by rewrite <- !app_assoc.
Qed.

Lemma agent_error_phrase rq e sub :
  solid sub -> ascii_text (err_Error e) -> (exists a b, lower_byte <$> err_Error e = a ++ sub ++ b) ->
  exists a b, lower_byte <$> err_Error (agent_error rq e) = a ++ sub ++ b.
Proof.
  intros Hsub Ha H. apply (phrase_trimmed _ _ Hsub) in H as (a & b & H). unfold agent_error. cbn [err_Error].
  rewrite valid_text_ascii by done. rewrite !app_assoc, fmap_app, H.
  eexists _, b. by rewrite (app_assoc _ a).
Qed.

Lemma missing_phrases s :
  ascii_text s ->
  Contains (ToLower s) #"interface not found" || Contains (ToLower s) #"cannot find device"
  || Contains (ToLower s) #"no such device" || Contains (ToLower s) #"protocol not supported" = true
  <-> exists sub, sub ∈ [ #"interface not found"; #"cannot find device"; #"no such device"; #"protocol not supported" ]
        /\ exists a b, lower_byte <$> s = a ++ sub ++ b.
Proof.
  intros Hs. rewrite ToLower_ascii by done. rewrite !orb_true_iff, !Contains_spec. split.
  - intros [[[H|H]|H]|H]; eexists; (split; [|exact H]); set_solver.
  - intros (sub & Hin & H). rewrite !elem_of_cons, elem_of_nil in Hin.
    destruct Hin as [->|[->|[->|[->|[]]]]]; auto.
Qed.

Ltac literal_ascii :=
  lazymatch goal with |- Forall _ (list_ascii_of_string _) => apply (bool_decide_unpack _); by vm_compute end.

Lemma agent_error_ascii m p args body e :
  ascii_text (err_Error e) -> ascii_text m -> ascii_text (path_of p args) ->
  ascii_text (err_Error (agent_error (request m p args body) e)).
Proof.
  intros He Hm Hp. unfold agent_error, ascii_text. cbn [err_Error rq_Method rq_Path request].
  rewrite !Forall_app. split_and!; try done; try literal_ascii.
  rewrite valid_text_ascii by done. apply Forall_forall. intros c Hc. apply TrimSpace_incl in Hc.
  by eapply Forall_forall in He.
Qed.

Lemma path_ascii iface : ValidInterfaceName iface = true -> ascii_text (path_of p_syncconf [iface]).
Proof.
  intros Hv. cbn [path_of p_syncconf iface_route app]. unfold ascii_text.
  repeat first [rewrite Forall_cons | rewrite Forall_app]. split_and!; try literal_ascii; try (by vm_compute); try constructor.
  destruct (ValidInterfaceName_safe iface Hv) as (_ & _ & _ & _ & _ & H).
  eapply Forall_impl; [exact H|]. unfold solid_byte. intros. lia.
Qed.

(** (A missing interface is still recognised through the agent.) When the
    host's [SyncConf] fails because its interface does not exist, the text of the
    error that comes back over HTTP makes the worker see the same, so that it has
    the agent bring the interface up and tries again with the bootstrap path,
    exactly as with a local executor. *)
Theorem remote_missing_interface {W} {EX : Executor W} time_text time_parse json_error route Quote BaseURL wk iface cfg s
    (w : RemoteWorld W) e h :
  let RX := RemoteExecutor time_text time_parse json_error route Quote BaseURL in
  routes_as_sent route -> ValidInterfaceName iface = true -> delivers w ->
  agent_sync None iface cfg (rw_host w) = (Err e, h) ->
  ascii_text (err_Error e) -> isMissingInterfaceError e = true -> InterfaceValue cfg #"PrivateKey" = [] ->
  let w1 := mkRemote h (tail (rw_net w)) in
  let err := agent_error (request #"POST" p_syncconf [iface] cfg) e in
  @sync_node _ RX wk None iface cfg (s, w)
  = match @InterfaceUp _ RX None iface (bootstrapConfigPath wk iface) w1 with
    | (Err upErr, w2) =>
        (Err (EWrap #"bring interface up after syncconf failed: " upErr (#" (syncconf: " ++ err_Error err ++ #")")), (s, w2))
    | (Ok _, w2) =>
        match @ShowConf _ RX None iface w2 with
        | (_, w3) => let '(r, w4) := @SyncConf _ RX None iface cfg w3 in (r, (s, w4))
        end
    end.
Proof.
  intros RX Hr Hv Hd Hs Ha Hm Hk w1 err. unfold sync_node, on_exec.
  cbn [SyncConf RX RemoteExecutor]. rewrite remote_SyncConf_run by done. unfold across. rewrite Hs. cbn [fst snd].
  fold err w1. assert (isMissingInterfaceError err = true) as ->.
  { unfold isMissingInterfaceError in *.
    apply missing_phrases; [apply agent_error_ascii; [done|apply (bool_decide_unpack _); by vm_compute|by apply path_ascii]|].
    apply missing_phrases in Hm as (sub & Hin & H); [|done]. exists sub. split; [done|].
    apply agent_error_phrase; [|done..]. rewrite !elem_of_cons, elem_of_nil in Hin.
    destruct Hin as [->|[->|[->|[->|[]]]]]; apply solidb_solid; by vm_compute. }
  cbn [negb]. destruct (InterfaceUp None iface (bootstrapConfigPath wk iface) w1) as [[u|upErr] w2]; [|done].
  unfold mbind, SE_bind, preserveRuntimePrivateKey. rewrite Hk. rewrite bool_decide_eq_true_2 by done. cbn [negb].
  unfold on_exec. destruct (ShowConf None iface w2) as [[current|e'] w3] eqn:Ec; [|done].
  apply remote_ShowConf_redacted in Ec as [conf ->]; [|done..]. by rewrite Preserve_redacted.
Qed.

(** ** Witnesses *)

#[local] Instance demo_host : Executor FakeExecutor := FakeExecutor_Executor (fun _ => None).
#[local] Instance demo_host_laws : ExecutorLaws FakeExecutor := FakeExecutor_Laws (fun _ => None).

Definition demo_missing : RemoteWorld FakeExecutor :=
  mkRemote (snd (fake_InterfaceDown None #"awg0" (rw_host demo_remote))) [].

Lemma remote_missing_interface_witness :
  fst (@sync_node _ (RemoteExecutor demo_time_text demo_time_parse (fun b => b) segment_route (fun b => b) #"https://node")
         demo_worker None #"awg0" (node_config demo_node demo_profile []) (demo_live, demo_missing)) = Ok tt.
Proof.
  rewrite (remote_missing_interface demo_time_text demo_time_parse (fun b => b) segment_route (fun b => b) #"https://node"
             demo_worker #"awg0" (node_config demo_node demo_profile []) demo_live demo_missing
             (not_found #"awg0") (rw_host demo_missing)).
  - vm_compute. reflexivity.
  - exact segment_route_sent.
  - vm_compute. reflexivity.
  - reflexivity.
  - vm_compute. reflexivity.
  - apply (bool_decide_unpack _). vm_compute. exact I.
  - vm_compute. reflexivity.
  - vm_compute. reflexivity.
Defined.

Lemma remote_key_handover_witness :
  exists w1, @preserveRuntimePrivateKey _
    (RemoteExecutor demo_time_text demo_time_parse (fun b => b) segment_route (fun b => b) #"https://node")
    None #"awg0" (node_config demo_node demo_profile []) (demo_live, demo_remote)
  = (Ok (node_config demo_node demo_profile []), (demo_live, w1)).
Proof.
  destruct (remote_key_handover demo_time_text demo_time_parse (fun b => b) segment_route segment_route_sent
              (fun b => b) #"https://node" None demo_node demo_profile [] demo_live demo_remote) as (w1 & H & _).
  - vm_compute. reflexivity.
  - apply (bool_decide_unpack _). vm_compute. exact I.
  - constructor.
  - exists w1. exact H.
Defined.
