(* ===== verification/Production.v ===== *)
(** * Production: the whole path from the database to the kernel

    The worker drives a node through the agent's HTTP protocol, the agent the
    command-line executor, the executor amneziawg-tools.  Each layer was proved
    against the interface of the next; here they are put together. *)

From S2P Require Import Prelude GoStrings Strconv Json Sorting Errors Effects Files Profile Netip Ipam AwgConfig Render Executor Dump CliExecutor FakeExecutor CliFacts SimTools NodeAgent Redact NodeAgentFacts Store StoreFacts Service ServiceFacts Worker WorkerFacts RemoteWorker.

Section production.
Context {W : Type} {env : FileEnv}.
Context (proc : context -> bytes -> list bytes -> gmap bytes file -> W -> exit * W) (cli : CLIExecutor) {HT : AwgTools proc cli}.
Context (num_error : bytes -> bytes -> bytes).
Context (time_text : option Z -> option bytes) (time_parse : bytes -> option (option Z)) (json_error : bytes -> bytes).
Context (route : bytes -> bytes -> result Response (pattern * list bytes)).
Context (Quote : bytes -> bytes) (BaseURL : bytes) (uuid_String : uuid -> bytes) (wk : Worker).

(** The executor of the agent's host and the one the worker holds. *)
#[local] Instance host_executor : Executor (OS W) := CliExecutor proc Quote num_error cli.
#[local] Instance node_executor : Executor (RemoteWorld (OS W)) :=
  RemoteExecutor time_text time_parse json_error route Quote BaseURL.

(** C18: (Production converges.) With the tools behaving as documented, whenever the
    worker's application of a node whose display names and junk texts are printable
    (no line breaks) succeeds - through the HTTP client, the agent, the host executor's
    files and commands, whichever of them fail, and the parser of the tools' dump - the
    kernel lists exactly the keys of the node's live peers, every applied revision
    of the node is up to date and the recorded presence is the kernel's. *)
Theorem production_converges ctx now nodeID s (w : RemoteWorld (OS W)) s' w' :
  routes_as_sent route ->
  store_ok s -> printable_peers nodeID s -> Forall (fun r => printable_profile (scanProfile r)) (st_profiles s) ->
  applyNode uuid_String Quote wk ctx now nodeID (s, w) = (Ok tt, (s', w')) -> converged ctx now nodeID s s' w'.
Proof.
  intros Hroute. pose proof (CliExecutor_Laws proc Quote num_error cli) as HL.
  by apply (remote_worker_converges time_text time_parse json_error route Hroute Quote BaseURL uuid_String wk).
Qed.
End production.

(** ** Witness *)

Definition demo_node_world : RemoteWorld (OS sim_host) := mkRemote sim_world [].

Local Abbreviation prod_apply :=
  (@applyNode _ (@RemoteExecutor _ (@CliExecutor _ sim_env sim_proc (fun b => b) (fun _ b => b) NewCLIExecutor)
     demo_time_text demo_time_parse (fun b => b) segment_route (fun b => b) #"https://node")
     demo_uuid_String (fun b => b) demo_worker None 200 2).

Lemma production_converges_witness :
  let st := snd (prod_apply (demo_live, demo_node_world)) in
  store_ok (fst st)
  /\ st_peers (fst st) = [apply_row 1 200 (new_peer 10 5 demo_params (A4 0x0a080002))]
  /\ length (os_log (rw_host (snd st))) = 5%nat.
Proof.
  intros st.
  assert (H : @converged _ (@RemoteExecutor _ (@CliExecutor _ sim_env sim_proc (fun b => b) (fun _ b => b) NewCLIExecutor)
     demo_time_text demo_time_parse (fun b => b) segment_route (fun b => b) #"https://node") None 200 2 demo_live (fst st) (snd st)).
  { apply (@production_converges _ sim_env sim_proc NewCLIExecutor _ (fun _ b => b) demo_time_text demo_time_parse (fun b => b)
             segment_route (fun b => b) #"https://node" demo_uuid_String demo_worker None 200 2 demo_live demo_node_world).
    - exact segment_route_sent.
    - exact demo_live_ok.
    - apply printable_peers_all; apply (bool_decide_unpack _); vm_compute; exact I.
    - apply (bool_decide_unpack _). vm_compute. exact I.
    - vm_compute. reflexivity. }
  split; [exact (cv_store_ok _ _ _ _ _ _ H)|]. split; [|vm_compute; reflexivity].
  rewrite (cv_peers _ _ _ _ _ _ H). vm_compute. reflexivity.
Defined.
