(* ===== verification/System.v ===== *)
(** * System: requests and worker together

    The API requests, the provisioning calls and the worker's turns over one
    store, in any order: the invariant of every reachable state, and the way of a
    peer from the request to the runtime and out of it again. *)

From S2P Require Import Prelude GoStrings Strconv Errors Effects Files Profile Netip Ipam Crypto Auth AwgConfig Render Executor FakeExecutor Store StoreFacts Service ServiceFacts Worker WorkerFacts.

Section system.
Context {W : Type} {EX : Executor W} {EL : ExecutorLaws W}.
Context (uuid_Parse : bytes -> option uuid) (uuid_String : uuid -> bytes) (Quote : bytes -> bytes).
Context (hash_create : CreatePeerRequest -> bytes -> bytes) (hash_revoke : uuid -> uuid -> bytes -> bytes).
Context (reason_json : bytes -> bytes) (X25519 : list Z -> result bytes (list Z)).
Context (sv : Service) (wk : Worker).

Local Abbreviation CreatePeer' := (CreatePeer uuid_Parse uuid_String hash_create X25519 sv).
Local Abbreviation RevokePeer' := (RevokePeer uuid_Parse uuid_String hash_revoke reason_json sv).
Local Abbreviation RunOnce' := (RunOnce uuid_String Quote wk).

(** One event of the running system.  The runtime may change on its own. *)
Inductive sys_step : Store * W -> Store * W -> Prop :=
| sys_profile newID now p s w : sys_step (s, w) (snd (insertProfile newID now p s), w)
| sys_tenant newID now slug s w : sys_step (s, w) (snd (EnsureTenant newID now slug s), w)
| sys_node newID now n s w : sys_step (s, w) (snd (insertNode newID now n s), w)
| sys_pool newID t n cidr s w : prefix_ok cidr -> sys_step (s, w) (snd (createPool newID t n cidr s), w)
| sys_seen id now st s w : sys_step (s, w) (snd (Nodes_MarkSeen id now st s), w)
| sys_create dr ctx slug key req s w : sys_step (s, w) (snd (CreatePeer' dr ctx slug key req s), w)
| sys_revoke dr ctx slug pid key reason s w :
    sys_step (s, w) (snd (RevokePeer' dr ctx slug pid key reason s), w)
| sys_run ctx now st : sys_step st (snd (RunOnce' ctx now st))
| sys_reconcile ctx now st : sys_step st (snd (ReconcileAll uuid_String Quote wk ctx now st))
| sys_world s w w' : sys_step (s, w) (s, w').

Lemma ReconcileAll_ok ctx now (st : Store * W) :
  store_ok (fst st) -> store_ok (fst (snd (ReconcileAll uuid_String Quote wk ctx now st))).
Proof.
  destruct st as [s w]. intros Hs. unfold ReconcileAll, on_db. destruct ctx as [e|]; [done|].
  cbn [asks]. pose proof (reconcile_nodes_ok uuid_String Quote wk None now
    (n_ID <$> Sorting.sort_Slice host_less (st_nodes s)) (s, w) Hs) as H.
  by destruct (reconcile_nodes _ _ _ _ _ _ (s, w)).
Qed.

Lemma sys_step_ok st st' : sys_step st st' -> store_ok (fst st) -> store_ok (fst st').
Proof.
  destruct 1; intros Hs; simpl in *.
  - by apply preserves_InsertProfile.
  - by apply preserves_Upsert.
  - by apply preserves_insertNode.
  - by apply preserves_createPool.
  - by apply preserves_MarkSeen.
  - by apply preserves_CreatePeer.
  - by apply preserves_RevokePeer.
  - by apply RunOnce_ok.
  - by apply ReconcileAll_ok.
  - done.
Qed.

(** C1: (System invariant.) After any sequence of provisioning calls, API
    requests, worker turns, startup reconciliations and runtime changes, with any
    arguments, times, ids and failures, the store satisfies its invariant: in
    particular two peers of a node never share an address or key, and no peer's
    applied revision is ahead of its desired one. *)
Theorem system_invariant w0 st :
  rtc sys_step (empty_store, w0) st -> store_ok (fst st).
Proof.
  intros H. assert (H0 : store_ok (fst (empty_store, w0))) by apply empty_store_ok. revert H0.
  induction H as [|x y z Hxy Hyz IH]; [done|]. intros Hx. apply IH. by eapply sys_step_ok.
Qed.

(** ** From a request to the runtime *)

(** Every stored text fits its config line. *)
Definition printable_store (s : Store) : Prop :=
  (forall n, printable_peers n s) /\ Forall (fun r => printable_profile (scanProfile r)) (st_profiles s).

(** The only claimable job is the one just queued. *)
Lemma next_job_queued now s l r :
  st_outbox s = l ++ [r] -> Forall (fun q => claimable now q = false) l -> claimable now r = true ->
  next_job now s = Some r.
Proof.
  intros Ho Hl Hr. destruct (next_job now s) as [q|] eqn:E.
  - apply next_job_spec in E as (Hin & Hc & _). rewrite Ho in Hin. apply elem_of_app in Hin as [Hin|Hin].
    + eapply (Forall_forall _ _) in Hl; [|exact Hin]. congruence.
    + apply list_elem_of_singleton in Hin. by subst.
  - apply next_job_None in E. rewrite Ho in E. apply Forall_app in E as [_ E]. inversion_clear E. congruence.
Qed.

(** A turn that applies the job just queued for a node. *)
Lemma RunOnce_applies now s w b s2 w2 l row op :
  store_ok s -> printable_store s -> st_outbox s = l ++ [row] ->
  Forall (fun q => claimable now q = false) l -> claimable now row = true ->
  j_OperationID (ob_Job row) = Some op ->
  RunOnce' None now (s, w) = (Ok b, (s2, w2)) ->
  Forall (fun q => ob_ID q = ob_ID row -> ob_Status q = JobApplied) (st_outbox s2) ->
  b = true /\ (exists s0 s1, converged None now (j_NodeID (ob_Job row)) s0 s1 w2
                /\ st_peers s0 = st_peers s /\ st_peers s2 = st_peers s1 /\ st_runtime s2 = st_runtime s1)
  /\ st_operations s2 = update_id o_ID op (settled_op now (Ok tt)) (st_operations s).
Proof.
  intros Hs [Hpp Hpf] Ho Hl Hc Hop H Hap. rewrite RunOnce_run in H.
  rewrite (next_job_queued now s l row Ho Hl Hc) in H. cbv zeta in H. set (s0 := set_outbox _ s) in H.
  assert (Hs0 : store_ok s0).
  { pose proof (preserves_set_job (ob_ID row) (lease_row now (lease_for wk))) as Hp. by apply Hp. }
  destruct (applyNode _ _ _ _ _ _ (s0, w)) as [r [s1 w1]] eqn:Ea. injection H as <- <- <-. split; [done|].
  pose proof (applyNode_frame _ _ _ _ _ _ _ _ _ _ _ Hs0 Ea) as (m & l' & Hfr).
  assert (r = Ok tt) as ->.
  { assert (Hin : settled_job now r (lease_row now (lease_for wk) row)
                  ∈ st_outbox (settle now (ob_Job (lease_row now (lease_for wk) row)) r s1)).
    { assert (settled_job now r (lease_row now (lease_for wk) row)
              ∈ update_id ob_ID (ob_ID row) (settled_job now r) (update_id ob_ID (ob_ID row) (lease_row now (lease_for wk)) (st_outbox s))) as Hx.
      { rewrite Ho. unfold update_id. rewrite !fmap_app. apply elem_of_app. right. cbn [fmap list_fmap].
        rewrite N.eqb_refl. change (ob_ID (lease_row now (lease_for wk) row)) with (ob_ID row). rewrite N.eqb_refl.
        by apply list_elem_of_singleton. }
      subst s1. unfold settle. by destruct (j_OperationID (ob_Job (lease_row now (lease_for wk) row))). }
    eapply (Forall_forall _ _) in Hap; [|exact Hin]. specialize (Hap eq_refl).
    unfold settled_job in Hap. cbn [ob_Status set_job_status] in Hap. destruct r as [[]|e]; [done|].
    exfalso. revert Hap. cbn [settled_status]. by destruct (classifyRetryable e). }
  split.
  - exists s0, s1. split_and!; [|done|unfold settle; by destruct (j_OperationID _)..].
    apply (applyNode_converged uuid_String Quote wk None now _ s0 w); [done|apply Hpp|exact Hpf|done].
  - subst s1. unfold settle. cbn [j_OperationID ob_Job lease_row]. by rewrite Hop.
Qed.

Lemma applied_peer_elem now nodeID l q :
  q ∈ l -> p_NodeID q = nodeID -> apply_row (p_DesiredRevision q) now q ∈ applied_peers now nodeID l.
Proof.
  intros Hq Hn. apply list_elem_of_fmap. exists q. by rewrite decide_True.
Qed.

Lemma applied_op now op l :
  op ∈ l -> settled_op now (Ok tt) op ∈ update_id o_ID (o_ID op) (settled_op now (Ok tt)) l.
Proof. intros H. apply list_elem_of_fmap. exists op. by rewrite N.eqb_refl. Qed.


End system.

(** ** A concrete run with the in-memory host *)

Local Abbreviation demo_step :=
  (sys_step demo_uuid_Parse demo_uuid_String (fun b => b) demo_hash demo_hash_revoke (fun b => b) demo_X25519
     demo_service demo_worker).
Local Abbreviation demo_turn := (RunOnce demo_uuid_String (fun b => b) demo_worker None 200).

Lemma system_invariant_witness :
  store_ok (fst (snd (demo_turn (demo_created, demo_world)))).
Proof.
  apply (system_invariant demo_uuid_Parse demo_uuid_String (fun b => b) demo_hash demo_hash_revoke (fun b => b)
           demo_X25519 demo_service demo_worker demo_world).
  eapply rtc_l; [apply (sys_profile _ _ _ _ _ _ _ _ _ 7 0 demo_profile)|].
  eapply rtc_l; [apply (sys_tenant _ _ _ _ _ _ _ _ _ 1 0 #"acme")|].
  eapply rtc_l; [apply (sys_node _ _ _ _ _ _ _ _ _ 2 0 demo_node)|].
  eapply rtc_l; [apply (sys_pool _ _ _ _ _ _ _ _ _ 3 1 2 demo_pool); apply (bool_decide_unpack _); vm_compute; exact I|].
  eapply rtc_l; [apply (sys_create _ _ _ _ _ _ _ _ _ (demo_draws 100 9) (Some demo_admin) #"acme" #"k1" (demo_request #"bob"))|].
  eapply rtc_l; [apply (sys_run _ _ _ _ _ _ _ _ _ None 200)|]. apply rtc_refl.
Defined.

Lemma demo_created_printable : printable_store demo_created.
Proof.
  split; [apply printable_peers_all|]; apply (bool_decide_unpack _); vm_compute; exact I.
Qed.


Definition demo_revoking : Store :=
  snd (RevokePeer demo_uuid_Parse demo_uuid_String demo_hash_revoke (fun b => b) demo_service
         (demo_draws 100 9) (Some demo_admin) #"acme" #"10" #"k2" #"lost" demo_live).

