(* ===== verification/Migrations.v ===== *)
(** * Migrations: the embedded schema upgrades ([internal/repo/migrate.go])

    [Migrate] and the three SQL files it runs at every start of the API, the worker
    and the provisioning command: the tables of [0001_init.sql], the profile a node
    owns ([0002_node_profile_owner.sql], with its backfill and its refusals) and the
    V3.1 columns with their checks ([0003_awg31_profiles.sql]). *)

From S2P Require Import Prelude GoStrings Strconv Errors Effects Files Profile Netip Ipam Crypto Auth AwgConfig Render Executor FakeExecutor Store StoreFacts Service ServiceFacts Worker WorkerFacts System.

(** ** The database with its catalog *)

(** The rows, and the names of the tables, columns and constraints that exist.  A
    table that does not exist has no rows, and a column that does not exist is null in
    every row. *)
Record Database : Type := mkDatabase {
  db_tables : gset bytes;
  db_columns : gset (bytes * bytes);
  db_constraints : gset bytes;
  db_rows : Store }.

(** [CREATE TABLE IF NOT EXISTS] *)
Definition create_table (name : bytes) : SE Database unit :=
  modify (fun d => mkDatabase ({[ name ]} ∪ db_tables d) (db_columns d) (db_constraints d) (db_rows d)).

(** [ALTER TABLE t ADD COLUMN IF NOT EXISTS c], without a default. *)
Definition add_column (t c : bytes) : SE Database unit :=
  modify (fun d => mkDatabase (db_tables d) ({[ (t, c) ]} ∪ db_columns d) (db_constraints d) (db_rows d)).

Definition set_rows (f : Store -> Store) : SE Database unit :=
  modify (fun d => mkDatabase (db_tables d) (db_columns d) (db_constraints d) (f (db_rows d))).

Definition raise_exception (msg : bytes) : error := EPg #"P0001" msg.
Definition check_violation (name : bytes) : error := EPg #"23514" name.

(** [ALTER TABLE protocol_profiles ADD CONSTRAINT name CHECK ok], where
    [duplicate_object] is caught: an existing constraint stays, a new one is refused
    when a row violates it. *)
Definition add_check (c : bytes * (ProfileRow -> bool)) : SE Database unit :=
  let '(name, ok) := c in
  known ← asks (fun d => bool_decide (name ∈ db_constraints d));
  if known : bool then mret tt
  else
    fits ← asks (fun d => forallb ok (st_profiles (db_rows d)));
    check fits (check_violation name) ;;
    modify (fun d => mkDatabase (db_tables d) (db_columns d) ({[ name ]} ∪ db_constraints d) (db_rows d)).

Fixpoint each {A} (f : A -> SE Database unit) (l : list A) : SE Database unit :=
  match l with
  | [] => mret tt
  | x :: l => f x ;; each f l
  end.

(** ** 0001: the tables *)

Definition tables : list bytes :=
  [ #"tenants"; #"subjects"; #"role_bindings"; #"vpn_nodes"; #"protocol_profiles"; #"address_pools"; #"peers";
    #"peer_runtime"; #"operations"; #"idempotency_keys"; #"outbox"; #"audit_events"; #"config_snapshots"; #"usage_rollups" ].

Definition schemaV1 : SE Database unit := each create_table tables.

(** ** 0002: the profile of a node *)

(** [SELECT DISTINCT profile_id FROM peers WHERE node_id = n] *)
Definition node_profiles (s : Store) (n : uuid) : list uuid :=
  remove_dups (p_ProfileID <$> filter (fun p => p_NodeID p = n) (st_peers s)).

(** [EXISTS (SELECT 1 FROM peers GROUP BY node_id HAVING COUNT(DISTINCT profile_id) > 1)] *)
Definition mixed_profiles (s : Store) : bool :=
  existsb (fun n => bool_decide (1 < length (node_profiles s n))%nat) (p_NodeID <$> st_peers s).

Definition with_profile (n : Node) (p : option uuid) : Node :=
  mkNode (n_ID n) p (n_Region n) (n_Hostname n) (n_Status n) (n_PublicEndpoint n) (n_BasePort n) (n_AgentLastSeenAt n)
    (n_InterfaceName n) (n_ServerPublicKey n) (n_CreatedAt n).

(** [SET profile_id = ... WHERE profile_id IS NULL] *)
Definition fill_profile (p : option uuid) (n : Node) : Node :=
  match n_ProfileID n with
  | Some _ => n
  | None => with_profile n p
  end.

(** From the peers of the node. *)
Definition fill_from_peers (s : Store) : Store :=
  set_nodes (fmap (fun n => fill_profile (head (node_profiles s (n_ID n))) n)) s.

(** From the only profile. *)
Definition fill_only_profile (s : Store) : Store :=
  match st_profiles s with
  | [ r ] => set_nodes (fmap (fill_profile (Some (pw_id r)))) s
  | _ => s
  end.

Definition unowned (s : Store) : bool := existsb (fun n => bool_decide (n_ProfileID n = None)) (st_nodes s).

Definition schemaV2 : SE Database unit :=
  add_column #"vpn_nodes" #"profile_id" ;;
  mixed ← asks (fun d => mixed_profiles (db_rows d));
  check (negb mixed) (raise_exception
    #"cannot migrate vpn_nodes.profile_id: at least one node has peers with multiple protocol profiles") ;;
  set_rows fill_from_peers ;;
  set_rows fill_only_profile ;;
  open ← asks (fun d => unowned (db_rows d) && bool_decide (1 < length (st_profiles (db_rows d)))%nat);
  check (negb open) (raise_exception
    #"cannot migrate vpn_nodes.profile_id: at least one node has no peers and multiple protocol profiles exist; assign a node profile explicitly before upgrading").

(** ** 0003: the V3.1 columns *)

(** The seven ranges: the stem of the columns, the stem of the order constraint and
    the pair of columns. *)
Definition range_columns : list (bytes * bytes * (ProfileRow -> option Z * option Z)) :=
  [ (#"content_padding_addition", #"content_padding", pw_content_padding_addition);
    (#"rekey_after_time", #"rekey_after_time", pw_rekey_after_time);
    (#"rekey_timeout", #"rekey_timeout", pw_rekey_timeout);
    (#"reject_after_time", #"reject_after_time", pw_reject_after_time);
    (#"keepalive_timeout", #"keepalive_timeout", pw_keepalive_timeout);
    (#"max_handshake_attempts", #"max_handshake_attempts", pw_max_handshake_attempts);
    (#"persistent_keepalive", #"persistent_keepalive", pw_persistent_keepalive) ].

Definition v31_columns : list bytes :=
  #"header_protection_key"
  :: (c ← range_columns; [ fst (fst c) ++ #"_min"; fst (fst c) ++ #"_max" ])
  ++ [ #"random_trailers"; #"disable_cookies" ].

(** [c IS NULL OR (c BETWEEN 0 AND 65535)] *)
Definition u16_check (c : option Z) : bool := match c with None => true | Some v => (0 <=? v) && (v <=? 65535) end.
(** [lo IS NULL OR hi IS NULL OR lo <= hi] *)
Definition order_check (c : option Z * option Z) : bool := match c with (Some lo, Some hi) => lo <=? hi | _ => true end.
(** [(lo IS NULL) = (hi IS NULL)] *)
Definition pair_check (c : option Z * option Z) : bool := Bool.eqb (bool_decide (fst c = None)) (bool_decide (snd c = None)).

Definition table_check (stem kind : bytes) : bytes := #"protocol_profiles_" ++ stem ++ kind.

Definition u16_constraints : list (bytes * (ProfileRow -> bool)) :=
  '(stem, _, get) ← range_columns;
  [ (table_check (stem ++ #"_min") #"_u16_check", fun r => u16_check (fst (get r)));
    (table_check (stem ++ #"_max") #"_u16_check", fun r => u16_check (snd (get r))) ].

Definition order_constraints : list (bytes * (ProfileRow -> bool)) :=
  (fun '(_, stem, get) => (table_check stem #"_order_check", fun r => order_check (get r))) <$> range_columns.

Definition version_check (r : ProfileRow) : bool :=
  bool_decide (pw_protocol_version r ∈ [ #"v1"; #"v2"; #"v3.1" ]).

Definition pairs_check (r : ProfileRow) : bool := forallb (fun '(_, _, get) => pair_check (get r)) range_columns.

Definition legacy_null_check (r : ProfileRow) : bool :=
  bool_decide (pw_protocol_version r = #"v3.1")
  || (bool_decide (pw_header_protection_key r = None)
      && forallb (fun '(_, _, get) => bool_decide (get r = (None, None))) range_columns
      && bool_decide (pw_random_trailers r = None) && bool_decide (pw_disable_cookies r = None)).

Definition required_check (r : ProfileRow) : bool :=
  negb (bool_decide (pw_protocol_version r = #"v3.1"))
  || (match pw_header_protection_key r with Some key => bool_decide (0 < length key)%nat | None => false end
      && negb (bool_decide (pw_random_trailers r = None)) && negb (bool_decide (pw_disable_cookies r = None))).

Definition profile_constraints : list (bytes * (ProfileRow -> bool)) :=
  u16_constraints ++ order_constraints
  ++ [ (table_check #"version" #"_check", version_check);
       (table_check #"awg31_pair_completeness" #"_check", pairs_check);
       (table_check #"awg31_legacy_null" #"_check", legacy_null_check);
       (table_check #"awg31_required" #"_check", required_check) ].

Definition schemaV3 : SE Database unit :=
  each (add_column #"protocol_profiles") v31_columns ;;
  each add_check profile_constraints.

(** ** Migrate *)

Inductive db_call : Type := CallBegin | CallExec (n : nat) | CallCommit.

(** One statement, unless the connection fails. *)
Definition exec_migration (fault : db_call -> option error) (n : nat) (m : SE Database unit) : SE Database unit :=
  match fault (CallExec n) with Some e => fail e | None => m end.

(** All in one transaction, rolled back unless it commits. *)
Definition Migrate (fault : db_call -> option error) : SE Database unit := fun d =>
  match fault CallBegin with
  | Some e => (Err e, d)
  | None =>
      match (exec_migration fault 1 schemaV1 ;; exec_migration fault 2 schemaV2 ;; exec_migration fault 3 schemaV3) d with
      | (Err e, _) => (Err e, d)
      | (Ok _, d') => match fault CallCommit with Some e => (Err e, d) | None => (Ok tt, d') end
      end
  end.

(** ** What the statements do *)

Definition union_names (ts : list bytes) (cs : list (bytes * bytes)) (ks : list bytes) (d : Database) : Database :=
  mkDatabase (list_to_set ts ∪ db_tables d) (list_to_set cs ∪ db_columns d) (list_to_set ks ∪ db_constraints d) (db_rows d).

Lemma database_eq d d' :
  db_tables d = db_tables d' -> db_columns d = db_columns d' -> db_constraints d = db_constraints d' ->
  db_rows d = db_rows d' -> d = d'.
Proof. destruct d, d'; simpl. congruence. Qed.

Ltac same_db := apply database_eq; cbn [union_names db_tables db_columns db_constraints db_rows list_to_set]; try done; try set_solver.

Lemma each_modify {A} (f : A -> SE Database unit) x l g d : f x = modify g -> each f (x :: l) d = each f l (g d).
Proof. intros H. cbn [each]. by rewrite H. Qed.

Lemma create_tables_run l d : each create_table l d = (Ok tt, union_names l [] [] d).
Proof.
  revert d. induction l as [|t l IH]; intros d; [cbn [each]; f_equal; same_db|].
  rewrite (each_modify create_table t l _ d eq_refl), IH. f_equal. same_db.
Qed.

Lemma add_columns_run t l d : each (add_column t) l d = (Ok tt, union_names [] (pair t <$> l) [] d).
Proof.
  revert d. induction l as [|c l IH]; intros d; [cbn [each]; f_equal; same_db|].
  rewrite (each_modify (add_column t) c l _ d eq_refl), IH. f_equal. same_db.
Qed.

(** A constraint the rows of a database are not yet held to, and do not meet. *)
Definition violated (l : list (bytes * (ProfileRow -> bool))) (d : Database) : Prop :=
  exists name ok r, (name, ok) ∈ l /\ ~ (name ∈ db_constraints d) /\ r ∈ st_profiles (db_rows d) /\ ok r = false.

Lemma forallb_refuted {A} (f : A -> bool) l : forallb f l = false <-> exists x, x ∈ l /\ (f x = false).
Proof.
  rewrite <- not_true_iff_false, forallb_forall. split.
  - intros H. induction l as [|y l IH]; [by destruct H|].
    destruct (f y) eqn:E; [|exists y; split; [left|done]].
    destruct IH as (x & Hx & Hf); [|exists x; split; [by right|done]].
    intros Hl. apply H. intros x [<-|Hx]; [done|by apply Hl].
  - intros (x & Hx & Hf) H. rewrite H in Hf; [done|]. by apply list_elem_of_In.
Qed.

Lemma forallb_elem {A} (f : A -> bool) l x : forallb f l = true -> x ∈ l -> f x = true.
Proof. rewrite forallb_forall. intros H Hx. apply H. by apply list_elem_of_In. Qed.

Lemma add_checks_run l d :
  NoDup l.*1 ->
  match each add_check l d with
  | (Ok _, d') => d' = union_names [] [] l.*1 d /\ ~ violated l d
  | (Err _, _) => violated l d
  end.
Proof.
  revert d. induction l as [|[name ok] l IH]; intros d Hnd; cbn [each].
  { split; [same_db|]. by intros (? & ? & ? & H%elem_of_nil & _). }
  inversion_clear Hnd as [|? ? Hnew Hnd']. unfold mbind at 1, SE_bind at 1. cbn [add_check]. unfold mbind, SE_bind, asks. case_bool_decide as Hk.
  - cbn. specialize (IH d Hnd'). destruct (each add_check l d) as [[[]|e] d'].
    + destruct IH as [-> Hv]. split; [same_db|]. intros (n & k & r & [[= -> ->]|Hin]%elem_of_cons & Hn & H); [done|].
      by apply Hv; exists n, k, r.
    + destruct IH as (n & k & r & Hin & H). exists n, k, r. split; [by right|done].
  - cbn. destruct (forallb ok _) eqn:Hf; cbn.
    + set (d1 := mkDatabase _ _ _ _). specialize (IH d1 Hnd'). destruct (each add_check l d1) as [[[]|e] d'].
      * destruct IH as [-> Hv]. split; [same_db|]. intros (n & k & r & [[= -> ->]|Hin]%elem_of_cons & Hn & Hr & Ho).
        { by rewrite (forallb_elem _ _ _ Hf Hr) in Ho. }
        apply Hv. exists n, k, r. split_and!; try done. cbn. intros [->%elem_of_singleton|?]%elem_of_union; [|done].
        apply Hnew. by apply (list_elem_of_fmap_2 fst) in Hin.
      * destruct IH as (n & k & r & Hin & Hn & Hr & Ho). exists n, k, r. split_and!; [by right| |done..]. cbn in Hn. set_solver.
    + apply forallb_refuted in Hf as (r & Hr & Hf). exists name, ok, r. split_and!; [left|done..].
Qed.

Lemma constraints_distinct : NoDup profile_constraints.*1.
Proof. apply (bool_decide_unpack _). vm_compute. exact I. Qed.

(** Postgres cuts identifiers at 63 bytes; no constraint name is cut. *)
Lemma constraint_names_short : Forall (fun n => (length n <= 63)%nat) profile_constraints.*1.
Proof. apply (bool_decide_unpack _). vm_compute. exact I. Qed.

(** *** The profile of a node *)

Lemma node_profiles_elem s n x :
  x ∈ node_profiles s n <-> exists p, p ∈ st_peers s /\ p_NodeID p = n /\ p_ProfileID p = x.
Proof.
  unfold node_profiles. rewrite elem_of_remove_dups, list_elem_of_fmap. split.
  - intros (p & -> & [Hn Hp]%list_elem_of_filter). by exists p.
  - intros (p & Hp & Hn & <-). exists p. split; [done|]. by apply list_elem_of_filter.
Qed.

Definition one_profile_each (s : Store) : Prop :=
  forall p q, p ∈ st_peers s -> q ∈ st_peers s -> p_NodeID p = p_NodeID q -> p_ProfileID p = p_ProfileID q.

Lemma mixed_profiles_spec s : mixed_profiles s = false <-> one_profile_each s.
Proof.
  unfold mixed_profiles. split.
  - intros H p q Hp Hq Hn.
    assert (Hl : (length (node_profiles s (p_NodeID p)) <= 1)%nat).
    { apply not_true_iff_false in H. destruct (decide (1 < length (node_profiles s (p_NodeID p)))%nat) as [Hx|]; [|lia].
      destruct H. apply existsb_exists. exists (p_NodeID p). rewrite bool_decide_eq_true_2 by done.
      split; [|done]. apply list_elem_of_In, list_elem_of_fmap. by exists p. }
    assert (H1 : p_ProfileID p ∈ node_profiles s (p_NodeID p)) by (apply node_profiles_elem; by exists p).
    assert (H2 : p_ProfileID q ∈ node_profiles s (p_NodeID p)) by (apply node_profiles_elem; by exists q).
    destruct (node_profiles s (p_NodeID p)) as [|x [|y l]]; [by apply elem_of_nil in H1| |simpl in Hl; lia].
    apply list_elem_of_singleton in H1, H2. congruence.
  - intros H. apply not_true_iff_false. intros (n & Hn & Hl%bool_decide_eq_true)%existsb_exists.
    pose proof (NoDup_remove_dups (p_ProfileID <$> filter (fun p => p_NodeID p = n) (st_peers s))) as Hd.
    fold (node_profiles s n) in Hd. pose proof (node_profiles_elem s n) as He.
    destruct (node_profiles s n) as [|x [|y l]]; [simpl in Hl; lia..|].
    destruct (proj1 (He x)) as (p & Hp & Hpn & <-); [left|]. destruct (proj1 (He y)) as (q & Hq & Hqn & <-); [right; left|].
    apply NoDup_cons in Hd as [Hd _]. apply Hd. rewrite (H p q) by congruence. left.
Qed.

Lemma node_profiles_head s n :
  one_profile_each s ->
  match head (node_profiles s n) with
  | Some x => (exists p, p ∈ st_peers s /\ p_NodeID p = n) /\ forall p, p ∈ st_peers s -> p_NodeID p = n -> p_ProfileID p = x
  | None => forall p, p ∈ st_peers s -> p_NodeID p <> n
  end.
Proof.
  intros H. pose proof (node_profiles_elem s n) as He. destruct (node_profiles s n) as [|x l]; cbn [head].
  - intros p Hp Hn. apply (elem_of_nil (p_ProfileID p)), He. by exists p.
  - destruct (proj1 (He x)) as (q & Hq & Hqn & <-); [left|]. split; [by exists q|]. intros p Hp Hn. apply H; congruence.
Qed.

(** The profile a node owns after the upgrade. *)
Definition owner (s : Store) (n : Node) : option uuid :=
  match n_ProfileID n, head (node_profiles s (n_ID n)), st_profiles s with
  | Some p, _, _ => Some p
  | None, Some x, _ => Some x
  | None, None, [ r ] => Some (pw_id r)
  | None, None, _ => None
  end.

Definition backfilled (s : Store) : Store := set_nodes (fmap (fun n => with_profile n (owner s n))) s.

Lemma set_nodes_compose f g s : set_nodes g (set_nodes f s) = set_nodes (fun l => g (f l)) s.
Proof. done. Qed.

Lemma set_nodes_fmap f g s : (forall n, n ∈ st_nodes s -> f n = g n) -> set_nodes (fmap f) s = set_nodes (fmap g) s.
Proof.
  intros H. unfold set_nodes. f_equal. apply list_fmap_ext. intros i n Hn. apply H. by eapply list_elem_of_lookup_2.
Qed.

Lemma with_profile_id n : with_profile n (n_ProfileID n) = n.
Proof. by destruct n. Qed.

Lemma fill_backfilled s : fill_only_profile (fill_from_peers s) = backfilled s.
Proof.
  unfold fill_only_profile, fill_from_peers. cbn [st_profiles set_nodes].
  assert (E : forall n, fill_profile (head (node_profiles s (n_ID n))) n
                        = with_profile n (match n_ProfileID n with Some p => Some p | None => head (node_profiles s (n_ID n)) end)).
  { intros [? [p|] ? ? ? ? ? ? ? ? ?]; reflexivity. }
  unfold backfilled, owner. destruct (st_profiles s) as [|r [|r' l]] eqn:Er.
  - apply set_nodes_fmap. intros n _. rewrite E. destruct (n_ProfileID n), (head (node_profiles s (n_ID n))); done.
  - rewrite set_nodes_compose. unfold set_nodes. f_equal. rewrite <- list_fmap_compose. apply list_fmap_ext.
    intros i n _. simpl. rewrite E. destruct n as [? [p|] ? ? ? ? ? ? ? ? ?]; simpl; [done|]. match goal with |- context [head ?x] => by destruct (head x) end.
  - apply set_nodes_fmap. intros n _. rewrite E. destruct (n_ProfileID n), (head (node_profiles s (n_ID n))); done.
Qed.

(** The two refusals of the second migration. *)
Definition ownership_unclear (s : Store) : Prop :=
  ~ one_profile_each s
  \/ (1 < length (st_profiles s))%nat
     /\ exists n, n ∈ st_nodes s /\ n_ProfileID n = None /\ forall p, p ∈ st_peers s -> p_NodeID p <> n_ID n.

Lemma unowned_backfilled s :
  one_profile_each s ->
  unowned (backfilled s) && bool_decide (1 < length (st_profiles s))%nat = true
  <-> (1 < length (st_profiles s))%nat
      /\ exists n, n ∈ st_nodes s /\ n_ProfileID n = None /\ forall p, p ∈ st_peers s -> p_NodeID p <> n_ID n.
Proof.
  intros H1. rewrite andb_true_iff, bool_decide_eq_true.
  assert (Hand : forall A B C : Prop, (A -> (B <-> C)) -> (B /\ A <-> A /\ C)) by tauto. apply Hand. intros Hl.
  unfold unowned. rewrite existsb_exists. cbn [backfilled st_nodes set_nodes]. split.
  - intros (n' & (n & -> & Hn)%list_elem_of_In%list_elem_of_fmap & Ho%bool_decide_eq_true).
    exists n. split; [done|]. revert Ho. cbn [n_ProfileID with_profile]. unfold owner.
    pose proof (node_profiles_head s (n_ID n) H1) as Hh.
    destruct (n_ProfileID n), (head (node_profiles s (n_ID n))), (st_profiles s) as [|? [|? ?]]; try done; simpl in Hl; lia.
  - intros (n & Hn & Hp & Hno). exists (with_profile n (owner s n)). split.
    + apply list_elem_of_In, list_elem_of_fmap. by exists n.
    + apply bool_decide_eq_true. cbn [n_ProfileID with_profile]. unfold owner. rewrite Hp.
      pose proof (node_profiles_head s (n_ID n) H1) as Hh. destruct (head (node_profiles s (n_ID n))) as [x|].
      * destruct Hh as [(p & Hin & Hpn) _]. by destruct (Hno p Hin).
      * destruct (st_profiles s) as [|? [|? ?]]; [done|simpl in Hl; lia|done].
Qed.

Lemma schemaV2_run d :
  match schemaV2 d with
  | (Ok _, d') => ~ ownership_unclear (db_rows d)
                  /\ d' = mkDatabase (db_tables d) ({[ (#"vpn_nodes", #"profile_id") ]} ∪ db_columns d) (db_constraints d)
                            (backfilled (db_rows d))
  | (Err _, _) => ownership_unclear (db_rows d)
  end.
Proof.
  unfold schemaV2, add_column, set_rows, modify, asks, mbind, SE_bind. cbn [db_rows].
  destruct (mixed_profiles (db_rows d)) eqn:Em; cbn.
  { left. intros H. apply mixed_profiles_spec in H. congruence. }
  apply mixed_profiles_spec in Em. rewrite fill_backfilled. change (st_profiles (backfilled (db_rows d))) with (st_profiles (db_rows d)).
  pose proof (unowned_backfilled _ Em) as Hu. destruct (unowned _ && _); cbn.
  - right. by apply Hu.
  - split; [|done]. intros [?|H]; [done|]. by apply Hu in H.
Qed.

(** ** The upgrade *)

Definition installed (d : Database) : Prop :=
  list_to_set tables ⊆ db_tables d
  /\ list_to_set ((#"vpn_nodes", #"profile_id") :: (pair #"protocol_profiles" <$> v31_columns)) ⊆ db_columns d
  /\ list_to_set profile_constraints.*1 ⊆ db_constraints d.

Definition migrated (d : Database) : Database :=
  mkDatabase (list_to_set tables ∪ db_tables d)
    (list_to_set (pair #"protocol_profiles" <$> v31_columns) ∪ ({[ (#"vpn_nodes", #"profile_id") ]} ∪ db_columns d))
    (list_to_set profile_constraints.*1 ∪ db_constraints d) (backfilled (db_rows d)).

Lemma migrated_installed d : installed (migrated d).
Proof.
  unfold installed, migrated. cbn [db_tables db_columns db_constraints]. generalize (pair #"protocol_profiles" <$> v31_columns).
  intros l. rewrite list_to_set_cons. split_and!; [apply union_subseteq_l| |apply union_subseteq_l].
  generalize (list_to_set l : gset (bytes * bytes)). set_solver.
Qed.

(** Why an upgrade is refused. *)
Definition refused (d : Database) : Prop := ownership_unclear (db_rows d) \/ violated profile_constraints d.

Definition quiet (fault : db_call -> option error) : Prop :=
  Forall (fun c => fault c = None) [CallBegin; CallExec 1; CallExec 2; CallExec 3; CallCommit].

Lemma violated_ext l d d' :
  db_constraints d' = db_constraints d -> st_profiles (db_rows d') = st_profiles (db_rows d) -> violated l d' <-> violated l d.
Proof. intros Hc Hp. unfold violated. by rewrite Hc, Hp. Qed.

Lemma migrations_run d :
  match (schemaV1 ;; schemaV2 ;; schemaV3) d with
  | (Ok _, d') => d' = migrated d /\ ~ refused d
  | (Err _, _) => refused d
  end.
Proof.
  unfold mbind, SE_bind. unfold schemaV1. rewrite create_tables_run.
  pose proof (schemaV2_run (union_names tables [] [] d)) as H2.
  destruct (schemaV2 _) as [[[]|e] d2]; [|by left]. destruct H2 as [Hu ->]. change (db_rows (union_names _ _ _ d)) with (db_rows d) in Hu.
  unfold schemaV3, mbind, SE_bind. rewrite add_columns_run.
  match goal with |- context [each add_check _ ?d3] =>
    pose proof (add_checks_run _ d3 constraints_distinct) as H3;
    assert (Hv : violated profile_constraints d3 <-> violated profile_constraints d)
  end.
  { apply violated_ext; [|done]. cbn [union_names db_constraints list_to_set]. by rewrite !(left_id_L ∅ (∪)). }
  destruct (each add_check _ _) as [[[]|e] d4]; [|by right; apply Hv].
  destruct H3 as [-> Hn]. split; [|intros [?|?]; [done|by apply Hn, Hv]].
  apply database_eq; cbn [union_names migrated db_tables db_columns db_constraints db_rows list_to_set]; try done;
    by rewrite !(left_id_L ∅ (∪)).
Qed.

Lemma union_again `{Countable A} (X Y : gset A) : X ∪ (X ∪ Y) = X ∪ Y.
Proof. set_solver. Qed.

Lemma union_again2 `{Countable A} (X V Y : gset A) : X ∪ (V ∪ (X ∪ (V ∪ Y))) = X ∪ (V ∪ Y).
Proof. set_solver. Qed.

Lemma Migrate_run fault d :
  match Migrate fault d with
  | (Ok _, d') => d' = migrated d /\ quiet fault /\ ~ refused d
  | (Err _, d') => d' = d /\ (~ quiet fault \/ refused d)
  end.
Proof.
  assert (Hloud : forall c e, fault c = Some e -> c ∈ [CallBegin; CallExec 1; CallExec 2; CallExec 3; CallCommit] -> ~ quiet fault).
  { intros c e Hc Hin Hq. unfold quiet in Hq. rewrite Forall_forall in Hq. rewrite (Hq c Hin) in Hc. done. }
  unfold Migrate. destruct (fault CallBegin) eqn:Eb; [split; [done|left; eapply Hloud; [done|set_solver]]|].
  destruct (fault (CallExec 1)) eqn:E1; [|destruct (fault (CallExec 2)) eqn:E2; [|destruct (fault (CallExec 3)) eqn:E3]];
    unfold exec_migration; rewrite ?E1, ?E2, ?E3.
  1-3: unfold mbind, SE_bind, fail; repeat (case_match; simplify_eq); (split; [done|left; eapply Hloud; [eassumption|set_solver]]).
  pose proof (migrations_run d) as H. destruct ((schemaV1 ;; schemaV2 ;; schemaV3) d) as [[[]|e] d']; [|by split; [|right]].
  destruct (fault CallCommit) eqn:Ec; [split; [done|left; eapply Hloud; [done|set_solver]]|].
  destruct H as [-> Hr]. split_and!; [done|by repeat constructor|done].
Qed.

Lemma Migrate_accepts fault d : quiet fault -> ~ refused d -> Migrate fault d = (Ok tt, migrated d).
Proof.
  intros Hq Hr. pose proof (Migrate_run fault d) as H. destruct (Migrate fault d) as [[[]|e] d']; [by destruct H as [-> _]|].
  by destruct H as [_ [?|?]].
Qed.

(** An upgrade that nothing speaks against. *)
Lemma not_refused d :
  mixed_profiles (db_rows d) = false ->
  unowned (db_rows d) && bool_decide (1 < length (st_profiles (db_rows d)))%nat = false ->
  forallb (fun r => forallb (fun c => snd c r) profile_constraints) (st_profiles (db_rows d)) = true -> ~ refused d.
Proof.
  intros Hm Hu Hc [[H|(Hl & n & Hn & Hp & _)]|(name & ok & r & Hin & _ & Hr & Hf)].
  - by apply H, mixed_profiles_spec.
  - apply andb_false_iff in Hu as [Hu|Hu%bool_decide_eq_false]; [|done]. apply not_true_iff_false in Hu. apply Hu, existsb_exists.
    exists n. rewrite bool_decide_eq_true_2 by done. split; [by apply list_elem_of_In|done].
  - pose proof (forallb_elem _ _ _ (forallb_elem _ _ _ Hc Hr) Hin) as E. cbn in E. congruence.
Qed.

(** What a database promises: the invariant of its rows, the references of the nodes,
    and the constraints it has. *)
Record db_ok (d : Database) : Prop := {
  do_rows : store_ok (db_rows d);
  do_nodes : Forall (fun n => profile_ref_ok (db_rows d) (n_ProfileID n) = true) (st_nodes (db_rows d));
  do_checks : forall name ok, (name, ok) ∈ profile_constraints -> name ∈ db_constraints d ->
                forallb ok (st_profiles (db_rows d)) = true }.

(** A node before and after: a profile it had stays, its peers' profile is its own,
    and a node without peers gets the only profile. *)
Record owns (s : Store) (n n' : Node) : Prop := {
  ow_rest : n' = with_profile n (n_ProfileID n');
  ow_keep : is_Some (n_ProfileID n) -> n' = n;
  ow_peers : n_ProfileID n = None -> forall p, p ∈ st_peers s -> p_NodeID p = n_ID n -> n_ProfileID n' = Some (p_ProfileID p);
  ow_only : n_ProfileID n = None -> (forall p, p ∈ st_peers s -> p_NodeID p <> n_ID n) ->
            forall r, st_profiles s = [r] -> n_ProfileID n' = Some (pw_id r);
  ow_all : n_ProfileID n' = None -> st_profiles s = [] }.

Record upgraded (d d' : Database) : Prop := {
  up_installed : installed d';
  up_rows : db_rows d' = set_nodes (fun _ => st_nodes (db_rows d')) (db_rows d);
  up_nodes : Forall2 (owns (db_rows d)) (st_nodes (db_rows d)) (st_nodes (db_rows d'));
  up_checks : forall name ok, (name, ok) ∈ profile_constraints -> forallb ok (st_profiles (db_rows d')) = true }.

Lemma owner_None s n : owner s n = None -> n_ProfileID n = None /\ head (node_profiles s (n_ID n)) = None /\ length (st_profiles s) <> 1%nat.
Proof. unfold owner. by destruct (n_ProfileID n), (head _), (st_profiles s) as [|? [|? ?]]. Qed.

Lemma owner_owns s n : ~ ownership_unclear s -> n ∈ st_nodes s -> owns s n (with_profile n (owner s n)).
Proof.
  intros Hu Hn. assert (H1 : one_profile_each s).
  { apply mixed_profiles_spec. destruct (mixed_profiles s) eqn:E; [|done]. destruct Hu. left. intros H.
    apply mixed_profiles_spec in H. congruence. }
  pose proof (node_profiles_head s (n_ID n) H1) as Hh. constructor; cbn [n_ProfileID with_profile].
  - done.
  - intros [p Hp]. unfold owner. rewrite Hp. rewrite <- Hp. apply with_profile_id.
  - intros Hp p Hin Hpn. unfold owner. rewrite Hp. destruct (head _); [|by destruct (Hh p Hin)].
    f_equal. symmetry. by apply Hh.
  - intros Hp Hno r Hr. unfold owner. rewrite Hp, Hr. destruct (head _); [|done].
    destruct Hh as [(p & Hin & Hpn) _]. by destruct (Hno p Hin).
  - intros (Hp & Hd & Hl)%owner_None. rewrite Hd in Hh. destruct (st_profiles s) as [|r [|r' l]] eqn:Er; [done|done|].
    destruct Hu. right. split; [rewrite Er; simpl; lia|]. by exists n.
Qed.

Lemma backfilled_again s : backfilled (backfilled s) = backfilled s.
Proof.
  unfold backfilled at 1. unfold backfilled at 2. unfold set_nodes. cbn [st_nodes]. rewrite <- list_fmap_compose.
  unfold backfilled, set_nodes. f_equal. apply list_fmap_ext. intros i n _. cbn [compose with_profile n_ID n_ProfileID].
  unfold compose, with_profile. cbn. f_equal. unfold owner at 1. cbn [n_ProfileID n_ID].
  destruct (owner s n) eqn:E; [done|]. apply owner_None in E as (Hp & Hd & Hl).
  unfold node_profiles in *. cbn [st_peers st_profiles]. rewrite Hd. by destruct (st_profiles s) as [|? [|? ?]].
Qed.

Lemma not_unclear_backfilled s : ~ ownership_unclear s -> ~ ownership_unclear (backfilled s).
Proof.
  intros Hu [H|(Hl & n' & Hn' & Hp & Hno)]; [by apply Hu; left|].
  apply list_elem_of_fmap in Hn' as (n & -> & Hn). pose proof (ow_all _ _ _ (owner_owns s n Hu Hn) Hp) as Hz.
  cbn [backfilled set_nodes st_profiles] in Hl. rewrite Hz in Hl. simpl in Hl. lia.
Qed.

Lemma with_profiles_ok (f : Node -> option uuid) s : store_ok s -> store_ok (set_nodes (fmap (fun n => with_profile n (f n))) s).
Proof.
  intros [H1 H2 H3 H4 H5 H6 H7 H8]. constructor; try done.
  eapply refs_mono; [..|exact H3]; try done. intros x. cbn [st_nodes set_nodes].
  erewrite has_id_fmap; [done|]. by rewrite <- list_fmap_compose.
Qed.

Lemma backfilled_refs s :
  store_ok s -> Forall (fun n => profile_ref_ok s (n_ProfileID n) = true) (st_nodes s) ->
  Forall (fun n => profile_ref_ok (backfilled s) (n_ProfileID n) = true) (st_nodes (backfilled s)).
Proof.
  intros Hs Hn. apply Forall_fmap. eapply Forall_impl; [exact Hn|]. intros n Hr. cbn [n_ProfileID with_profile compose].
  unfold compose. cbn [n_ProfileID with_profile]. change (profile_ref_ok (backfilled s)) with (profile_ref_ok s). unfold owner.
  destruct (n_ProfileID n) eqn:Ep; [rewrite <- Ep; exact Hr|]. destruct (head (node_profiles s (n_ID n))) as [x|] eqn:Eh.
  - assert (Hx : x ∈ node_profiles s (n_ID n)) by (destruct (node_profiles s (n_ID n)); [done|injection Eh as ->; left]).
    apply node_profiles_elem in Hx as (p & Hp & _ & <-). pose proof (so_refs _ Hs) as Hf. rewrite Forall_forall in Hf.
    specialize (Hf p Hp). unfold peer_refs_ok in Hf. cbn. by apply andb_true_iff in Hf as [_ ->].
  - destruct (st_profiles s) as [|r [|? ?]] eqn:Er; [done| |done]. cbn. rewrite Er. cbn. by rewrite N.eqb_refl.
Qed.

Lemma migrated_upgraded d : db_ok d -> ~ refused d -> upgraded d (migrated d) /\ db_ok (migrated d).
Proof.
  intros [Hs Hn Hc] Hr.
  assert (Hall : forall name ok, (name, ok) ∈ profile_constraints -> forallb ok (st_profiles (db_rows d)) = true).
  { intros name ok Hin. destruct (decide (name ∈ db_constraints d)) as [Hk|Hk]; [by eapply Hc|].
    destruct (forallb ok _) eqn:Ef; [done|]. apply forallb_refuted in Ef as (r & Hr' & Hf). destruct Hr. right.
    by exists name, ok, r. }
  split; constructor.
  - by apply migrated_installed.
  - done.
  - cbn [migrated db_rows backfilled set_nodes st_nodes]. apply Forall2_fmap_r, Forall2_same_length_lookup.
    split; [done|]. intros i n n' Hi Hi'. rewrite Hi in Hi'. injection Hi' as <-.
    apply owner_owns; [intros ?; apply Hr; by left|by eapply list_elem_of_lookup_2].
  - exact Hall.
  - by apply (with_profiles_ok (owner (db_rows d))).
  - by apply backfilled_refs.
  - intros name ok Hin _. by apply (Hall name).
Qed.

Lemma migrated_again d : migrated (migrated d) = migrated d.
Proof.
  apply database_eq; cbn [migrated db_tables db_columns db_constraints db_rows];
    [apply union_again|apply union_again2|apply union_again|apply backfilled_again].
Qed.

Lemma migrated_not_refused d : ~ refused d -> ~ refused (migrated d).
Proof.
  intros Hr [Hu|(name & ok & r & Hin & Hno & _)].
  - revert Hu. cbn [migrated db_rows]. apply not_unclear_backfilled. intros Hu. apply Hr. by left.
  - apply Hno. cbn [migrated db_constraints]. apply elem_of_union_l, elem_of_list_to_set.
    by apply (list_elem_of_fmap_2 fst) in Hin.
Qed.

(** C22: (The schema upgrade.) Migrate either fails and leaves the database as it was - a
    call to the database failed, some node has peers of two profiles, a node without
    profile and peers could get one of several, or a profile row violates a constraint
    that is new - or it changes nothing but the profile of nodes that had none: a node
    gets the profile of its peers, and a node without peers the only profile there is,
    so that no node is left without unless there is no profile at all; then every table,
    column and constraint exists, every profile meets every constraint, the invariant
    holds, and running it again changes nothing. *)
Theorem Migrate_spec fault d :
  db_ok d ->
  match Migrate fault d with
  | (Err _, d') => d' = d /\ (~ quiet fault \/ refused d)
  | (Ok _, d') => ~ refused d /\ upgraded d d' /\ db_ok d' /\ Migrate fault d' = (Ok tt, d')
  end.
Proof.
  intros Hd. pose proof (Migrate_run fault d) as H. pose proof (Migrate_run fault (migrated d)) as Hag.
  destruct (Migrate fault d) as [[[]|e] d'] eqn:Em; [|done]. destruct H as (-> & Hq & Hr).
  destruct (migrated_upgraded d Hd Hr) as [Hup Hok]. split_and!; [done..|].
  destruct (Migrate fault (migrated d)) as [[[]|e] d'']; [by destruct Hag as (-> & _); rewrite migrated_again|].
  exfalso. destruct Hag as [_ [Hnq|Hx]]; [done|]. by apply migrated_not_refused in Hx.
Qed.

(** ** Restarts *)

(** The checks a row meets by its values alone, whatever the width of its integers. *)
Definition value_constraints : list (bytes * (ProfileRow -> bool)) :=
  order_constraints
  ++ [ (table_check #"version" #"_check", version_check);
       (table_check #"awg31_pair_completeness" #"_check", pairs_check);
       (table_check #"awg31_legacy_null" #"_check", legacy_null_check);
       (table_check #"awg31_required" #"_check", required_check) ].

Definition row_sound (r : ProfileRow) : Prop := forall name ok, (name, ok) ∈ value_constraints -> ok r = true.

(** The columns hold what a [uint16] can hold. *)
Definition row_typed (r : ProfileRow) : Prop := forall name ok, (name, ok) ∈ u16_constraints -> ok r = true.

Lemma row_checks r : row_typed r -> row_sound r -> forall name ok, (name, ok) ∈ profile_constraints -> ok r = true.
Proof.
  intros Ht Hs name ok. unfold profile_constraints. rewrite elem_of_app. intros [H|H]; [by apply (Ht name)|by apply (Hs name)].
Qed.

Lemma rangeDB_order en r : (en = true -> u16_Min r <= u16_Max r) -> order_check (rangeDB en r) = true.
Proof.
  intros H. unfold rangeDB. destruct (negb en || _) eqn:E; [done|]. apply orb_false_iff in E as [E _].
  apply negb_false_iff in E. apply Z.leb_le. by apply H.
Qed.

Lemma rangeDB_pair en r : pair_check (rangeDB en r) = true.
Proof. unfold rangeDB. by destruct (negb en || _). Qed.

Lemma rangeDB_legacy r : rangeDB false r = (None, None).
Proof. done. Qed.

(** The rows the repository writes meet the constraints by themselves. *)
Lemma profile_row_sound newID now p : Validate p = [] -> row_sound (profile_row newID now p).
Proof.
  intros [Hver Hv31]%Validate_v31 name ok Hin.
  assert (Hord : IsV31 p = true -> Forall (fun r => u16_Min r <= u16_Max r)
    [pp_ContentPaddingAddition p; pp_RekeyAfterTime p; pp_RekeyTimeout p; pp_RejectAfterTime p; pp_KeepaliveTimeout p;
     pp_MaxHandshakeAttempts p; pp_PersistentKeepalive p]) by (intros E; by apply Hv31).
  rewrite !Forall_cons in Hord.
  unfold value_constraints in Hin. apply elem_of_app in Hin as [Hin|Hin].
  - unfold order_constraints, range_columns in Hin. cbn [fmap list_fmap] in Hin. rewrite !elem_of_cons, elem_of_nil in Hin.
    destruct_or? Hin; try done; injection Hin as -> ->; cbn; apply rangeDB_order; intros E; specialize (Hord E); by destruct_and! Hord.
  - rewrite !elem_of_cons, elem_of_nil in Hin. destruct_or? Hin; try done; injection Hin as -> ->.
    + unfold version_check. cbn [pw_protocol_version profile_row]. by apply bool_decide_eq_true_2.
    + unfold pairs_check, range_columns, profile_row. cbn. by rewrite !rangeDB_pair.
    + unfold legacy_null_check, range_columns, profile_row. cbn. unfold IsV31.
      destruct (bool_decide (pp_ProtocolVersion p = ProtocolV31)) eqn:E; [|rewrite !rangeDB_legacy; cbn; by rewrite orb_true_r].
      apply bool_decide_eq_true in E. by rewrite E.
    + unfold required_check, profile_row. cbn. destruct (IsV31 p) eqn:E; unfold IsV31 in E.
      * destruct (Hv31 eq_refl) as [Hk _]. unfold nullableWhen, nullable, boolWhen. cbn.
        rewrite (bool_decide_eq_false_2 _ Hk). apply orb_true_iff. right. rewrite !andb_true_iff. split_and!; [|done..].
        apply bool_decide_eq_true. destruct (pp_HeaderProtectionKey p); [done|simpl; lia].
      * apply bool_decide_eq_false in E. by rewrite bool_decide_eq_false_2.
Qed.

(** The peers of a node are on the profile the node owns. *)
Record owned (s : Store) : Prop := {
  od_ids : NoDup (n_ID <$> st_nodes s);
  od_peers : forall p n, p ∈ st_peers s -> n ∈ st_nodes s -> p_NodeID p = n_ID n -> n_ProfileID n = Some (p_ProfileID p);
  od_rows : Forall row_sound (st_profiles s) }.

Definition peer_owner (p : Peer) : uuid * uuid := (p_NodeID p, p_ProfileID p).
Definition node_owner (n : Node) : uuid * option uuid := (n_ID n, n_ProfileID n).

(** What [owned] is about. *)
Definition same_owners (s s' : Store) : Prop :=
  peer_owner <$> st_peers s' = peer_owner <$> st_peers s /\ node_owner <$> st_nodes s' = node_owner <$> st_nodes s
  /\ st_profiles s' = st_profiles s.

Lemma same_owners_refl s : same_owners s s.
Proof. done. Qed.

Lemma same_owners_trans s1 s2 s3 : same_owners s1 s2 -> same_owners s2 s3 -> same_owners s1 s3.
Proof. intros (A1 & A2 & A3) (B1 & B2 & B3). split_and!; congruence. Qed.

Lemma fmap_elem_eq {A B} (g : A -> B) (l l' : list A) x : g <$> l' = g <$> l -> x ∈ l' -> exists y, y ∈ l /\ g y = g x.
Proof.
  intros H Hx. assert (Hg : g x ∈ g <$> l') by (apply list_elem_of_fmap; by exists x). rewrite H in Hg.
  apply list_elem_of_fmap in Hg as (y & Hy & ?). by exists y.
Qed.

Lemma owned_same s s' : same_owners s s' -> owned s -> owned s'.
Proof.
  intros (Hp & Hn & Hr) [Hids Hpeers Hrows]. constructor; [| |by rewrite Hr].
  - assert (E : forall l, n_ID <$> l = fst <$> (node_owner <$> l)) by (intros l; by rewrite <- list_fmap_compose).
    by rewrite E, Hn, <- E.
  - intros p n Hin Hnin He. apply (fmap_elem_eq _ _ _ _ Hp) in Hin as (p0 & Hp0 & [= Ep1 Ep2]).
    apply (fmap_elem_eq _ _ _ _ Hn) in Hnin as (n0 & Hn0 & [= En1 En2]). rewrite <- En2, <- Ep2.
    apply Hpeers; congruence.
Qed.

Lemma union_absorb `{Countable A} (X Y : gset A) : X ⊆ Y -> X ∪ Y = Y.
Proof. set_solver. Qed.

Lemma union_absorb2 `{Countable A} (X V Y : gset A) : V ∪ X ⊆ Y -> X ∪ (V ∪ Y) = Y.
Proof. set_solver. Qed.

Section restart.
Context {W : Type} {EX : Executor W} {EL : ExecutorLaws W}.
Context (uuid_Parse : bytes -> option uuid) (uuid_String : uuid -> bytes) (Quote : bytes -> bytes).
Context (hash_create : CreatePeerRequest -> bytes -> bytes) (hash_revoke : uuid -> uuid -> bytes -> bytes).
Context (reason_json : bytes -> bytes) (X25519 : list Z -> result bytes (list Z)).
Context (sv : Service) (wk : Worker).

Local Abbreviation step := (sys_step (W := W) uuid_Parse uuid_String Quote hash_create hash_revoke reason_json X25519 sv wk).

Lemma owners_applyNode ctx now nodeID s w r s' w' :
  store_ok s -> applyNode uuid_String Quote wk ctx now nodeID (s, w) = (r, (s', w')) -> same_owners s s'.
Proof.
  intros Hs [[-> _]|H]%applyNode_inv; [done|].
  destruct H as (node & pid & row & cfg & w1 & w2 & ir & ps & _ & _ & _ & _ & _ & _ & _ & _ & _ & Hper).
  destruct (persistRuntime_spec now nodeID s ps Hs) as (m & Hm & _). rewrite Hm in Hper. injection Hper as <-.
  split_and!; [|done..]. cbn. unfold applied_peers. rewrite <- list_fmap_compose. apply list_fmap_ext.
  intros i q _. simpl. by case_decide.
Qed.

Lemma owners_RunOnce ctx now st :
  store_ok (fst st) -> same_owners (fst st) (fst (snd (RunOnce uuid_String Quote wk ctx now st))).
Proof.
  destruct st as [s w]. intros Hs. destruct ctx as [e|]; [done|]. rewrite RunOnce_run. destruct (next_job now s) as [row|]; [|done].
  cbv zeta. set (s0 := set_outbox _ s).
  assert (Hs0 : store_ok s0) by (pose proof (preserves_set_job (ob_ID row) (lease_row now (lease_for wk))) as Hp; by apply Hp).
  destruct (applyNode _ _ _ _ _ _ (s0, w)) as [r [s1 w1]] eqn:Ea. apply owners_applyNode in Ea; [|done].
  cbn [snd fst]. unfold settle. by destruct (j_OperationID _).
Qed.

Lemma owners_reconcile now ids st :
  store_ok (fst st) -> same_owners (fst st) (fst (snd (reconcile_nodes uuid_String Quote wk None now ids st))).
Proof.
  revert st. induction ids as [|id ids IH]; intros [s w] Hs; [done|]. cbn [reconcile_nodes]. unfold Reconcile.
  destruct (applyNode _ _ _ None now id (s, w)) as [r [s1 w1]] eqn:E.
  pose proof (preserves_applyNode _ _ _ _ _ _ _ _ _ _ _ Hs E) as Hs1. apply owners_applyNode in E; [|done].
  specialize (IH (s1, w1) Hs1). destruct (reconcile_nodes _ _ _ _ _ ids (s1, w1)) as [r' [s2 w2]].
  cbn in *. by eapply same_owners_trans.
Qed.

Lemma create_checks_owner ctx slug key req s tenant node profile s0 :
  create_checks uuid_Parse ctx slug key req s = (Ok (tenant, node, profile), s0) ->
  node ∈ st_nodes s /\ n_ProfileID node = Some (pp_ID profile).
Proof.
  unfold create_checks. do 2 (destruct (bool_decide _); [done|]). intros H.
  apply bind_inv in H as (t & s1 & Ht & H). apply bind_inv in H as ([] & s2 & Ha & H).
  assert (s1 = s) as -> by (unfold Tenants_GetBySlug in Ht; rewrite asks_bind in Ht; destruct (find _ _); by injection Ht).
  assert (s2 = s) as -> by (by injection Ha).
  apply bind_inv in H as (n & s3 & Hn & H). assert (Hin : n ∈ st_nodes s /\ s3 = s).
  { destruct (rq_NodeID req) as [raw|].
    - destruct (uuid_Parse raw) as [id|]; [|done]. unfold Nodes_GetByID in Hn. rewrite asks_bind in Hn.
      destruct (find_id _ _ _) as [n'|] eqn:E; [|done]. injection Hn as -> ->. by apply find_id_Some in E as [? _].
    - unfold PickFirst in Hn. rewrite asks_bind in Hn. destruct (first_by _ _) as [n'|] eqn:E; [|done].
      injection Hn as -> ->. by apply first_by_elem in E. }
  destruct Hin as [Hin ->]. destruct (n_ProfileID n) as [pid|] eqn:Ep; [|done].
  apply bind_inv in H as (pr & s4 & Hpr & H). unfold Profiles_GetByID in Hpr. rewrite asks_bind in Hpr.
  destruct (find_id _ _ _) as [r|] eqn:Er; [|done]. injection Hpr as <- <-. apply find_id_Some in Er as [_ Er].
  apply bind_inv in H as ([] & s5 & _ & H).
  assert (node = n /\ profile = scanProfile r) as [-> ->].
  { destruct (supplied_key req); [|destruct (ValidateKey _); [|done]]; by injection H. }
  split; [done|]. cbn [pp_ID scanProfile]. by rewrite Er.
Qed.

Lemma owned_step st st' : step st st' -> store_ok (fst st) -> owned (fst st) -> owned (fst st').
Proof.
  destruct 1 as [newID now p s w|newID now slug s w|newID now n s w|newID tid n cidr s w Hc|id now x s w
    |dr ctx slug key req s w|dr ctx slug pid key reason s w|ctx now st|ctx now [s w]|s w w']; intros Hs Ho; cbn [fst snd] in *.
  - unfold insertProfile. destruct (Validate p) eqn:Ev; [|done]. run_session. destruct (negb _); [|done]. destruct Ho as [H1 H2 H3].
    constructor; [done..|]. cbn. apply Forall_app. split; [done|]. constructor; [by apply profile_row_sound|constructor].
  - eapply owned_same; [|exact Ho]. unfold EnsureTenant, Tenants_Upsert. run_session. destruct (find _ _); [done|]. run_session. by destruct (negb _).
  - unfold insertNode. run_session. destruct (negb _) eqn:E; [|done]. run_session. destruct (profile_ref_ok _ _); [|done].
    apply negb_true_iff, orb_false_iff in E as [_ E]. destruct Ho as [H1 H2 H3]. constructor; [by eapply has_id_fresh| |done].
    cbn. intros p m Hp [Hm| ->%list_elem_of_singleton]%elem_of_app He; [by apply H2|]. exfalso. cbn in He.
    pose proof (so_refs _ Hs) as Hf. rewrite Forall_forall in Hf. specialize (Hf p Hp). unfold peer_refs_ok in Hf.
    apply andb_true_iff in Hf as [[_ Hf]%andb_true_iff _]. rewrite He in Hf. congruence.
  - eapply owned_same; [|exact Ho]. unfold createPool. run_session. destruct (negb _); [|done]. run_session. by destruct (_ && _).
  - eapply owned_same; [|exact Ho]. split_and!; [done| |done]. cbn. by apply fmap_update_id.
  - destruct (CreatePeer _ _ _ _ _ _ _ _ _ _ s) as [r s'] eqn:E.
    apply CreatePeer_outcome in E as [->|(tenant & node & profile & pub & priv & psk & peer & s1 & resp & _ & Hck & _ & _ & Ha & _ & _ & ->)]; [done|].
    apply create_checks_owner in Hck as [Hn Hp]. apply AllocateAndInsert_scan in Ha as (a & row & c & -> & -> & _); [|done].
    destruct Ho as [H1 H2 H3]. constructor; [done| |done]. cbn. intros p m [Hp'| ->%list_elem_of_singleton]%elem_of_app Hm He; [by apply H2|].
    cbn in *. by rewrite (unique_id n_ID (st_nodes s) m node) by done.
  - destruct (RevokePeer _ _ _ _ _ _ _ _ _ _ _ s) as [r s'] eqn:E.
    apply RevokePeer_outcome in E as [->|(tenant & id & p & _ & _ & _ & _ & _ & ->)]; [done|].
    eapply owned_same; [|exact Ho]. split_and!; [|done..]. cbn. by apply fmap_update_id.
  - eapply owned_same; [by apply owners_RunOnce|done].
  - eapply owned_same; [|exact Ho]. unfold ReconcileAll. destruct ctx as [e|]; [done|]. unfold on_db. cbn [asks].
    pose proof (owners_reconcile now (n_ID <$> Sorting.sort_Slice host_less (st_nodes s)) (s, w) Hs) as H.
    by destruct (reconcile_nodes _ _ _ _ _ _ (s, w)).
  - done.
Qed.

Lemma owned_reachable w0 st : rtc step (empty_store, w0) st -> store_ok (fst st) /\ owned (fst st).
Proof.
  intros H. assert (H0 : store_ok (fst (empty_store, w0)) /\ owned (fst (empty_store, w0))).
  { split; [apply empty_store_ok|]. constructor; [constructor|by intros ? ? ?%elem_of_nil|constructor]. }
  revert H0. induction H as [|x y z Hxy Hyz IH]; [done|]. intros [Hs Ho]. apply IH. split; [by eapply sys_step_ok|by eapply owned_step].
Qed.

(** C23: (Restarting is safe.) After any sequence of provisioning calls, requests, worker
    turns and reconciliations that began with an empty database, with the schema installed
    and every node given a profile, the upgrade that runs at the next start of a process finds nothing to do and
    nothing to refuse: it succeeds and changes nothing. *)
Theorem restart_keeps w0 d w fault :
  rtc step (empty_store, w0) (db_rows d, w) -> installed d -> quiet fault ->
  Forall (fun n => is_Some (n_ProfileID n)) (st_nodes (db_rows d)) -> Forall row_typed (st_profiles (db_rows d)) ->
  Migrate fault d = (Ok tt, d).
Proof.
  intros H (It & Ic & Ik) Hq Hn Ht. apply owned_reachable in H as [Hs [H1 H2 H3]]. cbn [fst] in *.
  pose proof (Migrate_run fault d) as Hm. destruct (Migrate fault d) as [[[]|e] d'].
  - destruct Hm as (-> & _ & _). f_equal. apply database_eq; cbn [migrated db_tables db_columns db_constraints db_rows].
    + exact (union_absorb _ _ It).
    + exact (union_absorb2 _ _ _ Ic).
    + exact (union_absorb _ _ Ik).
    + unfold backfilled. destruct (db_rows d) as [? nodes ? ? ? ? ? ? ? ?]. unfold set_nodes. cbn [st_nodes] in *. f_equal.
      rewrite <- (list_fmap_id nodes) at 2. apply list_fmap_ext. intros i n Hi. apply list_elem_of_lookup_2 in Hi.
      rewrite Forall_forall in Hn. destruct (Hn n Hi) as [p Hp]. unfold owner. rewrite Hp, <- Hp. apply with_profile_id.
  - exfalso. destruct Hm as [_ [?|[Hu|(name & ok & r & Hin & Hno & Hr & Hf)]]]; [done| |].
    + destruct Hu as [Hu|(_ & n & Hin & Hp & _)].
      * apply Hu. intros p q Hp Hq' He. pose proof (so_refs _ Hs) as Hf. rewrite Forall_forall in Hf. specialize (Hf p Hp).
        unfold peer_refs_ok in Hf. apply andb_true_iff in Hf as [[_ (n & Hin & Hid)%has_id_spec]%andb_true_iff _].
        pose proof (H2 p n Hp Hin (eq_sym Hid)) as E1. pose proof (H2 q n Hq' Hin) as E2. rewrite E2 in E1 by congruence. by injection E1.
      * rewrite Forall_forall in Hn. destruct (Hn n Hin) as [? ?]. congruence.
    + rewrite Forall_forall in H3, Ht. rewrite (row_checks r (Ht r Hr) (H3 r Hr) name ok Hin) in Hf. done.
Qed.
End restart.

(** (History refuses a start.) Whatever profile its node owns, two peers of one node with
    different profiles make every upgrade, and so every start of a process, fail. *)
Lemma history_refused fault d p q :
  p ∈ st_peers (db_rows d) -> q ∈ st_peers (db_rows d) -> p_NodeID p = p_NodeID q -> p_ProfileID p <> p_ProfileID q ->
  exists e, Migrate fault d = (Err e, d).
Proof.
  intros Hp Hq Hn Hd. pose proof (Migrate_run fault d) as H. destruct (Migrate fault d) as [[[]|e] d'].
  - destruct H as (_ & _ & Hr). destruct Hr. left. left. intros H. by apply Hd, H.
  - destruct H as [-> _]. by exists e.
Qed.

(** ** Concrete databases *)

Definition no_fault (c : db_call) : option error := None.

(** An installation of the first version: a node, its peer and their profile. *)
Definition demo_legacy : Database :=
  mkDatabase (list_to_set tables) ∅ ∅ (set_nodes (fmap (fun n => with_profile n None)) demo_live).

Lemma demo_legacy_ok : db_ok demo_legacy.
Proof.
  constructor.
  - apply (with_profiles_ok (fun _ => None)), demo_live_ok.
  - apply Forall_fmap. apply Forall_forall. intros n _. reflexivity.
  - intros name ok _ []%elem_of_empty.
Qed.

Lemma demo_legacy_accepted : ~ refused demo_legacy.
Proof. apply not_refused; change (db_rows demo_legacy) with (set_nodes (fmap (fun n => with_profile n None)) demo_live); vm_compute; reflexivity. Qed.

Lemma Migrate_spec_witness :
  exists d', Migrate no_fault demo_legacy = (Ok tt, d') /\ upgraded demo_legacy d'
    /\ (n_ProfileID <$> st_nodes (db_rows (migrated demo_legacy))) = [Some 7%N].
Proof.
  pose proof (Migrate_spec no_fault demo_legacy demo_legacy_ok) as H.
  destruct (Migrate no_fault demo_legacy) as [[[]|e] d'].
  - exists d'. split; [reflexivity|]. split; [exact (proj1 (proj2 H))|]. cbn [migrated db_rows]. vm_compute. reflexivity.
  - destruct H as [_ [H|H]]; [destruct H; repeat constructor|destruct (demo_legacy_accepted H)].
Defined.

Definition demo_after_turn : Store * FakeExecutor :=
  snd (RunOnce demo_uuid_String (fun b => b) demo_worker None 200 (demo_created, demo_world)).

Definition demo_upgraded : Database :=
  mkDatabase (list_to_set tables) (list_to_set ((#"vpn_nodes", #"profile_id") :: (pair #"protocol_profiles" <$> v31_columns)))
    (list_to_set profile_constraints.*1) (fst demo_after_turn).

Lemma restart_keeps_witness : Migrate no_fault demo_upgraded = (Ok tt, demo_upgraded).
Proof.
  apply (restart_keeps demo_uuid_Parse demo_uuid_String (fun b => b) demo_hash demo_hash_revoke (fun b => b)
           demo_X25519 demo_service demo_worker demo_world demo_upgraded (snd demo_after_turn)).
  - change (db_rows demo_upgraded) with (fst demo_after_turn).
    eapply rtc_l; [apply (sys_profile _ _ _ _ _ _ _ _ _ 7 0 demo_profile)|].
    eapply rtc_l; [apply (sys_tenant _ _ _ _ _ _ _ _ _ 1 0 #"acme")|].
    eapply rtc_l; [apply (sys_node _ _ _ _ _ _ _ _ _ 2 0 demo_node)|].
    eapply rtc_l; [apply (sys_pool _ _ _ _ _ _ _ _ _ 3 1 2 demo_pool); apply (bool_decide_unpack _); vm_compute; exact I|].
    eapply rtc_l; [apply (sys_create _ _ _ _ _ _ _ _ _ (demo_draws 100 9) (Some demo_admin) #"acme" #"k1" (demo_request #"bob"))|].
    eapply rtc_l; [apply (sys_run _ _ _ _ _ _ _ _ _ None 200)|].
    match goal with |- rtc _ ?a ?b => assert (a = b) as ->; [vm_compute; reflexivity|apply rtc_refl] end.
  - split_and!; reflexivity.
  - repeat constructor.
  - change (db_rows demo_upgraded) with (fst demo_after_turn). apply (bool_decide_unpack _). vm_compute. exact I.
  - change (db_rows demo_upgraded) with (fst demo_after_turn).
    assert (H : forallb (fun r => forallb (fun c => snd c r) u16_constraints) (st_profiles (fst demo_after_turn)) = true)
      by (vm_compute; reflexivity).
    apply Forall_forall. intros r Hr name ok Hin. exact (forallb_elem _ _ _ (forallb_elem _ _ _ H Hr) Hin).
Defined.
