(* ===== verification/Startup.v ===== *)
(** * Startup: how the binaries come up ([cmd/*/main.go], [internal/server], [internal/obs])

    The three programs from their flags and environment to the moment they serve:
    logging and metrics ([obs.go]), the connection pool ([NewDB], [Close] of
    [repo/db.go]), assembling the API ([BuildAPI]), choosing an executor, and the
    commands of [awg-api] that print something and exit.  The values of the flags,
    once parsed, are an argument. *)

From S2P Require Import Prelude GoStrings Strconv Times Json Errors Effects Files Float64 RateLimit Profile Netip NetText Ipam Crypto Auth Tokens Config AwgConfig Render Executor CliExecutor FakeExecutor NodeAgent Store Service Hashes HttpApi Bootstrap Worker Migrations.

(** ** Logging and metrics *)

Inductive Level : Type := LevelDebug | LevelInfo | LevelWarn | LevelError.

Record Logger : Type := mkLogger { lg_Level : Level; lg_JSON : bool }.

Definition NewLogger (level : bytes) (jsonFmt : bool) : Logger :=
  let l := ToLower level in
  mkLogger (if bool_decide (l = #"debug") then LevelDebug
            else if bool_decide (l = #"warn") then LevelWarn
            else if bool_decide (l = #"error") then LevelError
            else LevelInfo) jsonFmt.

Inductive MetricKind : Type := KCounterVec | KHistogramVec | KCounter | KGauge.

Record Metric : Type := mkMetric { mt_Kind : MetricKind; mt_Name : bytes; mt_Help : bytes; mt_Labels : list bytes }.

(** The metrics in the order they are registered. *)
Definition control_plane_metrics : list Metric :=
  [ mkMetric KCounterVec #"api_requests_total" #"Number of HTTP requests by route and status." [ #"route"; #"status" ];
    mkMetric KCounterVec #"api_errors_total" #"Number of API errors by code." [ #"code" ];
    mkMetric KHistogramVec #"api_request_duration_seconds" #"Request duration in seconds." [ #"route" ];
    mkMetric KCounter #"idempotency_replay_total" #"Number of idempotency replays." [];
    mkMetric KCounter #"rate_limit_rejections_total" #"Number of rate-limit rejections." [];
    mkMetric KGauge #"outbox_pending_total" #"Pending outbox jobs." [];
    mkMetric KGauge #"outbox_lag_seconds" #"Age of the oldest pending outbox job in seconds." [];
    mkMetric KCounterVec #"reconcile_runs_total" #"Reconcile runs by node." [ #"node_id" ];
    mkMetric KCounterVec #"reconcile_failures_total" #"Reconcile failures by node." [ #"node_id" ];
    mkMetric KGauge #"runtime_drift_peers_total" #"Peers whose runtime state drifted from desired." [];
    mkMetric KCounterVec #"node_apply_failures_total" #"Per-node apply failures." [ #"node_id" ] ].

(** [MustRegister] panics unless the registry accepts all of them. *)
Definition NewMetrics (accepts : list Metric -> bool) : option (list Metric) :=
  if accepts control_plane_metrics then Some control_plane_metrics else None.

(** ** The process *)

(** Its files, its database and the number of connection pools it has open. *)
Record Process : Type := mkProcess { ps_fs : FS; ps_db : Database; ps_open : Z }.

Definition at_db {A} (m : SE Database A) : SE Process A :=
  fun p => let '(r, d) := m (ps_db p) in (r, mkProcess (ps_fs p) d (ps_open p)).

Definition at_rows {A} (m : SE (FS * Store) A) : SE Process A :=
  fun p => let d := ps_db p in
           let '(r, (fs, s)) := m (ps_fs p, db_rows d) in
           (r, mkProcess fs (mkDatabase (db_tables d) (db_columns d) (db_constraints d) s) (ps_open p)).

Record DB : Type := mkDB { pool_MaxConns : Z; pool_MaxConnLifetime : Z; pool_HealthCheckPeriod : Z }.

(** How the calls to pgxpool go: the DSN, opening the pool, the first ping. *)
Record Dial : Type := mkDial {
  dl_ParseConfig : bytes -> result error unit;
  dl_NewWithConfig : result error unit;
  dl_Ping : result error unit }.

Definition Close (p : Process) : Process := mkProcess (ps_fs p) (ps_db p) (ps_open p - 1).

Definition NewDB (dl : Dial) (dsn : bytes) : SE Process DB :=
  wrapping #"parse pgx config: " (of_result (dl_ParseConfig dl dsn)) ;;
  wrapping #"connect: " (of_result (dl_NewWithConfig dl)) ;;
  modify (fun p => mkProcess (ps_fs p) (ps_db p) (ps_open p + 1)) ;;
  match dl_Ping dl with
  | Err e => modify Close ;; fail (EWrap #"ping: " e [])
  | Ok _ => mret (mkDB 20 (30 * 60 * 1000000000) (30 * 1000000000))
  end.

(** [if err := m; err != nil { db.Close(); return fmt.Errorf(pre, err) }] *)
Definition closing {A} (pre : bytes) (m : SE Process A) : SE Process A := fun p =>
  match m p with
  | (Err e, p') => (Err (EWrap pre e []), Close p')
  | r => r
  end.

(** How a call ends: with a value, an error, a panic, or not at all. *)
Inductive run_of (A : Type) : Type := Returned (a : A) | Failed_with (e : error) | Panicked_with (e : error) | Runs_on.
Arguments Returned {A} a. Arguments Failed_with {A} e. Arguments Panicked_with {A} e. Arguments Runs_on {A}.

(** ** The API server *)

Section startup.
Context {fenv : FileEnv}.
(** [os.LookupEnv], [os.ReadFile] and [runtime.GOOS]. *)
Context (E : bytes -> option bytes) (ReadFile : bytes -> result error bytes) (GOOS : bytes).
(** Text and key functions of the libraries. *)
Context (uuid_Parse : bytes -> option uuid) (uuid_String : uuid -> bytes) (Quote prefix_error : bytes -> bytes).
Context (X25519 : list Z -> result bytes (list Z)).
(** The offset of the process's zone at an instant, and RFC 3339 syntax. *)
Context (zone : Z -> Z) (time_parse : bytes -> option Time).
Context (json_error : bytes -> bytes) (out_of_range : float64 -> Z).
(** PEM, X.509 and JWT. *)
Context (pem_Decode : bytes -> option (Block * bytes)).
Context (ParsePKIXPublicKey : bytes -> result error crypto_key) (ParsePKCS1PublicKey : bytes -> result error N)
        (ParseCertificate : bytes -> result error crypto_key) (type_name : crypto_key -> bytes).
Context (SignedString : bytes -> gmap bytes claim -> MapClaims -> bytes -> result error bytes).
Context (ParseWithClaims : Parser -> (Token -> result error crypto_key) -> bytes -> result error (option Token * MapClaims)).
(** chi's matching of paths, the Prometheus registry and its handler. *)
Context (route : bytes -> bytes -> routed) (accepts : list Metric -> bool) (HandlerFor : list Metric -> handler (L := TokenBucket)).
(** URLs and TLS material. *)
Context (url_Parse : bytes -> option (bytes * bytes)) (LoadX509KeyPair : bytes -> bytes -> result error (bytes * bytes))
        (AppendCertsFromPEM : bytes -> bool).

#[local] Instance bucket_limiter : Limiter TokenBucket := TokenBucket_Limiter out_of_range.

Definition Getenv (k : bytes) : bytes := default [] (E k).

(** An [http.Server]; the times are in nanoseconds. *)
Record HttpServer : Type := mkHttpServer {
  hs_Addr : bytes;
  hs_Handler : Turn -> HttpRequest -> Store * option TokenBucket -> HttpApi.outcome * (Store * option TokenBucket);
  hs_ReadHeaderTimeout : Z;
  hs_ReadTimeout : Z;
  hs_WriteTimeout : Z;
  hs_IdleTimeout : Z }.

Record Built : Type := mkBuilt {
  bt_Logger : Logger;
  bt_Metrics : list Metric;
  bt_DB : DB;
  bt_Service : Service;
  bt_Validator : Validator;
  bt_Limiter : TokenBucket;
  bt_Server : HttpServer }.

Definition register_panic : error := EMsg #"duplicate metrics collector registration attempted".

(** The database part: connect, upgrade, seed. *)
Definition open_database (dl : Dial) (faults : db_call -> option error) (dr : SeedDraws) (cfg : Config) : SE Process DB :=
  db ← wrapping #"db: " (NewDB dl (c_DatabaseURL cfg));
  closing #"migrate: " (at_db (Migrate faults)) ;;
  closing #"bootstrap: " (at_rows (RunIfEmpty Quote prefix_error X25519 dr (EnvDefaults E))) ;;
  mret db.

(** Times read from the database are in the process's zone. *)
Definition row_time (t : Z) : option bytes := MarshalTime (mkTime t (zone t)).

Definition api_server (cfg : Config) (svc : Service) (validator : Validator) (metrics : list Metric) : HttpServer :=
  mkHttpServer (c_HTTPAddr cfg)
    (serve_http uuid_Parse uuid_String create_hash (revoke_hash uuid_String) reason_payload X25519 svc row_time time_parse json_error out_of_range
       (fun now => validator_Validate uuid_Parse Quote ParseWithClaims now validator) route (Some (HandlerFor metrics)))
    (10 * 1000000000) (30 * 1000000000) (30 * 1000000000) (60 * 1000000000).

Definition BuildAPI (dl : Dial) (faults : db_call -> option error) (dr : SeedDraws) (cfg : Config) (p : Process)
    : run_of Built * Process :=
  let logger := NewLogger (c_LogLevel cfg) (c_LogJSON cfg) in
  match NewMetrics accepts with
  | None => (Panicked_with register_panic, p)
  | Some metrics =>
      match open_database dl faults dr cfg p with
      | (Err e, p') => (Failed_with e, p')
      | (Ok db, p') =>
          let svc := mkService (c_IdempotencyTTL cfg) (c_ClientDNS cfg) in
          match buildJWTValidator pem_Decode ParsePKIXPublicKey ParsePKCS1PublicKey ParseCertificate Quote type_name cfg with
          | None => (Runs_on, p')
          | Some (Err e) => (Failed_with e, Close p')
          | Some (Ok validator) =>
              let limiter := NewTokenBucket (c_RateCapacity cfg) (c_RateRefillPerS cfg) in
              (Returned (mkBuilt logger metrics db svc validator limiter (api_server cfg svc validator metrics)), p')
          end
      end
  end.

(** ** Executors *)

(** The implementations of [awg.Executor] a process can come up with. *)
Inductive ExecChoice : Type :=
| UseRemote (baseURL : bytes) (tls : TLSConfig)
| UseCLI (c : CLIExecutor)
| UseFake (f : FakeExecutor).

Local Abbreviation NewRemote := (NewRemoteExecutor url_Parse LoadX509KeyPair ReadFile AppendCertsFromPEM).
Local Abbreviation NewInsecure := (NewInsecureRemoteExecutor url_Parse LoadX509KeyPair ReadFile AppendCertsFromPEM).

(** The agent at [NODE_AGENT_URL]; both binaries choose alike. *)
Definition remote_choice (cfg : Config) : result error ExecChoice :=
  '(base, tls) ← (if bool_decide (Getenv #"NODE_AGENT_INSECURE_HTTP" = #"true") then NewInsecure (c_NodeAgentURL cfg)
                 else NewRemote (c_NodeAgentURL cfg) (Getenv #"WORKER_TLS_CERT") (Getenv #"WORKER_TLS_KEY") (Getenv #"WORKER_CA_BUNDLE"));
  Ok (UseRemote base tls).

Definition cli_choice (dir : bytes) : ExecChoice :=
  UseCLI (mkCLI (AwgBinary NewCLIExecutor) (AwgQuickBinary NewCLIExecutor) (RenderedDir NewCLIExecutor) dir).

(** Of the embedded worker of [awg-api]; an error is a panic. *)
Definition buildExecutor (cfg : Config) : result error ExecChoice :=
  if bool_decide (c_EmbeddedWorkerExec cfg = #"remote") then
    if negb (bool_decide (c_NodeAgentURL cfg = [])) then remote_choice cfg
    else Ok (UseFake NewFakeExecutor)
  else if bool_decide (c_EmbeddedWorkerExec cfg = #"cli") then
    if bool_decide (GOOS = #"linux") then Ok (cli_choice (c_BootstrapConfigDir cfg))
    else Ok (UseFake NewFakeExecutor)
  else Ok (UseFake NewFakeExecutor).

(** Of [awg-worker]. *)
Definition worker_executor (cfg : Config) : result error ExecChoice :=
  if negb (bool_decide (c_NodeAgentURL cfg = [])) && negb (bool_decide (c_NodeAgentURL cfg = #"http://127.0.0.1:8081"))
  then remote_choice cfg
  else if bool_decide (GOOS = #"linux") then Ok (cli_choice (c_BootstrapConfigDir cfg))
  else Ok (UseFake NewFakeExecutor).

(** Of [awg-node-agent]. *)
Definition agent_executor : ExecChoice :=
  if bool_decide (GOOS = #"linux") then
    match Getenv #"BOOTSTRAP_CONF_DIR" with
    | [] => UseCLI NewCLIExecutor
    | dir => cli_choice dir
    end
  else UseFake NewFakeExecutor.

(** ** The binaries *)

Definition endpointHost (endpoint : bytes) : bytes :=
  let endpoint := TrimSpace endpoint in
  match SplitHostPort endpoint with
  | Some (host, _) => host
  | None => endpoint
  end.

(** The flags of [awg-api]. *)
Record Flags : Type := mkFlags {
  fl_devToken : bool;
  fl_devTokenTTL : Z;
  fl_provisionV31 : bool;
  fl_v31Tenant : bytes;
  fl_v31Profile : bytes;
  fl_v31Region : bytes;
  fl_v31Hostname : bytes;
  fl_v31Endpoint : bytes;
  fl_v31Port : Z;
  fl_v31Iface : bytes;
  fl_v31Pool : bytes;
  fl_v31NAT : bool;
  fl_v31Egress : bytes }.

(** What the flags are when none is given. *)
Definition default_flags : Flags :=
  let d := EnvDefaults E in
  mkFlags false (3600 * 1000000000) false (d_TenantSlug d) #"default-v31" (d_NodeRegion d) #"awg-node-31"
    (endpointHost (d_NodeEndpoint d)) 38824 #"awg31" #"10.201.0.0/24" (d_EnableNAT d) (d_EgressIface d).

Definition v31_options (cfg : Config) (fl : Flags) : V31NodeOptions :=
  mkV31Options (fl_v31Tenant fl) (fl_v31Profile fl) (fl_v31Region fl) (fl_v31Hostname fl) (fl_v31Endpoint fl) (fl_v31Port fl)
    (fl_v31Iface fl) (fl_v31Pool fl) (c_BootstrapConfigDir cfg) (fl_v31NAT fl) (fl_v31Egress fl).

(** The JSON of a result, which the encoder indents. *)
Definition json_V31NodeResult (r : V31NodeResult) : json :=
  JObj [ (#"tenant_id", JStr (uuid_String (vr_TenantID r))); (#"profile_id", JStr (uuid_String (vr_ProfileID r)));
         (#"node_id", JStr (uuid_String (vr_NodeID r))); (#"pool_id", JStr (uuid_String (vr_PoolID r)));
         (#"profile_name", JStr (vr_ProfileName r)); (#"node_hostname", JStr (vr_NodeHostname r));
         (#"interface_name", JStr (vr_InterfaceName r)); (#"public_endpoint", JStr (vr_PublicEndpoint r));
         (#"pool_cidr", JStr (vr_PoolCIDR r)); (#"config_path", JStr (vr_ConfigPath r));
         (#"server_public_key", JStr (vr_ServerPublicKey r)) ].

Inductive Output : Type := PrintJSON (j : json) | PrintLine (s : bytes).

(** What a program comes to: it prints something and ends, exits with a code and a
    message, panics, or serves - the API with the worker embedded in it, if any. *)
Inductive Ended : Type :=
| Printed (out : Output)
| Exited (code : Z) (stderr : bytes)
| Crashed (e : error)
| Serving (b : Built) (worker : option (Worker * bool * ExecChoice))
| Working (w : Worker) (reconcile : bool) (ex : ExecChoice)
| Listening (addr : bytes) (ex : ExecChoice) (pair : option (bytes * bytes)) (tls : option TLSConfig)
| Endless.

Definition exitCLI (step : bytes) (err : error) : Ended :=
  Exited 1 (#"awg-api: " ++ step ++ #": " ++ err_Error err ++ [nl]).

Definition load : result error Config := Load E ReadFile out_of_range.

(** What one run of [awg-api] meets outside: the pool, the database, what the
    provisioning draws and how its commit and the output go, the clock, the ids of a
    token. *)
Record Outside : Type := mkOutside {
  out_dial : Dial;
  out_faults : db_call -> option error;
  out_draws : SeedDraws;
  out_commit : result error unit;
  out_stdout : result error unit;
  out_now : Z;
  out_subject : uuid;
  out_jti : uuid }.

Definition provision_command (o : Outside) (cfg : Config) (fl : Flags) (p : Process) : Ended * Process :=
  match NewDB (out_dial o) (c_DatabaseURL cfg) p with
  | (Err e, p) => (exitCLI #"connect database" e, p)
  | (Ok _, p) =>
      match at_db (Migrate (out_faults o)) p with
      | (Err e, p) => (exitCLI #"migrate database" e, p)
      | (Ok _, p) =>
          match at_rows (ProvisionV31Node Quote prefix_error X25519 (out_draws o) (out_commit o) (v31_options cfg fl)) p with
          | (Err e, p) => (exitCLI #"provision V3.1 node" e, p)
          | (Ok result, p) =>
              match out_stdout o with
              | Err e => (exitCLI #"write provisioning result" e, p)
              | Ok _ => (Printed (PrintJSON (json_V31NodeResult result)), Close p)
              end
          end
      end
  end.

Definition dev_principal (o : Outside) : Principal := mkPrincipal (out_subject o) uuid_Nil [RolePlatformAdmin] [] [] [].

Definition token_command (o : Outside) (cfg : Config) (fl : Flags) : Ended :=
  match IssueDevToken uuid_String SignedString (out_now o) (out_jti o) (c_JWTSecret cfg) (c_JWTIssuer cfg) (c_JWTAudience cfg)
          (dev_principal o) (fl_devTokenTTL fl) with
  | Err e => Crashed e
  | Ok tok => Printed (PrintLine tok)
  end.

(** The worker of a process; its executor, and whether it reconciles first. *)
Definition new_worker (cfg : Config) : Worker := mkWorker (c_BootstrapConfigDir cfg) 0.

Definition serve_command (o : Outside) (cfg : Config) (p : Process) : Ended * Process :=
  match BuildAPI (out_dial o) (out_faults o) (out_draws o) cfg p with
  | (Panicked_with e, p') | (Failed_with e, p') => (Crashed e, p')
  | (Runs_on, p') => (Endless, p')
  | (Returned built, p') =>
      if c_EnableEmbeddedWorker cfg then
        match buildExecutor cfg with
        | Err e => (Crashed e, Close p')
        | Ok ex => (Serving built (Some (new_worker cfg, c_ReconcileOnStart cfg, ex)), p')
        end
      else (Serving built None, p')
  end.

(** [awg-api] *)
Definition main_api (o : Outside) (fl : Flags) (p : Process) : Ended * Process :=
  match load with
  | Err e => (Crashed e, p)
  | Ok cfg =>
      if fl_provisionV31 fl then provision_command o cfg fl p
      else if fl_devToken fl then (token_command o cfg fl, p)
      else serve_command o cfg p
  end.

(** [awg-worker] *)
Definition main_worker (o : Outside) (p : Process) : Ended * Process :=
  match load with
  | Err e => (Crashed e, p)
  | Ok cfg =>
      match NewDB (out_dial o) (c_DatabaseURL cfg) p with
      | (Err e, p) => (Crashed e, p)
      | (Ok _, p) =>
          match at_db (Migrate (out_faults o)) p with
          | (Err e, p) => (Crashed e, Close p)
          | (Ok _, p) =>
              match worker_executor cfg with
              | Err e => (Crashed e, Close p)
              | Ok ex => (Working (new_worker cfg) (c_ReconcileOnStart cfg) ex, p)
              end
          end
      end
  end.

Definition envDefault (k d : bytes) : bytes := default d (E k).

Definition agent_config : ServerConfig :=
  mkServerConfig (envDefault #"AGENT_ADDR" #":8081") true (Getenv #"AGENT_TLS_CERT") (Getenv #"AGENT_TLS_KEY")
    (Getenv #"AGENT_CLIENT_CA_BUNDLE") (bool_decide (envDefault #"AGENT_INSECURE_HTTP" #"false" = #"true")).

(** [awg-node-agent]: the address, the executor behind the handlers, and the files it
    serves TLS with, none for plain HTTP. *)
Definition main_agent : Ended :=
  match NewServer ReadFile AppendCertsFromPEM agent_config with
  | Err e => Crashed e
  | Ok tls => Listening (sc_Addr agent_config) agent_executor
                (ListenAndServe tls (sc_TLSCertFile agent_config) (sc_TLSKeyFile agent_config)) tls
  end.
End startup.
