(* ===== verification/StartupFacts.v ===== *)
(** * StartupFacts: what a started program has and has not done

    The API comes up on an upgraded and seeded database with the validator its settings
    chose, or not at all and without a pool left open; the executors and the agent speak
    plain HTTP only when that was asked for; the provisioning command and the token
    command do what their libraries promise. *)

From S2P Require Import Prelude GoStrings Strconv Times Json Errors Effects Files Float64 RateLimit Profile Netip NetText Ipam Crypto Auth Tokens Config AwgConfig Render Executor CliExecutor FakeExecutor NodeAgent NodeAgentFacts Store StoreFacts Service ServiceFacts Hashes HttpApi HttpFacts Bootstrap BootstrapFacts Worker Migrations Startup.

(** ** Rows that meet every constraint *)

Record rows_ok (s : Store) : Prop := {
  ro_store : store_ok s;
  ro_nodes : Forall (fun n => profile_ref_ok s (n_ProfileID n) = true) (st_nodes s);
  ro_typed : Forall row_typed (st_profiles s);
  ro_sound : Forall row_sound (st_profiles s) }.

Lemma rows_ok_of d : installed d -> db_ok d -> rows_ok (db_rows d).
Proof.
  intros (_ & _ & Hi) [Hs Hn Hc].
  assert (Hall : forall name ok r, (name, ok) ∈ profile_constraints -> r ∈ st_profiles (db_rows d) -> ok r = true).
  { intros name ok r Hin Hr. eapply forallb_elem; [|exact Hr]. apply (Hc name); [done|]. apply Hi, elem_of_list_to_set.
    by apply (list_elem_of_fmap_2 fst) in Hin. }
  constructor; [done..| |]; apply Forall_forall; intros r Hr name ok Hin; apply (Hall name); try done;
    unfold profile_constraints; apply elem_of_app; [by left|by right].
Qed.

Lemma db_ok_of d : rows_ok (db_rows d) -> db_ok d.
Proof.
  intros [Hs Hn Ht Hd]. constructor; [done..|]. intros name ok Hin _. apply forallb_forall. intros r Hr%list_elem_of_In.
  rewrite Forall_forall in Ht, Hd. by apply (row_checks r (Ht r Hr) (Hd r Hr) name).
Qed.

Lemma rangeDB_typed en r : u16_typed r -> u16_check (fst (rangeDB en r)) = true /\ u16_check (snd (rangeDB en r)) = true.
Proof.
  intros [H1 H2]. unfold rangeDB. destruct (negb en || _); [done|]. cbn.
  rewrite !andb_true_iff, !Z.leb_le. lia.
Qed.

Lemma profile_row_typed newID now p : typed_profile p -> row_typed (profile_row newID now p).
Proof.
  unfold typed_profile. rewrite !Forall_cons. intros H name ok Hin. destruct_and! H.
  unfold u16_constraints, range_columns in Hin. cbn [mbind list_bind app] in Hin. rewrite !elem_of_cons, elem_of_nil in Hin.
  destruct_or? Hin; try done; injection Hin as -> ->; cbn; by apply rangeDB_typed.
Qed.

(** ** Statements that keep them *)

Definition keeps_rows {A} (m : SE (FS * Store) A) : Prop := forall st, rows_ok (snd st) -> rows_ok (snd (snd (m st))).

Lemma keeps_ret {A} (a : A) : keeps_rows (mret a).
Proof. by intros st H. Qed.

Lemma keeps_fail {A} e : keeps_rows (fail e : SE _ A).
Proof. by intros st H. Qed.

Lemma keeps_bind {A B} (m : SE (FS * Store) A) (f : A -> SE (FS * Store) B) :
  keeps_rows m -> (forall a, keeps_rows (f a)) -> keeps_rows (m ≫= f).
Proof.
  intros Hm Hf st Hs. specialize (Hm st Hs). unfold mbind, SE_bind. destruct (m st) as [[a|e] st']; [|done]. by apply Hf.
Qed.

Lemma keeps_result {A B} (x : result error A) (f : A -> SE (FS * Store) B) :
  (forall a, x = Ok a -> keeps_rows (f a)) -> keeps_rows (of_result x ≫= f).
Proof. intros Hf st Hs. unfold of_result, mbind, SE_bind. destruct x; [by apply Hf|done]. Qed.

Lemma keeps_wrapped_result {A B} pre (x : result error A) (f : A -> SE (FS * Store) B) :
  (forall a, x = Ok a -> keeps_rows (f a)) -> keeps_rows (wrapping pre (of_result x) ≫= f).
Proof. intros Hf st Hs. unfold of_result, wrapping, mbind, SE_bind. destruct x; [by apply Hf|done]. Qed.

Lemma keeps_asks {A B} (g : FS * Store -> A) (f : A -> SE (FS * Store) B) : (forall a, keeps_rows (f a)) -> keeps_rows (asks g ≫= f).
Proof. intros Hf st Hs. by apply Hf. Qed.

Lemma keeps_store {A} pre (m : SE Store A) : (forall s, rows_ok s -> rows_ok (snd (m s))) -> keeps_rows (wrapping pre (on_store m)).
Proof.
  intros Hm [fs s] Hs. specialize (Hm s Hs). unfold wrapping, on_store. by destruct (m s) as [[a|e] s'].
Qed.

Lemma keeps_files {A} pre (m : SE FS A) : keeps_rows (wrapping pre (on_files m)).
Proof. intros [fs s] Hs. unfold wrapping, on_files. by destruct (m fs) as [[a|e] fs']. Qed.

Create HintDb rows.
#[local] Hint Resolve keeps_ret keeps_fail keeps_files : rows.

Lemma rows_Upsert newID now slug s : rows_ok s -> rows_ok (snd (Tenants_Upsert newID now slug s)).
Proof.
  intros [H1 H2 H3 H4]. pose proof (preserves_Upsert newID now slug s H1) as H. revert H.
  unfold Tenants_Upsert. run_session. destruct (find _ _); [done|]. run_session. by destruct (negb _).
Qed.

Lemma ref_mono s r p : profile_ref_ok s p = true -> profile_ref_ok (set_profiles (fun l => l ++ [r]) s) p = true.
Proof. destruct p as [x|]; [|done]. cbn. unfold has_id. rewrite existsb_app. by intros ->. Qed.

Lemma rows_insertProfile newID now p s : typed_profile p -> rows_ok s -> rows_ok (snd (insertProfile newID now p s)).
Proof.
  intros Ht [H1 H2 H3 H4]. pose proof (preserves_InsertProfile newID now p s H1) as Hs.
  destruct (insertProfile newID now p s) as [r s'] eqn:E. apply insertProfile_inv in E as [(e & _ & ->)|(Hv & _ & ->)]; [done|].
  constructor; [done| | |]; cbn.
  - eapply Forall_impl; [exact H2|]. intros n. apply ref_mono.
  - apply Forall_app. split; [done|]. constructor; [by apply profile_row_typed|constructor].
  - apply Forall_app. split; [done|]. constructor; [by apply profile_row_sound|constructor].
Qed.

Lemma rows_insertNode newID now n s : rows_ok s -> rows_ok (snd (insertNode newID now n s)).
Proof.
  intros [H1 H2 H3 H4]. pose proof (preserves_insertNode newID now n s H1) as Hs. revert Hs.
  unfold insertNode. run_session. destruct (negb _); [|done]. run_session. destruct (profile_ref_ok _ _) eqn:E; [|done].
  cbn. intros Hs. constructor; [done| |done..]. apply Forall_app. split; [done|]. by constructor.
Qed.

Lemma rows_createPool newID t n cidr s : prefix_ok cidr -> rows_ok s -> rows_ok (snd (createPool newID t n cidr s)).
Proof.
  intros Hc [H1 H2 H3 H4]. pose proof (preserves_createPool newID t n cidr Hc s H1) as Hs. revert Hs.
  unfold createPool. run_session. destruct (negb _); [|done]. run_session. by destruct (_ && _).
Qed.

Lemma default_profile_typed name : typed_profile (default_profile name).
Proof. unfold typed_profile, u16_typed. rewrite !Forall_cons. cbn. split_and!; try lia. constructor. Qed.

Lemma keeps_RunIfEmpty `{FileEnv} Quote prefix_error X25519 dr d : keeps_rows (RunIfEmpty Quote prefix_error X25519 dr d).
Proof.
  unfold RunIfEmpty. destruct (negb _); [auto with rows|]. destruct (bool_decide _); [auto with rows|].
  apply keeps_result. intros cidr Hc. apply keeps_asks. intros tenants. destruct (negb _); [auto with rows|].
  apply parseCIDR_ok in Hc.
  apply keeps_bind; [apply keeps_store; intros; by apply rows_Upsert|]. intros t.
  apply keeps_bind; [apply keeps_store; intros; apply rows_insertProfile; [apply default_profile_typed|done]|]. intros p.
  apply keeps_wrapped_result. intros kp _.
  apply keeps_bind; [apply keeps_store; intros; by apply rows_insertNode|]. intros n.
  apply keeps_bind; [apply keeps_store; intros; by apply rows_createPool|]. intros _. auto with rows.
Qed.

(** ** Metrics *)

Definition name_start (c : ascii) : bool :=
  let n := code c in ((97 <=? n) && (n <=? 122)) || ((65 <=? n) && (n <=? 90)) || (n =? 95).
Definition name_rest (c : ascii) : bool := let n := code c in name_start c || ((48 <=? n) && (n <=? 57)).

(** The documented syntax of names and labels, and what a registry refuses. *)
Definition metric_name (s : bytes) : bool :=
  match s with c :: rest => name_start c && forallb name_rest rest | [] => false end.
Definition registrable (l : list Metric) : Prop :=
  NoDup (mt_Name <$> l)
  /\ Forall (fun m => metric_name (mt_Name m) = true /\ forallb metric_name (mt_Labels m) = true
                      /\ Forall (fun n => HasPrefix n #"__" = false) (mt_Labels m) /\ NoDup (mt_Labels m)) l.

Lemma metrics_registrable : registrable control_plane_metrics.
Proof. split; apply (bool_decide_unpack _); vm_compute; exact I. Qed.

(** ** Connecting *)

Lemma process_eta p : mkProcess (ps_fs p) (ps_db p) (ps_open p) = p.
Proof. by destruct p. Qed.

Definition opened (p : Process) : Process := mkProcess (ps_fs p) (ps_db p) (ps_open p + 1).

Lemma Close_opened p : Close (opened p) = p.
Proof. unfold Close, opened. cbn. rewrite Z.add_simpl_r. apply process_eta. Qed.

Lemma NewDB_cases dl dsn p :
  match NewDB dl dsn p with
  | (Ok _, p') => p' = opened p
  | (Err _, p') => p' = p
  end.
Proof.
  unfold NewDB, wrapping, of_result, mbind, SE_bind, modify. destruct (dl_ParseConfig dl dsn), (dl_NewWithConfig dl), (dl_Ping dl); try done.
  cbn. apply Close_opened.
Qed.

(** After the upgrade, and with whatever files and rows the seeding leaves. *)
Lemma at_db_Migrate faults p :
  db_ok (ps_db p) ->
  match at_db (Migrate faults) p with
  | (Ok _, p') => exists d, p' = mkProcess (ps_fs p) d (ps_open p) /\ upgraded (ps_db p) d /\ db_ok d /\ Migrate faults (ps_db p) = (Ok tt, d)
  | (Err _, p') => p' = p
  end.
Proof.
  intros Hd. unfold at_db. pose proof (Migrate_run faults (ps_db p)) as H.
  destruct (Migrate faults (ps_db p)) as [[[]|e] d].
  - destruct H as (-> & _ & Hr). destruct (migrated_upgraded _ Hd Hr) as [Hu Hok]. by exists (migrated (ps_db p)).
  - destruct H as [-> _]. apply process_eta.
Qed.

(** Choosing a validator ends. *)
Lemma validator_total pem_Decode PKIX PKCS1 Cert Quote type_name :
  (forall s block rest, pem_Decode s = Some (block, rest) -> (length rest < length s)%nat) ->
  forall cfg, exists r, buildJWTValidator pem_Decode PKIX PKCS1 Cert Quote type_name cfg = Some r.
Proof.
  intros Hpem cfg. unfold buildJWTValidator. destruct (c_JWTPublicKeyPEM cfg) as [|b pem]; [by destruct (c_JWTSecret cfg); eexists|].
  destruct (ParsePublicKeysPEM_spec pem_Decode PKIX PKCS1 Cert Quote type_name Hpem (b :: pem)) as (keys & Ek & _).
  unfold NewStaticKeyValidatorFromPEM. rewrite Ek. cbn [mbind option_bind]. destruct keys as [[|k [|k2 l]]|e]; by eexists.
Qed.

Section started.
Context {fenv : FileEnv}.
Context (E : bytes -> option bytes) (ReadFile : bytes -> result error bytes) (GOOS : bytes).
Context (uuid_Parse : bytes -> option uuid) (uuid_String : uuid -> bytes) (Quote prefix_error : bytes -> bytes).
Context (X25519 : list Z -> result bytes (list Z)).
Context (zone : Z -> Z) (time_parse : bytes -> option Time).
Context (json_error : bytes -> bytes) (out_of_range : float64 -> Z).
Context (pem_Decode : bytes -> option (Block * bytes)).
Context (ParsePKIXPublicKey : bytes -> result error crypto_key) (ParsePKCS1PublicKey : bytes -> result error N)
        (ParseCertificate : bytes -> result error crypto_key) (type_name : crypto_key -> bytes).
Context (SignedString : bytes -> gmap bytes claim -> MapClaims -> bytes -> result error bytes).
Context (ParseWithClaims : Parser -> (Token -> result error crypto_key) -> bytes -> result error (option Token * MapClaims)).
Context (route : bytes -> bytes -> routed) (accepts : list Metric -> bool) (HandlerFor : list Metric -> handler (L := TokenBucket)).
Context (url_Parse : bytes -> option (bytes * bytes)) (LoadX509KeyPair : bytes -> bytes -> result error (bytes * bytes))
        (AppendCertsFromPEM : bytes -> bool).

Local Abbreviation validator_of := (buildJWTValidator pem_Decode ParsePKIXPublicKey ParsePKCS1PublicKey ParseCertificate Quote type_name).
Local Abbreviation Seed := (RunIfEmpty Quote prefix_error X25519).
Local Abbreviation Build := (BuildAPI E uuid_Parse uuid_String Quote prefix_error X25519 zone
  time_parse json_error out_of_range pem_Decode ParsePKIXPublicKey ParsePKCS1PublicKey ParseCertificate type_name ParseWithClaims
  route accepts HandlerFor).
Local Abbreviation api := (main_api E ReadFile GOOS uuid_Parse uuid_String Quote prefix_error X25519 zone time_parse
  json_error out_of_range pem_Decode ParsePKIXPublicKey ParsePKCS1PublicKey ParseCertificate type_name SignedString ParseWithClaims route accepts HandlerFor url_Parse LoadX509KeyPair AppendCertsFromPEM).
Local Abbreviation worker := (main_worker E ReadFile GOOS out_of_range url_Parse LoadX509KeyPair AppendCertsFromPEM).
Local Abbreviation agent := (main_agent E ReadFile GOOS AppendCertsFromPEM).
Local Abbreviation config := (load E ReadFile out_of_range).

Lemma open_database_spec dl faults dr cfg p :
  db_ok (ps_db p) ->
  match open_database E Quote prefix_error X25519 dl faults dr cfg p with
  | (Ok _, p') =>
      ps_open p' = ps_open p + 1 /\ installed (ps_db p') /\ db_ok (ps_db p')
      /\ exists d, upgraded (ps_db p) d
           /\ Seed dr (EnvDefaults E) (ps_fs p, db_rows d) = (Ok tt, (ps_fs p', db_rows (ps_db p')))
  | (Err _, p') => ps_open p' = ps_open p /\ db_ok (ps_db p')
  end.
Proof.
  intros Hd. unfold open_database, mbind, SE_bind, wrapping, closing.
  pose proof (NewDB_cases dl (c_DatabaseURL cfg) p) as Hn. destruct (NewDB _ _ p) as [[db|e] p1]; subst p1; [|done].
  pose proof (at_db_Migrate faults (opened p) Hd) as Hm.
  destruct (at_db _ (opened p)) as [[[]|e] p2]; [|by subst p2; rewrite Close_opened].
  destruct Hm as (d & -> & Hu & Hok & _). unfold at_rows. cbn [ps_fs ps_db ps_open opened].
  pose proof (keeps_RunIfEmpty Quote prefix_error X25519 dr (EnvDefaults E) (ps_fs p, db_rows d)
                (rows_ok_of d (up_installed _ _ Hu) Hok)) as Hk.
  destruct (RunIfEmpty _ _ _ _ _ (ps_fs p, db_rows d)) as [[[]|e] [fs s]] eqn:Er; cbn [snd] in Hk.
  - cbn. split_and!; [lia|by apply (up_installed _ _ Hu)|by apply db_ok_of|]. exists d. by rewrite Er.
  - cbn. split; [lia|]. by apply db_ok_of.
Qed.

(** C21: (Starting the API.) On a database that keeps its promises, BuildAPI ends with a
    server or with an error, never in a panic or a loop.  With an error no connection
    pool is left open; with a server exactly one is, every table, column and constraint
    is there, the database is the upgraded one after the seeding, it still keeps its
    promises, and tokens are checked by the validator the settings choose. *)
Theorem BuildAPI_spec dl faults dr cfg p :
  (forall l, registrable l -> accepts l = true) ->
  (forall s block rest, pem_Decode s = Some (block, rest) -> (length rest < length s)%nat) ->
  db_ok (ps_db p) ->
  match Build dl faults dr cfg p with
  | (Returned b, p') =>
      ps_open p' = ps_open p + 1 /\ installed (ps_db p') /\ db_ok (ps_db p')
      /\ (exists d, upgraded (ps_db p) d
            /\ Seed dr (EnvDefaults E) (ps_fs p, db_rows d) = (Ok tt, (ps_fs p', db_rows (ps_db p'))))
      /\ validator_of cfg = Some (Ok (bt_Validator b))
  | (Failed_with _, p') => ps_open p' = ps_open p /\ db_ok (ps_db p')
  | (Panicked_with _, _) | (Runs_on, _) => False
  end.
Proof.
  intros Hacc Hpem Hd. unfold BuildAPI, NewMetrics. rewrite (Hacc _ metrics_registrable).
  pose proof (open_database_spec dl faults dr cfg p Hd) as Ho.
  destruct (open_database _ _ _ _ _ _ _ _ p) as [[db|e] p']; [|done]. destruct Ho as (Hop & Hi & Hok & Hseed).
  destruct (validator_total pem_Decode ParsePKIXPublicKey ParsePKCS1PublicKey ParseCertificate Quote type_name Hpem cfg) as [r Hr].
  rewrite Hr. destruct r as [v|e]; [done|]. cbn. split; [lia|done].
Qed.
(** How a run of [awg-api] comes to serve. *)
Lemma serving_inv o fl p b wk p' :
  api o fl p = (Serving b wk, p') ->
  exists cfg, config = Ok cfg /\ Build (out_dial o) (out_faults o) (out_draws o) cfg p = (Returned b, p')
    /\ match wk with
       | None => c_EnableEmbeddedWorker cfg = false
       | Some (_, _, ex) => buildExecutor E ReadFile GOOS url_Parse LoadX509KeyPair AppendCertsFromPEM cfg = Ok ex
       end.
Proof.
  unfold main_api. destruct config as [cfg|e]; [|done]. intros H. exists cfg. split; [done|].
  destruct (fl_provisionV31 fl).
  { unfold provision_command in H. by repeat (case_match; simplify_eq). }
  destruct (fl_devToken fl).
  { unfold token_command in H. by destruct (IssueDevToken _ _ _ _ _ _ _ _ _). }
  unfold serve_command in H. destruct (Build (out_dial o) (out_faults o) (out_draws o) cfg p) as [[b'|e|e|] p1]; try done.
  destruct (c_EnableEmbeddedWorker cfg) eqn:Ee; [|injection H as <- <- <-; done].
  destruct (buildExecutor _ _ _ _ _ _ cfg) as [ex|e]; [|done]. by injection H as <- <- <-.
Qed.

Lemma main_api_serves o fl p cfg b p' :
  config = Ok cfg -> fl_provisionV31 fl = false -> fl_devToken fl = false -> c_EnableEmbeddedWorker cfg = false ->
  Build (out_dial o) (out_faults o) (out_draws o) cfg p = (Returned b, p') -> api o fl p = (Serving b None, p').
Proof. intros Hc Hv Ht He Hb. unfold main_api. rewrite Hc, Hv, Ht. unfold serve_command. by rewrite Hb, He. Qed.

Lemma built_handler dl faults dr cfg p b p' :
  Build dl faults dr cfg p = (Returned b, p') ->
  validator_of cfg = Some (Ok (bt_Validator b))
  /\ hs_Handler (bt_Server b) = serve_http (RL := TokenBucket_Limiter out_of_range) uuid_Parse uuid_String create_hash (revoke_hash uuid_String) reason_payload X25519 (bt_Service b)
       (row_time zone) time_parse json_error out_of_range
       (fun now => validator_Validate uuid_Parse Quote ParseWithClaims now (bt_Validator b)) route (Some (HandlerFor (bt_Metrics b))).
Proof.
  unfold BuildAPI. destruct (NewMetrics accepts) as [m|]; [|done].
  destruct (open_database _ _ _ _ _ _ _ _ p) as [[db|e] p1]; [|done].
  destruct (validator_of cfg) as [[v|e]|]; [|done..]. by intros [= <- <-].
Qed.

Context (verifies : crypto_key -> bytes -> bytes -> Prop).

(** C19: (A running API is guarded.) Whatever [awg-api] was started with, once it serves,
    a request that changes the database carries a bearer token in force whose signature
    verifies under the key the settings name - the one public key, or the secret - and
    whose claims give a writing role; and unless that role is platform administrator
    nothing of a tenant but the token's own has changed. *)
Theorem started_api_guarded o fl p b wk p' tn rq s l :
  (forall s block rest, pem_Decode s = Some (block, rest) -> (length rest < length s)%nat) ->
  (forall p keyfunc raw tok claims, ParseWithClaims p keyfunc raw = Ok (Some tok, claims) ->
     tok_Alg tok ∈ ps_ValidMethods p /\ in_force p claims
     /\ exists key, keyfunc tok = Ok key /\ verifies key (tok_Alg tok) raw) ->
  (forall m ctx w, snd (HandlerFor m ctx w) = w) ->
  api o fl p = (Serving b wk, p') -> store_ok s ->
  let s' := fst (snd (hs_Handler (bt_Server b) tn rq (s, l))) in
  s' = s
  \/ exists cfg raw pr, config = Ok cfg
       /\ HasPrefix (hr_Header rq #"Authorization") bearer = true /\ raw = drop (length bearer) (hr_Header rq #"Authorization")
       /\ opens pem_Decode ParsePKIXPublicKey ParsePKCS1PublicKey ParseCertificate Quote type_name uuid_Parse verifies (tn_now tn) cfg raw pr
       /\ HasAnyRole pr write_roles = true
       /\ (HasRole pr RolePlatformAdmin = false -> forall t, pr_TenantID pr <> t -> same_for t s' s).
Proof.
  intros Hpem Hjwt Hm (cfg & Hcfg & Hb & _)%serving_inv Hs s'. apply built_handler in Hb as [Hv Hh].
  subst s'. rewrite Hh.
  destruct (api_end_to_end (RL := TokenBucket_Limiter out_of_range) uuid_Parse uuid_String create_hash (revoke_hash uuid_String) reason_payload X25519 (bt_Service b) (row_time zone) time_parse
    json_error out_of_range route (Some (HandlerFor (bt_Metrics b))) pem_Decode ParsePKIXPublicKey ParsePKCS1PublicKey ParseCertificate
    Quote type_name ParseWithClaims verifies cfg (bt_Validator b) tn rq s l Hpem Hjwt) as [H|(raw & pr & H)]; [|done|exact Hv|by left|].
  - intros h [= <-]. apply Hm.
  - right. by exists cfg, raw, pr.
Qed.
(** ** Transport *)

Lemma Getenv_true k : Getenv E k = #"true" -> E k = Some #"true".
Proof. unfold Getenv. by destruct (E k) as [v|]; [intros [= ->]|]. Qed.

(** What a connection to an agent is made with. *)
Definition agent_link (cfg : Config) (base : bytes) (tls : TLSConfig) : Prop :=
  base = TrimRight (c_NodeAgentURL cfg) #"/"
  /\ (E #"NODE_AGENT_INSECURE_HTTP" = Some #"true"
      \/ (exists host, url_Parse (c_NodeAgentURL cfg) = Some (#"https", host) /\ host <> [])
         /\ exists pair ca, LoadX509KeyPair (Getenv E #"WORKER_TLS_CERT") (Getenv E #"WORKER_TLS_KEY") = Ok pair
              /\ ReadFile (Getenv E #"WORKER_CA_BUNDLE") = Ok ca /\ AppendCertsFromPEM ca = true
              /\ tls = mkTLS [pair] (Some ca) None false).

Lemma insecure_base base url tls :
  NewInsecureRemoteExecutor url_Parse LoadX509KeyPair ReadFile AppendCertsFromPEM base = Ok (url, tls) -> url = TrimRight base #"/".
Proof.
  unfold NewInsecureRemoteExecutor, newRemoteExecutor. destruct (url_Parse base) as [[scheme host]|]; [|done].
  repeat (case_match; [done|]). cbn. by intros [= <- _].
Qed.

Lemma remote_choice_link cfg base tls :
  remote_choice E ReadFile url_Parse LoadX509KeyPair AppendCertsFromPEM cfg = Ok (UseRemote base tls) -> agent_link cfg base tls.
Proof.
  unfold remote_choice, agent_link. case_bool_decide as Hi.
  - destruct (NewInsecureRemoteExecutor _ _ _ _ _) as [[u t]|e] eqn:Ei; [|done]. intros [= -> ->]. apply insecure_base in Ei. split; [done|].
    left. by apply Getenv_true.
  - destruct (NewRemoteExecutor _ _ _ _ _ _ _ _) as [[u t]|e] eqn:Er; [|done]. intros [= -> ->].
    apply (proj1 (mtls_required _ _ _ _)) in Er as (Hu & Hp & ->). split; [done|]. by right.
Qed.

(** C28: (Plain HTTP is asked for.) A program that drives a node through its agent - the
    API with an embedded worker or the worker - has the address of its settings, and
    either NODE_AGENT_INSECURE_HTTP=true was set or the address is https and a client
    certificate, its key and a CA bundle were loaded; an agent that listens serves with
    the given certificate and requires client certificates of a loaded CA, or
    AGENT_INSECURE_HTTP=true was set and no TLS file was named. *)
Theorem transport_policy :
  (forall o fl p b w r base tls p',
     api o fl p = (Serving b (Some (w, r, UseRemote base tls)), p') \/ worker o p = (Working w r (UseRemote base tls), p') ->
     exists cfg, config = Ok cfg /\ agent_link cfg base tls)
  /\ (forall addr ex pair tls, agent = Listening addr ex pair tls ->
       match tls with
       | None => pair = None /\ E #"AGENT_INSECURE_HTTP" = Some #"true" /\ Getenv E #"AGENT_TLS_CERT" = []
                 /\ Getenv E #"AGENT_TLS_KEY" = [] /\ Getenv E #"AGENT_CLIENT_CA_BUNDLE" = []
       | Some tc => pair = Some (Getenv E #"AGENT_TLS_CERT", Getenv E #"AGENT_TLS_KEY")
                    /\ Getenv E #"AGENT_TLS_CERT" <> [] /\ Getenv E #"AGENT_TLS_KEY" <> []
                    /\ tc_RequireClientCert tc = true
                    /\ exists ca, ReadFile (Getenv E #"AGENT_CLIENT_CA_BUNDLE") = Ok ca /\ AppendCertsFromPEM ca = true
                         /\ tc_ClientCAs tc = Some ca
       end).
Proof.
  split.
  - intros o fl p b w r base tls p' [(cfg & Hc & _ & Hx)%serving_inv|H].
    + exists cfg. split; [done|]. apply remote_choice_link. revert Hx. unfold buildExecutor, cli_choice.
      repeat case_bool_decide; cbn [negb]; try done.
    + unfold main_worker in H. destruct config as [cfg|e]; [|done]. exists cfg. split; [done|]. apply remote_choice_link.
      destruct (NewDB _ _ p) as [[db|e] p1]; [|done]. destruct (at_db _ p1) as [[[]|e] p2]; [|done].
      destruct (worker_executor _ _ _ _ _ _ cfg) as [ex|e] eqn:Ex; [|done]. injection H as _ _ -> _. revert Ex.
      unfold worker_executor, cli_choice. repeat case_bool_decide; cbn [negb andb]; try done.
  - intros addr ex pair tls. unfold main_agent. destruct (NewServer _ _ _) as [t|e] eqn:En; [|done]. intros [= _ _ <- <-].
    apply (proj2 (mtls_required url_Parse LoadX509KeyPair ReadFile AppendCertsFromPEM)) in En. destruct t as [tc|].
    + destruct En as (Hr & ca & Hca & Ha & Hcl & Hc & Hk). cbn in *. split_and!; try done. by exists ca.
    + destruct En as (Hi & Hc & Hk & Ha). cbn in *. split_and!; try done. apply bool_decide_eq_true in Hi.
      unfold envDefault in Hi. by destruct (E #"AGENT_INSECURE_HTTP") as [v|]; [f_equal|].
Qed.
(** ** The commands of [awg-api] *)

(** C34: (The token that -dev-token prints opens the API.) With no public key configured and
    HS256 among the allowed algorithms, a token that [awg-api -dev-token] prints changes
    nothing, and until its lifetime has passed the API started from the same environment
    takes its bearer for the platform administrator it was issued to.  The issuer and the
    audience are valid UTF-8 and the times are whole seconds a float holds, so that the
    token's JSON carries them. *)
Theorem dev_token_opens o fl p cfg out p' clock :
  signs_and_parses SignedString ParseWithClaims -> uuid_texts uuid_Parse uuid_String ->
  config = Ok cfg -> c_JWTPublicKeyPEM cfg = [] -> (c_JWTAllowedAlgs cfg = [] \/ #"HS256" ∈ c_JWTAllowedAlgs cfg) ->
  valid_text (c_JWTIssuer cfg) = c_JWTIssuer cfg -> valid_text (c_JWTAudience cfg) = c_JWTAudience cfg ->
  0 < Unix (out_now o) <= 2 ^ 53 -> 0 < Unix (out_now o + fl_devTokenTTL fl) <= 2 ^ 53 ->
  fl_provisionV31 fl = false -> fl_devToken fl = true -> api o fl p = (Printed out, p') ->
  (Unix (out_now o) - 30) * 1000000000 <= clock < (Unix (out_now o + fl_devTokenTTL fl) + 30) * 1000000000 ->
  p' = p /\ exists tok v, out = PrintLine tok /\ validator_of cfg = Some (Ok v)
    /\ validator_Validate uuid_Parse Quote ParseWithClaims clock v tok
       = Ok (mkPrincipal (out_subject o) uuid_Nil [RolePlatformAdmin] [] (c_JWTIssuer cfg) (uuid_String (out_jti o))).
Proof.
  intros Hsp Hu Ec Hpem Halg Hiss Haud Hnow Hexp Hv Ht H Hclock. unfold main_api in H. rewrite Ec in H.
  rewrite Hv, Ht in H. injection H as H <-. split; [done|].
  unfold token_command in H. destruct (IssueDevToken _ _ _ _ _ _ _ _ _) as [tok|e] eqn:Ei; [|done]. injection H as <-.
  assert (Hsec : c_JWTSecret cfg <> []) by (unfold IssueDevToken in Ei; by case_bool_decide).
  set (v := mkHMAC (c_JWTSecret cfg) (c_JWTIssuer cfg) (c_JWTAudience cfg) (c_JWTAllowedAlgs cfg) None (30 * 1000000000)).
  assert (Hval : validator_of cfg = Some (Ok (VHMAC v))).
  { unfold buildJWTValidator. rewrite Hpem. subst v. by destruct (c_JWTSecret cfg). }
  exists tok, (VHMAC v). split_and!; [done..|]. cbn [validator_Validate].
  apply (dev_token_roundtrip uuid_Parse uuid_String Quote SignedString ParseWithClaims clock (out_now o) (out_jti o)
    v (dev_principal o) (fl_devTokenTTL fl) tok Hsp Hu); [| |exact Ei|cbn; lia].
  { split; [done|done|by apply Forall_singleton|apply Forall_nil_2|done|done]. }
  unfold hmac_algs. cbn. destruct Halg as [->|Halg]; [by left|]. destruct (c_JWTAllowedAlgs cfg); [by apply not_elem_of_nil in Halg|done].
Qed.

Lemma rows_v31 dr o tenant name hk pub cidr s :
  Validate (defaultV31Profile name hk) = [] -> rows_ok s ->
  store_ok (v31_store dr o tenant (defaultV31Profile name hk) pub cidr s) ->
  rows_ok (v31_store dr o tenant (defaultV31Profile name hk) pub cidr s).
Proof.
  intros Hv [H1 H2 H3 H4] Hs. constructor; [done| | |]; cbn.
  - apply Forall_app. split; [eapply Forall_impl; [exact H2|]; intros n; apply ref_mono|]. constructor; [|constructor].
    cbn. unfold has_id. rewrite existsb_app. cbn. by rewrite N.eqb_refl, orb_true_r.
  - apply Forall_app. split; [done|]. constructor; [|constructor]. apply profile_row_typed.
    unfold typed_profile, u16_typed. rewrite !Forall_cons. cbn. split_and!; try lia. constructor.
  - apply Forall_app. split; [done|]. constructor; [|constructor]. by apply profile_row_sound.
Qed.

(** The rows and the config of one new node, in an upgraded database. *)
Definition provisioned (cfg : Config) (o : Outside) (fl : Flags) (p p' : Process) (res : V31NodeResult) : Prop :=
  installed (ps_db p') /\ db_ok (ps_db p')
  /\ exists d opts tenant profile pub cidr config,
       upgraded (ps_db p) d /\ opts = normalizeV31NodeOptions (v31_options cfg fl)
       /\ db_rows (ps_db p') = v31_store (out_draws o) opts tenant profile pub cidr (db_rows d)
       /\ vr_NodeID res = sd_node (out_draws o) /\ vr_ServerPublicKey res = pub
       /\ fs_files (ps_fs p') = <[vr_ConfigPath res := mkFile config mode_private]> (fs_files (ps_fs p)).

(** C29: (The provisioning command.) [awg-api -provision-v31-node] ends, without a pool left
    behind, by printing what it created: then the upgraded database has exactly one
    profile, node and pool more and keeps its promises, and a private config holds the
    node.  Or it exits with code 1: either only the printing failed and all of that was
    created, or the database is as it was, or as the upgrade left it, and no file has
    changed, unless the new config could not be removed again. *)
Theorem provision_command_spec o fl p :
  db_ok (ps_db p) -> fl_provisionV31 fl = true ->
  match api o fl p with
  | (Printed out, p') =>
      ps_open p' = ps_open p
      /\ exists cfg res, config = Ok cfg /\ out = PrintJSON (json_V31NodeResult uuid_String res) /\ provisioned cfg o fl p p' res
  | (Exited code _, p') =>
      code = 1 /\ exists cfg, config = Ok cfg
      /\ ((exists e res, out_stdout o = Err e /\ provisioned cfg o fl p p' res)
          \/ (let opts := normalizeV31NodeOptions (v31_options cfg fl) in
              undone (path_Join (vo_BootstrapConfDir opts) (vo_NodeIface opts ++ #".conf")) (fs_files (ps_fs p)) (fs_files (ps_fs p'))
              /\ (ps_db p' = ps_db p \/ upgraded (ps_db p) (ps_db p'))))
  | (Crashed e, p') => p' = p /\ config = Err e
  | _ => False
  end.
Proof.
  intros Hd Hf. unfold main_api. destruct config as [cfg|e] eqn:Ec; [|done]. rewrite Hf. unfold provision_command.
  pose proof (NewDB_cases (out_dial o) (c_DatabaseURL cfg) p) as Hn. destruct (NewDB _ _ p) as [[db|e] p1]; subst p1.
  2:{ split; [done|]. exists cfg. split; [done|]. right. split; [by left|by left]. }
  pose proof (at_db_Migrate (out_faults o) (opened p) Hd) as Hm. destruct (at_db _ (opened p)) as [[[]|e] p2].
  2:{ subst p2. split; [done|]. exists cfg. split; [done|]. right. split; [by left|by left]. }
  destruct Hm as (d & -> & Hu & Hok & _). cbn [ps_fs ps_db ps_open opened] in *. unfold at_rows. cbn [ps_fs ps_db ps_open].
  destruct (ProvisionV31Node _ _ _ _ _ _ (ps_fs p, db_rows d)) as [r [fs s]] eqn:Ep.
  apply provision_parts in Ep as [(e & -> & -> & ->)|(pool & tenant & hk & kp & address & _ & Hpool & _ & _ & _ & _ & _ & Hv & Ep)].
  { split; [done|]. exists cfg. split; [done|]. right. split; [by left|right]. by destruct d. }
  apply provision_commit_cases in Ep as [(res & -> & _ & _ & -> & _ & Hfs & Hpub & Hid & Hpath & Hs)|(e & -> & -> & Hfs)].
  2:{ split; [done|]. exists cfg. split; [done|]. right. split; [done|right]. by destruct d. }
  assert (Hrows : rows_ok (db_rows d)) by (apply rows_ok_of; [apply (up_installed _ _ Hu)|done]).
  assert (Hnew : provisioned cfg o fl p (mkProcess fs (mkDatabase (db_tables d) (db_columns d) (db_constraints d)
     (v31_store (out_draws o) (normalizeV31NodeOptions (v31_options cfg fl)) tenant
        (defaultV31Profile (TrimSpace (vo_ProfileName (normalizeV31NodeOptions (v31_options cfg fl)))) hk)
        (kp_PublicKey kp) (Masked pool) (db_rows d))) (ps_open p)) res).
  { split; [apply (up_installed _ _ Hu)|]. split.
    - apply db_ok_of. cbn [db_rows]. apply rows_v31; [done..|]. apply Hs; [apply Hrows|].
      by apply ParsePrefix_masked in Hpool as [_ [? _]].
    - eexists d, _, tenant, _, _, _, _. split_and!; try done. by rewrite Hpath. }
  destruct (out_stdout o) as [[]|e] eqn:Eo.
  - split; [cbn; lia|]. exists cfg, res. done.
  - split; [done|]. exists cfg. split; [done|]. left. exists e, res. done.
Qed.
End started.

(** ** Concrete runs *)

#[local] Instance quiet_host : FileEnv := quiet_files.

Definition fresh_process : Process := mkProcess no_files (mkDatabase ∅ ∅ ∅ empty_store) 0.
Definition all_well : Outside :=
  mkOutside (mkDial (fun _ => Ok tt) (Ok tt) (Ok tt)) no_fault BootstrapFacts.demo_draws (Ok tt) (Ok tt) 1000000000000 7 9.

Lemma fresh_ok : db_ok (ps_db fresh_process).
Proof. constructor; [exact empty_store_ok|constructor|by intros name ok _ ?%elem_of_empty]. Qed.

Lemma fresh_accepted d : db_rows d = empty_store -> ~ refused d.
Proof. intros H. apply not_refused; rewrite H; reflexivity. Qed.

Definition served_service : Service := mkService (24 * 3600 * 1000000000) [ #"1.1.1.1"; #"1.0.0.1" ].
Definition served_validator : Validator :=
  VHMAC (mkHMAC #"s3cret" #"awg-rest" #"awg-control-plane" [ #"HS256" ] None (30 * 1000000000)).

Definition no_key {A} (b : bytes) : result error A := Err (EMsg []).

(** The API of the smallest environment: a secret, and defaults for the rest. *)
Local Abbreviation demo_api E up us ss pw :=
  (main_api E (fun _ => Err (EMsg #"no such file")) #"linux" up us id id
    Ok (fun _ => 0) (fun _ => None) (fun _ => #"bad json")
    (fun _ => 0) (fun _ => None) no_key no_key no_key (fun _ => []) ss pw demo_route (fun _ => true)
    (fun _ _ w => (Replied not_found_reply, w)) (fun _ => None) (fun _ _ => Err (EMsg [])) (fun _ => true)).

Local Abbreviation demo_build up us pw :=
  (BuildAPI demo_env up us id id
    Ok (fun _ => 0) (fun _ => None) (fun _ => #"bad json")
    (fun _ => 0) (fun _ => None) no_key no_key no_key (fun _ => []) pw demo_route (fun _ => true)
    (fun _ _ w => (Replied not_found_reply, w)) (out_dial all_well) no_fault BootstrapFacts.demo_draws).

Lemma demo_builds up us pw cfg :
  Config.demo_config = Ok cfg ->
  exists b p', demo_build up us pw cfg fresh_process = (Returned b, p') /\ bt_Service b = served_service /\ bt_Validator b = served_validator.
Proof.
  intros Hc. unfold BuildAPI, NewMetrics, open_database, wrapping, closing, at_db.
  unfold mbind, SE_bind. change (NewDB (out_dial all_well) (c_DatabaseURL cfg) fresh_process)
    with (Ok (mkDB 20 (30 * 60 * 1000000000) (30 * 1000000000)) : result error DB, opened fresh_process). cbn [fst].
  rewrite (Migrate_accepts no_fault (ps_db (opened fresh_process))); [|by repeat constructor|by apply fresh_accepted].
  unfold at_rows, RunIfEmpty. assert (d_Enabled (EnvDefaults demo_env) = false) as -> by (vm_compute; reflexivity). cbn [negb mret SE_ret].
  vm_compute in Hc. injection Hc as <-. unfold buildJWTValidator. cbn [c_JWTPublicKeyPEM c_JWTSecret].
  eexists _, _. split; [reflexivity|]. split; reflexivity.
Qed.

Lemma BuildAPI_spec_witness :
  exists cfg b p', Config.demo_config = Ok cfg
    /\ demo_build Tokens.demo_uuid_Parse Tokens.demo_uuid_String read_jwt cfg fresh_process = (Returned b, p')
    /\ ps_open p' = 1 /\ installed (ps_db p') /\ db_ok (ps_db p').
Proof.
  destruct Config.demo_config as [cfg|e] eqn:Ec; [|vm_compute in Ec; discriminate]. exists cfg.
  destruct (demo_builds Tokens.demo_uuid_Parse Tokens.demo_uuid_String read_jwt cfg Ec) as (b & p' & H & _). exists b, p'.
  split; [reflexivity|]. split; [exact H|].
  pose proof (BuildAPI_spec demo_env Tokens.demo_uuid_Parse Tokens.demo_uuid_String id id
    Ok (fun _ => 0) (fun _ => None) (fun _ => #"bad json")
    (fun _ => 0) (fun _ => None) no_key no_key no_key (fun _ => []) read_jwt demo_route (fun _ => true)
    (fun _ _ w => (Replied not_found_reply, w)) (out_dial all_well) no_fault BootstrapFacts.demo_draws cfg fresh_process
    (fun _ _ => eq_refl) ltac:(discriminate) fresh_ok) as Hs.
  rewrite H in Hs. destruct Hs as (Ho & Hi & Hok & _). split; [exact Ho|]. split; [exact Hi|exact Hok].
Defined.

Lemma demo_serves up us ss pw :
  exists b p', demo_api demo_env up us ss pw all_well (default_flags demo_env) fresh_process = (Serving b None, p')
    /\ bt_Service b = served_service /\ bt_Validator b = served_validator.
Proof.
  destruct Config.demo_config as [cfg|e] eqn:Ec; [|vm_compute in Ec; discriminate].
  destruct (demo_builds up us pw cfg Ec) as (b & p' & H & Hs & Hv). exists b, p'. split; [|by split].
  apply (main_api_serves _ _ _ _ _ _ _ _ _ _ _ _ _ _ _ _ _ _ _ _ _ _ _ _ _ _ _ _ cfg); [exact Ec|reflexivity|reflexivity| |exact H].
  vm_compute in Ec. injection Ec as <-. reflexivity.
Qed.

Lemma started_api_guarded_witness :
  exists b p', demo_api demo_env http_uuid_Parse ServiceFacts.demo_uuid_String demo_sign known_jwt all_well (default_flags demo_env) fresh_process
               = (Serving b None, p')
    /\ let s' := fst (snd (hs_Handler (bt_Server b) demo_turn (demo_http #"Bearer good") (demo_base, None))) in
       length (st_peers s') = 1%nat /\ exists pr, HasAnyRole pr write_roles = true
         /\ (HasRole pr RolePlatformAdmin = false -> forall t, pr_TenantID pr <> t -> same_for t s' demo_base).
Proof.
  destruct (demo_serves http_uuid_Parse ServiceFacts.demo_uuid_String demo_sign known_jwt) as (b & p' & H & Hsv & Hva).
  exists b, p'. split; [exact H|]. intros s'.
  assert (Hn : length (st_peers s') = 1%nat).
  { subst s'. pose proof H as H'. apply serving_inv in H' as (cfg & _ & Hb & _).
    apply built_handler in Hb as [_ ->]. rewrite Hsv, Hva. vm_compute. reflexivity. }
  split; [exact Hn|].
  destruct (started_api_guarded demo_env (fun _ => Err (EMsg #"no such file")) #"linux" http_uuid_Parse
    ServiceFacts.demo_uuid_String id id Ok (fun _ => 0)
    (fun _ => None) (fun _ => #"bad json") (fun _ => 0) (fun _ => None) no_key no_key no_key (fun _ => []) demo_sign known_jwt demo_route
    (fun _ => true) (fun _ _ w => (Replied not_found_reply, w)) (fun _ => None) (fun _ _ => Err (EMsg [])) (fun _ => true) known_signature
    all_well (default_flags demo_env) fresh_process b None p' demo_turn (demo_http #"Bearer good") demo_base None
    ltac:(discriminate) known_jwt_sound (fun _ _ _ => eq_refl) H demo_base_ok) as [Es|(cfg & raw & pr & _ & _ & _ & _ & Hw & Hs)].
  - exfalso. fold s' in Es. rewrite Es in Hn. vm_compute in Hn. discriminate.
  - exists pr. split; [exact Hw|exact Hs].
Defined.

(** The flags of [-dev-token] and of [-provision-v31-node]. *)
Definition token_flags : Flags :=
  let f := default_flags demo_env in
  mkFlags true (fl_devTokenTTL f) false (fl_v31Tenant f) (fl_v31Profile f) (fl_v31Region f) (fl_v31Hostname f) (fl_v31Endpoint f)
    (fl_v31Port f) (fl_v31Iface f) (fl_v31Pool f) (fl_v31NAT f) (fl_v31Egress f).

Lemma main_api_token E up us ss pw o fl p cfg tok :
  load E (fun _ => Err (EMsg #"no such file")) (fun _ => 0) = Ok cfg -> fl_provisionV31 fl = false -> fl_devToken fl = true ->
  IssueDevToken us ss (out_now o) (out_jti o) (c_JWTSecret cfg) (c_JWTIssuer cfg) (c_JWTAudience cfg) (dev_principal o) (fl_devTokenTTL fl) = Ok tok ->
  demo_api E up us ss pw o fl p = (Printed (PrintLine tok), p).
Proof. intros Hc Hv Ht Hi. unfold main_api. rewrite Hc, Hv, Ht. unfold token_command. by rewrite Hi. Qed.

(** A token of one hour, presented half an hour after it was printed. *)
Lemma dev_token_opens_witness :
  exists tok cfg v,
    demo_api demo_env Tokens.demo_uuid_Parse Tokens.demo_uuid_String demo_sign read_jwt all_well token_flags fresh_process
    = (Printed (PrintLine tok), fresh_process)
    /\ Config.demo_config = Ok cfg
    /\ validator_Validate Tokens.demo_uuid_Parse id read_jwt 2800000000000 v tok
       = Ok (mkPrincipal 7 uuid_Nil [RolePlatformAdmin] [] (c_JWTIssuer cfg) (Tokens.demo_uuid_String 9)).
Proof.
  destruct Config.demo_config as [cfg|e] eqn:Ec; [|vm_compute in Ec; discriminate].
  assert (is_Some (write_claims dev_header)) as [h Eh] by (vm_compute; eexists; reflexivity).
  assert (Hi : exists tok, IssueDevToken Tokens.demo_uuid_String demo_sign (out_now all_well) (out_jti all_well) (c_JWTSecret cfg)
            (c_JWTIssuer cfg) (c_JWTAudience cfg) (dev_principal all_well) (fl_devTokenTTL token_flags) = Ok tok).
  { assert (c_JWTSecret cfg = #"s3cret" /\ c_JWTIssuer cfg = #"awg-rest" /\ c_JWTAudience cfg = #"awg-control-plane") as (-> & -> & ->)
      by (pose proof Ec as Ec'; vm_compute in Ec'; injection Ec' as <-; repeat split).
    assert (is_Some (write_claims (dev_claims Tokens.demo_uuid_String (out_now all_well) (out_jti all_well) #"awg-rest" #"awg-control-plane"
      (dev_principal all_well) (fl_devTokenTTL token_flags)))) as [c Hw] by (vm_compute; eexists; reflexivity).
    unfold IssueDevToken, demo_sign. rewrite bool_decide_eq_false_2 by discriminate. rewrite Eh.
    rewrite Hw. eexists. reflexivity. }
  destruct Hi as [tok Hi]. exists tok, cfg.
  assert (H : demo_api demo_env Tokens.demo_uuid_Parse Tokens.demo_uuid_String demo_sign read_jwt all_well token_flags fresh_process
              = (Printed (PrintLine tok), fresh_process)).
  { apply (main_api_token demo_env _ _ _ _ all_well token_flags fresh_process cfg tok); [exact Ec|reflexivity|reflexivity|exact Hi]. }
  destruct (dev_token_opens demo_env (fun _ => Err (EMsg #"no such file")) #"linux" Tokens.demo_uuid_Parse
    Tokens.demo_uuid_String id id Ok (fun _ => 0)
    (fun _ => None) (fun _ => #"bad json") (fun _ => 0) (fun _ => None) no_key no_key no_key (fun _ => []) demo_sign read_jwt demo_route
    (fun _ => true) (fun _ _ w => (Replied not_found_reply, w)) (fun _ => None) (fun _ _ => Err (EMsg [])) (fun _ => true)
    all_well token_flags fresh_process cfg (PrintLine tok) fresh_process 2800000000000
    read_jwt_signed Tokens.demo_uuid_texts Ec) as (_ & tok' & v & [= <-] & _ & Hv).
  - pose proof Ec as Ec'. vm_compute in Ec'. injection Ec' as <-. reflexivity.
  - pose proof Ec as Ec'. vm_compute in Ec'. injection Ec' as <-. right. vm_compute. left.
  - pose proof Ec as Ec'. vm_compute in Ec'. injection Ec' as <-. reflexivity.
  - pose proof Ec as Ec'. vm_compute in Ec'. injection Ec' as <-. reflexivity.
  - vm_compute. split; [reflexivity|discriminate].
  - vm_compute. split; [reflexivity|discriminate].
  - reflexivity.
  - reflexivity.
  - exact H.
  - vm_compute. split; [discriminate|reflexivity].
  - exists v. split; [exact H|]. split; [reflexivity|exact Hv].
Defined.

(** The command beside the seeded installation. *)
Definition provision_env (k : bytes) : option bytes :=
  if bool_decide (k = #"BOOTSTRAP_CONF_DIR") then Some #"/etc/amnezia/bootstrap"
  else if bool_decide (k = #"BOOTSTRAP_TENANT_SLUG") then Some #"acme" else demo_env k.
Definition provision_flags : Flags :=
  let f := default_flags provision_env in
  mkFlags false (fl_devTokenTTL f) true (fl_v31Tenant f) (fl_v31Profile f) (fl_v31Region f) (fl_v31Hostname f) (fl_v31Endpoint f)
    (fl_v31Port f) (fl_v31Iface f) (fl_v31Pool f) (fl_v31NAT f) (fl_v31Egress f).
Definition provision_outside : Outside :=
  mkOutside (out_dial all_well) no_fault demo_draws31 (Ok tt) (Ok tt) 0 0 0.
Definition seeded_process : Process := mkProcess (fst demo_seeded) (mkDatabase ∅ ∅ ∅ (snd demo_seeded)) 0.

Lemma seeded_process_ok : db_ok (ps_db seeded_process).
Proof.
  constructor; [exact demo_seeded_ok| |by intros name ok _ ?%elem_of_empty].
  apply Forall_forall. intros n Hn. revert n Hn. apply Forall_forall. apply (bool_decide_unpack _). vm_compute. exact I.
Qed.

Lemma seeded_not_refused : ~ refused (ps_db seeded_process).
Proof. apply not_refused; change (db_rows (ps_db seeded_process)) with (snd demo_seeded); vm_compute; reflexivity. Qed.

Lemma provision_runs up us ss pw cfg res :
  load provision_env (fun _ => Err (EMsg #"no such file")) (fun _ => 0) = Ok cfg ->
  fst (ProvisionV31Node id id Ok demo_draws31 (Ok tt) (v31_options cfg provision_flags) (fst demo_seeded, backfilled (snd demo_seeded))) = Ok res ->
  exists p', demo_api provision_env up us ss pw provision_outside provision_flags seeded_process = (Printed (PrintJSON (json_V31NodeResult us res)), p').
Proof.
  intros Hc Hr. unfold main_api. rewrite Hc. change (fl_provisionV31 provision_flags) with true. cbn iota. unfold provision_command.
  change (NewDB (out_dial provision_outside) (c_DatabaseURL cfg) seeded_process)
    with (Ok (mkDB 20 (30 * 60 * 1000000000) (30 * 1000000000)) : result error DB, opened seeded_process). cbn iota. unfold at_db.
  rewrite (Migrate_accepts (out_faults provision_outside) (ps_db (opened seeded_process)));
    [|by repeat constructor|exact seeded_not_refused]. cbn iota. unfold at_rows. cbn [ps_fs ps_db ps_open].
  change (db_rows (migrated (ps_db (opened seeded_process)))) with (backfilled (snd demo_seeded)).
  change (ps_fs (opened seeded_process)) with (fst demo_seeded).
  change (out_draws provision_outside) with demo_draws31. change (out_commit provision_outside) with (Ok tt : result error unit).
  destruct (ProvisionV31Node _ _ _ _ _ _ _) as [r [fs s]]. cbn [fst] in Hr. subst r.
  change (out_stdout provision_outside) with (Ok tt : result error unit). eexists. reflexivity.
Qed.

Lemma provision_command_spec_witness :
  exists res p', demo_api provision_env Tokens.demo_uuid_Parse Tokens.demo_uuid_String demo_sign read_jwt provision_outside provision_flags
                   seeded_process = (Printed (PrintJSON (json_V31NodeResult Tokens.demo_uuid_String res)), p')
    /\ vr_PublicEndpoint res = #"127.0.0.1:38824" /\ ps_open p' = 0 /\ db_ok (ps_db p').
Proof.
  destruct (load provision_env (fun _ => Err (EMsg #"no such file")) (fun _ => 0)) as [cfg|e] eqn:Ec;
    [|vm_compute in Ec; discriminate].
  assert (Hr : exists res, fst (ProvisionV31Node id id Ok demo_draws31 (Ok tt) (v31_options cfg provision_flags)
                  (fst demo_seeded, backfilled (snd demo_seeded))) = Ok res /\ vr_PublicEndpoint res = #"127.0.0.1:38824").
  { pose proof Ec as Ec'. vm_compute in Ec'. injection Ec' as <-. eexists. split; [vm_compute; reflexivity|reflexivity]. }
  destruct Hr as (res & Hr & He).
  destruct (provision_runs Tokens.demo_uuid_Parse Tokens.demo_uuid_String demo_sign read_jwt cfg res Ec Hr) as [p' H].
  exists res, p'. split; [exact H|]. split; [exact He|].
  pose proof (provision_command_spec provision_env (fun _ => Err (EMsg #"no such file")) #"linux" Tokens.demo_uuid_Parse
    Tokens.demo_uuid_String id id Ok (fun _ => 0)
    (fun _ => None) (fun _ => #"bad json") (fun _ => 0) (fun _ => None) no_key no_key no_key (fun _ => []) demo_sign read_jwt demo_route
    (fun _ => true) (fun _ _ w => (Replied not_found_reply, w)) (fun _ => None) (fun _ _ => Err (EMsg [])) (fun _ => true)
    provision_outside provision_flags seeded_process seeded_process_ok eq_refl) as Hs.
  rewrite H in Hs. destruct Hs as (Ho & cfg' & res' & _ & _ & _ & Hok & _). split; [exact Ho|exact Hok].
Defined.
