(* ===== verification/Concurrent.v ===== *)
(** * Concurrent: workers and requests at the same time

    API requests and worker turns as threads over one database and one runtime, at the
    granularity of database statements and executor calls.  A transaction is one
    action, and so are the reads a request makes before its transaction; between any
    two actions other threads may run, the context may end and a thread may die.  Run
    alone, the threads are the sequential model of [Service] and [Worker]. *)

From S2P Require Import Prelude GoStrings Strconv Errors Effects Files Interleave Profile Netip Ipam Crypto Auth AwgConfig Render Executor FakeExecutor Store StoreFacts Service ServiceFacts Worker WorkerFacts System.

(** ** The threads *)

Section threads.
Context {W : Type} {EX : Executor W}.
Context (uuid_Parse : bytes -> option uuid) (uuid_String : uuid -> bytes) (Quote : bytes -> bytes).
Context (hash_create : CreatePeerRequest -> bytes -> bytes) (hash_revoke : uuid -> uuid -> bytes -> bytes).
Context (reason_json : bytes -> bytes) (X25519 : list Z -> result bytes (list Z)).
Context (sv : Service) (wk : Worker).

Abbreviation Shared := (Store * W)%type.
Abbreviation Env := (context * Z)%type.
Abbreviation thread := (prog Shared Env).

(** A database call and an executor call, with the context and clock of the moment. *)
Definition db {A} (m : Z -> SE Store A) : thread (result error A) :=
  act (fun '(ctx, now) st => on_db ctx (m now) st).
Definition exec {A} (m : context -> W -> result error A * W) : thread (result error A) :=
  act (fun '(ctx, _) st => on_exec (m ctx) st).

(** [if err != nil { return err }] *)
Definition try {A B} (p : thread (result error A)) (k : A -> thread (result error B)) : thread (result error B) :=
  r ← p; match r with Ok a => k a | Err e => mret (Err e) end.

Definition preserve_thread (iface cfg : bytes) : thread bytes :=
  if negb (bool_decide (InterfaceValue cfg #"PrivateKey" = [])) then mret cfg
  else
    r ← exec (fun ctx => ShowConf ctx iface);
    mret match r with Err _ => cfg | Ok current => PreserveInterfacePrivateKey cfg current end.

Definition sync_thread (iface cfg : bytes) : thread (result error unit) :=
  r ← exec (fun ctx => SyncConf ctx iface cfg);
  match r with
  | Ok _ => mret (Ok tt)
  | Err err =>
      if negb (isMissingInterfaceError err) then mret (Err err)
      else
        u ← exec (fun ctx => InterfaceUp ctx iface (bootstrapConfigPath wk iface));
        match u with
        | Err upErr =>
            mret (Err (EWrap #"bring interface up after syncconf failed: " upErr
                         (#" (syncconf: " ++ err_Error err ++ #")")))
        | Ok _ =>
            cfg ← preserve_thread iface cfg;
            exec (fun ctx => SyncConf ctx iface cfg)
        end
  end.

Definition apply_thread (nodeID : uuid) : thread (result error unit) :=
  try (db (fun _ => Nodes_GetByID nodeID)) (fun node =>
  try (db (fun _ => ListByNodeIncludingRevoked nodeID)) (fun peers =>
  match n_ProfileID node with
  | None =>
      mret (if bool_decide (peers = []) then Ok tt
            else Err (EMsg (#"node " ++ uuid_String (n_ID node) ++ #" has peers but no protocol profile assigned")))
  | Some pid =>
      try (db (fun _ => Profiles_GetByID pid)) (fun profile =>
      cfg ← preserve_thread (n_InterfaceName node) (node_config node profile peers);
      try (sync_thread (n_InterfaceName node) cfg) (fun _ =>
      try (exec (fun ctx => ShowDump ctx (n_InterfaceName node))) (fun '(iface, runtimePeers) =>
      if negb (bool_decide (n_ServerPublicKey node = [])) && negb (bool_decide (ir_PublicKey iface = n_ServerPublicKey node))
      then mret (Err (mismatch Quote node (ir_PublicKey iface)))
      else db (fun now => persistRuntime now peers runtimePeers))))
  end)).

Definition process_thread (job : Job) : thread unit :=
  r ← apply_thread (j_NodeID job);
  match r with
  | Err err =>
      let retryable := classifyRetryable err in
      _ ← db (fun now => Outbox_Fail (j_ID job) (err_Error err) retryable now);
      match j_OperationID job with
      | Some op => _ ← db (fun now => Operations_MarkFailed op #"apply_failed" (err_Error err) retryable now); mret tt
      | None => mret tt
      end
  | Ok _ =>
      c ← db (fun now => Outbox_Complete (j_ID job) now);
      match c, j_OperationID job with
      | Ok _, Some op => _ ← db (fun now => Operations_MarkApplied op now); mret tt
      | _, _ => mret tt
      end
  end.

(** One turn of the worker. *)
Definition turn_thread : thread (result error bool) :=
  try (db (fun now => ClaimNext now (lease_for wk))) (fun job =>
  match job with
  | None => mret (Ok false)
  | Some job => _ ← process_thread job; mret (Ok true)
  end).

Definition create_thread (dr : Draws) (who : option Principal) (tenantSlug idemKey : bytes) (req : CreatePeerRequest)
    : thread (result error (CreatePeerResponse * Z)) :=
  try (db (fun _ => create_checks uuid_Parse who tenantSlug idemKey req)) (fun '(tenant, node, profile) =>
  db (fun _ => with_tx (create_tx uuid_String X25519 sv dr tenant node profile req idemKey (hash_create req tenantSlug))
                 (empty_response, 0))).

Definition revoke_thread (dr : Draws) (who : option Principal) (tenantSlug peerID idemKey reason : bytes)
    : thread (result error uuid) :=
  try (db (fun _ => revoke_checks uuid_Parse who tenantSlug peerID idemKey)) (fun '(tenant, pid) =>
  db (fun _ => with_tx (revoke_tx uuid_String hash_revoke reason_json sv dr tenant pid idemKey reason) uuid_Nil)).

(** The calls that add to the catalog of tenants, profiles, nodes and pools. *)
Inductive catalog_call : forall A, (Z -> SE Store A) -> Prop :=
| call_profile newID p : catalog_call _ (fun now => insertProfile newID now p)
| call_tenant newID slug : catalog_call _ (fun now => EnsureTenant newID now slug)
| call_node newID n : catalog_call _ (fun now => insertNode newID now n)
| call_pool newID t n cidr : prefix_ok cidr -> catalog_call _ (fun _ => createPool newID t n cidr)
| call_seen id st : catalog_call _ (fun now => Nodes_MarkSeen id now st).

(** What runs: worker turns, and the requests of clients and operators. *)
Inductive role : Type := RWorker | RClient.

Definition drop_result {A} (p : thread A) : thread unit := _ ← p; mret tt.

Inductive starts : role -> thread unit -> Prop :=
| starts_turn : starts RWorker (drop_result turn_thread)
| starts_create dr who slug key req : starts RClient (drop_result (create_thread dr who slug key req))
| starts_revoke dr who slug pid key reason : starts RClient (drop_result (revoke_thread dr who slug pid key reason))
| starts_catalog A (m : Z -> SE Store A) : catalog_call A m -> starts RClient (drop_result (db m)).

(** ** Run alone, the threads are the sequential operations *)

Lemma run_try {A B} ctx now (p : thread (result error A)) (k : A -> thread (result error B)) st :
  run (ctx, now) (try p k) st
  = match run (ctx, now) p st with (Ok a, st') => run (ctx, now) (k a) st' | (Err e, st') => (Err e, st') end.
Proof. unfold try. rewrite run_bind. by destruct (run _ p st) as [[a|e] st']. Qed.

Lemma run_db {A} ctx now (m : Z -> SE Store A) st : run (ctx, now) (db m) st = on_db ctx (m now) st.
Proof. unfold db, act. cbn. by destruct (on_db ctx (m now) st). Qed.

Lemma run_exec {A} ctx now (m : context -> W -> result error A * W) st : run (ctx, now) (exec m) st = on_exec (m ctx) st.
Proof. unfold exec, act. cbn. by destruct (on_exec (m ctx) st). Qed.

Lemma run_preserve ctx now iface cfg st :
  preserveRuntimePrivateKey ctx iface cfg st
  = let '(cfg', st') := run (ctx, now) (preserve_thread iface cfg) st in (Ok cfg', st').
Proof.
  unfold preserveRuntimePrivateKey, preserve_thread. destruct (negb _); [done|].
  rewrite run_bind, run_exec. by destruct (on_exec _ st) as [[c|e] st'].
Qed.

Lemma run_sync ctx now iface cfg st : run (ctx, now) (sync_thread iface cfg) st = sync_node wk ctx iface cfg st.
Proof.
  unfold sync_thread, sync_node. rewrite run_bind, run_exec. destruct (on_exec _ st) as [[[]|err] st1]; [done|].
  destruct (negb _); [done|]. rewrite run_bind, run_exec. destruct (on_exec _ st1) as [[[]|up] st2]; [|done].
  rewrite run_bind. unfold mbind, SE_bind. rewrite (run_preserve ctx now).
  destruct (run _ _ st2) as [cfg' st3]. by rewrite run_exec.
Qed.

(** A first call on both sides. *)
Ltac first_call E :=
  rewrite ?run_try, ?run_bind, ?run_db, ?run_exec, ?run_sync;
  match goal with
  | |- _ = mbind _ ?m ?st => destruct (m st) as [[?|?] ?] eqn:E; [rewrite (bind_ok _ _ _ _ _ E)|by rewrite (bind_err _ _ _ _ _ E)]
  end.

Lemma run_apply ctx now nodeID st :
  run (ctx, now) (apply_thread nodeID) st = applyNode uuid_String Quote wk ctx now nodeID st.
Proof.
  unfold apply_thread, applyNode. first_call E1. first_call E2.
  destruct (n_ProfileID _) as [pid|]; [|by case_bool_decide]. first_call E3.
  rewrite run_bind. unfold mbind at 1, SE_bind at 1. rewrite (run_preserve ctx now).
  destruct (run _ (preserve_thread _ _) _) as [cfg st4]. first_call E4. first_call E5.
  match goal with d : InterfaceRuntime * _ |- _ => destruct d as [ir ps] end. by destruct (_ && _); [|rewrite run_db].
Qed.

Lemma run_process ctx now job st :
  run (ctx, now) (process_thread job) st = (tt, processJob uuid_String Quote wk ctx now job st).
Proof.
  unfold process_thread, processJob. rewrite run_bind, run_apply.
  destruct (applyNode _ _ _ _ _ _ st) as [[[]|err] st1]; cbv zeta; rewrite run_bind, run_db.
  - destruct (on_db ctx (Outbox_Complete _ _) st1) as [[[]|e] st2]; destruct (j_OperationID job) as [op|]; try done.
    rewrite run_bind, run_db. unfold ignore. by destruct (on_db ctx _ st2).
  - unfold ignore. destruct (on_db ctx (Outbox_Fail _ _ _ _) st1) as [x st2]. destruct (j_OperationID job) as [op|]; [|done].
    rewrite run_bind, run_db. cbn [snd]. by destruct (on_db ctx _ st2).
Qed.

(** (The threads are the sequential program.) Run without interruption under one
    context and clock reading, a worker turn, a create and a revoke request do exactly
    what the sequential model of [RunOnce], [CreatePeer] and [RevokePeer] does. *)
Theorem threads_alone ctx now st dr who slug key req pid reason :
  run (ctx, now) turn_thread st = RunOnce uuid_String Quote wk ctx now st
  /\ run (ctx, now) (create_thread dr who slug key req) st
     = on_db ctx (CreatePeer uuid_Parse uuid_String hash_create X25519 sv dr who slug key req) st
  /\ run (ctx, now) (revoke_thread dr who slug pid key reason) st
     = on_db ctx (RevokePeer uuid_Parse uuid_String hash_revoke reason_json sv dr who slug pid key reason) st.
Proof.
  split_and!.
  - unfold turn_thread, RunOnce. rewrite run_try, run_db.
    destruct (on_db ctx _ st) as [[[job|]|e] st1]; [|done..]. by rewrite run_bind, run_process.
  - unfold create_thread. rewrite run_try, run_db. destruct st as [s w]. unfold on_db. destruct ctx as [e|]; [done|].
    unfold CreatePeer, mbind, SE_bind. destruct (create_checks _ _ _ _ _ s) as [[[[t n] p]|e] s']; [|done].
    by rewrite run_db.
  - unfold revoke_thread. rewrite run_try, run_db. destruct st as [s w]. unfold on_db. destruct ctx as [e|]; [done|].
    unfold RevokePeer, mbind, SE_bind. destruct (revoke_checks _ _ _ _ _ s) as [[[t n]|e] s']; [|done].
    by rewrite run_db.
Qed.

(** ** What actions do to the database *)

(** Rows of peers and nodes are added and updated, never removed, and some columns
    never change. *)
Definition same_peer (q q' : Peer) : Prop :=
  peer_key q' = peer_key q /\ p_DisplayName q' = p_DisplayName q /\ p_PresharedKeyRef q' = p_PresharedKeyRef q
  /\ p_DesiredRevision q <= p_DesiredRevision q'.

Definition same_node (n n' : Node) : Prop := n_ID n' = n_ID n /\ n_InterfaceName n' = n_InterfaceName n.

Definition updated {A} (R : A -> A -> Prop) (l l' : list A) : Prop :=
  exists f new, l' = (f <$> l) ++ new /\ forall a, R a (f a).

Record evolves (s s' : Store) : Prop := {
  ev_peers : updated same_peer (st_peers s) (st_peers s');
  ev_nodes : updated same_node (st_nodes s) (st_nodes s');
  ev_profiles : exists new, st_profiles s' = st_profiles s ++ new }.

Lemma updated_refl {A} (R : A -> A -> Prop) l : (forall a, R a a) -> updated R l l.
Proof. intros H. exists id, []. by rewrite list_fmap_id, app_nil_r. Qed.

Lemma updated_app {A} (R : A -> A -> Prop) l new : (forall a, R a a) -> updated R l (l ++ new).
Proof. intros H. exists id, new. by rewrite list_fmap_id. Qed.

Lemma updated_fmap {A} (R : A -> A -> Prop) f l : (forall a, R a (f a)) -> updated R l (f <$> l).
Proof. intros H. exists f, []. by rewrite app_nil_r. Qed.

Lemma updated_id {A} (R : A -> A -> Prop) (id : A -> uuid) x f l :
  (forall a, R a a) -> (forall a, R a (f a)) -> updated R l (update_id id x f l).
Proof. intros H Hf. apply updated_fmap. intros a. by destruct (_ =? _)%N. Qed.

Lemma updated_elem {A} (R : A -> A -> Prop) l l' a : updated R l l' -> a ∈ l -> exists a', a' ∈ l' /\ R a a'.
Proof. intros (f & new & -> & Hf) Ha. exists (f a). split; [|done]. apply elem_of_app. left. by apply list_elem_of_fmap_2. Qed.

Lemma same_peer_refl q : same_peer q q.
Proof. by split_and!. Qed.
Lemma same_node_refl n : same_node n n.
Proof. done. Qed.
Hint Resolve same_peer_refl same_node_refl : core.

Lemma evolves_same s s' :
  st_peers s' = st_peers s -> st_nodes s' = st_nodes s -> st_profiles s' = st_profiles s -> evolves s s'.
Proof.
  intros Hp Hn Hf. split; rewrite ?Hp, ?Hn, ?Hf; [by apply updated_refl..|]. exists []. by rewrite app_nil_r.
Qed.

Lemma evolves_refl s : evolves s s.
Proof. by apply evolves_same. Qed.

(** What a client does: it may queue jobs, and changes the peers of a node only with a
    job for that node. *)
Definition row_node (r : OutboxRow) : uuid := j_NodeID (ob_Job r).
Definition peers_of (nodeID : uuid) (s : Store) : list Peer := filter (fun p => p_NodeID p = nodeID) (st_peers s).

Definition asks_for (s s' : Store) : Prop :=
  exists new, st_outbox s' = st_outbox s ++ new /\ Forall (fun r => ob_Status r = JobPending) new
    /\ forall nodeID, peers_of nodeID s' = peers_of nodeID s \/ Exists (fun r => row_node r = nodeID) new.

Lemma asks_for_same s s' : st_peers s' = st_peers s -> st_outbox s' = st_outbox s -> asks_for s s'.
Proof. intros Hp Ho. exists []. unfold peers_of. rewrite Ho, Hp, app_nil_r. split_and!; [done..|by left]. Qed.

(** A database action a client may take. *)
Definition client_action {A} (m : SE Store A) : Prop :=
  forall s, store_ok s -> store_ok (snd (m s)) /\ evolves s (snd (m s)) /\ asks_for s (snd (m s)).

Lemma client_pure {A} (m : SE Store A) : pure m -> client_action m.
Proof. intros Hm s Hs. rewrite Hm. split_and!; [done|apply evolves_refl|by apply asks_for_same]. Qed.

Lemma created_evolves dr tenant key hash resp p s peer s1 :
  store_ok s -> AllocateAndInsert uuid_String (d_peerID dr) (d_now dr) p s = (Ok peer, s1) ->
  let s' := created_store uuid_String sv dr tenant key hash resp peer s1 in evolves s s' /\ asks_for s s'.
Proof.
  intros Hs (a & row & c & Hp & -> & _)%AllocateAndInsert_scan; [|done]. split.
  - split; cbn; [by apply updated_app|by apply updated_refl|]. exists []. by rewrite app_nil_r.
  - exists [request_job dr OpCreatePeer #"{}" peer]. split; [done|]. split; [by repeat constructor|]. intros nodeID.
    unfold peers_of. cbn. rewrite filter_app. destruct (decide (p_NodeID peer = nodeID)) as [Hn|Hn].
    + right. by constructor.
    + left. rewrite (filter_cons_False _ peer), app_nil_r; [done|]. done.
Qed.

Lemma revoked_evolves dr tenant id key reason p s :
  find_id p_ID (st_peers s) id = Some p -> store_ok s ->
  let s' := revoked_store uuid_String hash_revoke reason_json sv dr tenant id key reason p s in evolves s s' /\ asks_for s s'.
Proof.
  intros [Hp He]%find_id_Some Hs. split.
  - split; cbn; [|by apply updated_refl|exists []; by rewrite app_nil_r].
    apply updated_id; [done|]. intros q. split_and!; [done..|]. cbn. lia.
  - eexists [_]. split; [reflexivity|]. split; [by repeat constructor|]. intros nodeID. unfold peers_of. cbn.
    destruct (decide (p_NodeID p = nodeID)) as [Hn|Hn]; [right; by constructor|left].
    apply (filter_update_other p_ID p_NodeID id (revoke_row (d_now dr) (d_now dr)) nodeID); [|done]. intros q Hq Hqi.
    assert (q = p) as -> by (apply (unique_id p_ID (st_peers s)); [by apply peer_ids_unique|..]; congruence). done.
Qed.

Lemma client_create_tx dr tenant node profile req key hash :
  client_action (with_tx (create_tx uuid_String X25519 sv dr tenant node profile req key hash) (empty_response, 0)).
Proof.
  intros s Hs. split; [apply preserves_with_tx; [unfold create_tx, create_fresh; preserves_v|done]|].
  assert (Hsame : evolves s s /\ asks_for s s) by (split; [apply evolves_refl|by apply asks_for_same]).
  rewrite create_tx_cases. destruct (live_record _ _ s) as [rec|]; [by case_bool_decide|].
  destruct (create_fresh _ _ _ _ _ _ _ _ _ _ _) as [[[]|e] [v s']] eqn:E; [|done].
  apply create_fresh_Ok in E as (pub & priv & psk & peer & s1 & _ & _ & Ha & _ & _ & ->). by eapply created_evolves.
Qed.

Lemma client_revoke_tx dr tenant id key reason :
  client_action (with_tx (revoke_tx uuid_String hash_revoke reason_json sv dr tenant id key reason) uuid_Nil).
Proof.
  intros s Hs. split; [apply preserves_with_tx; [unfold revoke_tx; preserves_v|done]|].
  assert (Hsame : evolves s s /\ asks_for s s) by (split; [apply evolves_refl|by apply asks_for_same]).
  pose proof (revoke_tx_cases uuid_String hash_revoke reason_json sv dr tenant id key reason s) as H. cbv zeta in H.
  destruct (live_record _ _ s) as [rec|]; [rewrite H; by case_bool_decide|].
  destruct (find_id p_ID (st_peers s) id) as [p|] eqn:Ep; [|by rewrite H].
  destruct (p_TenantID p =? t_ID tenant)%N; [|by rewrite H]. destruct H as [[e H]|[H _]]; rewrite H; [done|].
  by apply revoked_evolves.
Qed.

Lemma client_catalog A (m : Z -> SE Store A) now : catalog_call A m -> client_action (m now).
Proof.
  intros Hc s Hs.
  assert (Hok : store_ok (snd (m now s))).
  { destruct Hc; [by apply preserves_InsertProfile|by apply preserves_Upsert|by apply preserves_insertNode
      |by apply preserves_createPool|by apply preserves_MarkSeen]. }
  split; [done|]. clear Hok.
  assert (Hsame : evolves s s /\ asks_for s s) by (split; [apply evolves_refl|by apply asks_for_same]).
  destruct Hc as [newID p|newID slug|newID n|newID tid n cidr Hc|id st].
  - unfold insertProfile. destruct (Validate p); [|done]. run_session. destruct (negb _); [|done].
    split; [|by apply asks_for_same]. split; [by apply updated_refl..|by eexists].
  - unfold EnsureTenant, Tenants_Upsert. run_session. destruct (find _ _); [done|]. run_session. destruct (negb _); [|done].
    split; [by apply evolves_same|by apply asks_for_same].
  - unfold insertNode. run_session. destruct (negb _); [|done]. run_session. destruct (profile_ref_ok _ _); [|done].
    split; [|by apply asks_for_same]. split; [by apply updated_refl|by apply updated_app|]. exists []. by rewrite app_nil_r.
  - unfold createPool. run_session. destruct (negb _); [|done]. run_session. destruct (_ && _); [|done].
    split; [by apply evolves_same|by apply asks_for_same].
  - split; [|by apply asks_for_same]. split; cbn; [by apply updated_refl| |exists []; by rewrite app_nil_r].
    by apply updated_id.
Qed.

(** ** Triples for database and executor calls *)

Definition guarantee (r : role) (st st' : Shared) : Prop :=
  evolves (fst st) (fst st')
  /\ match r with RWorker => True | RClient => snd st' = snd st /\ asks_for (fst st) (fst st') end.

Lemma guarantee_refl r st : guarantee r st st.
Proof. split; [apply evolves_refl|]. destruct r; [done|]. split; [done|by apply asks_for_same]. Qed.

Section triples.
Context (kind : nat -> role) (I : Shared -> Prop) (i : nat).
Local Abbreviation triple := (rg kind I guarantee i).
Local Abbreviation steady := (stable kind I guarantee i).

(** Under a done context a database call fails and does nothing. *)
Lemma rg_db {A} (m : Z -> SE Store A) (P : Shared -> Prop) (Q : result error A -> Shared -> Prop) :
  (forall now s w r s', I (s, w) -> P (s, w) -> m now s = (r, s') ->
     I (s', w) /\ guarantee (kind i) (s, w) (s', w) /\ Q r (s', w)) ->
  (forall e st, I st -> P st -> Q (Err e) st) -> (forall r, steady (Q r)) ->
  triple (db m) P Q.
Proof.
  intros Hm He Hst. apply rg_act; [|done]. intros [ctx now] [s w] r st' Hi HP. unfold on_db.
  destruct ctx as [e|]; [intros [= <- <-]; split_and!; [done|apply guarantee_refl|by apply He]|].
  destruct (m now s) as [r' s'] eqn:E. intros [= <- <-]. by eapply Hm.
Qed.

Lemma rg_exec {A} (m : context -> W -> result error A * W) (P : Shared -> Prop) (Q : result error A -> Shared -> Prop) :
  kind i = RWorker ->
  (forall ctx s w r w', I (s, w) -> P (s, w) -> m ctx w = (r, w') -> I (s, w') /\ Q r (s, w')) ->
  (forall r, steady (Q r)) -> triple (exec m) P Q.
Proof.
  intros Hk Hm Hst. apply rg_act; [|done]. intros [ctx now] [s w] r st' Hi HP. unfold on_exec.
  destruct (m ctx w) as [r' w'] eqn:E. intros [= <- <-]. destruct (Hm _ _ _ _ _ Hi HP E). split_and!; [done| |done].
  rewrite Hk. split; [apply evolves_refl|done].
Qed.

Lemma rg_try {A B} (p : thread (result error A)) (k : A -> thread (result error B)) P Q R :
  triple p P Q -> (forall a, triple (k a) (Q (Ok a)) R) -> (forall e st, I st -> Q (Err e) st -> R (Err e) st) ->
  triple (try p k) P R.
Proof. intros Hp Hk He. eapply rg_bind; [exact Hp|]. intros [a|e]; [apply Hk|]. apply rg_ret. auto. Qed.

Lemma rg_drop {A} (p : thread A) P Q : triple p P Q -> triple (drop_result p) P (fun _ _ => True).
Proof. intros Hp. by eapply rg_bind. Qed.

Lemma steady_True : steady (fun _ => True).
Proof. done. Qed.

(** *** Clients *)

Context (I_ok : forall st, I st -> store_ok (fst st)).
Context (I_client : forall s w s', I (s, w) -> store_ok s' -> guarantee RClient (s, w) (s', w) -> I (s', w)).

Lemma rg_client_db {A} (m : Z -> SE Store A) :
  kind i = RClient -> (forall now, client_action (m now)) -> triple (db m) (fun _ => True) (fun _ _ => True).
Proof.
  intros Hk Hm. apply rg_db; [|done..]. intros now s w r s' Hi _ E. destruct (Hm now s (I_ok _ Hi)) as (Hok & He & Ha).
  rewrite E in Hok, He, Ha. rewrite Hk. assert (guarantee RClient (s, w) (s', w)) as Hg by done.
  split_and!; [by eapply I_client|done..].
Qed.

Lemma rg_client p : kind i = RClient -> starts RClient p -> triple p (fun _ => True) (fun _ _ => True).
Proof.
  intros Hk Hp. inversion Hp; subst; eapply rg_drop.
  - eapply rg_try; [apply rg_client_db; [done|]|intros [[tenant node] profile]; apply rg_client_db; [done|]|done].
    + intros _. apply client_pure, reads_create_checks.
    + intros _. apply client_create_tx.
  - eapply rg_try; [apply rg_client_db; [done|]|intros [tenant id]; apply rg_client_db; [done|]|done].
    + intros _. apply client_pure, reads_revoke_checks.
    + intros _. apply client_revoke_tx.
  - apply rg_client_db; [done|]. intros now. by apply client_catalog.
Qed.
End triples.

(** ** Any number of workers keep the invariant *)

(** What a worker knows of the rows it has read: they are still there, with a desired
    revision that has not gone down. *)
Definition snapshot_ok (l : list Peer) (s : Store) : Prop :=
  NoDup (p_ID <$> l)
  /\ Forall (fun p => exists q, q ∈ st_peers s /\ p_ID q = p_ID p /\ p_DesiredRevision p <= p_DesiredRevision q) l.

Lemma snapshot_evolves l s s' : evolves s s' -> snapshot_ok l s -> snapshot_ok l s'.
Proof.
  intros He [Hd Hl]. split; [done|]. eapply Forall_impl; [exact Hl|]. intros p (q & Hq & Hid & Hle).
  destruct (updated_elem _ _ _ _ (ev_peers _ _ He) Hq) as (q' & Hq' & Hk & _ & _ & Hle').
  exists q'. injection Hk as Hk. split_and!; [done|congruence|lia].
Qed.

Lemma snapshot_read nodeID s : store_ok s -> snapshot_ok (node_peers nodeID s) s.
Proof.
  intros Hs. split; [by apply node_peers_ids|]. apply Forall_forall. intros p [Hp _]%node_peers_elem; [|done].
  by exists p.
Qed.

Lemma persist_evolves now l ps s r s' :
  store_ok s -> snapshot_ok l s -> persistRuntime now l ps s = (r, s') ->
  r = Ok tt /\ store_ok s' /\ exists m, s' = set_runtime (fun _ => m) (set_peers (fmap (apply_to now l)) s).
Proof.
  intros Hs [Hd Hl] H. destruct (persistRuntime_stale now l ps s s' r Hs Hd Hl H) as (-> & Hs' & _).
  split_and!; [done|done|]. unfold persistRuntime, tx in H.
  destruct (persist_all_spec now (by_pub ps) l s Hd) as (m & Hm & _).
  { eapply Forall_impl; [exact Hl|]. intros p (q & Hq & He & _). apply has_id_spec. by exists q. }
  rewrite Hm in H. injection H as <-. by exists m.
Qed.

Lemma apply_to_same now l q : same_peer q (apply_to now l q).
Proof. unfold apply_to. by destruct (find_id _ _ _). Qed.

Lemma persisted_evolves now l m s : evolves s (set_runtime (fun _ => m) (set_peers (fmap (apply_to now l)) s)).
Proof.
  split; cbn; [apply updated_fmap, apply_to_same|by apply updated_refl|]. exists []. by rewrite app_nil_r.
Qed.

Lemma claim_evolves now lease s r s' :
  store_ok s -> ClaimNext now lease s = (r, s') -> store_ok s' /\ evolves s s'.
Proof.
  intros Hs E. split; [pose proof (preserves_ClaimNext now lease s Hs) as H; by rewrite E in H|].
  rewrite ClaimNext_run in E. destruct (next_job now s); injection E as _ <-; [by apply evolves_same|apply evolves_refl].
Qed.

Section many.
Context (kind : nat -> role) (i : nat) (Hi : kind i = RWorker).
Local Abbreviation Ok_store := (fun st : Shared => store_ok (fst st)).
Local Abbreviation triple := (rg kind Ok_store guarantee i).

Lemma steady_snapshot l : stable kind Ok_store guarantee i (fun st => snapshot_ok l (fst st)).
Proof. intros s s' _ _ (j & _ & He & _). by apply snapshot_evolves. Qed.

(** Executor calls leave the store alone. *)
Lemma rg_exec_snapshot {A} (m : context -> W -> result error A * W) l :
  triple (exec m) (fun st => snapshot_ok l (fst st)) (fun _ st => snapshot_ok l (fst st)).
Proof. apply rg_exec; [done| |intros _; apply steady_snapshot]. intros ctx s w r w' Hs Hl _. by split. Qed.

Lemma rg_preserve_snapshot iface cfg l :
  triple (preserve_thread iface cfg) (fun st => snapshot_ok l (fst st)) (fun _ st => snapshot_ok l (fst st)).
Proof.
  unfold preserve_thread. destruct (negb _); [by apply rg_ret|].
  eapply rg_bind; [apply rg_exec_snapshot|]. intros r. by apply rg_ret.
Qed.

Lemma rg_sync_snapshot iface cfg l :
  triple (sync_thread iface cfg) (fun st => snapshot_ok l (fst st)) (fun _ st => snapshot_ok l (fst st)).
Proof.
  unfold sync_thread. eapply rg_bind; [apply rg_exec_snapshot|]. intros [[]|err]; [by apply rg_ret|].
  destruct (negb _); [by apply rg_ret|]. eapply rg_bind; [apply rg_exec_snapshot|]. intros [[]|up]; [|by apply rg_ret].
  eapply rg_bind; [apply rg_preserve_snapshot|]. intros cfg'. apply rg_exec_snapshot.
Qed.

(** A call that keeps the invariant and the rows of peers, nodes and profiles. *)
Lemma rg_db_keeps {A} (m : Z -> SE Store A) :
  (forall now s r s', store_ok s -> m now s = (r, s') -> store_ok s' /\ evolves s s') ->
  triple (db m) (fun _ => True) (fun _ _ => True).
Proof.
  intros Hm. apply rg_db; [|done..]. intros now s w r s' Hs _ E. destruct (Hm _ _ _ _ Hs E). rewrite Hi.
  by split_and!.
Qed.

Lemma rg_apply_many nodeID : triple (apply_thread nodeID) (fun _ => True) (fun _ _ => True).
Proof.
  unfold apply_thread. eapply rg_try; [apply rg_db_keeps|intros node|done].
  { intros now s r s' Hs E. apply pure_run in E as ->; [|apply reads_Nodes_GetByID]. split; [done|apply evolves_refl]. }
  eapply (rg_try _ _ _ _ _ _ (fun r st => match r with Ok l => snapshot_ok l (fst st) | Err _ => True end)); [apply rg_db| |done].
  { intros now s w r s' Hs _ E. injection E as <- <-. split_and!; [done|apply guarantee_refl|]. by apply snapshot_read. }
  { done. }
  { intros [l|e]; [apply steady_snapshot|done]. }
  intros peers. destruct (n_ProfileID node) as [pid|]; [|by apply rg_ret].
  eapply (rg_try _ _ _ _ _ _ (fun _ st => snapshot_ok peers (fst st))); [apply rg_db| |done].
  { intros now s w r s' Hs Hl E. apply pure_run in E as ->; [|apply reads_Profiles_GetByID]. by split_and!; [|apply guarantee_refl|]. }
  { done. }
  { intros _. apply steady_snapshot. }
  intros profile. eapply rg_bind; [apply rg_preserve_snapshot|]. intros cfg.
  eapply rg_try; [apply rg_sync_snapshot|intros u|done]. eapply rg_try; [apply rg_exec_snapshot|intros [ir ps]|done].
  destruct (_ && _); [by apply rg_ret|]. apply rg_db; [|done..].
  intros now s w r s' Hs Hl E. destruct (persist_evolves _ _ _ _ _ _ Hs Hl E) as (-> & Hs' & m & ->). rewrite Hi.
  split_and!; [done|split; [apply persisted_evolves|done]|done].
Qed.

Lemma rg_set_job (id : uuid) st (msg : option bytes) :
  triple (db (fun now => modify (set_outbox (update_id ob_ID id (set_job_status st msg now))))) (fun _ => True) (fun _ _ => True).
Proof.
  apply rg_db_keeps. intros now s r s' Hs E.
  pose proof (preserves_set_job id (set_job_status st msg now) ltac:(done) ltac:(done) s Hs) as H. rewrite E in H.
  split; [done|]. injection E as _ <-. by apply evolves_same.
Qed.

Lemma rg_set_op (id : uuid) st code msg :
  triple (db (fun now => modify (set_operations (update_id o_ID id (set_op_status st code msg now))))) (fun _ => True) (fun _ _ => True).
Proof.
  apply rg_db_keeps. intros now s r s' Hs E.
  pose proof (preserves_set_op id (set_op_status st code msg now) ltac:(done) s Hs) as H. rewrite E in H.
  split; [done|]. injection E as _ <-. by apply evolves_same.
Qed.

Lemma rg_worker_many : triple (drop_result turn_thread) (fun _ => True) (fun _ _ => True).
Proof.
  apply (rg_drop _ _ _ _ _ (fun _ _ => True)).
  eapply rg_try; [apply rg_db_keeps; intros now s r s'; apply claim_evolves|intros [job|]|done]; [|by apply rg_ret].
  eapply (rg_bind _ _ _ _ _ _ _ (fun _ _ => True)); [|intros u; by apply rg_ret].
  unfold process_thread. eapply rg_bind; [apply rg_apply_many|]. intros [[]|err]; cbv zeta.
  - eapply rg_bind; [apply rg_set_job|]. intros [[]|e]; [|by apply rg_ret]. destruct (j_OperationID job); [|by apply rg_ret].
    eapply rg_bind; [apply rg_set_op|]. intros r'. by apply rg_ret.
  - eapply rg_bind; [apply rg_set_job|]. intros r. destruct (j_OperationID job); [|by apply rg_ret].
    eapply rg_bind; [apply rg_set_op|]. intros r'. by apply rg_ret.
Qed.
End many.

(** ** One turn, whatever happens to its calls *)

(** One of the first [n] calls found its context done, or failed. *)
Definition interrupted (es : nat -> Env) (n : nat) : Prop := exists i, (i < n)%nat /\ is_Some (fst (es i)).

Lemma interrupted_after es n1 n2 : interrupted (tail_from n1 es) n2 -> interrupted es (n1 + n2).
Proof. intros (i & Hi & H). exists (n1 + i)%nat. split; [lia|done]. Qed.

Lemma in_try {A B} es (p : thread (result error A)) (k : A -> thread (result error B)) st r st' n :
  run_in es (try p k) st = (r, st', n) ->
  (exists e n1, run_in es p st = (Err e, st', n1) /\ r = Err e)
  \/ (exists a st1 n1 n2, run_in es p st = (Ok a, st1, n1) /\ run_in (tail_from n1 es) (k a) st1 = (r, st', n2)).
Proof.
  intros (x & st1 & n1 & n2 & Hp & H & ->)%run_in_bind. destruct x as [a|e]; [right; by eexists _, _, _, _|].
  injection H as <- <- <-. left. by eexists _, _.
Qed.

Lemma in_db {A} es (m : Z -> SE Store A) s w r s' w' n :
  run_in es (db m) (s, w) = (r, (s', w'), n) ->
  w' = w /\ n = 1%nat /\ match fst (es O) with Some e => r = Err e /\ s' = s | None => m (snd (es O)) s = (r, s') end.
Proof.
  intros [H ->]%run_in_act. destruct (es O) as [ctx now]. cbn in *. destruct ctx as [e|]; [by injection H as <- <- <-|].
  by destruct (m now s) as [r0 s0]; injection H as <- <- <-.
Qed.

Lemma in_read {A} es (m : Z -> SE Store A) s w r s' w' n :
  (forall now, pure (m now)) -> run_in es (db m) (s, w) = (r, (s', w'), n) -> s' = s.
Proof.
  intros Hm (_ & _ & H)%in_db. destruct (fst (es O)); [by destruct H|]. by apply pure_run in H.
Qed.

(** Programs that leave the store alone. *)
Definition off_store {A} (p : thread A) : Prop :=
  forall es s w a s' w' n, run_in es p (s, w) = (a, (s', w'), n) -> s' = s.

Lemma off_exec {A} (m : context -> W -> result error A * W) : off_store (exec m).
Proof.
  intros es s w r s' w' n [H _]%run_in_act. destruct (es O) as [ctx now]. unfold on_exec in H.
  by destruct (m ctx w); injection H as _ <- _.
Qed.
Lemma off_ret {A} (a : A) : off_store (mret a).
Proof. by intros es s w b s' w' n [= _ <- _ _]. Qed.
Lemma off_bind {A B} (p : thread A) (f : A -> thread B) : off_store p -> (forall a, off_store (f a)) -> off_store (p ≫= f).
Proof.
  intros Hp Hf es s w b s' w' n (a & [s1 w1] & n1 & n2 & H1 & H2 & _)%run_in_bind. apply Hp in H1 as ->. by apply Hf in H2.
Qed.
Lemma off_preserve iface cfg : off_store (preserve_thread iface cfg).
Proof. unfold preserve_thread. destruct (negb _); [apply off_ret|]. apply off_bind; [apply off_exec|]. intros r. apply off_ret. Qed.
Lemma off_sync iface cfg : off_store (sync_thread iface cfg).
Proof.
  unfold sync_thread. apply off_bind; [apply off_exec|]. intros [[]|err]; [apply off_ret|]. destruct (negb _); [apply off_ret|].
  apply off_bind; [apply off_exec|]. intros [[]|up]; [|apply off_ret]. apply off_bind; [apply off_preserve|]. intros c. apply off_exec.
Qed.

(** Applying a node changes runtime rows and peers at most, and nothing unless it succeeds. *)
Lemma apply_in es nodeID s w r s' w' n :
  store_ok s -> run_in es (apply_thread nodeID) (s, w) = (r, (s', w'), n) ->
  store_ok s' /\ (r <> Ok tt -> s' = s) /\ exists m l, s' = set_runtime (fun _ => m) (set_peers (fun _ => l) s).
Proof.
  intros Hs. assert (Hsame : forall r : result error unit, store_ok s /\ (r <> Ok tt -> s = s) /\ exists m l, s = set_runtime (fun _ => m) (set_peers (fun _ => l) s)).
  { intros r'. split_and!; [done..|]. exists (st_runtime s), (st_peers s). by destruct s. }
  intros [(e & n1 & H & ->)|(node & [s1 w1] & n1 & n2 & H & H2)]%in_try; apply in_read in H as ->; try (intros; apply reads_Nodes_GetByID); [done|].
  apply in_try in H2 as [(e & n3 & H & ->)|(peers & [s2 w2] & n3 & n4 & H & H2)].
  { apply in_read in H as ->; [done|]. by intros. }
  assert (s2 = s /\ peers = node_peers nodeID s) as [-> ->].
  { apply in_db in H as (_ & _ & H). destruct (fst _); [by destruct H|]. injection H as <- <-. done. }
  clear H. destruct (n_ProfileID node) as [pid|]; [|injection H2 as _ <- _ _; apply (Hsame r)].
  apply in_try in H2 as [(e & n5 & H & ->)|(profile & [s3 w3] & n5 & n6 & H & H2)]; apply in_read in H as ->; try (intros; apply reads_Profiles_GetByID); [done|].
  apply run_in_bind in H2 as (cfg & [s4 w4] & n7 & n8 & H & H2 & _). apply off_preserve in H as ->.
  apply in_try in H2 as [(e & n9 & H & ->)|([] & [s5 w5] & n9 & n10 & H & H2)]; apply off_sync in H as ->; [done|].
  apply in_try in H2 as [(e & n11 & H & ->)|([ir ps] & [s6 w6] & n11 & n12 & H & H2)]; apply off_exec in H as ->; [done|].
  destruct (_ && _); [injection H2 as <- <- _ _; done|]. apply in_db in H2 as (_ & _ & H).
  destruct (fst _); [by destruct H as [-> ->]|].
  destruct (persist_evolves _ _ _ _ _ _ Hs (snapshot_read nodeID s Hs) H) as (-> & Hs' & m & ->). split_and!; [done..|]. by eexists m, _.
Qed.

(** What a turn makes of the job it has claimed, by the outcome [r] of applying its node:
    the row is settled, or still leased after an interruption; so is the operation, or it
    is as it was; no other row of these tables changes, and no other table but the peers
    and their runtime, these only if the application succeeded. *)
Record settled (es : nat -> Env) (n : nat) (row : OutboxRow) (r : result error unit) (s s' : Store) : Prop := {
  se_final : fst (settled_status r) <> JobLeased /\ fst (settled_status r) <> JobPending;
  se_job :
    let leased := lease_row (snd (es O)) (lease_for wk) in
    (exists t, st_outbox s' = update_id ob_ID (ob_ID row) (fun q => settled_job t r (leased q)) (st_outbox s))
    \/ (st_outbox s' = update_id ob_ID (ob_ID row) leased (st_outbox s) /\ interrupted es n);
  se_operation :
    (exists op t, j_OperationID (ob_Job row) = Some op /\ st_operations s' = update_id o_ID op (settled_op t r) (st_operations s))
    \/ (st_operations s' = st_operations s /\ (j_OperationID (ob_Job row) = None \/ interrupted es n));
  se_failed : r <> Ok tt -> st_peers s' = st_peers s /\ st_runtime s' = st_runtime s;
  se_frame : exists m l, s' = set_outbox (fun _ => st_outbox s') (set_operations (fun _ => st_operations s')
                                (set_runtime (fun _ => m) (set_peers (fun _ => l) s))) }.

Lemma update_id_twice {A} (id : A -> uuid) x f g (l : list A) :
  (forall q, id (g q) = id q) -> update_id id x f (update_id id x g l) = update_id id x (fun q => f (g q)) l.
Proof.
  intros Hg. unfold update_id. rewrite <- list_fmap_compose. apply list_fmap_ext. intros i q _. cbn.
  destruct (id q =? x)%N eqn:E; [by rewrite Hg, E|by rewrite E].
Qed.

(** A call that sets rows of the queue, and one for the operations. *)
Lemma in_set_job es id (f : Z -> OutboxRow -> OutboxRow) s w c s' w' n :
  store_ok s -> (forall t q, j_ID (ob_Job (f t q)) = j_ID (ob_Job q) /\ j_OperationID (ob_Job (f t q)) = j_OperationID (ob_Job q)) ->
  run_in es (db (fun now => modify (set_outbox (update_id ob_ID id (f now))))) (s, w) = (c, (s', w'), n) ->
  w' = w /\ n = 1%nat /\ store_ok s'
  /\ ((c = Ok tt /\ s' = set_outbox (update_id ob_ID id (f (snd (es O)))) s) \/ (interrupted es 1 /\ s' = s)).
Proof.
  intros Hs Hf (-> & -> & H)%in_db. split_and!; [done..| |]; destruct (fst (es O)) as [e|] eqn:Ee.
  - by destruct H as [_ ->].
  - pose proof (preserves_set_job id (f (snd (es O))) (fun q => proj1 (Hf _ q)) (fun q => proj2 (Hf _ q)) s Hs) as Hp.
    by rewrite H in Hp.
  - right. split; [|by destruct H]. exists O. split; [lia|]. rewrite Ee. eauto.
  - left. by injection H as <- <-.
Qed.

Lemma in_set_op es id (f : Z -> Operation -> Operation) s w c s' w' n :
  store_ok s -> (forall t o, o_ID (f t o) = o_ID o) ->
  run_in es (db (fun now => modify (set_operations (update_id o_ID id (f now))))) (s, w) = (c, (s', w'), n) ->
  w' = w /\ n = 1%nat /\ store_ok s'
  /\ (s' = set_operations (update_id o_ID id (f (snd (es O)))) s \/ (interrupted es 1 /\ s' = s)).
Proof.
  intros Hs Hf (-> & -> & H)%in_db. split_and!; [done..| |]; destruct (fst (es O)) as [e|] eqn:Ee.
  - by destruct H as [_ ->].
  - pose proof (preserves_set_op id (f (snd (es O))) (Hf _) s Hs) as Hp. by rewrite H in Hp.
  - right. split; [|by destruct H]. exists O. split; [lia|]. rewrite Ee. eauto.
  - left. by injection H as <- <-.
Qed.

(** The two calls that record an outcome; the second may be left out after an error. *)
Lemma record_in es id op (fj : Z -> OutboxRow -> OutboxRow) (fo : Z -> Operation -> Operation) k s w s' w' n u :
  store_ok s -> (forall t q, j_ID (ob_Job (fj t q)) = j_ID (ob_Job q) /\ j_OperationID (ob_Job (fj t q)) = j_OperationID (ob_Job q)) ->
  (forall t o, o_ID (fo t o) = o_ID o) ->
  (forall c, (exists o, op = Some o /\ k c = (_ ← db (fun now => modify (set_operations (update_id o_ID o (fo now)))); mret tt))
             \/ (k c = mret tt /\ (op = None \/ c <> Ok tt))) ->
  run_in es (c ← db (fun now => modify (set_outbox (update_id ob_ID id (fj now)))); k c) (s, w) = (u, (s', w'), n) ->
  store_ok s' /\ exists s1,
    ((exists t, s1 = set_outbox (update_id ob_ID id (fj t)) s) \/ (interrupted es n /\ s1 = s))
    /\ ((exists o t, op = Some o /\ s' = set_operations (update_id o_ID o (fo t)) s1) \/ (s' = s1 /\ (op = None \/ interrupted es n))).
Proof.
  intros Hs Hfj Hfo Hk (c & [s1 w1] & n1 & n2 & H1 & H2 & ->)%run_in_bind.
  apply in_set_job in H1 as (-> & -> & Hs1 & Hj); [|done..].
  assert (Hw : forall m, interrupted es 1 -> interrupted es (1 + m)) by (intros m (i & Hi & He); exists i; split; [lia|done]).
  assert (Hj' : (exists t, s1 = set_outbox (update_id ob_ID id (fj t)) s) \/ (interrupted es (1 + n2) /\ s1 = s))
    by (destruct Hj as [[_ ->]|[? ->]]; eauto).
  destruct (Hk c) as [(o & -> & Ek)|[Ek Hn]]; rewrite Ek in H2.
  - apply run_in_bind in H2 as (x & [s3 w3] & n3 & n4 & H3 & (_ & [= -> ->] & ->)%run_in_ret & ->).
    apply in_set_op in H3 as (-> & -> & Hs3 & Ho); [|done..]. split; [done|]. exists s1. split; [done|].
    destruct Ho as [->|[Hi ->]]; [left; eauto|right]. split; [done|]. right. by apply interrupted_after in Hi.
  - apply run_in_ret in H2 as (_ & [= -> ->] & ->). split; [done|]. exists s1. split; [done|]. right. split; [done|].
    destruct Hn as [Hn|Hc]; [by left|right]. destruct Hj as [[Hc' _]|[Hi _]]; [done|auto].
Qed.

(** Processing a job records the outcome of applying its node. *)
Lemma process_in es job s w s' w' n u :
  store_ok s -> run_in es (process_thread job) (s, w) = (u, (s', w'), n) ->
  store_ok s' /\ exists r m l s0 s1, s0 = set_runtime (fun _ => m) (set_peers (fun _ => l) s) /\ (r <> Ok tt -> s0 = s)
    /\ ((exists t, s1 = set_outbox (update_id ob_ID (j_ID job) (settled_job t r)) s0) \/ (interrupted es n /\ s1 = s0))
    /\ ((exists o t, j_OperationID job = Some o /\ s' = set_operations (update_id o_ID o (settled_op t r)) s1)
        \/ (s' = s1 /\ (j_OperationID job = None \/ interrupted es n))).
Proof.
  intros Hs (r & [s0 w0] & n1 & n2 & H1 & H2 & ->)%run_in_bind. apply apply_in in H1 as (Hs0 & Hr & m & l & E); [|done].
  assert (Hrec : store_ok s' /\ exists s1,
    ((exists t, s1 = set_outbox (update_id ob_ID (j_ID job) (settled_job t r)) s0) \/ (interrupted (tail_from n1 es) n2 /\ s1 = s0))
    /\ ((exists o t, j_OperationID job = Some o /\ s' = set_operations (update_id o_ID o (settled_op t r)) s1)
        \/ (s' = s1 /\ (j_OperationID job = None \/ interrupted (tail_from n1 es) n2)))).
  { destruct r as [[]|err]; cbv zeta in H2.
    - eapply (record_in _ (j_ID job) (j_OperationID job) (fun t => settled_job t (Ok tt)) (fun t => settled_op t (Ok tt))); [done..| |exact H2].
      intros [[]|e]; (destruct (j_OperationID job); [|by right; split; [|left]]); [by left; eexists|by right; split; [|right]].
    - unfold Outbox_Fail, Operations_MarkFailed in H2. unfold settled_job, settled_op, settled_status.
      destruct (classifyRetryable err); cbn [fst snd];
        (eapply (record_in _ (j_ID job) (j_OperationID job) (fun t => set_job_status _ _ t) (fun t => set_op_status _ _ _ t)); [done..| |exact H2]);
        (intros c; destruct (j_OperationID job); [left; by eexists|by right; split; [|left]]). }
  destruct Hrec as (Hs' & s1 & Hj & Ho). split; [done|]. exists r, m, l, s0, s1. split_and!; [done|done| |].
  - destruct Hj as [?|[Hi ?]]; [by left|right]. split; [by apply interrupted_after|done].
  - destruct Ho as [?|[? [?|Hi]]]; [by left|right; by split; [|left]|right; split; [done|right; by apply interrupted_after]].
Qed.

(** C35: (Every claimed job is settled unless the turn is interrupted.) One turn of the worker,
    run without other threads, each of its calls under a context and clock of its own, a
    database call failing whenever its context is done: if the claim fails, or finds no claimable job, nothing
    has changed; otherwise a claimable job is taken and ends applied, failed for retry or
    failed for good, with its operation given the matching status and error - and it stays
    leased, or its operation unmarked, only if some call of the turn was interrupted.  No
    other job or operation changes, peers and runtime rows only if the application
    succeeded, other tables never, and the invariant holds in every case. *)
Theorem turn_settles es s w r s' w' n :
  store_ok s -> run_in es turn_thread (s, w) = (r, (s', w'), n) ->
  store_ok s' /\
  match r with
  | Err _ => s' = s /\ w' = w /\ is_Some (fst (es O))
  | Ok false => s' = s /\ w' = w /\ Forall (fun q => claimable (snd (es O)) q = false) (st_outbox s)
  | Ok true => exists row res, row ∈ st_outbox s /\ claimable (snd (es O)) row = true /\ settled es n row res s s'
  end.
Proof.
  intros Hs (c & [s1 w1] & n1 & n2 & H1 & H2 & ->)%run_in_bind. apply in_db in H1 as (-> & -> & H1).
  destruct (fst (es O)) as [e|] eqn:Ee; [destruct H1 as [-> ->]; injection H2 as <- <- <- <-; by eauto|].
  rewrite ClaimNext_run in H1. destruct (next_job (snd (es O)) s) as [row|] eqn:Ej; injection H1 as <- <-.
  2:{ injection H2 as <- <- <- <-. split; [done|]. by rewrite <- next_job_None. }
  apply next_job_spec in Ej as (Hin & Hc & _). set (leased := lease_row (snd (es O)) (lease_for wk)) in *.
  assert (Hs0 : store_ok (set_outbox (update_id ob_ID (ob_ID row) leased) s))
    by (by apply (preserves_set_job (ob_ID row) leased)).
  apply run_in_bind in H2 as ([] & [s2 w2] & n3 & n4 & H2 & (-> & [= -> ->] & ->)%run_in_ret & ->).
  apply process_in in H2 as (Hs' & res & m & l & s3 & s4 & -> & Hr & Hj & Ho); [|done]. split; [done|].
  exists row, res. split_and!; [done..|].
  assert (Hi : interrupted (tail_from 1 es) n3 -> interrupted es (1 + (n3 + 0))).
  { intros Hi. apply interrupted_after. by rewrite Nat.add_0_r. }
  split.
  - destruct res as [[]|err]; [done|]. cbn. by destruct (classifyRetryable err).
  - cbv zeta. fold leased. destruct Ho as [(o & t' & _ & ->)|[-> _]]; (destruct Hj as [[t ->]|[Hx ->]]; [left; exists t|right; by auto]);
      cbn [st_outbox set_outbox set_operations set_runtime set_peers]; by apply update_id_twice.
  - destruct Ho as [(o & t & Ho & ->)|[-> Hx]]; [left; exists o, t|right]; (destruct Hj as [[t' ->]|[_ ->]]); (split; [done|]); try done;
      destruct Hx; auto.
  - intros Hne. specialize (Hr Hne). assert (Hp := f_equal st_peers Hr). assert (Hrt := f_equal st_runtime Hr). cbn in Hp, Hrt.
    destruct Ho as [(o & t & Ho & ->)|[-> Hx]]; (destruct Hj as [[t' ->]|[_ ->]]); by split.
  - exists m, l. destruct Ho as [(o & t & Ho & ->)|[-> Hx]]; (destruct Hj as [[t' ->]|[_ ->]]); done.
Qed.

(** (Concurrent requests and workers.) However many workers and requests run at the
    same time, interleaved between their database statements and executor calls, with
    contexts that end, threads that die and start anew and clocks that jump, the
    database satisfies its invariant at every moment: no two peers of a node share an
    address or a key, no reference dangles, no applied revision is ahead of its desired
    one - although a worker records rows it read some time ago. *)
Theorem concurrent_invariant (kind : nat -> role) w0 c :
  rtc (cstep kind starts) (∅, (empty_store, w0)) c -> store_ok (fst (snd c)).
Proof.
  intros H. apply (rg_sound kind starts (fun st => store_ok (fst st)) guarantee (empty_store, w0) c) in H; [by apply H| |apply empty_store_ok].
  intros i p Hp. exists (fun _ _ => True). destruct (kind i) eqn:Hk.
  - inversion Hp; subst. by apply rg_worker_many.
  - apply rg_client; [done| |done|done]. by intros s w s' _ Hs _.
Qed.
End threads.

(** ** Witness *)

#[local] Instance settles_host : Executor FakeExecutor := FakeExecutor_Executor (fun _ => None).

(** The context ends after the node has been read and before the job is failed. *)
Definition cut_short (i : nat) : context * Z := (if (i <=? 1)%nat then None else Some (EMsg #"context canceled"), 200).

Local Abbreviation cut_turn :=
  (run_in cut_short (turn_thread demo_uuid_String (fun b => b) demo_worker) (demo_queue, demo_world)).

(** The job it took stays leased. *)
Lemma turn_settles_witness :
  store_ok (fst (snd (fst cut_turn)))
  /\ (ob_Status <$> st_outbox (fst (snd (fst cut_turn)))) = [JobPending; JobLeased].
Proof.
  destruct (turn_settles demo_uuid_String (fun b => b) demo_worker cut_short demo_queue demo_world (fst (fst cut_turn))
    (fst (snd (fst cut_turn))) (snd (snd (fst cut_turn))) (snd cut_turn)) as [H _].
  - exact demo_queue_ok.
  - vm_compute. reflexivity.
  - split; [exact H|vm_compute; reflexivity].
Defined.
