(* ===== verification/Drained.v ===== *)
(** * Drained: the runtime when the queue is empty

    One worker and any number of concurrent clients, interleaved as in [Concurrent]:
    whenever no job of a node is left unapplied, the node's interface has exactly the
    keys of its peers that are not revoked.  Two workers do not have this property. *)

From S2P Require Import Prelude GoStrings Strconv Errors Effects Files Interleave Profile Netip Ipam Crypto Auth AwgConfig Render Executor FakeExecutor Store StoreFacts Service ServiceFacts Worker WorkerFacts System Concurrent.

(** ** Rows under concurrent changes *)

(** The stored texts fit their config lines, and nodes have interfaces of their own. *)
Definition well_named (s : Store) : Prop :=
  printable_store s
  /\ forall n n', n ∈ st_nodes s -> n' ∈ st_nodes s -> n_InterfaceName n = n_InterfaceName n' -> n_ID n = n_ID n'.

Lemma well_named_evolves s s' : evolves s s' -> well_named s' -> well_named s.
Proof.
  intros [Hp Hn [new Hf]] [[Hpp Hpf] Hd]. split; [split|].
  - intros nodeID. destruct (Hpp nodeID) as [H1 H2]. split; apply Forall_forall.
    + intros q Hq Hqn. destruct (updated_elem _ _ _ _ Hp Hq) as (q' & Hq' & Hk & Hdn & Hpsk & _).
      injection Hk as Hid Ht Hx Hnode Hip Hpub. rewrite Forall_forall in H1.
      destruct (H1 q' Hq') as (? & ? & ?); [congruence|]. unfold printable_row, peerPresharedKey in *. by rewrite <- Hpub, <- Hdn, <- Hpsk.
    + intros n Hin Hid. destruct (updated_elem _ _ _ _ Hn Hin) as (n' & Hin' & Hid' & Hi').
      rewrite Forall_forall in H2. rewrite <- Hi'. apply H2; [done|congruence].
  - rewrite Hf in Hpf. by apply Forall_app in Hpf as [? _].
  - intros n n2 H1 H2 He. destruct (updated_elem _ _ _ _ Hn H1) as (m1 & Hm1 & <- & Hi1).
    destruct (updated_elem _ _ _ _ Hn H2) as (m2 & Hm2 & <- & Hi2). apply Hd; congruence.
Qed.

Lemma find_node_evolves s s' nodeID node :
  updated same_node (st_nodes s) (st_nodes s') -> find_id n_ID (st_nodes s) nodeID = Some node ->
  exists node', find_id n_ID (st_nodes s') nodeID = Some node' /\ same_node node node'.
Proof.
  intros (f & new & -> & Hf) Hfind. exists (f node). split; [|apply Hf].
  revert Hfind. induction (st_nodes s) as [|n l IH]; [done|]. rewrite fmap_cons. cbn [app].
  rewrite !find_id_cons, (proj1 (Hf n)). destruct (_ =? _)%N; [by intros [= ->]|done].
Qed.

Lemma peers_of_elem nodeID s q : q ∈ peers_of nodeID s <-> q ∈ st_peers s /\ p_NodeID q = nodeID.
Proof. unfold peers_of. rewrite list_elem_of_filter. tauto. Qed.

Lemma node_of_peers nodeID s : store_ok s -> peers_of nodeID s <> [] -> has_id n_ID (st_nodes s) nodeID = true.
Proof.
  intros Hs Hne. destruct (peers_of nodeID s) as [|q l] eqn:E; [done|].
  assert (q ∈ peers_of nodeID s) as [Hq Hn]%peers_of_elem by (rewrite E; constructor).
  pose proof (so_refs _ Hs) as Hr. eapply (Forall_forall _ _) in Hr; [|exact Hq]. unfold peer_refs_ok in Hr.
  apply andb_true_iff in Hr as [Hr _]. apply andb_true_iff in Hr as [_ Hr]. by rewrite Hn in Hr.
Qed.

Lemma live_key_peers_of nodeID s k :
  live_key nodeID s k <-> exists q, q ∈ peers_of nodeID s /\ p_State q <> PeerRevoked /\ p_PublicKey q = k.
Proof.
  unfold live_key. split; intros (q & H).
  - destruct H as (Hq & Hn & H). exists q. by rewrite peers_of_elem.
  - rewrite peers_of_elem in H. destruct H as ((Hq & Hn) & H). by exists q.
Qed.

Lemma live_key_same nodeID s s' k : peers_of nodeID s' = peers_of nodeID s -> live_key nodeID s' k <-> live_key nodeID s k.
Proof. intros E. by rewrite !live_key_peers_of, E. Qed.

(** Recording what was applied changes neither who is live nor who is there. *)
Lemma peers_of_applied now l nodeID s m :
  peers_of nodeID (set_runtime (fun _ => m) (set_peers (fmap (apply_to now l)) s)) = apply_to now l <$> peers_of nodeID s.
Proof.
  unfold peers_of. cbn [st_peers set_peers set_runtime]. apply filter_fmap_iff. intros q.
  destruct (apply_to_same now l q) as [Hk _]. injection Hk as _ _ _ Hn _ _. by rewrite Hn.
Qed.

Lemma live_key_applied now l nodeID s m k :
  live_key nodeID (set_runtime (fun _ => m) (set_peers (fmap (apply_to now l)) s)) k <-> live_key nodeID s k.
Proof.
  rewrite !live_key_peers_of, peers_of_applied.
  assert (H : forall q, (p_State (apply_to now l q) <> PeerRevoked <-> p_State q <> PeerRevoked)
                        /\ p_PublicKey (apply_to now l q) = p_PublicKey q).
  { intros q. unfold apply_to. destruct (find_id _ _ _); [|done]. cbn. split; [|done]. case_bool_decide; [|done].
    split; congruence. }
  split.
  - intros (q & Hq & Hs & Hk). apply list_elem_of_fmap in Hq as (q0 & -> & Hq0). exists q0.
    destruct (H q0) as [H1 H2]. split_and!; [done|by apply H1|congruence].
  - intros (q & Hq & Hs & Hk). exists (apply_to now l q). destruct (H q) as [H1 H2].
    split_and!; [by apply list_elem_of_fmap_2|by apply H1|congruence].
Qed.

(** ** The invariant *)

Definition unapplied (nodeID : uuid) (s : Store) : Prop :=
  exists r, r ∈ st_outbox s /\ row_node r = nodeID /\ ob_Status r <> JobApplied.

Section drained.
Context {W : Type} {EX : Executor W} {RV : RuntimeView W}.

Definition in_sync (nodeID : uuid) (s : Store) (w : W) : Prop :=
  exists node, find_id n_ID (st_nodes s) nodeID = Some node
    /\ forall k, k ∈ kernel_keys (n_InterfaceName node) w <-> live_key nodeID s k.

Definition drained_ok (st : Store * W) : Prop :=
  store_ok (fst st)
  /\ (well_named (fst st) -> forall nodeID, peers_of nodeID (fst st) <> [] ->
        unapplied nodeID (fst st) \/ in_sync nodeID (fst st) (snd st)).

Lemma in_sync_store nodeID s s' w :
  evolves s s' -> (forall k, live_key nodeID s' k <-> live_key nodeID s k) -> in_sync nodeID s w -> in_sync nodeID s' w.
Proof.
  intros He Hl (node & Hn & Hk). destruct (find_node_evolves _ _ _ _ (ev_nodes _ _ He) Hn) as (node' & Hn' & _ & Hi).
  exists node'. split; [done|]. intros k. by rewrite Hi, Hl.
Qed.

Lemma drained_client s w s' :
  drained_ok (s, w) -> store_ok s' -> guarantee RClient (s, w) (s', w) -> drained_ok (s', w).
Proof.
  intros [Hs Hd] Hs' (He & _ & new & Ho & Hpend & Hnew). split; [done|]. cbn [fst snd] in *. intros Hwn nodeID Hne.
  destruct (Hnew nodeID) as [Hsame|Hex].
  - rewrite Hsame in Hne. destruct (Hd (well_named_evolves _ _ He Hwn) nodeID Hne) as [(r & Hr & H)|H].
    + left. exists r. rewrite Ho. split; [apply elem_of_app; by left|done].
    + right. eapply in_sync_store; [done| |done]. intros k. by apply live_key_same.
  - left. apply Exists_exists in Hex as (r & Hr & Hrn). exists r. rewrite Ho. split_and!; [apply elem_of_app; by right|done|].
    rewrite Forall_forall in Hpend. by rewrite (Hpend r Hr).
Qed.

(** ** What the worker knows *)

(** It holds the job [j] of the node, and there may be another one to do. *)
Definition mine (j nodeID : uuid) (s : Store) : Prop :=
  exists r, r ∈ st_outbox s /\ ob_ID r = j /\ row_node r = nodeID /\ ob_Status r = JobLeased.
Definition other_due (j nodeID : uuid) (s : Store) : Prop :=
  exists r, r ∈ st_outbox s /\ ob_ID r <> j /\ row_node r = nodeID /\ ob_Status r <> JobApplied.

Lemma mine_unapplied j nodeID s : mine j nodeID s -> unapplied nodeID s.
Proof. intros (r & Hr & _ & Hn & Hst). exists r. split_and!; [done|done|]. by rewrite Hst. Qed.

Lemma other_unapplied j nodeID s : other_due j nodeID s -> unapplied nodeID s.
Proof. intros (r & Hr & _ & H). by exists r. Qed.

Lemma mine_client j nodeID s s' : asks_for s s' -> mine j nodeID s -> mine j nodeID s'.
Proof. intros (new & Ho & _) (r & Hr & H). exists r. rewrite Ho. split; [apply elem_of_app; by left|done]. Qed.

Lemma other_client j nodeID s s' : asks_for s s' -> other_due j nodeID s -> other_due j nodeID s'.
Proof. intros (new & Ho & _) (r & Hr & H). exists r. rewrite Ho. split; [apply elem_of_app; by left|done]. Qed.

(** A client that changes the node's peers leaves another job to do. *)
Lemma client_other j nodeID s s' :
  store_ok s' -> mine j nodeID s -> asks_for s s' -> peers_of nodeID s' = peers_of nodeID s \/ other_due j nodeID s'.
Proof.
  intros Hs' (r0 & Hr0 & Hid & _) (new & Ho & Hpend & Hnew). destruct (Hnew nodeID) as [H|Hex]; [by left|right].
  apply Exists_exists in Hex as (r & Hr & Hrn). exists r. rewrite Ho. split_and!; [apply elem_of_app; by right| |done|].
  - intros He. pose proof (so_jobs _ Hs') as Hnd. rewrite Ho, fmap_app in Hnd. apply NoDup_app in Hnd as (_ & Hdis & _).
    apply (Hdis j); [rewrite <- Hid|rewrite <- He]; by apply list_elem_of_fmap_2.
  - rewrite Forall_forall in Hpend. by rewrite (Hpend r Hr).
Qed.

(** The peers it has read are the node's, unless there is another job for the node. *)
Definition fresh (nodeID : uuid) (l : list Peer) (s : Store) : Prop :=
  (forall k, k ∈ pe_PublicKey <$> desired_entries l <-> live_key nodeID s k) /\ (l = [] -> peers_of nodeID s = []).

Definition known (j nodeID : uuid) (iface : bytes) (l : list Peer) (st : Store * W) : Prop :=
  mine j nodeID (fst st) /\ snapshot_ok l (fst st)
  /\ (exists n, find_id n_ID (st_nodes (fst st)) nodeID = Some n /\ n_InterfaceName n = iface)
  /\ (well_named (fst st) ->
        Forall (fun e => printable_peer e /\ key_text (pe_PublicKey e)) (desired_entries l)
        /\ (fresh nodeID l (fst st) \/ other_due j nodeID (fst st))).

(** The node's interface has the peers it has read. *)
Definition synced (iface : bytes) (l : list Peer) (st : Store * W) : Prop :=
  well_named (fst st) -> kernel_keys iface (snd st) = list_to_set (pe_PublicKey <$> desired_entries l).

(** Nothing is left to do for the node but what another job will do. *)
Definition finished (j nodeID : uuid) (st : Store * W) : Prop :=
  well_named (fst st) -> peers_of nodeID (fst st) <> [] -> other_due j nodeID (fst st) \/ in_sync nodeID (fst st) (snd st).

(** The only worker is thread 0. *)
Definition one_worker (i : nat) : role := match i with O => RWorker | _ => RClient end.

Local Abbreviation steady := (stable one_worker drained_ok guarantee 0).

Lemma steady_clients (P : Store * W -> Prop) :
  (forall s w s', store_ok s' -> evolves s s' -> asks_for s s' -> P (s, w) -> P (s', w)) -> steady P.
Proof.
  intros HP [s w] [s' w'] _ [Hs' _] (j & Hj & He & Hg) H. destruct j; [done|]. cbn in *. destruct Hg as [-> Ha].
  by apply (HP s).
Qed.

Lemma steady_mine j nodeID : steady (fun st => mine j nodeID (fst st)).
Proof. apply steady_clients. intros s w s' _ _ Ha. by apply mine_client. Qed.

Lemma fresh_client j nodeID l s s' :
  store_ok s' -> mine j nodeID s -> asks_for s s' -> fresh nodeID l s \/ other_due j nodeID s ->
  fresh nodeID l s' \/ other_due j nodeID s'.
Proof.
  intros Hs' Hm Ha [[Hk He]|Ho]; [|right; by eapply other_client].
  destruct (client_other _ _ _ _ Hs' Hm Ha) as [Hp|Ho]; [left|by right]. split.
  - intros k. by rewrite (live_key_same _ _ _ _ Hp).
  - intros Hl. by rewrite Hp, He.
Qed.

Lemma steady_known j nodeID iface l : steady (known j nodeID iface l).
Proof.
  apply steady_clients. intros s w s' Hs' He Ha (Hm & Hl & (n & Hn & Hi) & Hf). cbn [fst] in *. split_and!.
  - by eapply mine_client.
  - by eapply snapshot_evolves.
  - destruct (find_node_evolves _ _ _ _ (ev_nodes _ _ He) Hn) as (n' & Hn' & _ & Hi'). exists n'. split; [done|congruence].
  - intros Hwn. destruct (Hf (well_named_evolves _ _ He Hwn)) as (Hpr & Hfr). split; [done|]. by eapply fresh_client.
Qed.

Lemma steady_synced iface l : steady (synced iface l).
Proof. apply steady_clients. intros s w s' _ He _ H Hwn. apply H. by eapply well_named_evolves. Qed.

Lemma steady_named (P : Prop) : steady (fun st => well_named (fst st) -> P).
Proof. apply steady_clients. intros s w s' _ He _ H Hwn. apply H. by eapply well_named_evolves. Qed.

Lemma steady_and (P Q : Store * W -> Prop) : steady P -> steady Q -> steady (fun st => P st /\ Q st).
Proof. intros HP HQ s s' Hi Hi' Ho [Hp Hq]. split; [exact (HP s s' Hi Hi' Ho Hp)|exact (HQ s s' Hi Hi' Ho Hq)]. Qed.

Lemma steady_finished j nodeID : steady (fun st => mine j nodeID (fst st) /\ finished j nodeID st).
Proof.
  apply steady_clients. intros s w s' Hs' He Ha [Hm Hf]. cbn [fst] in *. split; [by eapply mine_client|].
  intros Hwn Hne. cbn [fst snd] in *. destruct (client_other _ _ _ _ Hs' Hm Ha) as [Hp|Ho]; [|by left].
  rewrite Hp in Hne. destruct (Hf (well_named_evolves _ _ He Hwn) Hne) as [Ho|Hi]; [left; by eapply other_client|right].
  eapply in_sync_store; [done| |done]. intros k. by apply live_key_same.
Qed.

(** ** Executor calls *)

(** A call that concerns the node's interface alone keeps the invariant: the node's
    job is still open. *)
Lemma drained_exec j nodeID iface l s w w' :
  drained_ok (s, w) -> known j nodeID iface l (s, w) ->
  (forall iface', iface' <> iface -> kernel_keys iface' w' = kernel_keys iface' w) -> drained_ok (s, w').
Proof.
  intros [Hs Hd] (Hm & _ & (n & Hn & Hi) & _) Hq. split; [done|]. cbn [fst snd] in *. intros Hwn nodeID' Hne.
  destruct (decide (nodeID' = nodeID)) as [->|Hdiff]; [left; by eapply mine_unapplied|].
  destruct (Hd Hwn nodeID' Hne) as [H|(n' & Hn' & Hk)]; [by left|right]. exists n'. split; [done|].
  rewrite Hq; [done|]. intros E. apply Hdiff. apply find_id_Some in Hn as [Hn <-]. apply find_id_Some in Hn' as [Hn' <-].
  apply Hwn; [done|done|congruence].
Qed.

Local Abbreviation triple := (rg one_worker drained_ok guarantee 0).

(** A call whose effect, if any, is on the node's interface. *)
Lemma rg_exec_known {A} (m : context -> W -> result error A * W) j nodeID iface l (P : Store * W -> Prop) (Q : result error A -> Store * W -> Prop) :
  (forall ctx w iface', iface' <> iface -> kernel_keys iface' (snd (m ctx w)) = kernel_keys iface' w) ->
  (forall ctx s w r w', drained_ok (s, w) -> known j nodeID iface l (s, w) -> P (s, w) -> m ctx w = (r, w') -> Q r (s, w')) ->
  (forall r, steady (Q r)) ->
  triple (exec m) (fun st => known j nodeID iface l st /\ P st) (fun r st => known j nodeID iface l st /\ Q r st).
Proof.
  intros Hq HQ Hst. apply rg_exec; [done| |intros r; apply steady_and; [apply steady_known|apply Hst]].
  intros ctx s w r w' Hi [Hk HP] E. split_and!; [|done|by eapply HQ].
  eapply drained_exec; [done|done|]. intros iface' Hne. specialize (Hq ctx w iface' Hne). by rewrite E in Hq.
Qed.

Lemma steady_impl (X : Prop) (P : Store * W -> Prop) : steady P -> steady (fun st => X -> P st).
Proof. intros HP s s' Hi Hi' Ho Hp x. exact (HP s s' Hi Hi' Ho (Hp x)). Qed.

Lemma steady_ext (P Q : Store * W -> Prop) : steady P -> (forall st, P st <-> Q st) -> steady Q.
Proof. intros HP HPQ s s' Hi Hi' Ho Hq. apply HPQ. apply (HP s s' Hi Hi' Ho). by apply HPQ. Qed.

Lemma steady_pure (X : Prop) : steady (fun _ => X).
Proof. by intros s s' _ _ _ H. Qed.

Section one_application.
Context (uuid_String : uuid -> bytes) (Quote : bytes -> bytes) (wk : Worker).
Context (j nodeID : uuid).

(** The profile's texts fit their lines. *)
Definition ready (p : ProtocolProfile) (st : Store * W) : Prop := well_named (fst st) -> printable_profile p.

Lemma rg_preserve iface l p cfg :
  triple (preserve_thread iface cfg) (fun st => known j nodeID iface l st /\ ready p st)
    (fun cfg' st => (known j nodeID iface l st /\ ready p st) /\ forall base, carried base cfg -> carried base cfg').
Proof.
  unfold preserve_thread. destruct (negb _); [by apply rg_ret|].
  eapply rg_bind.
  - apply (rg_exec_known _ _ _ _ _ _ (fun _ => ready p)).
    + intros ctx w iface' _. apply ShowConf_quiet.
    + intros ctx s w r w' _ _ Hp _. exact Hp.
    + intros r. apply steady_named.
  - intros r. apply rg_ret. intros st _ H. split; [done|]. intros base Hb. destruct r as [current|e]; [by constructor|done].
Qed.

Lemma known_valid iface l st : known j nodeID iface l st -> well_named (fst st) -> ValidInterfaceName iface = true.
Proof.
  intros (_ & _ & (n & [Hn Hid]%find_id_Some & <-) & _) [[Hpp _] _]. destruct (Hpp nodeID) as [_ H].
  rewrite Forall_forall in H. by apply H.
Qed.

Lemma rg_SyncConf iface l p b cfg :
  carried (Server (mkInterface [] [] b 0 [] [] []) p (desired_entries l)) cfg ->
  triple (exec (fun ctx => SyncConf ctx iface cfg)) (fun st => known j nodeID iface l st /\ ready p st)
    (fun r st => known j nodeID iface l st /\ (ready p st /\ (r = Ok tt -> synced iface l st))).
Proof.
  intros Hc. apply rg_exec_known.
  - intros ctx w iface' Hne. by apply SyncConf_other.
  - intros ctx s w r w' Hi Hk Hp E. split; [exact Hp|]. intros -> Hwn. cbn [fst snd] in *.
    pose proof (known_valid _ _ _ Hk Hwn) as Hv. destruct Hk as (_ & _ & _ & Hf). destruct (Hf Hwn) as (Hpr & _).
    apply Forall_and in Hpr as [Hpr Hkt].
    assert (printable_interface (mkInterface [] [] b 0 [] [] [])) as Hpi by (apply (bool_decide_unpack _); by vm_compute).
    exact (SyncConf_keys ctx iface _ p _ cfg w w' Hv Hpi (Hp Hwn) Hpr Hkt Hc E).
  - intros r. apply steady_and; [apply steady_named|]. apply steady_impl, steady_synced.
Qed.

Lemma rg_sync iface l p b cfg :
  carried (Server (mkInterface [] [] b 0 [] [] []) p (desired_entries l)) cfg ->
  triple (sync_thread wk iface cfg) (fun st => known j nodeID iface l st /\ ready p st)
    (fun r st => known j nodeID iface l st /\ (r = Ok tt -> synced iface l st)).
Proof.
  intros Hc. unfold sync_thread. eapply rg_bind; [by apply (rg_SyncConf _ _ p b)|].
  intros [[]|err]; [apply rg_ret; intros st _ (? & ? & ?); auto|].
  destruct (negb _); [apply rg_ret; by intros st _ (? & ? & ?)|].
  eapply rg_bind.
  { eapply rg_pre; [intros st _ (Hk & Hp & _); exact (conj Hk Hp)|].
    apply (rg_exec_known _ _ _ _ _ _ (fun _ => ready p)).
    - intros ctx w iface' Hne. by apply InterfaceUp_other.
    - intros ctx s w r w' _ _ Hp _. exact Hp.
    - intros r. apply steady_named. }
  intros [[]|up]; [|apply rg_ret; by intros st _ (? & ?)].
  eapply rg_bind; [apply rg_preserve|]. intros cfg'.
  apply (rg_pure_pre _ _ _ _ _ _ _ (forall base, carried base cfg -> carried base cfg')); [by intros st [_ H]|]. intros Hc'.
  eapply rg_pre; [intros st _ [H _]; exact H|]. eapply rg_post; [|by apply (rg_SyncConf _ _ p b), Hc'].
  by intros r st _ (Hk & _ & Hs).
Qed.

(** *** The database calls of an application *)

Definition at_node (node : Node) (st : Store * W) : Prop :=
  mine j nodeID (fst st)
  /\ exists n, find_id n_ID (st_nodes (fst st)) nodeID = Some n /\ n_InterfaceName n = n_InterfaceName node.

Lemma rg_read_node :
  triple (db (fun _ => Nodes_GetByID nodeID)) (fun st => mine j nodeID (fst st))
    (fun r st => match r with Ok node => at_node node st | Err _ => mine j nodeID (fst st) end).
Proof.
  apply rg_db; [|done|].
  - intros now s w r s' Hi Hm E. unfold Nodes_GetByID in E. rewrite asks_bind in E.
    destruct (find_id n_ID (st_nodes s) nodeID) as [n|] eqn:Ef; injection E as <- <-;
      (split_and!; [done|apply guarantee_refl|]); [|done]. split; [done|]. by exists n.
  - intros [node|e]; [|apply steady_mine]. apply steady_and; [apply steady_mine|].
    apply steady_clients. intros s w s' _ He _ (n & Hn & Hi). cbn [fst] in *.
    destruct (find_node_evolves _ _ _ _ (ev_nodes _ _ He) Hn) as (n' & Hn' & _ & Hi'). exists n'. split; [done|congruence].
Qed.

Lemma fresh_read s : store_ok s -> fresh nodeID (node_peers nodeID s) s.
Proof.
  intros Hs. split; [intros k; by apply desired_keys|]. intros Hl.
  destruct (peers_of nodeID s) as [|q l] eqn:Eq; [done|exfalso].
  assert (q ∈ node_peers nodeID s) as Hq; [|rewrite Hl in Hq; by apply elem_of_nil in Hq].
  apply node_peers_elem; [done|]. apply peers_of_elem. rewrite Eq. constructor.
Qed.

Lemma rg_read_peers node :
  triple (db (fun _ => ListByNodeIncludingRevoked nodeID)) (at_node node)
    (fun r st => match r with Ok l => known j nodeID (n_InterfaceName node) l st | Err _ => mine j nodeID (fst st) end).
Proof.
  apply rg_db; [|by intros e st _ [Hm _]|intros [l|e]; [apply steady_known|apply steady_mine]].
  intros now s w r s' Hi [Hm Hn] E. injection E as <- <-. fold (node_peers nodeID s). pose proof (proj1 Hi : store_ok s) as Hs.
  split_and!; [done|apply guarantee_refl|]. split_and!; [done|by apply snapshot_read|done|].
  cbn [fst]. intros [[Hpp _] _]. split; [by apply printable_entries|left; by apply fresh_read].
Qed.

Lemma rg_read_profile iface l pid :
  triple (db (fun _ => Profiles_GetByID pid)) (known j nodeID iface l)
    (fun r st => known j nodeID iface l st /\ match r with Ok p => ready p st | Err _ => True end).
Proof.
  apply rg_db; [|done|intros [p|e]; apply steady_and; [apply steady_known|apply steady_named|apply steady_known|apply steady_pure]].
  intros now s w r s' Hi Hk E. unfold Profiles_GetByID in E. rewrite asks_bind in E.
  destruct (find_id pw_id (st_profiles s) pid) as [row|] eqn:Ef; injection E as <- <-;
    (split_and!; [done|apply guarantee_refl|done|]); [|done].
  intros [[_ Hpf] _]. apply find_id_Some in Ef as [Hin _]. rewrite Forall_forall in Hpf. by apply Hpf.
Qed.

(** Recording: the interface has what was read, and what was read is the node's peers
    still or there is another job. *)
Lemma rg_record iface l ps :
  triple (db (fun now => persistRuntime now l ps)) (fun st => known j nodeID iface l st /\ synced iface l st)
    (fun r st => mine j nodeID (fst st) /\ (r = Ok tt -> finished j nodeID st)).
Proof.
  apply rg_db.
  - intros now s w r s' [Hs Hd] [(Hm & Hl & (n & Hn & Hi) & Hf) Hsync] E.
    cbn [fst] in *. destruct (persist_evolves _ _ _ _ _ _ Hs Hl E) as (-> & Hs' & m & ->).
    pose proof (persisted_evolves now l m s) as He. set (s' := set_runtime _ _) in *.
    assert (Hlive : forall nid k, live_key nid s' k <-> live_key nid s k) by (intros; apply live_key_applied).
    assert (Hnone : forall nid, peers_of nid s' <> [] -> peers_of nid s <> []).
    { intros nid Hne Hnil. apply Hne. unfold s'. by rewrite peers_of_applied, Hnil. }
    split_and!; [split; [done|]|split; [done|done]|done|]; cbn [fst snd].
    + intros Hwn nid Hne. destruct (Hd (well_named_evolves _ _ He Hwn) nid (Hnone nid Hne)) as [H|H]; [by left|right].
      by eapply in_sync_store.
    + intros _ Hwn Hne. cbn [fst snd] in *. pose proof (well_named_evolves _ _ He Hwn) as Hwn0.
      destruct (Hf Hwn0) as (_ & [[Hk _]|Ho]); [right|by left]. eapply in_sync_store; [done|by intros; apply Hlive|].
      exists n. split; [done|]. intros k. rewrite Hi. specialize (Hsync Hwn0). cbn [snd] in Hsync.
      by rewrite Hsync, elem_of_list_to_set.
  - intros e st _ [(Hm & _) _]. by split.
  - intros [[]|e].
    + eapply (steady_ext _ _ (steady_finished j nodeID)). intros st.
      split; [by intros [? H]|intros [? H]; split; [done|by apply H]].
    + apply steady_and; [apply steady_mine|]. by intros s s' _ _ _ _ ?.
Qed.

(** What an application leaves: if it succeeded, nothing more is to be done. *)
Lemma rg_apply :
  triple (apply_thread uuid_String Quote wk nodeID) (fun st => mine j nodeID (fst st))
    (fun r st => mine j nodeID (fst st) /\ (r = Ok tt -> finished j nodeID st)).
Proof.
  unfold apply_thread. eapply rg_try; [apply rg_read_node|intros node|by intros e st _ Hm].
  eapply rg_try; [apply rg_read_peers|intros peers|by intros e st _ Hm]. cbn beta iota. destruct (n_ProfileID node) as [pid|].
  2:{ apply rg_ret. intros [s w] _ (Hm & _ & _ & Hf). split; [done|]. case_bool_decide as Hl; [|done]. intros _ Hwn Hne.
      destruct (Hf Hwn) as (_ & [[_ Hfr]|Ho]); [|by left]. by rewrite (Hfr Hl) in Hne. }
  eapply rg_try; [apply rg_read_profile|intros profile|by intros e st _ [(Hm & _) _]]. cbn beta iota.
  eapply rg_bind; [apply rg_preserve|]. intros cfg.
  apply (rg_pure_pre _ _ _ _ _ _ _ (carried (node_config node profile peers) cfg)).
  { intros st [_ H]. apply H. constructor. }
  intros Hc. eapply rg_pre; [by intros st _ [H _]; exact H|].
  eapply rg_try; [by apply (rg_sync _ _ profile (n_BasePort node))|intros []|by intros e st _ [(Hm & _) _]].
  eapply rg_try.
  { eapply rg_pre; [intros st _ [Hk Hs]; exact (conj Hk (Hs eq_refl))|].
    apply (rg_exec_known _ _ _ _ _ _ (fun _ => synced (n_InterfaceName node) peers)).
    - intros ctx w iface' _. apply ShowDump_quiet.
    - intros ctx s w r w' _ _ Hs E Hwn. specialize (Hs Hwn). cbn [fst snd] in *. rewrite <- Hs.
      pose proof (ShowDump_quiet ctx (n_InterfaceName node) (n_InterfaceName node) w) as Hq. by rewrite E in Hq.
    - intros r. apply steady_synced. }
  2:{ by intros e st _ [(Hm & _) _]. }
  intros [ir ps]. destruct (_ && _); [apply rg_ret; by intros st _ [(Hm & _) _]|]. apply rg_record.
Qed.
End one_application.

(** ** Jobs *)

(** A change of the queue or of the operations alone. *)
Lemma drained_rows s s' w :
  drained_ok (s, w) -> store_ok s' -> st_peers s' = st_peers s -> evolves s s' ->
  (forall nodeID, well_named s -> peers_of nodeID s <> [] -> unapplied nodeID s -> unapplied nodeID s' \/ in_sync nodeID s w) ->
  drained_ok (s', w).
Proof.
  intros [Hs Hd] Hs' Hp He Hu. split; [done|]. cbn [fst snd] in *. intros Hwn nodeID Hne.
  assert (Hpo : peers_of nodeID s' = peers_of nodeID s) by (unfold peers_of; by rewrite Hp). rewrite Hpo in Hne.
  pose proof (well_named_evolves _ _ He Hwn) as Hwn0.
  assert (unapplied nodeID s' \/ in_sync nodeID s w) as [H|H].
  { destruct (Hd Hwn0 nodeID Hne) as [H|H]; [by apply Hu|by right]. }
  - by left.
  - right. eapply in_sync_store; [done| |done]. intros k. by apply live_key_same.
Qed.

Definition set_job (j : uuid) (f : OutboxRow -> OutboxRow) (s : Store) : Store := set_outbox (update_id ob_ID j f) s.

Lemma set_job_elem j f s r : r ∈ st_outbox s -> (if (ob_ID r =? j)%N then f r else r) ∈ st_outbox (set_job j f s).
Proof. intros Hr. by apply (list_elem_of_fmap_2 (fun r => if (ob_ID r =? j)%N then f r else r)). Qed.

(** A job that stays open. *)
Lemma set_job_unapplied j f s nodeID :
  (forall r, row_node (f r) = row_node r /\ ob_Status (f r) <> JobApplied) -> unapplied nodeID s -> unapplied nodeID (set_job j f s).
Proof.
  intros Hf (r & Hr & Hn & Hst). eexists. split; [by apply set_job_elem|].
  destruct (ob_ID r =? j)%N; [|done]. destruct (Hf r) as [-> ?]. done.
Qed.

Lemma rg_set_open {A} j (m : Z -> SE Store A) (P : Store * W -> Prop) :
  (forall now s r s', m now s = (r, s') ->
     exists f, s' = set_job j (f now) s /\ (forall r, j_ID (ob_Job (f now r)) = j_ID (ob_Job r))
       /\ (forall r, j_OperationID (ob_Job (f now r)) = j_OperationID (ob_Job r))
       /\ forall r, row_node (f now r) = row_node r /\ ob_Status (f now r) <> JobApplied) ->
  triple (db m) P (fun _ _ => True).
Proof.
  intros Hm. apply rg_db; [|done..]. intros now s w r s' Hi _ E. destruct (Hm _ _ _ _ E) as (f & -> & H1 & H2 & H3).
  assert (evolves s (set_job j (f now) s)) as He by (by apply evolves_same).
  split_and!; [|split; [done|done]|done]. eapply drained_rows; [done| |done|done|].
  - pose proof (preserves_set_job j (f now) H1 H2 s (proj1 Hi)) as H. exact H.
  - intros nodeID _ _ Hu. left. by apply set_job_unapplied.
Qed.

Lemma rg_claim lease :
  triple (db (fun now => ClaimNext now lease)) (fun _ => True)
    (fun r st => match r with Ok (Some job) => mine (j_ID job) (j_NodeID job) (fst st) | _ => True end).
Proof.
  apply rg_db; [|done|intros [[job|]|e]; [apply steady_mine|apply steady_pure..]].
  intros now s w r s' Hi _ E. destruct (claim_evolves _ _ _ _ _ (proj1 Hi) E) as [Hs' He].
  rewrite ClaimNext_run in E. destruct (next_job now s) as [row|] eqn:Ej; injection E as <- <-;
    [|split_and!; [done|apply guarantee_refl|done]].
  fold (set_job (ob_ID row) (lease_row now lease) s) in *. split_and!; [|split; [done|done]|].
  - eapply drained_rows; [done..|]. intros nodeID _ _ Hu. left. by apply set_job_unapplied.
  - apply next_job_spec in Ej as (Hin & _). apply (set_job_elem (ob_ID row) (lease_row now lease)) in Hin.
    rewrite N.eqb_refl in Hin. by exists (lease_row now lease row).
Qed.

(** Completing a job that has nothing left to do. *)
Lemma rg_complete j nodeID :
  triple (db (fun now => Outbox_Complete j now)) (fun st => mine j nodeID (fst st) /\ finished j nodeID st) (fun _ _ => True).
Proof.
  apply rg_db; [|done..]. intros now s w r s' Hi [(r0 & Hr0 & Hid & Hn & _) Hf] E. cbn [fst] in *. injection E as <- <-.
  fold (set_job j (set_job_status JobApplied None now) s). set (s' := set_job _ _ s).
  assert (evolves s s') as He by (by apply evolves_same). split_and!; [|split; [done|done]|done].
  eapply drained_rows; [done| |done|done|].
  { exact (preserves_set_job j (set_job_status JobApplied None now) ltac:(done) ltac:(done) s (proj1 Hi)). }
  intros nid Hwn Hne (r & Hr & Hrn & Hst). destruct (decide (ob_ID r = j)) as [Hj|Hj].
  - assert (r = r0) as -> by (apply (unique_id ob_ID (st_outbox s)); [apply (so_jobs _ (proj1 Hi))|done|done|congruence]).
    assert (nid = nodeID) as -> by congruence. destruct (Hf Hwn Hne) as [(r' & Hr' & Hd & Hn' & Hst')|H]; [left|by right].
    apply (set_job_elem j (set_job_status JobApplied None now)) in Hr'. apply N.eqb_neq in Hd. rewrite Hd in Hr'. by exists r'.
  - left. apply (set_job_elem j (set_job_status JobApplied None now)) in Hr. apply N.eqb_neq in Hj. rewrite Hj in Hr. by exists r.
Qed.

Lemma rg_set_op_drained (id : uuid) st code msg P :
  triple (db (fun now => modify (set_operations (update_id o_ID id (set_op_status st code msg now))))) P (fun _ _ => True).
Proof.
  apply rg_db; [|done..]. intros now s w r s' Hi _ E.
  pose proof (preserves_set_op id (set_op_status st code msg now) ltac:(done) s (proj1 Hi)) as Hs'. rewrite E in Hs'.
  injection E as <- <-. assert (evolves s (set_operations (update_id o_ID id (set_op_status st code msg now)) s)) as He by (by apply evolves_same).
  split_and!; [|split; [done|done]|done]. eapply drained_rows; [done..|]. intros nodeID _ _ Hu. by left.
Qed.

Lemma rg_turn uuid_String Quote wk :
  triple (drop_result (turn_thread uuid_String Quote wk)) (fun _ => True) (fun _ _ => True).
Proof.
  apply (rg_drop _ _ _ _ _ (fun _ _ => True)). unfold turn_thread.
  eapply rg_try; [apply rg_claim|intros [job|]|done]; [|by apply rg_ret].
  eapply (rg_bind _ _ _ _ _ _ _ (fun _ _ => True)); [|intros u; by apply rg_ret].
  unfold process_thread. eapply rg_bind; [apply (rg_apply _ _ _ (j_ID job) (j_NodeID job))|]. intros [[]|err]; cbv zeta.
  - eapply rg_bind.
    { eapply rg_pre; [|apply (rg_complete (j_ID job) (j_NodeID job))]. intros st _ [Hm Hf]. split; [done|by apply Hf]. }
    intros [[]|e]; [|by apply rg_ret]. destruct (j_OperationID job); [|by apply rg_ret].
    eapply rg_bind; [apply rg_set_op_drained|]. intros r. by apply rg_ret.
  - eapply rg_bind.
    { apply (rg_set_open (j_ID job)). intros now s r s' E. injection E as _ <-.
      exists (fun now => set_job_status (if classifyRetryable err then JobFailedRetryable else JobFailedTerminal) (Some (err_Error err)) now).
      split_and!; [done..|]. intros q. split; [done|]. cbn. by destruct (classifyRetryable err). }
    intros r. destruct (j_OperationID job); [|by apply rg_ret].
    eapply rg_bind; [apply rg_set_op_drained|]. intros r'. by apply rg_ret.
Qed.

(** (Drained means consistent.) One worker serves the queue while any number of create
    and revoke requests and catalog changes run concurrently, interleaved with the
    worker between any two of its database statements and executor calls; the worker
    may fail, lose its context, die and be restarted anywhere.  Then at every moment,
    for every node with peers whose jobs have all been applied, the node's interface
    has exactly the keys of the node's peers that are not revoked - provided that the
    stored texts fit their config lines and nodes have interfaces of their own. *)
Theorem drained_consistent uuid_Parse uuid_String Quote hash_create hash_revoke reason_json X25519 sv wk (w0 : W) ts s w nodeID :
  rtc (cstep one_worker (starts uuid_Parse uuid_String Quote hash_create hash_revoke reason_json X25519 sv wk))
    (∅, (empty_store, w0)) (ts, (s, w)) ->
  well_named s -> peers_of nodeID s <> [] ->
  Forall (fun r => row_node r = nodeID -> ob_Status r = JobApplied) (st_outbox s) ->
  in_sync nodeID s w.
Proof.
  intros Hr Hwn Hne Hall.
  apply (rg_sound one_worker _ drained_ok guarantee (empty_store, w0) _) in Hr as [[_ Hd] _].
  - destruct (Hd Hwn nodeID Hne) as [(r & Hin & Hn & Hst)|H]; [|done]. rewrite Forall_forall in Hall. by destruct (Hst (Hall r Hin Hn)).
  - intros i p Hp. exists (fun _ _ => True). destruct i as [|i]; cbn in Hp.
    + inversion Hp; subst. apply rg_turn.
    + eapply rg_client; [|apply drained_client|done|exact Hp]. by intros st [? _].
  - split; [apply empty_store_ok|]. by intros _ nid Hx.
Qed.
End drained.

(** ** Concrete runs with the in-memory host *)

#[local] Instance demo_view : RuntimeView FakeExecutor := FakeExecutor_View (fun _ => None).

Definition race_uuid_Parse (b : bytes) : option uuid := if bool_decide (b = #"30") then Some 30%N else None.

Local Abbreviation demo_starts :=
  (starts (W := FakeExecutor) race_uuid_Parse demo_uuid_String (fun b => b) demo_hash demo_hash_revoke (fun b => b) demo_X25519
     demo_service demo_worker).
Local Abbreviation demo_move := (move (S := Store * FakeExecutor) (E := context * Z)).

Definition demo_create_thread : prog (Store * FakeExecutor) (context * Z) unit :=
  drop_result (create_thread race_uuid_Parse demo_uuid_String demo_hash demo_X25519 demo_service
    (demo_draws 100 9) (Some demo_admin) #"acme" #"k1" (demo_request #"bob")).
Definition demo_revoke_draws : Draws := mkDraws 150 33 34 35 (Ok []) (Ok []).
Definition demo_revoke_thread : prog (Store * FakeExecutor) (context * Z) unit :=
  drop_result (revoke_thread race_uuid_Parse demo_uuid_String demo_hash_revoke (fun b => b) demo_service
    demo_revoke_draws (Some demo_admin) #"acme" #"30" #"k2" #"lost").
Definition demo_turn_thread : prog (Store * FakeExecutor) (context * Z) unit :=
  drop_result (turn_thread demo_uuid_String (fun b => b) demo_worker).

Definition steps (n i : nat) (now : Z) : list demo_move := replicate n (Go i (None, now)).

(** Two workers: thread 0 reads the peers of the node for the create job; a client
    revokes the peer; thread 1 takes the revoke job, applies it and completes it; then
    thread 0 goes on with what it has read. *)
Definition two_workers (i : nat) : role := match i with O | 1%nat => RWorker | _ => RClient end.

Definition race : list demo_move :=
  [Start 2 demo_create_thread] ++ steps 5 2 100
  ++ [Start 0 demo_turn_thread] ++ steps 3 0 110
  ++ [Start 2 demo_revoke_thread] ++ steps 5 2 120
  ++ [Start 1 demo_turn_thread] ++ steps 20 1 130
  ++ steps 20 0 140.

Lemma steps_fine (kind : nat -> role) n i now :
  Forall (fun mv : demo_move => match mv with Go _ _ => True | Start i p => demo_starts (kind i) p end) (steps n i now).
Proof. apply Forall_replicate. done. Qed.

(** C17: (Two workers can bring a revoked peer back.) With two workers on the same database
    - nothing keeps two of them from working on one node at a time - there is a run, in
    which nothing fails, after which both jobs are applied and the database says that
    the peer is revoked and its revocation applied, but the interface has its key. *)
Theorem two_workers_resurrect :
  exists ts s w, rtc (cstep two_workers demo_starts) (∅, (demo_base, demo_world)) (ts, (s, w))
    /\ Forall (fun r => ob_Status r = JobApplied) (st_outbox s)
    /\ exists p, st_peers s = [p] /\ p_State p = PeerRevoked /\ p_AppliedRevision p = p_DesiredRevision p
         /\ p_PublicKey p ∈ kernel_keys #"awg0" w.
Proof.
  destruct (play race (∅, (demo_base, demo_world))) as [ts [s w]] eqn:E. exists ts, s, w. split.
  - rewrite <- E. apply play_steps. unfold race.
    repeat (apply Forall_app; split; [|]); try apply steps_fine; (constructor; [|constructor]); constructor.
  - apply (f_equal snd) in E. vm_compute in E. injection E as <- <-. split; [repeat constructor|].
    eexists. split; [reflexivity|]. split_and!; [reflexivity|reflexivity|]. apply (bool_decide_unpack _). vm_compute. exact I.
Qed.

(** One worker, with the revocation in the middle of its first turn. *)
Definition provisioning : list demo_move :=
  [Start 1 (drop_result (db (fun now => insertProfile 7 now demo_profile)))] ++ steps 2 1 0
  ++ [Start 1 (drop_result (db (fun now => EnsureTenant 1 now #"acme")))] ++ steps 2 1 0
  ++ [Start 1 (drop_result (db (fun now => insertNode 2 now demo_node)))] ++ steps 2 1 0
  ++ [Start 1 (drop_result (db (fun _ => createPool 3 1 2 demo_pool)))] ++ steps 2 1 0.

Definition one_by_one : list demo_move :=
  provisioning
  ++ [Start 2 demo_create_thread] ++ steps 5 2 100
  ++ [Start 0 demo_turn_thread] ++ steps 3 0 110
  ++ [Start 2 demo_revoke_thread] ++ steps 5 2 120 ++ steps 20 0 130
  ++ [Start 0 demo_turn_thread] ++ steps 20 0 140.

Lemma one_by_one_steps :
  rtc (cstep one_worker demo_starts) (∅, (empty_store, demo_world)) (play one_by_one (∅, (empty_store, demo_world))).
Proof.
  apply play_steps. unfold one_by_one, provisioning.
  repeat (apply Forall_app; split; [|]); try apply steps_fine; (constructor; [|constructor]); constructor; constructor.
  apply (bool_decide_unpack _). vm_compute. exact I.
Qed.

Lemma drained_consistent_witness :
  let '(_, (s, w)) := play one_by_one (∅, (empty_store, demo_world)) in
  in_sync 2 s w /\ (p_State <$> st_peers s) = [PeerRevoked].
Proof.
  pose proof one_by_one_steps as H. destruct (play one_by_one (∅, (empty_store, demo_world))) as [ts [s w]] eqn:E.
  apply (f_equal snd) in E. vm_compute in E. injection E as Es Ew. split.
  - apply (drained_consistent race_uuid_Parse demo_uuid_String (fun b => b) demo_hash demo_hash_revoke (fun b => b) demo_X25519
             demo_service demo_worker demo_world ts s w 2 H); subst s.
    + split; [split; [apply printable_peers_all|]; apply (bool_decide_unpack _); vm_compute; exact I|].
      intros n n' Hn%list_elem_of_singleton Hn'%list_elem_of_singleton _. subst. reflexivity.
    + discriminate.
    + repeat constructor.
  - subst s. reflexivity.
Defined.

Lemma concurrent_invariant_witness : store_ok (fst (snd (play one_by_one (∅, (empty_store, demo_world))))).
Proof.
  apply (concurrent_invariant race_uuid_Parse demo_uuid_String (fun b => b) demo_hash demo_hash_revoke (fun b => b) demo_X25519
           demo_service demo_worker one_worker demo_world). exact one_by_one_steps.
Defined.
