(* ===== verification/Reconcile.v ===== *)
(** * Reconcile: the startup reconciliation as a thread

    [ReconcileAll] of [internal/outbox/worker.go] node by node, interleaved with
    requests as in [Concurrent].  It keeps the database's invariant, and - on a host
    where a failed call leaves the peers of an interface as they were - also what
    [Drained] says of the runtime. *)

From S2P Require Import Prelude GoStrings Sorting Errors Effects Interleave Profile Netip AwgConfig Render Executor Store StoreFacts ServiceFacts Worker WorkerFacts System Concurrent Drained.

Section reconcile.
Context {W : Type} {EX : Executor W}.
Context (uuid_String : uuid -> bytes) (Quote : bytes -> bytes).

Abbreviation Shared := (Store * W)%type.
Abbreviation thread := (prog Shared (context * Z)).

(** ** Model *)

(** The loop of [ReconcileAll]. *)
Fixpoint reconcile_each (wk : Worker) (ids : list uuid) : thread (list error) :=
  match ids with
  | [] => mret []
  | id :: ids =>
      r ← apply_thread uuid_String Quote wk id;
      joined ← reconcile_each wk ids;
      mret match r with Ok _ => joined | Err err => EWrap (#"node " ++ uuid_String id ++ #": ") err [] :: joined end
  end.

Definition reconcile_thread (wk : Worker) : thread (result error unit) :=
  try (db (fun _ => asks (fun s => fmap (M := list) n_ID (sort_Slice host_less (st_nodes s))))) (fun ids =>
  joined ← reconcile_each wk ids;
  mret match errors_Join joined with None => Ok tt | Some e => Err e end : thread (result error unit)).

(** ** Run alone *)

Lemma run_reconcile_each wk ctx now ids st :
  run (ctx, now) (reconcile_each wk ids) st = reconcile_nodes uuid_String Quote wk ctx now ids st.
Proof.
  revert st. induction ids as [|id ids IH]; intros st; [done|]. cbn [reconcile_each reconcile_nodes].
  rewrite run_bind, run_apply. unfold Reconcile. destruct (applyNode _ _ _ _ _ _ st) as [r st1].
  rewrite run_bind, IH. by destruct (reconcile_nodes _ _ _ _ _ _ st1) as [joined st2].
Qed.

Lemma run_reconcile wk ctx now st :
  run (ctx, now) (reconcile_thread wk) st = ReconcileAll uuid_String Quote wk ctx now st.
Proof.
  unfold reconcile_thread, ReconcileAll. rewrite run_try, run_db. destruct (on_db ctx _ st) as [[ids|e] st1]; [|done].
  rewrite run_bind, run_reconcile_each. by destruct (reconcile_nodes _ _ _ _ _ _ st1) as [joined st2].
Qed.

(** ** The database *)

(** A reconciliation is as good as its applications. *)
Lemma rg_reconcile (kind : nat -> role) (I : Shared -> Prop) i wk :
  (forall id, rg kind I guarantee i (apply_thread uuid_String Quote wk id) (fun _ => True) (fun _ _ => True)) ->
  rg kind I guarantee i (reconcile_thread wk) (fun _ => True) (fun _ _ => True).
Proof.
  intros Happly. apply (rg_try _ _ _ _ _ _ (fun _ _ => True)); [|intros ids|done].
  { apply rg_db; [|done..]. intros now s w r s' Hs _ E. injection E as _ <-. split_and!; [done|apply guarantee_refl|done]. }
  eapply (rg_bind _ _ _ _ _ _ _ (fun _ _ => True)); [|intros joined; by apply rg_ret].
  induction ids as [|id ids IH]; [by apply rg_ret|]. eapply rg_bind; [apply Happly|]. intros r.
  eapply rg_bind; [exact IH|]. intros joined. by apply rg_ret.
Qed.

Lemma rg_reconcile_many kind i wk :
  kind i = RWorker ->
  rg kind (fun st : Shared => store_ok (fst st)) guarantee i (reconcile_thread wk) (fun _ => True) (fun _ _ => True).
Proof. intros Hi. apply rg_reconcile. intros id. by apply rg_apply_many. Qed.

(** ** The runtime *)

Section runtime.
Context {RV : RuntimeView W} (wk : Worker).

(** A failed call leaves the peers of its interface as they were, and a bootstrap config
    brings none and removes none. *)
Definition careful_host : Prop :=
  (forall ctx iface cfg w e w', SyncConf ctx iface cfg w = (Err e, w') -> kernel_keys iface w' = kernel_keys iface w)
  /\ forall ctx iface w, kernel_keys iface (snd (InterfaceUp ctx iface (bootstrapConfigPath wk iface) w)) = kernel_keys iface w.

Context (careful : careful_host).
Local Abbreviation triple := (rg one_worker drained_ok guarantee 0).
Local Abbreviation steady := (stable one_worker drained_ok guarantee 0).

(** Without a job of its own the worker may still count on the others: who changes the
    node's peers leaves a job. *)
Lemma unapplied_client nodeID s s' : asks_for s s' -> unapplied nodeID s -> unapplied nodeID s'.
Proof. intros (new & Ho & _) (r & Hr & H). exists r. rewrite Ho. split; [apply elem_of_app; by left|done]. Qed.

Lemma client_due nodeID s s' : asks_for s s' -> peers_of nodeID s' = peers_of nodeID s \/ unapplied nodeID s'.
Proof.
  intros (new & Ho & Hpend & Hnew). destruct (Hnew nodeID) as [H|Hex]; [by left|right].
  apply Exists_exists in Hex as (r & Hr & Hrn). exists r. rewrite Ho. split_and!; [apply elem_of_app; by right|done|].
  rewrite Forall_forall in Hpend. by rewrite (Hpend r Hr).
Qed.

Section one_node.
Context (nodeID : uuid).

Definition node_is (iface : bytes) (s : Store) : Prop :=
  exists n, find_id n_ID (st_nodes s) nodeID = Some n /\ n_InterfaceName n = iface.

(** What it knows of the peers it has read. *)
Definition seen (iface : bytes) (l : list Peer) (st : Shared) : Prop :=
  snapshot_ok l (fst st) /\ node_is iface (fst st)
  /\ (well_named (fst st) ->
        Forall (fun e => printable_peer e /\ key_text (pe_PublicKey e)) (desired_entries l)
        /\ (fresh nodeID l (fst st) \/ unapplied nodeID (fst st))).

Lemma node_is_evolves iface s s' : evolves s s' -> node_is iface s -> node_is iface s'.
Proof.
  intros He (n & Hn & Hi). destruct (find_node_evolves _ _ _ _ (ev_nodes _ _ He) Hn) as (n' & Hn' & _ & Hi').
  exists n'. split; [done|congruence].
Qed.

Lemma steady_node_is iface : steady (fun st => node_is iface (fst st)).
Proof. apply steady_clients. intros s w s' _ He _. by apply node_is_evolves. Qed.

Lemma steady_seen iface l : steady (seen iface l).
Proof.
  apply steady_clients. intros s w s' Hs' He Ha (Hl & Hn & Hf). cbn [fst] in *. split_and!.
  - by eapply snapshot_evolves.
  - by eapply node_is_evolves.
  - intros Hwn. destruct (Hf (well_named_evolves _ _ He Hwn)) as (Hpr & Hfr). split; [done|].
    destruct (client_due nodeID _ _ Ha) as [Hp|Hu]; [|by right].
    destruct Hfr as [[Hk Hnil]|Hu]; [left|right; by eapply unapplied_client].
    split; [intros k; by rewrite (live_key_same _ _ _ _ Hp)|]. intros E. cbn [fst]. by rewrite Hp, Hnil.
Qed.

(** A call that leaves all peers where they are. *)
Lemma drained_same s w w' :
  (forall iface, kernel_keys iface w' = kernel_keys iface w) -> drained_ok (s, w) -> drained_ok (s, w').
Proof.
  intros Hk [Hs Hd]. split; [done|]. cbn [fst snd] in *. intros Hwn nid Hne. destruct (Hd Hwn nid Hne) as [H|(n & Hn & H)]; [by left|].
  right. exists n. split; [done|]. intros k. by rewrite Hk.
Qed.

(** A call that gives the node's interface the peers that were read. *)
Lemma drained_synced iface l s w w' :
  seen iface l (s, w) -> (forall iface', iface' <> iface -> kernel_keys iface' w' = kernel_keys iface' w) ->
  (well_named s -> kernel_keys iface w' = list_to_set (pe_PublicKey <$> desired_entries l)) ->
  drained_ok (s, w) -> drained_ok (s, w').
Proof.
  intros (_ & (n & Hn & Hi) & Hf) Hother Hk [Hs Hd]. split; [done|]. cbn [fst snd] in *. intros Hwn nid Hne.
  destruct (decide (nid = nodeID)) as [->|Hdiff].
  - destruct (proj2 (Hf Hwn)) as [[Hlive _]|Hu]; [right|by left]. exists n. split; [done|]. intros k.
    by rewrite Hi, (Hk Hwn), elem_of_list_to_set.
  - destruct (Hd Hwn nid Hne) as [H|(n' & Hn' & H)]; [by left|right]. exists n'. split; [done|].
    rewrite Hother; [done|]. intros E. apply Hdiff. apply find_id_Some in Hn as [Hn <-]. apply find_id_Some in Hn' as [Hn' <-].
    apply Hwn; [done|done|congruence].
Qed.

(** Executor calls of the reconciliation. *)
Local Abbreviation knows iface l p := (fun st => seen iface l st /\ ready p st).

Lemma rg_exec_seen {A} (m : context -> W -> result error A * W) iface l p :
  (forall ctx s w r w', drained_ok (s, w) -> knows iface l p (s, w) -> m ctx w = (r, w') -> drained_ok (s, w')) ->
  triple (exec m) (knows iface l p) (fun _ => knows iface l p).
Proof.
  intros Hm. apply rg_exec; [done| |intros _; apply steady_and; [apply steady_seen|apply steady_named]].
  intros ctx s w r w' Hi Hk E. split; [by eapply Hm|exact Hk].
Qed.

Lemma rg_quiet_seen {A} (m : context -> W -> result error A * W) iface l p :
  (forall ctx w iface', kernel_keys iface' (snd (m ctx w)) = kernel_keys iface' w) ->
  triple (exec m) (knows iface l p) (fun _ => knows iface l p).
Proof.
  intros Hq. apply rg_exec_seen. intros ctx s w r w' Hi _ E. eapply drained_same; [|done]. intros iface'.
  specialize (Hq ctx w iface'). by rewrite E in Hq.
Qed.

Lemma rg_sync_seen iface l p b cfg :
  carried (Server (mkInterface [] [] b 0 [] [] []) p (desired_entries l)) cfg ->
  triple (exec (fun ctx => SyncConf ctx iface cfg)) (knows iface l p) (fun _ => knows iface l p).
Proof.
  intros Hc. apply rg_exec_seen. intros ctx s w [[]|e] w' Hi [Hk Hp] E.
  - assert (Hother : forall iface', iface' <> iface -> kernel_keys iface' w' = kernel_keys iface' w).
    { intros iface' Hne. pose proof (SyncConf_other ctx iface iface' cfg w Hne) as H. by rewrite E in H. }
    eapply drained_synced; [done|exact Hother| |done]. intros Hwn. destruct Hk as (_ & Hn & Hf). destruct (Hf Hwn) as (Hpr & _).
    apply Forall_and in Hpr as [Hpr Hkt]. assert (ValidInterfaceName iface = true) as Hv.
    { destruct Hn as (n & [Hn Hid]%find_id_Some & <-). destruct Hwn as [[Hpp _] _]. destruct (Hpp nodeID) as [_ H].
      rewrite Forall_forall in H. by apply H. }
    assert (printable_interface (mkInterface [] [] b 0 [] [] [])) as Hpi by (apply (bool_decide_unpack _); by vm_compute).
    exact (SyncConf_keys ctx iface _ p _ cfg w w' Hv Hpi (Hp Hwn) Hpr Hkt Hc E).
  - eapply drained_same; [|done]. intros iface'. destruct (decide (iface' = iface)) as [->|Hne]; [by eapply careful|].
    pose proof (SyncConf_other ctx iface iface' cfg w Hne) as H. by rewrite E in H.
Qed.

Lemma rg_up_seen iface l p :
  triple (exec (fun ctx => InterfaceUp ctx iface (bootstrapConfigPath wk iface))) (knows iface l p) (fun _ => knows iface l p).
Proof.
  apply rg_quiet_seen. intros ctx w iface'. destruct (decide (iface' = iface)) as [->|Hne]; [apply careful|].
  by apply InterfaceUp_other.
Qed.

Lemma rg_preserve_seen iface l p cfg :
  triple (preserve_thread iface cfg) (knows iface l p)
    (fun cfg' st => knows iface l p st /\ forall base, carried base cfg -> carried base cfg').
Proof.
  unfold preserve_thread. destruct (negb _); [by apply rg_ret|].
  eapply rg_bind; [apply rg_quiet_seen; intros ctx w iface'; apply ShowConf_quiet|]. intros r. apply rg_ret.
  intros st _ H. split; [exact H|]. intros base Hb. destruct r as [current|e]; [by constructor|done].
Qed.

Lemma rg_sync_thread_seen iface l p b cfg :
  carried (Server (mkInterface [] [] b 0 [] [] []) p (desired_entries l)) cfg ->
  triple (sync_thread wk iface cfg) (knows iface l p) (fun _ => knows iface l p).
Proof.
  intros Hc. unfold sync_thread. eapply rg_bind; [by apply (rg_sync_seen _ _ p b)|].
  intros [[]|err]; [by apply rg_ret|]. destruct (negb _); [by apply rg_ret|].
  eapply rg_bind; [apply rg_up_seen|]. intros [[]|up]; [|by apply rg_ret].
  eapply rg_bind; [apply rg_preserve_seen|]. intros cfg'.
  apply (rg_pure_pre _ _ _ _ _ _ _ (forall base, carried base cfg -> carried base cfg')); [by intros st [_ H]|]. intros Hc'.
  eapply rg_pre; [intros st _ [H _]; exact H|]. by apply (rg_sync_seen _ _ p b), Hc'.
Qed.

(** Its database calls. *)
Lemma rg_node_seen :
  triple (db (fun _ => Nodes_GetByID nodeID)) (fun _ => True)
    (fun r st => match r with Ok node => node_is (n_InterfaceName node) (fst st) | Err _ => True end).
Proof.
  apply rg_db; [|done|intros [node|e]; [apply steady_node_is|done]].
  intros now s w r s' Hi _ E. unfold Nodes_GetByID in E. rewrite asks_bind in E.
  destruct (find_id n_ID (st_nodes s) nodeID) as [n|] eqn:Ef; injection E as <- <-;
    (split_and!; [done|apply guarantee_refl|]); [|done]. by exists n.
Qed.

Lemma rg_peers_seen iface :
  triple (db (fun _ => ListByNodeIncludingRevoked nodeID)) (fun st => node_is iface (fst st))
    (fun r st => match r with Ok l => seen iface l st | Err _ => True end).
Proof.
  apply rg_db; [|done|intros [l|e]; [apply steady_seen|done]].
  intros now s w r s' Hi Hn E. injection E as <- <-. fold (node_peers nodeID s). pose proof (proj1 Hi : store_ok s) as Hs.
  split_and!; [done|apply guarantee_refl|]. split_and!; [by apply snapshot_read|done|].
  cbn [fst]. intros [[Hpp _] _]. split; [by apply printable_entries|left; by apply fresh_read].
Qed.

Lemma rg_profile_seen iface l pid :
  triple (db (fun _ => Profiles_GetByID pid)) (seen iface l)
    (fun r st => match r with Ok p => seen iface l st /\ ready p st | Err _ => True end).
Proof.
  apply rg_db; [|done|intros [p|e]; [apply steady_and; [apply steady_seen|apply steady_named]|done]].
  intros now s w r s' Hi Hk E. unfold Profiles_GetByID in E. rewrite asks_bind in E.
  destruct (find_id pw_id (st_profiles s) pid) as [row|] eqn:Ef; injection E as <- <-;
    split_and!; try done; try apply guarantee_refl.
  intros [[_ Hpf] _]. apply find_id_Some in Ef as [Hin _]. rewrite Forall_forall in Hpf. by apply Hpf.
Qed.

Lemma rg_record_seen iface l ps p :
  triple (db (fun now => persistRuntime now l ps)) (knows iface l p) (fun _ _ => True).
Proof.
  apply rg_db; [|done..]. intros now s w r s' [Hs Hd] [(Hl & _) _] E. cbn [fst] in *.
  destruct (persist_evolves _ _ _ _ _ _ Hs Hl E) as (-> & Hs' & m & ->).
  pose proof (persisted_evolves now l m s) as He. split; [split; [done|]|split; [by split|done]]. cbn [fst snd].
  intros Hwn nid Hne. rewrite peers_of_applied in Hne. destruct (Hd (well_named_evolves _ _ He Hwn) nid) as [H|H].
  - intros Hnil. by rewrite Hnil in Hne.
  - by left.
  - right. eapply in_sync_store; [done| |done]. intros k. apply live_key_applied.
Qed.

Lemma rg_apply_drained : triple (apply_thread uuid_String Quote wk nodeID) (fun _ => True) (fun _ _ => True).
Proof.
  unfold apply_thread. eapply rg_try; [apply rg_node_seen|intros node|done].
  eapply rg_try; [apply rg_peers_seen|intros peers|done]. destruct (n_ProfileID node) as [pid|]; [|by apply rg_ret].
  eapply rg_try; [apply rg_profile_seen|intros profile|done]. cbn beta iota.
  eapply rg_bind; [apply rg_preserve_seen|]. intros cfg.
  apply (rg_pure_pre _ _ _ _ _ _ _ (carried (node_config node profile peers) cfg)).
  { intros st [_ H]. apply H. constructor. }
  intros Hc. eapply rg_pre; [intros st _ [H _]; exact H|].
  eapply rg_try; [by apply (rg_sync_thread_seen _ _ profile (n_BasePort node))|intros []|done].
  eapply rg_try; [apply rg_quiet_seen; intros ctx w iface'; apply ShowDump_quiet|intros [ir ps]|done].
  destruct (_ && _); [by apply rg_ret|]. apply rg_record_seen.
Qed.
End one_node.

Lemma rg_reconcile_drained : triple (reconcile_thread wk) (fun _ => True) (fun _ _ => True).
Proof. apply rg_reconcile, rg_apply_drained. Qed.
End runtime.
End reconcile.
