(* ===== verification/Lifecycle.v ===== *)
(** * Lifecycle: a process from its start to its end ([cmd/*/main.go])

    The three binaries share one life: come up under a signal context, start a worker
    loop and an HTTP server if they have them, wait for the context to be done, shut the
    server down with a deadline, close the connection pool and return.  The goroutines
    are the threads of [Interleave]; this file has the process around them, its
    shutdown and deployments of several processes over one shared state, all of which
    may be signalled, lose their listener, be killed and be started again. *)

From Stdlib Require Import Relation_Operators Wellfounded.
From S2P Require Import Prelude Errors Interleave Executor.

Section lifecycle.
(** The database and the hosts, shared by all processes. *)
Context {S : Type}.

(** What an action sees: its context and the clock. *)
Abbreviation Env := (context * Z)%type.
Abbreviation thread := (prog S Env).

(** ** Model *)

(** What a program is made of: whether it serves HTTP and opens a connection pool, what
    it may do before it serves, its worker - the startup reconciliation, if wanted, and
    one claim with the job it finds - and what its requests may run. *)
Record Binary : Type := mkBinary {
  bn_listens : bool;
  bn_pool : bool;
  bn_boot : thread (result error unit) -> Prop;
  bn_worker : option (option (thread (result error unit)) * thread (result error bool));
  bn_request : thread unit -> Prop }.

(** Where [main] is: before it serves, at [<-ctx.Done()] or in [w.Run], in
    [Shutdown], or returned. *)
Inductive Main : Type :=
| Starting (p : thread (result error unit))
| Waiting
| ShuttingDown
| Over.

(** Where the worker is: in [ReconcileAll], at the head of the loop of [Run], in a claim
    and its job, between polls, or returned. *)
Inductive Loop : Type :=
| Reconciling (p : thread (result error unit))
| Head
| Turning (p : thread (result error bool))
| Polling
| Stopped.

Record Proc : Type := mkProc {
  pr_main : Main;
  pr_done : bool;
  pr_listening : bool;
  pr_worker : Loop;
  pr_requests : gmap nat (thread unit);
  pr_pool : bool }.

Definition set_main (m : Main) (P : Proc) : Proc :=
  mkProc m (pr_done P) (pr_listening P) (pr_worker P) (pr_requests P) (pr_pool P).
Definition set_worker (l : Loop) (P : Proc) : Proc :=
  mkProc (pr_main P) (pr_done P) (pr_listening P) l (pr_requests P) (pr_pool P).
Definition set_requests (f : gmap nat (thread unit) -> gmap nat (thread unit)) (P : Proc) : Proc :=
  mkProc (pr_main P) (pr_done P) (pr_listening P) (pr_worker P) (f (pr_requests P)) (pr_pool P).
Definition set_cancelled (listening : bool) (P : Proc) : Proc :=
  mkProc (pr_main P) true listening (pr_worker P) (pr_requests P) (pr_pool P).

(** The signal context, as the calls of [main] and of the worker see it. *)
Definition signal_ctx (P : Proc) : context := if pr_done P then Some (ESentinel ErrCanceled) else None.

(** A process begins, with the pool its start opens. *)
Definition boot (bn : Binary) (p : thread (result error unit)) : Proc :=
  mkProc (Starting p) false false Stopped ∅ (bn_pool bn).

Definition first_loop (bn : Binary) : Loop :=
  match bn_worker bn with
  | None => Stopped
  | Some (Some r, _) => Reconciling r
  | Some (None, _) => Head
  end.

Definition serving (bn : Binary) (P : Proc) : Proc :=
  mkProc Waiting (pr_done P) (bn_listens bn) (first_loop bn) (pr_requests P) (pr_pool P).

(** [main] returns: the deferred [Close] runs and every other goroutine ends. *)
Definition returned (P : Proc) : Proc := mkProc Over (pr_done P) false Stopped ∅ false.

(** [main] has seen that the context is done: the listener closes. *)
Definition shutting_down (P : Proc) : Proc :=
  mkProc ShuttingDown true false (pr_worker P) (pr_requests P) (pr_pool P).

(** An action of one of its goroutines.  Calls of [main] and of the worker are under the
    signal context; a request has a context of its own. *)
Inductive acts : Proc -> S -> Proc -> S -> Prop :=
| acts_main P s now {X} (m : Env -> S -> X * S) k x s' :
    pr_main P = Starting (Act m k) -> m (signal_ctx P, now) s = (x, s') ->
    acts P s (set_main (Starting (k x)) P) s'
| acts_reconcile P s now {X} (m : Env -> S -> X * S) k x s' :
    pr_worker P = Reconciling (Act m k) -> m (signal_ctx P, now) s = (x, s') ->
    acts P s (set_worker (Reconciling (k x)) P) s'
| acts_turn P s now {X} (m : Env -> S -> X * S) k x s' :
    pr_worker P = Turning (Act m k) -> m (signal_ctx P, now) s = (x, s') ->
    acts P s (set_worker (Turning (k x)) P) s'
| acts_request P s i e {X} (m : Env -> S -> X * S) k x s' :
    pr_requests P !! i = Some (Act m k) -> m e s = (x, s') ->
    acts P s (set_requests <[i := k x]> P) s'.

(** What else its goroutines do. *)
Inductive moves (bn : Binary) : Proc -> Proc -> Prop :=
| moves_serve P : pr_main P = Starting (Ret (Ok tt)) -> moves bn P (serving bn P)
| moves_panic P e : pr_main P = Starting (Ret (Err e)) -> moves bn P (returned P)
| moves_reconciled P r : pr_worker P = Reconciling (Ret r) -> moves bn P (set_worker Head P)
| moves_claim P r turn :
    pr_worker P = Head -> pr_done P = false -> bn_worker bn = Some (r, turn) -> moves bn P (set_worker (Turning turn) P)
| moves_cancelled P : pr_worker P = Head -> pr_done P = true -> moves bn P (set_worker Stopped P)
| moves_processed P : pr_worker P = Turning (Ret (Ok true)) -> moves bn P (set_worker Head P)
| moves_idle P r : pr_worker P = Turning (Ret r) -> r <> Ok true -> moves bn P (set_worker Polling P)
| moves_poll P : pr_worker P = Polling -> moves bn P (set_worker Head P)
| moves_woken P : pr_worker P = Polling -> pr_done P = true -> moves bn P (set_worker Stopped P)
| moves_answered P i : pr_requests P !! i = Some (Ret tt) -> moves bn P (set_requests (delete i) P)
| moves_shutdown P :
    pr_main P = Waiting -> bn_listens bn = true -> pr_done P = true ->
    moves bn P (shutting_down P)
| moves_drained P : pr_main P = ShuttingDown -> pr_requests P = ∅ -> moves bn P (returned P)
| moves_deadline P : pr_main P = ShuttingDown -> moves bn P (returned P)
| moves_ran P : pr_main P = Waiting -> bn_listens bn = false -> pr_worker P = Stopped -> moves bn P (returned P).

(** What happens to it: the first signal, a listener that fails, a request. *)
Inductive meets (bn : Binary) : Proc -> Proc -> Prop :=
| meets_signal P : pr_main P <> Over -> pr_done P = false -> meets bn P (set_cancelled (pr_listening P) P)
| meets_crash P : pr_listening P = true -> meets bn P (set_cancelled false P)
| meets_request P i p :
    pr_listening P = true -> bn_request bn p -> pr_requests P !! i = None -> meets bn P (set_requests <[i := p]> P).

(** A step of the process itself, whatever the shared state has become meanwhile. *)
Definition proceeds (bn : Binary) (P P' : Proc) : Prop := (exists s s', acts P s P' s') \/ moves bn P P'.

Definition lives (bn : Binary) (P P' : Proc) : Prop := proceeds bn P P' \/ meets bn P P'.

(** Deployments: the processes that run, over the shared state.  They live, are killed
    and are started. *)
Inductive deploy (binaries : nat -> Binary) : gmap nat Proc * S -> gmap nat Proc * S -> Prop :=
| deploy_acts ps p P P' s s' :
    ps !! p = Some P -> acts P s P' s' -> deploy binaries (ps, s) (<[p := P']> ps, s')
| deploy_moves ps p P P' s :
    ps !! p = Some P -> moves (binaries p) P P' -> deploy binaries (ps, s) (<[p := P']> ps, s)
| deploy_meets ps p P P' s :
    ps !! p = Some P -> meets (binaries p) P P' -> deploy binaries (ps, s) (<[p := P']> ps, s)
| deploy_kill ps p s : deploy binaries (ps, s) (delete p ps, s)
| deploy_start ps p b s :
    ps !! p = None -> bn_boot (binaries p) b -> deploy binaries (ps, s) (<[p := boot (binaries p) b]> ps, s).

(** The goroutines of a process. *)
Inductive place : Type := AtMain | AtWorker | AtRequest (i : nat).

#[global] Instance place_eq_dec : EqDecision place.
Proof. solve_decision. Defined.

(** *** Schedules *)

(** What one goroutine does next, if it can do anything. *)
Definition advance (bn : Binary) (pl : place) (e : Env) (P : Proc) (s : S) : Proc * S :=
  match pl with
  | AtMain =>
      match pr_main P with
      | Starting (Act m k) => let '(x, s') := m (signal_ctx P, snd e) s in (set_main (Starting (k x)) P, s')
      | Starting (Ret (Ok _)) => (serving bn P, s)
      | Starting (Ret (Err _)) => (returned P, s)
      | Waiting =>
          (if bn_listens bn then if pr_done P then shutting_down P else P
           else match pr_worker P with Stopped => returned P | _ => P end, s)
      | ShuttingDown => (returned P, s)
      | Over => (P, s)
      end
  | AtWorker =>
      match pr_worker P with
      | Reconciling (Act m k) => let '(x, s') := m (signal_ctx P, snd e) s in (set_worker (Reconciling (k x)) P, s')
      | Reconciling (Ret _) => (set_worker Head P, s)
      | Head =>
          (if pr_done P then set_worker Stopped P
           else match bn_worker bn with Some (_, turn) => set_worker (Turning turn) P | None => P end, s)
      | Turning (Act m k) => let '(x, s') := m (signal_ctx P, snd e) s in (set_worker (Turning (k x)) P, s')
      | Turning (Ret (Ok true)) => (set_worker Head P, s)
      | Turning (Ret _) => (set_worker Polling P, s)
      | Polling => (set_worker Head P, s)
      | Stopped => (P, s)
      end
  | AtRequest i =>
      match pr_requests P !! i with
      | Some (Act m k) => let '(x, s') := m e s in (set_requests <[i := k x]> P, s')
      | Some (Ret _) => (set_requests (delete i) P, s)
      | None => (P, s)
      end
  end.

(** What happens next in a deployment. *)
Inductive event : Type :=
| EvGo (p : nat) (pl : place) (e : Env)
| EvSignal (p : nat)
| EvListenerFails (p : nat)
| EvRequest (p i : nat) (q : thread unit)
| EvKill (p : nat)
| EvStart (p : nat) (b : thread (result error unit)).

Definition play_event (binaries : nat -> Binary) (c : gmap nat Proc * S) (ev : event) : gmap nat Proc * S :=
  let '(ps, s) := c in
  match ev with
  | EvGo p pl e =>
      match ps !! p with
      | Some P => let '(P', s') := advance (binaries p) pl e P s in (<[p := P']> ps, s')
      | None => c
      end
  | EvSignal p =>
      match ps !! p with
      | Some P => match pr_main P, pr_done P with
                  | Over, _ | _, true => c
                  | _, false => (<[p := set_cancelled (pr_listening P) P]> ps, s)
                  end
      | None => c
      end
  | EvListenerFails p =>
      match ps !! p with
      | Some P => if pr_listening P then (<[p := set_cancelled false P]> ps, s) else c
      | None => c
      end
  | EvRequest p i q =>
      match ps !! p with
      | Some P => match pr_listening P, pr_requests P !! i with
                  | true, None => (<[p := set_requests <[i := q]> P]> ps, s)
                  | _, _ => c
                  end
      | None => c
      end
  | EvKill p => (delete p ps, s)
  | EvStart p b => match ps !! p with Some _ => c | None => (<[p := boot (binaries p) b]> ps, s) end
  end.

Definition play_events (binaries : nat -> Binary) (evs : list event) (c : gmap nat Proc * S) : gmap nat Proc * S :=
  fold_left (play_event binaries) evs c.

(** What the outside hands in is of the program's. *)
Definition admissible (binaries : nat -> Binary) (ev : event) : Prop :=
  match ev with
  | EvRequest p _ q => bn_request (binaries p) q
  | EvStart p b => bn_boot (binaries p) b
  | _ => True
  end.

Lemma advance_steps bn pl e P s P' s' :
  advance bn pl e P s = (P', s') -> acts P s P' s' \/ (moves bn P P' /\ s' = s) \/ (P' = P /\ s' = s).
Proof.
  destruct pl as [| |i]; cbn.
  - destruct (pr_main P) as [[[[]|err]|X m k]| | |] eqn:H.
    + intros [= <- <-]. right; left. split; [by constructor|done].
    + intros [= <- <-]. right; left. split; [by eapply moves_panic|done].
    + destruct (m _ s) as [x s1] eqn:E. intros [= <- <-]. left. by eapply acts_main.
    + destruct (bn_listens bn) eqn:Hl; [destruct (pr_done P) eqn:Hd|destruct (pr_worker P) eqn:Hw]; intros [= <- <-]; auto;
        right; left; (split; [by constructor|done]).
    + intros [= <- <-]. right; left. split; [by apply moves_deadline|done].
    + intros [= <- <-]. auto.
  - destruct (pr_worker P) as [[r|X m k]| |[r|X m k]| |] eqn:H.
    + intros [= <- <-]. right; left. split; [by eapply moves_reconciled|done].
    + destruct (m _ s) as [x s1] eqn:E. intros [= <- <-]. left. by eapply acts_reconcile.
    + destruct (pr_done P) eqn:Hd; [|destruct (bn_worker bn) as [[r turn]|] eqn:Hw]; intros [= <- <-]; auto; right; left.
      * split; [by apply moves_cancelled|done].
      * split; [by eapply moves_claim|done].
    + destruct r as [[|]|err]; intros [= <- <-]; right; left; (split; [|done]); [by apply moves_processed|by eapply moves_idle..].
    + destruct (m _ s) as [x s1] eqn:E. intros [= <- <-]. left. by eapply acts_turn.
    + intros [= <- <-]. right; left. split; [by apply moves_poll|done].
    + intros [= <- <-]. auto.
  - destruct (pr_requests P !! i) as [[[]|X m k]|] eqn:H.
    + intros [= <- <-]. right; left. split; [by apply moves_answered|done].
    + destruct (m e s) as [x s1] eqn:E. intros [= <- <-]. left. by eapply acts_request.
    + intros [= <- <-]. auto.
Qed.

Lemma play_event_deploys binaries c ev :
  admissible binaries ev -> rtc (deploy binaries) c (play_event binaries c ev).
Proof.
  destruct c as [ps s]. intros Ha. destruct ev as [p pl e|p|p|p i q|p|p b]; cbn in *; [..|by apply rtc_once, deploy_kill|].
  all: destruct (ps !! p) as [P|] eqn:Hp; try apply rtc_refl.
  - destruct (advance _ pl e P s) as [P' s'] eqn:E. destruct (advance_steps _ _ _ _ _ _ _ E) as [H|[[H ->]|[-> ->]]].
    + by eapply rtc_once, deploy_acts.
    + by eapply rtc_once, deploy_moves.
    + rewrite insert_id by done. apply rtc_refl.
  - destruct (pr_main P) eqn:Hm, (pr_done P) eqn:Hd; try apply rtc_refl;
      (eapply rtc_once, deploy_meets; [done|]; apply meets_signal; [by rewrite Hm|done]).
  - destruct (pr_listening P) eqn:Hl; [|apply rtc_refl]. eapply rtc_once, deploy_meets; [done|]. by apply meets_crash.
  - destruct (pr_listening P) eqn:Hl, (pr_requests P !! i) eqn:Hq; try apply rtc_refl.
    eapply rtc_once, deploy_meets; [done|]. by apply meets_request.
  - by apply rtc_once, deploy_start.
Qed.

(** A schedule is a run. *)
Lemma play_events_deploy binaries evs c :
  Forall (admissible binaries) evs -> rtc (deploy binaries) c (play_events binaries evs c).
Proof.
  intros H. revert c. induction H as [|ev evs Hev _ IH]; intros c; [apply rtc_refl|].
  etrans; [by apply play_event_deploys|]. apply IH.
Qed.

(** ** Shutdown terminates *)

(** What a thread has left after its next action. *)
Definition after {A} (p p' : thread A) : Prop :=
  match p with Ret _ => False | Act m k => exists x, p' = k x end.

(** What each part of a process does once the context is done. *)
Inductive main_falls : Main -> Main -> Prop :=
| falls_act p p' : after p p' -> main_falls (Starting p) (Starting p')
| falls_serve p : main_falls (Starting p) Waiting
| falls_panic p : main_falls (Starting p) Over
| falls_shutdown : main_falls Waiting ShuttingDown
| falls_ran : main_falls Waiting Over
| falls_returned : main_falls ShuttingDown Over.

Inductive loop_falls : Loop -> Loop -> Prop :=
| falls_reconcile p p' : after p p' -> loop_falls (Reconciling p) (Reconciling p')
| falls_reconciled p : loop_falls (Reconciling p) Head
| falls_turn p p' : after p p' -> loop_falls (Turning p) (Turning p')
| falls_turned p : loop_falls (Turning p) Head
| falls_idle p : loop_falls (Turning p) Polling
| falls_poll : loop_falls Polling Head
| falls_woken : loop_falls Polling Stopped
| falls_cancelled : loop_falls Head Stopped.

Inductive requests_fall : gmap nat (thread unit) -> gmap nat (thread unit) -> Prop :=
| fall_act i p p' rs : rs !! i = Some p -> after p p' -> requests_fall rs (<[i := p']> rs)
| fall_ret i p rs : rs !! i = Some p -> requests_fall rs (delete i rs).

(** A value is accessible when every step from it leads to an accessible one. *)
Ltac acc_steps := constructor; intros ? Hstep; unfold flip in Hstep; inversion Hstep; subst; eauto.

Lemma after_wf A : well_founded (flip (@after A)).
Proof. intros p. induction p as [a|X m k IH]; constructor; [done|]. intros p' [x ->]. apply IH. Qed.

Lemma main_falls_wf : well_founded (flip main_falls).
Proof.
  assert (Hr : Acc (flip main_falls) Over) by acc_steps.
  assert (Hs : Acc (flip main_falls) ShuttingDown) by acc_steps.
  assert (Hw : Acc (flip main_falls) Waiting) by acc_steps.
  intros [p| | |]; [|done..]. induction (after_wf _ p) as [p _ IH]. acc_steps.
Qed.

Lemma loop_falls_wf : well_founded (flip loop_falls).
Proof.
  assert (Hs : Acc (flip loop_falls) Stopped) by acc_steps.
  assert (Hh : Acc (flip loop_falls) Head) by acc_steps.
  assert (Hp : Acc (flip loop_falls) Polling) by acc_steps.
  intros [p| |p| |]; [|exact Hh| |exact Hp|exact Hs]; induction (after_wf _ p) as [p _ IH]; acc_steps.
Qed.

(** Finitely many threads together: by induction on the map, then on the new thread,
    then on what the others do. *)
Lemma requests_fall_wf : well_founded (flip requests_fall).
Proof.
  intros rs. induction rs as [|i p rs Hi IH] using map_ind.
  { constructor. intros rs' H. unfold flip in H. remember ∅ as none eqn:E.
    destruct H as [i p p' rs Hi _|i p rs Hi]; rewrite E, lookup_empty in Hi; discriminate. }
  revert Hi. induction (after_wf _ p) as [p _ IHp] in rs, IH |- *.
  induction IH as [rs Hrs IHrs]. intros Hi. constructor. intros rs' H. unfold flip in H.
  assert (Hacc : Acc (flip requests_fall) rs) by (constructor; exact Hrs).
  remember (<[i := p]> rs) as all eqn:E. destruct H as [j q q' all Hj Hq|j q all Hj]; subst all;
    apply lookup_insert_Some in Hj as [[<- <-]|[Hne Hj]].
  - rewrite insert_insert_eq. apply IHp; assumption.
  - rewrite insert_insert_ne by done. apply IHrs; [eapply fall_act; eassumption|]. rewrite lookup_insert_ne; assumption || congruence.
  - rewrite delete_insert_id; assumption.
  - rewrite delete_insert_ne by done. apply IHrs; [eapply fall_ret; eassumption|]. rewrite lookup_delete_ne; assumption || congruence.
Qed.
(** The parts of a process, from the slowest. *)
Definition parts (P : Proc) : Main * (Loop * gmap nat (thread unit)) := (pr_main P, (pr_worker P, pr_requests P)).

Abbreviation below := (slexprod _ _ (flip main_falls) (slexprod _ _ (flip loop_falls) (flip requests_fall))).

Lemma acts_below P s P' s' : acts P s P' s' -> below (parts P') (parts P).
Proof.
  intros [] ; unfold parts; cbn.
  - apply left_slex. rewrite H. apply falls_act. by exists x.
  - apply right_slex, left_slex. rewrite H. apply falls_reconcile. by exists x.
  - apply right_slex, left_slex. rewrite H. apply falls_turn. by exists x.
  - apply right_slex, right_slex. eapply fall_act; [done|]. by exists x.
Qed.

Lemma moves_below bn P P' : pr_done P = true -> moves bn P P' -> below (parts P') (parts P).
Proof.
  intros Hd Hm. revert Hd. destruct Hm; intros Hd; unfold parts; cbn;
    repeat match goal with H : ?f ?Q = _ |- context [?f ?Q] => rewrite H end; try congruence;
    first [ apply left_slex; constructor | apply right_slex, left_slex; constructor
          | apply right_slex, right_slex; eapply fall_ret; eassumption ].
Qed.

(** A step after the context is done. *)
Definition winds_down (bn : Binary) (P' P : Proc) : Prop := pr_done P = true /\ proceeds bn P P'.

Lemma winds_down_wf bn : well_founded (winds_down bn).
Proof.
  eapply wf_incl; [|apply (wf_inverse_image _ _ below parts)].
  - intros P' P [Hd [(s & s' & H)|H]]; [by eapply acts_below|by eapply moves_below].
  - apply wf_slexprod; [apply main_falls_wf|]. apply wf_slexprod; [apply loop_falls_wf|apply requests_fall_wf].
Qed.

(** A step of the process or something that happens to it, after the context is done; a
    request that arrives is paid for. *)
Definition paid (bn : Binary) (x y : nat * Proc) : Prop :=
  let '(n', P') := x in let '(n, P) := y in
  pr_done P = true
  /\ ((proceeds bn P P' /\ n = n')
      \/ (meets bn P P' /\ if decide (dom (pr_requests P') = dom (pr_requests P)) then n = n' else n = Datatypes.S n')).

(** A listener closes once. *)
Definition closes (l' l : bool) : Prop := l' = false /\ l = true.

Lemma closes_wf : well_founded closes.
Proof. assert (Acc closes false) by (constructor; by intros l' [_ [=]]). intros []; [constructor; by intros l' [-> _]|done]. Qed.

Definition account (x : nat * Proc) : nat * (Main * (bool * (Loop * gmap nat (thread unit)))) :=
  (fst x, (pr_main (snd x), (pr_listening (snd x), (pr_worker (snd x), pr_requests (snd x))))).

Abbreviation cheaper :=
  (slexprod _ _ lt (slexprod _ _ (flip main_falls) (slexprod _ _ closes (slexprod _ _ (flip loop_falls) (flip requests_fall))))).

Lemma proceeds_cheaper bn n P P' : pr_done P = true -> proceeds bn P P' -> cheaper (account (n, P')) (account (n, P)).
Proof.
  intros Hd [(s & s' & H)|H]; revert Hd; destruct H; intros Hd; unfold account; cbn; apply right_slex;
    repeat match goal with H : ?f ?Q = _ |- context [?f ?Q] => rewrite H end; try congruence;
    first [ apply left_slex; constructor; by eexists | apply left_slex; constructor
          | apply right_slex, right_slex, left_slex; constructor; by eexists
          | apply right_slex, right_slex, left_slex; constructor
          | apply right_slex, right_slex, right_slex; first [eapply fall_ret; eassumption | eapply fall_act; [eassumption|by eexists]] ].
Qed.

Lemma paid_wf bn : well_founded (paid bn).
Proof.
  eapply wf_incl; [|apply (wf_inverse_image _ _ cheaper account)].
  - intros [n' P'] [n P] [Hd [[Hp ->]|[Hm Hn]]]; [by eapply proceeds_cheaper|].
    destruct Hm as [P Hm Hf|P Hl|P i p Hl Hb Hi]; [congruence| |].
    + rewrite decide_True in Hn by done. subst n. apply right_slex, right_slex, left_slex. by split.
    + rewrite decide_False in Hn; [subst n; apply left_slex; cbn; lia|]. cbn. rewrite dom_insert_L. intros E.
      apply not_elem_of_dom in Hi. apply Hi. rewrite <- E. set_solver.
  - apply wf_slexprod; [apply lt_wf|]. apply wf_slexprod; [apply main_falls_wf|]. apply wf_slexprod; [apply closes_wf|].
    apply wf_slexprod; [apply loop_falls_wf|apply requests_fall_wf].
Qed.

(** *** What is true of a process all its life *)

(** It has returned: nothing of it is left. *)
Definition gone (P : Proc) : Prop :=
  pr_listening P = false /\ pr_worker P = Stopped /\ pr_requests P = ∅ /\ pr_pool P = false.

Definition proc_ok (P : Proc) : Prop :=
  (pr_main P = Over -> gone P) /\ (pr_main P = ShuttingDown -> pr_done P = true /\ pr_listening P = false).

Lemma returned_ok P : proc_ok (returned P).
Proof. by split. Qed.

Lemma lives_ok bn P P' : lives bn P P' -> proc_ok P -> proc_ok P'.
Proof.
  intros [[(s & s' & H)|H]|H]; destruct H; intros [Hr Hs]; try (by apply returned_ok); split; cbn; intros E; try congruence;
    try (destruct (Hs E)); try (by split); try congruence; destruct (Hr E) as (Hl & Hw & Hq & Hp); try congruence.
  all: rewrite Hq, lookup_empty in H; discriminate.
Qed.

Lemma boot_lasting bn b P : rtc (lives bn) (boot bn b) P -> proc_ok P.
Proof.
  assert (H0 : proc_ok (boot bn b)) by (by split). intros H. induction H as [|P1 P2 P3 Hs _ IH]; [done|].
  apply IH. by eapply lives_ok.
Qed.

(** A thread takes its next action or has none. *)
Lemma main_goes bn P p (s : S) : pr_main P = Starting p -> exists P', proceeds bn P P'.
Proof.
  destruct p as [[[]|e]|X m k]; intros H.
  - eexists. right. by apply moves_serve.
  - eexists. right. by eapply moves_panic.
  - destruct (m (signal_ctx P, 0) s) as [x s'] eqn:E. eexists. left. exists s, s'. by eapply acts_main.
Qed.

Lemma worker_goes bn P (s : S) : pr_done P = true -> pr_worker P <> Stopped -> exists P', proceeds bn P P'.
Proof.
  intros Hd Hs. destruct (pr_worker P) as [[r|X m k]| |[r|X m k]| |] eqn:H; [..|done].
  - eexists. right. by eapply moves_reconciled.
  - destruct (m (signal_ctx P, 0) s) as [x s'] eqn:E. eexists. left. exists s, s'. by eapply acts_reconcile.
  - eexists. right. by apply moves_cancelled.
  - destruct r as [[|]|e]; eexists; right; [by apply moves_processed|by eapply moves_idle..].
  - destruct (m (signal_ctx P, 0) s) as [x s'] eqn:E. eexists. left. exists s, s'. by eapply acts_turn.
  - eexists. right. by apply moves_woken.
Qed.

Lemma down_goes bn P (s : S) : pr_done P = true -> pr_main P <> Over -> exists P', proceeds bn P P'.
Proof.
  intros Hd Hr. destruct (pr_main P) as [p| | |] eqn:H; [by eapply main_goes| | |done].
  - destruct (bn_listens bn) eqn:Hl; [eexists; right; by apply moves_shutdown|].
    destruct (pr_worker P) eqn:Hw; try (apply worker_goes; [done|done|by rewrite Hw]). eexists. right. by apply moves_ran.
  - eexists. right. by apply moves_deadline.
Qed.

Lemma gone_stays bn P P' : proc_ok P -> pr_main P = Over -> ~ lives bn P P'.
Proof.
  intros [Hr _] Hm. destruct (Hr Hm) as (Hl & Hw & Hq & _). intros [[(s & s' & H)|H]|H]; destruct H; try congruence;
    match goal with H : pr_requests _ !! _ = Some _ |- _ => rewrite Hq, lookup_empty in H; discriminate end.
Qed.

(** From [Shutdown] on nothing happens to it any more. *)
Lemma shutting_ends bn P :
  proc_ok P -> pr_main P = ShuttingDown \/ pr_main P = Over -> Acc (flip (lives bn)) P.
Proof.
  intros Hok Hm. induction (winds_down_wf bn P) as [P _ IH]. constructor. intros P' Hl. unfold flip in Hl.
  destruct Hm as [Hm|Hm]; [|by destruct (gone_stays bn P P' Hok Hm)]. pose proof Hok as [_ Hs]. destruct (Hs Hm) as [Hd Hli].
  pose proof (lives_ok _ _ _ Hl Hok) as Hok'. destruct Hl as [Hp|Hx]; [|destruct Hx; congruence]. apply IH; [by split|done|].
  destruct Hp as [(s & s' & H)|H]; destruct H; cbn in *; try congruence; auto.
Qed.

(** C13: (Shutdown terminates.) Whatever a process has been through - a start it is still in, a
    worker in the middle of a job, requests being answered, a listener that failed -
    once its signal context is done: of its own steps it takes only finitely many more,
    however the other processes change the database and the hosts in between; with any
    number of requests still arriving before [Shutdown] closes the listener, and the
    listener failing, all that can happen to it is finite too; from [Shutdown] on it accepts no
    request, and every run ends; and it can stop nowhere but at the end of [main], with
    the listener closed, the worker loop and every request over and the connection pool
    closed. *)
Theorem shutdown_terminates bn b P (s : S) :
  rtc (lives bn) (boot bn b) P -> pr_done P = true ->
  Acc (winds_down bn) P
  /\ (forall n, Acc (paid bn) (n, P))
  /\ forall P', rtc (lives bn) P P' ->
       pr_done P' = true
       /\ (pr_main P' = ShuttingDown -> (forall P'', ~ meets bn P' P'') /\ Acc (flip (lives bn)) P')
       /\ ((forall P'', ~ proceeds bn P' P'') <-> pr_main P' = Over)
       /\ (pr_main P' = Over -> gone P' /\ forall P'', ~ lives bn P' P'').
Proof.
  intros Hl Hd. split; [apply winds_down_wf|]. split; [intros n; apply paid_wf|].
  intros P' Hl'. pose proof (boot_lasting bn b P' ltac:(by etrans)) as Hok.
  assert (Hd' : pr_done P' = true).
  { clear Hl Hok. induction Hl' as [|P1 P2 P3 Hs _ IH]; [done|]. apply IH. clear IH. revert Hd.
    destruct Hs as [[(s1 & s2 & H)|H]|H]; destruct H; cbn; congruence. }
  split_and!; [done| | |].
  - intros Hm. split; [|apply shutting_ends; auto]. intros P'' H. destruct Hok as [_ Hs]. destruct (Hs Hm) as [_ Hli]. destruct H; congruence.
  - split; [|intros Hm P'' H; by eapply gone_stays; [|exact Hm|left]].
    intros Hst. destruct (pr_main P') eqn:Hm; [..|done];
      (destruct (down_goes bn P' s Hd') as [P'' H]; [by rewrite Hm|]; by destruct (Hst P'')).
  - intros Hm. split; [by apply Hok|]. intros P''. by apply gone_stays.
Qed.

(** A process that runs has been started and lived. *)
Lemma deploy_lives binaries c c' :
  rtc (deploy binaries) c c' ->
  (forall p P, fst c !! p = Some P -> exists b, bn_boot (binaries p) b /\ rtc (lives (binaries p)) (boot (binaries p) b) P) ->
  forall p P, fst c' !! p = Some P -> exists b, bn_boot (binaries p) b /\ rtc (lives (binaries p)) (boot (binaries p) b) P.
Proof.
  intros H. induction H as [c|c1 c2 c3 Hs _ IH]; [done|]. intros H1. apply IH. clear IH c3.
  assert (Hstep : forall p P P', fst c1 !! p = Some P -> lives (binaries p) P P' ->
    forall p2 P2, <[p := P']> (fst c1) !! p2 = Some P2 -> exists b, bn_boot (binaries p2) b /\ rtc (lives (binaries p2)) (boot (binaries p2) b) P2).
  { intros p P P' Hl Hlive p2 P2 [[<- <-]|[_ Hl2]]%lookup_insert_Some; [|by apply H1].
    destruct (H1 p P Hl) as (b & Hb & Hr). exists b. split; [done|]. by eapply rtc_r. }
  destruct Hs as [ps p P P' s s' Hl Ha|ps p P P' s Hl Hm|ps p P P' s Hl Hm|ps p s|ps p b s Hl Hb]; cbn [fst] in *.
  - apply (Hstep p P P' Hl). left. left. by exists s, s'.
  - apply (Hstep p P P' Hl). left. by right.
  - apply (Hstep p P P' Hl). by right.
  - intros p2 P2 [_ Hl]%lookup_delete_Some. by apply H1.
  - intros p2 P2 [[<- <-]|[_ Hl2]]%lookup_insert_Some; [|by apply H1]. by exists b.
Qed.

(** ** Threads of deployments *)

Definition forget {A} (p : thread A) : thread unit := _ ← p; mret tt.

Definition thread_at (P : Proc) (pl : place) : option (thread unit) :=
  match pl with
  | AtMain => match pr_main P with Starting p => Some (forget p) | _ => None end
  | AtWorker => match pr_worker P with
                | Reconciling p => Some (forget p)
                | Turning p => Some (forget p)
                | _ => None
                end
  | AtRequest i => pr_requests P !! i
  end.

(** The threads a program may start. *)
Inductive begins (bn : Binary) : place -> thread unit -> Prop :=
| begins_boot b : bn_boot bn b -> begins bn AtMain (forget b)
| begins_reconcile r turn : bn_worker bn = Some (Some r, turn) -> begins bn AtWorker (forget r)
| begins_turn r turn : bn_worker bn = Some (r, turn) -> begins bn AtWorker (forget turn)
| begins_request i p : bn_request bn p -> begins bn (AtRequest i) p.

Lemma acts_thread P s P' s' :
  acts P s P' s' ->
  exists pl e X (m : Env -> S -> X * S) k x,
    thread_at P pl = Some (Act m k) /\ m e s = (x, s') /\ thread_at P' pl = Some (k x)
    /\ forall pl', pl' <> pl -> thread_at P' pl' = thread_at P pl'.
Proof.
  intros []; [exists AtMain|exists AtWorker|exists AtWorker|exists (AtRequest i)]; do 5 eexists;
    (split; [cbn; by rewrite H|]); (split; [done|]); cbn.
  1-3: split; [done|]; by intros [].
  split; [by rewrite lookup_insert_eq|]. intros [| |j] Hne; [done..|]. apply lookup_insert_ne. congruence.
Qed.

(** Other proceeds run no action: their threads were there, or start. *)
Lemma moves_thread bn P P' pl q :
  moves bn P P' \/ meets bn P P' -> thread_at P' pl = Some q -> thread_at P pl = Some q \/ begins bn pl q.
Proof.
  intros [H|H]; destruct H; destruct pl; cbn; try (by left);
    try discriminate; try (rewrite lookup_empty; discriminate).
  - unfold first_loop. destruct (bn_worker bn) as [[[r|] turn]|] eqn:Hw; try discriminate. intros [= <-]. right. by eapply begins_reconcile.
  - intros [= <-]. right. by eapply begins_turn.
  - intros [_ Hq]%lookup_delete_Some. by left.
  - intros [[<- <-]|[_ Hq]]%lookup_insert_Some; [right; by constructor|by left].
Qed.

Section deployments.
(** Each goroutine of each process is one thread of a system as in [Interleave]. *)
Context {K : Type} (kind : nat -> K) (I : S -> Prop) (G : K -> S -> S -> Prop).
Context (tid : nat -> place -> nat) (tid_inj : forall p pl p' pl', tid p pl = tid p' pl' -> p = p' /\ pl = pl').

Definition deploy_ok (c : gmap nat Proc * S) : Prop :=
  I (snd c)
  /\ forall p P pl q, fst c !! p = Some P -> thread_at P pl = Some q -> thread_ok kind I G (snd c) (tid p pl) q.

Lemma deploy_ok_start ps s p P :
  (forall pl q, thread_at P pl = Some q -> thread_ok kind I G s (tid p pl) q) ->
  deploy_ok (ps, s) -> deploy_ok (<[p := P]> ps, s).
Proof.
  intros HP [Hi Ht]. split; [done|]. cbn [fst snd] in *. intros p' P' pl q [[<- <-]|[_ Hl]]%lookup_insert_Some; [by apply HP|by eapply Ht].
Qed.

(** Processes whose threads keep their triples keep the invariant together, through
    every start, signal, crash and kill. *)
Lemma deploy_sound binaries c c' :
  (forall p pl q, begins (binaries p) pl q -> exists Q, rg kind I G (tid p pl) q (fun _ => True) Q) ->
  rtc (deploy binaries) c c' -> deploy_ok c -> deploy_ok c'.
Proof.
  intros Hb H. induction H as [c|c1 c2 c3 Hs _ IH]; [done|]. intros Hok. apply IH. clear IH c3.
  assert (Hbegin : forall s p pl q, begins (binaries p) pl q -> thread_ok kind I G s (tid p pl) q).
  { intros s p pl q Hq. destruct (Hb _ _ _ Hq) as [Q HQ]. exists (fun _ => True), Q. by split_and!. }
  assert (Hstep : forall ps s p P P', ps !! p = Some P -> moves (binaries p) P P' \/ meets (binaries p) P P' ->
                    deploy_ok (ps, s) -> deploy_ok (<[p := P']> ps, s)).
  { intros ps s p P P' Hl Hm Hps. apply deploy_ok_start; [|done]. intros pl q Hq.
    destruct (moves_thread _ _ _ _ _ Hm Hq) as [Hq'|Hq']; [by eapply (proj2 Hps)|by apply Hbegin]. }
  destruct Hs as [ps p P P' s s' Hl Ha|ps p P P' s Hl Hm|ps p P P' s Hl Hm|ps p s|ps p b s Hl Hbt].
  - destruct (acts_thread _ _ _ _ Ha) as (pl & e & X & m & k & x & Hq & Hm & Hq' & Hother). destruct Hok as [Hi Ht].
    destruct (Ht _ _ _ _ Hl Hq) as (Pq & Q & HP & Hst & P1 & Hact & Hst1 & Hk).
    destruct (Hact e s x s' Hi HP Hm) as (Hi' & Hg & HP1). split; [done|]. cbn [fst snd] in *. intros p2 P2 pl2 q2 Hl2 Hq2.
    destruct (decide (tid p2 pl2 = tid p pl)) as [[-> ->]%tid_inj|Hne].
    + rewrite lookup_insert_eq in Hl2. injection Hl2 as <-. rewrite Hq' in Hq2. injection Hq2 as <-. by exists (P1 x), Q.
    + assert (thread_ok kind I G s (tid p2 pl2) q2) as (P2' & Q2 & HP2 & Hst2 & Hrg2).
      { apply lookup_insert_Some in Hl2 as [[<- <-]|[_ Hl2]]; [|by eapply Ht]. eapply Ht; [done|]. rewrite <- Hother; [done|congruence]. }
      exists P2', Q2. split_and!; [|done..]. apply (Hst2 s s' Hi Hi'); [|done]. exists (tid p pl). split; [congruence|done].
  - apply (Hstep _ _ _ P); [done|by left|done].
  - apply (Hstep _ _ _ P); [done|by right|done].
  - destruct Hok as [Hi Ht]. split; [done|]. cbn [fst snd] in *. intros p2 P2 pl q [_ Hl]%lookup_delete_Some. by eapply Ht.
  - apply deploy_ok_start; [|done]. intros [| |i] q Hq; cbn in Hq; [injection Hq as <-; apply Hbegin; by constructor|discriminate|]. by rewrite lookup_empty in Hq.
Qed.
End deployments.
End lifecycle.
Arguments mkBinary {S}.
