(* ===== verification/Lives.v ===== *)
(** * Lives: the binaries as processes over one database

    The programs of [cmd/] as the processes of [Lifecycle] - the startup reconciliation
    and the seeding as threads, the requests a server runs - and what holds through
    every start, signal, failed listener and kill of any number of them. *)

From S2P Require Import Prelude GoStrings Sorting Errors Effects Files Interleave Profile Netip Ipam Crypto Auth Render Executor NodeAgent FakeExecutor Store StoreFacts Bootstrap BootstrapFacts Service ServiceFacts Startup Worker WorkerFacts System Concurrent Drained Reconcile Lifecycle.

Section binaries.
Context {W : Type} {EX : Executor W}.
Context (uuid_Parse : bytes -> option uuid) (uuid_String : uuid -> bytes) (Quote prefix_error : bytes -> bytes).
Context (hash_create : CreatePeerRequest -> bytes -> bytes) (hash_revoke : uuid -> uuid -> bytes -> bytes).
Context (reason_json : bytes -> bytes) (X25519 : list Z -> result bytes (list Z)).

Abbreviation Shared := (Store * W)%type.
Abbreviation thread := (prog Shared (context * Z)).

(** ** Threads *)

(** [fmt.Errorf(pre + "%w", err)] around a call. *)
Definition wrapped {A} (pre : bytes) (p : thread (result error A)) : thread (result error A) :=
  r ← p; mret match r with Ok a => Ok a | Err e => Err (EWrap pre e []) end.

(** [RunIfEmpty]; [conf] is how writing the bootstrap config goes, from what it says. *)
Definition seed_thread (dr : SeedDraws) (d : Defaults) (conf : Prefix -> bytes -> ProtocolProfile -> result error unit)
    : thread (result error unit) :=
  if negb (d_Enabled d) then mret (Ok tt)
  else if bool_decide (d_BootstrapConfDir d = []) then
    mret (Err (EMsg #"BOOTSTRAP_CONF_DIR is required when BOOTSTRAP_ENABLED=true"))
  else
    match parseCIDR Quote prefix_error (d_PoolCIDR d) with
    | Err e => mret (Err e)
    | Ok poolCIDR =>
        try (db (fun _ => asks st_tenants)) (fun tenants =>
        if negb (bool_decide (length tenants = O)) then mret (Ok tt)
        else
          try (wrapped #"bootstrap tenant: " (db (fun _ => Tenants_Upsert (sd_tenant dr) (sd_now dr) (d_TenantSlug d)))) (fun t =>
          try (wrapped #"bootstrap profile: "
                 (db (fun _ => insertProfile (sd_profile dr) (sd_now dr) (default_profile (d_ProfileName d))))) (fun profile =>
          match GenerateKeyPair (sd_key dr) X25519 with
          | Err e => mret (Err (EWrap #"bootstrap keygen: " e []))
          | Ok kp =>
              try (wrapped #"bootstrap node: " (db (fun _ => insertNode (sd_node dr) (sd_now dr)
                     (mkNode uuid_Nil (Some (pp_ID profile)) (d_NodeRegion d) (d_NodeHostname d) []
                        (endpointWithPort (d_NodeEndpoint d) (d_NodeBasePort d)) (d_NodeBasePort d) None
                        (d_NodeIface d) (kp_PublicKey kp) 0)))) (fun node =>
              try (wrapped #"bootstrap pool: " (db (fun _ => createPool (sd_pool dr) (t_ID t) (n_ID node) poolCIDR))) (fun _ =>
              wrapped #"bootstrap conf: " (mret (conf poolCIDR (kp_PrivateKey kp) profile))))
          end)))
    end.

(** [ProvisionV31Node]; [fs] is what the files are when the transaction runs. *)
Definition provision_thread `{FileEnv} (dr : SeedDraws) (commit : result error unit) (opts : V31NodeOptions) (fs : FS)
    : thread (result error V31NodeResult) :=
  let o := normalizeV31NodeOptions opts in
  try (mret (validateV31NodeOptions Quote o)) (fun _ =>
  try (mret (parseCIDR Quote prefix_error (vo_PoolCIDR o))) (fun poolCIDR =>
  try (wrapped (#"tenant " ++ Quote (vo_TenantSlug o) ++ #": ") (db (fun _ => Tenants_GetBySlug (TrimSpace (vo_TenantSlug o))))) (fun tenant =>
  try (wrapped #"generate header-protection key: " (mret (GeneratePresharedKey (sd_psk dr)))) (fun headerProtectionKey =>
  try (wrapped #"generate server keypair: " (mret (GenerateKeyPair (sd_key dr) X25519))) (fun serverKP =>
  let profile := defaultV31Profile (TrimSpace (vo_ProfileName o)) headerProtectionKey in
  try (mret match Validate profile with
            | [] => Ok tt
            | errs => Err (EWrap #"generated v3.1 profile invalid: " (EValidation errs) [])
            end) (fun _ =>
  try (mret (serverAddressFromPool poolCIDR)) (fun address =>
  let hooks := natHooks poolCIDR (vo_NodeIface o) (vo_EgressIface o) (vo_EnableNAT o) in
  let config := Server (bootstrap_interface (kp_PrivateKey serverKP) address (vo_NodeBasePort o) hooks) profile [] in
  let configPath := path_Join (vo_BootstrapConfDir o) (vo_NodeIface o ++ #".conf") in
  db (fun _ s => let '(r, (_, s')) := provision_commit dr commit o poolCIDR tenant serverKP profile configPath config (fs, s) in
                 (r, s'))))))))).

(** The requests of the API, by the calls of the service they make. *)
Inductive api_request (sv : Service) : thread unit -> Prop :=
| request_create dr who slug key req :
    api_request sv (forget (create_thread uuid_Parse uuid_String hash_create X25519 sv dr who slug key req))
| request_revoke dr who slug pid key reason :
    api_request sv (forget (revoke_thread uuid_Parse uuid_String hash_revoke reason_json sv dr who slug pid key reason))
| request_operation who id : api_request sv (forget (db (fun _ => GetOperation uuid_Parse who id)))
| request_peer who slug id : api_request sv (forget (db (fun _ => GetPeer uuid_Parse who slug id)))
| request_configuration who slug id : api_request sv (forget (db (fun _ => PeerConfiguration uuid_Parse sv who slug id)))
| request_ready : api_request sv (forget (db (fun _ => mret tt : SE Store unit))).

(** ** Binaries *)

Definition worker_threads (wk : Worker) (reconcile : bool)
    : option (thread (result error unit)) * thread (result error bool) :=
  (if reconcile then Some (reconcile_thread uuid_String Quote wk) else None, turn_thread uuid_String Quote wk).

(** The start of [awg-api] on an upgraded database: it seeds; what comes before and after
    may fail. *)
Inductive api_boot : thread (result error unit) -> Prop :=
| boot_seeding before dr d conf later :
    api_boot (try (mret before) (fun _ : unit => try (seed_thread dr d conf) (fun _ => mret later))).

(** [awg-api] *)
Definition awg_api (sv : Service) (worker : option (Worker * bool)) : Binary :=
  mkBinary true true api_boot
    ((fun '(wk, reconcile) => worker_threads wk reconcile) <$> worker) (api_request sv).

(** [awg-worker]: it does its work in [main]. *)
Definition awg_worker (wk : Worker) (reconcile : bool) : Binary :=
  mkBinary false true (fun b => exists r, b = mret r) (Some (worker_threads wk reconcile)) (fun _ => False).

(** What a program that serves, or works, runs as; its executor is the section's. *)
Definition binary_of (out : Ended) : option Binary :=
  match out with
  | Serving built worker => Some (awg_api (bt_Service built) ((fun '(wk, reconcile, _) => (wk, reconcile)) <$> worker))
  | Working wk reconcile _ => Some (awg_worker wk reconcile)
  | _ => None
  end.

(** [awg-node-agent]: no database, no worker; its requests act on the host. *)
Definition awg_node_agent (serve : Request -> W -> Response * W) : Binary (S := W) :=
  mkBinary true false (fun b => exists r, b = mret r) None (fun q => exists rq, q = act (fun _ w => (tt, snd (serve rq w)))).

(** [awg-api -provision-v31-node], which ends when it has done that.  It does not listen
    to signals - one kills it - but has thirty seconds: that the context of [main] is done
    means here that they have passed. *)
Definition timed_out (e : context * Z) : context * Z :=
  (match fst e with Some _ => Some (ESentinel ErrDeadlineExceeded) | None => None end, snd e).

Inductive provision_boot : thread (result error unit) -> Prop :=
| boot_provisioning (env : FileEnv) before dr commit opts fs printed :
    provision_boot (try (mret before) (fun _ : unit => try (relabel timed_out (provision_thread dr commit opts fs)) (fun _ => mret printed))).

Definition awg_provision : Binary := mkBinary false true provision_boot None (fun _ => False).

Inductive control_plane : Binary -> Prop :=
| control_provision : control_plane awg_provision
| control_api sv worker : control_plane (awg_api sv worker)
| control_worker wk reconcile : control_plane (awg_worker wk reconcile).

Lemma binary_of_control out bn : binary_of out = Some bn -> control_plane bn.
Proof. destruct out; intros [= <-]; constructor. Qed.

(** ** Run alone, the threads are the sequential operations *)

Lemma run_wrapped {A} ctx now pre (p : thread (result error A)) st :
  run (ctx, now) (wrapped pre p) st
  = let '(r, st') := run (ctx, now) p st in (match r with Ok a => Ok a | Err e => Err (EWrap pre e []) end, st').
Proof. unfold wrapped. rewrite run_bind. by destruct (run _ p st). Qed.

(** A statement of the seeding, on both sides. *)
Lemma run_seeding {A B} pre (m : SE Store A) (k : A -> thread (result error B)) (f : A -> SE (FS * Store) B) now fs s w :
  (forall a s', run (None, now) (k a) (s', w) = let '(r, (_, s2)) := f a (fs, s') in (r, (s2, w))) ->
  run (None, now) (try (wrapped pre (db (fun _ => m))) k) (s, w)
  = let '(r, (_, s2)) := (x ← wrapping pre (on_store m); f x) (fs, s) in (r, (s2, w)).
Proof.
  intros Hk. rewrite run_try, run_wrapped, run_db. unfold mbind, SE_bind, wrapping, on_store, on_db.
  destruct (m s) as [[a|e] s']; [apply Hk|done].
Qed.

Lemma run_seed `{FileEnv} dr d now fs s w :
  run (None, now) (seed_thread dr d (fun cidr priv p => fst (writeBootstrapConf Quote d cidr priv p fs))) (s, w)
  = let '(r, (_, s')) := RunIfEmpty Quote prefix_error X25519 dr d (fs, s) in (r, (s', w)).
Proof.
  unfold RunIfEmpty, seed_thread. destruct (negb (d_Enabled d)); [done|]. destruct (bool_decide (d_BootstrapConfDir d = [])); [done|].
  destruct (parseCIDR _ _ _) as [cidr|e]; [|done]. erewrite (bind_ok (of_result (Ok cidr))) by reflexivity.
  rewrite asks_bind, run_try, run_db. cbn [snd on_db asks]. destruct (negb _); [done|].
  apply run_seeding. intros t s1. apply run_seeding. intros p s2.
  destruct (GenerateKeyPair _ _) as [kp|e]; [|done]. erewrite (bind_ok (wrapping _ (of_result (Ok kp)))) by reflexivity.
  apply run_seeding. intros n s3. apply run_seeding. intros pool s4. rewrite run_wrapped. cbn.
  unfold wrapping, on_files. by destruct (writeBootstrapConf _ _ _ _ _ fs) as [[[]|e] fs'].
Qed.

(** What is computed from the arguments alone, on both sides. *)
Lemma run_pure {A B} (x : result error A) (k : A -> thread (result error B)) (f : A -> SE (FS * Store) B) now fs s w :
  (forall a, run (None, now) (k a) (s, w) = let '(r, (_, s2)) := f a (fs, s) in (r, (s2, w))) ->
  run (None, now) (try (mret x) k) (s, w) = let '(r, (_, s2)) := (a ← of_result x; f a) (fs, s) in (r, (s2, w)).
Proof. intros Hk. rewrite run_try. destruct x as [a|e]; [apply Hk|done]. Qed.

Lemma run_wrapped_pure {A B} pre (x : result error A) (k : A -> thread (result error B)) (f : A -> SE (FS * Store) B) now fs s w :
  (forall a, run (None, now) (k a) (s, w) = let '(r, (_, s2)) := f a (fs, s) in (r, (s2, w))) ->
  run (None, now) (try (wrapped pre (mret x)) k) (s, w)
  = let '(r, (_, s2)) := (a ← wrapping pre (of_result x); f a) (fs, s) in (r, (s2, w)).
Proof. intros Hk. rewrite run_try, run_wrapped. destruct x as [a|e]; [apply Hk|done]. Qed.

Lemma run_provision `{FileEnv} dr commit opts now fs s w :
  run (None, now) (provision_thread dr commit opts fs) (s, w)
  = let '(r, (_, s')) := ProvisionV31Node Quote prefix_error X25519 dr commit opts (fs, s) in (r, (s', w)).
Proof.
  unfold provision_thread, ProvisionV31Node. apply run_pure. intros _. apply run_pure. intros cidr.
  apply run_seeding. intros tenant s1. apply run_wrapped_pure. intros hk. apply run_wrapped_pure. intros kp. cbv zeta.
  destruct (Validate _) as [|v errs]; [|done]. apply (run_pure (Ok tt)). intros _. apply run_pure. intros address. rewrite run_db.
  unfold on_db. by destruct (provision_commit _ _ _ _ _ _ _ _ _ _) as [r [fs' s']].
Qed.

(** ** Triples *)

Section clients.
Context (kind : nat -> role) (I : Shared -> Prop).
Context (I_ok : forall st, I st -> store_ok (fst st)).
Context (I_client : forall s w s', I (s, w) -> store_ok s' -> guarantee RClient (s, w) (s', w) -> I (s', w)).
Local Abbreviation free i p := (rg kind I guarantee i p (fun _ => True) (fun _ _ => True)).

Lemma free_catalog {A} i (m : Z -> SE Store A) now : kind i = RClient -> catalog_call A m -> free i (db (fun _ => m now)).
Proof. intros Hk Hc. apply rg_client_db; [done|done|done|]. intros _. by apply client_catalog. Qed.

Lemma free_read {A} i (m : SE Store A) : kind i = RClient -> pure m -> free i (db (fun _ => m)).
Proof. intros Hk Hm. apply rg_client_db; [done..|]. intros _. by apply client_pure. Qed.

Lemma free_wrapped {A} i pre (p : thread (result error A)) : free i p -> free i (wrapped pre p).
Proof. intros Hp. eapply rg_bind; [exact Hp|]. intros r. by apply rg_ret. Qed.

Lemma free_try {A B} i (p : thread (result error A)) (k : A -> thread (result error B)) :
  free i p -> (forall a, free i (k a)) -> free i (try p k).
Proof. intros Hp Hk. eapply rg_try; [exact Hp|exact Hk|done]. Qed.

Lemma free_seed i dr d conf : kind i = RClient -> free i (seed_thread dr d conf).
Proof.
  intros Hk. unfold seed_thread. destruct (negb _); [by apply rg_ret|]. destruct (bool_decide _); [by apply rg_ret|].
  destruct (parseCIDR _ _ _) as [cidr|e] eqn:Hc; [|by apply rg_ret].
  apply parseCIDR_ok in Hc. apply free_try; [apply free_read; [done|apply pure_asks]|]. intros tenants. destruct (negb _); [by apply rg_ret|].
  apply free_try; [apply free_wrapped, (free_catalog _ _ (sd_now dr) Hk (call_tenant (sd_tenant dr) (d_TenantSlug d)))|]. intros t.
  apply free_try; [apply free_wrapped, (free_catalog _ _ (sd_now dr) Hk (call_profile (sd_profile dr) (default_profile (d_ProfileName d))))|].
  intros p. destruct (GenerateKeyPair _ _) as [kp|e]; [|by apply rg_ret].
  apply free_try; [apply free_wrapped, (free_catalog _ _ (sd_now dr) Hk (call_node (sd_node dr) _))|]. intros n.
  apply free_try; [apply free_wrapped, (free_catalog _ _ (sd_now dr) Hk (call_pool (sd_pool dr) _ _ _ Hc))|]. intros pool.
  apply free_wrapped. by apply rg_ret.
Qed.

Lemma client_provision `{FileEnv} dr commit o cidr tenant kp profile path config fs :
  prefix_ok cidr ->
  client_action (fun s : Store => let '(r, (_, s')) := provision_commit dr commit o cidr tenant kp profile path config (fs, s) in (r, s')).
Proof.
  intros Hc s Hs. pose proof (provision_commit_store dr commit o cidr tenant kp profile path config fs s) as Hst. cbv zeta in Hst.
  destruct (provision_commit _ _ _ _ _ _ _ _ _ _) as [r [fs' s']]. cbn [snd] in *.
  destruct Hst as [->|[-> Hok]]; [split_and!; [done|apply evolves_refl|by apply asks_for_same]|].
  split; [by apply Hok|]. split; [|by apply asks_for_same]. split; cbn; [apply updated_refl, same_peer_refl|apply updated_app, same_node_refl|by eexists].
Qed.

(** What is computed from the arguments alone. *)
Lemma free_computed {A B} i (x : result error A) (k : A -> thread (result error B)) :
  (forall a, x = Ok a -> free i (k a)) -> free i (try (mret x) k).
Proof. intros Hk. destruct x as [a|e]; [by apply Hk|]. by apply (rg_ret _ _ _ i (Err e)). Qed.

Lemma free_provision `{FileEnv} i dr commit opts fs : kind i = RClient -> free i (provision_thread dr commit opts fs).
Proof.
  intros Hk. unfold provision_thread. apply free_computed. intros _ _. apply free_computed. intros cidr Hc%parseCIDR_ok.
  apply free_try; [apply free_wrapped, free_read; [done|apply reads_GetBySlug]|]. intros tenant.
  apply free_try; [by apply free_wrapped, rg_ret|]. intros hk. apply free_try; [by apply free_wrapped, rg_ret|]. intros kp.
  apply free_computed. intros _ _. apply free_computed. intros address _.
  apply rg_client_db; [done..|]. intros _. by apply client_provision.
Qed.

Lemma pure_GetPeer who slug id : pure (GetPeer uuid_Parse who slug id).
Proof.
  apply pure_bind; [apply reads_GetBySlug|]. intros t. apply pure_bind; [auto with awg|]. intros _.
  destruct (uuid_Parse id); [|auto with awg]. apply pure_bind; [apply pure_bind; auto with awg|]. intros p. destruct (negb _); auto with awg.
Qed.

Lemma pure_GetOperation who id : pure (GetOperation uuid_Parse who id).
Proof.
  unfold GetOperation. destruct (uuid_Parse id); [|auto with awg]. apply pure_bind; [apply pure_bind; auto with awg|]. intros op.
  apply pure_bind; auto with awg.
Qed.

Lemma pure_PeerConfiguration sv who slug id : pure (PeerConfiguration uuid_Parse sv who slug id).
Proof.
  apply pure_bind; [apply pure_GetPeer|]. intros peer. apply pure_bind; [apply reads_Nodes_GetByID|]. intros node.
  destruct (n_ProfileID node); [|auto with awg]. apply pure_bind; [apply reads_Profiles_GetByID|]. auto with awg.
Qed.

Lemma free_forget {A} i (p : thread A) : free i p -> free i (forget p).
Proof. intros Hp. eapply rg_bind; [exact Hp|done]. Qed.

Lemma free_request i sv p : kind i = RClient -> api_request sv p -> free i p.
Proof.
  intros Hk [].
  1,2: apply (rg_client uuid_Parse uuid_String Quote hash_create hash_revoke reason_json X25519 sv (mkWorker [] 0)); [exact I_ok|exact I_client|done|constructor].
  all: apply free_forget, free_read; [done|].
  - apply pure_GetOperation.
  - apply pure_GetPeer.
  - apply pure_PeerConfiguration.
  - apply pure_ret.
Qed.

Lemma free_boot i bn b : kind i = RClient -> control_plane bn -> bn_boot bn b -> free i b.
Proof.
  intros Hk [|sv worker|wk reconcile]; cbn.
  - intros [env before dr commit opts fs printed]. apply free_computed. intros _ _.
    apply free_try; [by apply rg_relabel, free_provision|]. intros _. by apply rg_ret.
  - intros [before dr d conf later]. apply free_computed. intros _ _. apply free_try; [by apply free_seed|]. intros _. by apply rg_ret.
  - intros [r ->]. by apply rg_ret.
Qed.

(** What a process starts beside its worker. *)
Lemma free_begins i bn pl q :
  kind i = RClient -> control_plane bn -> pl <> AtWorker -> begins bn pl q -> free i q.
Proof.
  intros Hk Hc Hpl H. destruct H as [b Hb|r turn H|r turn H|j p Hp]; [|by destruct Hpl|by destruct Hpl|].
  - by eapply free_forget, free_boot.
  - destruct Hc; [destruct Hp|exact (free_request _ _ _ Hk Hp)|destruct Hp].
Qed.
End clients.

Section workers.
Context (kind : nat -> role) (i : nat) (Hi : kind i = RWorker).
Local Abbreviation free p := (rg kind (fun st : Shared => store_ok (fst st)) guarantee i p (fun _ => True) (fun _ _ => True)).

Lemma free_worker bn q : control_plane bn -> begins bn AtWorker q -> free q.
Proof.
  intros Hc H. assert (exists wk reconcile, bn_worker bn = Some (worker_threads wk reconcile) \/ bn_worker bn = None) as (wk & reconcile & Hw).
  { destruct Hc as [|sv [[wk reconcile]|]|wk reconcile]; try (exists wk, reconcile; by left); exists (mkWorker [] 0), false; by right. }
  remember AtWorker as pl eqn:Epl. destruct H as [|r turn H|r turn H|]; try discriminate; destruct Hw as [Hw|Hw]; rewrite Hw in H; try discriminate.
  - destruct reconcile; [|discriminate]. injection H as <- _. eapply rg_bind; [by apply rg_reconcile_many|done].
  - injection H as _ <-. by apply rg_worker_many.
Qed.
End workers.

(** ** Deployments *)

(** Numbers for the goroutines of all processes. *)
Definition place_code (pl : place) : nat :=
  match pl with AtWorker => 0%nat | AtMain => 1%nat | AtRequest i => Datatypes.S (Datatypes.S i) end.
Definition thread_id (p : nat) (pl : place) : nat := encode_nat (p, place_code pl).
Definition kind_of (n : nat) : role :=
  match decode_nat n : option (nat * nat) with Some (_, O) => RWorker | _ => RClient end.

(** The same when only the process [q] has a worker. *)
Definition single_id (q p : nat) (pl : place) : nat :=
  if decide (p = q /\ pl = AtWorker) then 0%nat else Datatypes.S (thread_id p pl).

Lemma thread_id_inj p pl p' pl' : thread_id p pl = thread_id p' pl' -> p = p' /\ pl = pl'.
Proof.
  intros [= -> H]%(inj encode_nat). split; [done|]. destruct pl, pl'; cbn in H; congruence.
Qed.

Lemma single_id_inj q p pl p' pl' : single_id q p pl = single_id q p' pl' -> p = p' /\ pl = pl'.
Proof.
  unfold single_id. destruct (decide _) as [[-> ->]|], (decide _) as [[-> ->]|]; try done.
  intros [= H]. by apply thread_id_inj.
Qed.

Lemma kind_of_thread p pl : kind_of (thread_id p pl) = match pl with AtWorker => RWorker | _ => RClient end.
Proof. unfold kind_of, thread_id. rewrite decode_encode_nat. by destruct pl. Qed.

Lemma one_worker_single q p pl : ~ (p = q /\ pl = AtWorker) -> one_worker (single_id q p pl) = RClient.
Proof. intros H. unfold single_id. by rewrite decide_False. Qed.

Lemma deploy_ok_nothing {K} (kind : nat -> K) (I : Shared -> Prop) G tid st : I st -> deploy_ok kind I G tid (∅, st).
Proof. intros Hi. split; [done|]. intros p P pl q H. cbn [fst] in H. by rewrite lookup_empty in H. Qed.

(** C12: (The database through starts and stops.) Any number of [awg-api], [awg-worker]
    and provisioning processes run over one database and one host, from an empty
    database: they start, and the API seeds it; they provision nodes; they run requests, startup reconciliations and worker turns,
    interleaved between their statements and executor calls; they get signals, lose
    their listener, shut down, are killed in the middle of anything and are started
    again.  At every moment the database satisfies its invariant. *)
Theorem deployments_keep_store binaries (w0 : W) c :
  (forall p, control_plane (binaries p)) -> rtc (deploy binaries) (∅, (empty_store, w0)) c -> store_ok (fst (snd c)).
Proof.
  intros Hb H. eapply (deploy_sound kind_of (fun st => store_ok (fst st)) guarantee thread_id thread_id_inj) in H as [Hi _]; [done| |].
  - intros p pl q Hq. exists (fun _ _ => True). pose proof (kind_of_thread p pl) as Hk. destruct (decide (pl = AtWorker)) as [->|Hne].
    + by apply (free_worker _ _ Hk (binaries p)).
    + eapply free_begins; [done| |by destruct pl|apply Hb|done|done]. by intros s w s' _ Hs _.
  - apply deploy_ok_nothing, empty_store_ok.
Qed.

Context {RV : RuntimeView W}.

(** C11: (Drained means consistent, through restarts.) When one process - however often it is
    started again - has the worker, then through every start, signal, failed listener,
    shutdown and kill of the API, worker and provisioning processes, at every moment at
    which the stored texts fit their config lines and no two nodes share an interface
    name: a node with peers whose jobs have all been applied has exactly the keys of its peers that are not
    revoked on its interface.  If the worker reconciles at startup, which has no job to
    be tried again, this takes a host on which a failed [SyncConf] leaves the peers of
    the interface and whose bootstrap configs have none. *)
Theorem deployments_drained binaries q wk reconcile (w0 : W) ps s w nodeID :
  (forall p, control_plane (binaries p)) ->
  (forall p, bn_worker (binaries p) = if decide (p = q) then Some (worker_threads wk reconcile) else None) ->
  (reconcile = true -> careful_host wk) ->
  rtc (deploy binaries) (∅, (empty_store, w0)) (ps, (s, w)) ->
  well_named s -> peers_of nodeID s <> [] ->
  Forall (fun r => row_node r = nodeID -> ob_Status r = JobApplied) (st_outbox s) ->
  in_sync nodeID s w.
Proof.
  intros Hb Hw Hc H Hwn Hne Hall.
  eapply (deploy_sound one_worker drained_ok guarantee (single_id q) (single_id_inj q)) in H as [[_ Hd] _].
  - destruct (Hd Hwn nodeID Hne) as [(r & Hin & Hn & Hst)|Hs]; [|done]. rewrite Forall_forall in Hall. by destruct (Hst (Hall r Hin Hn)).
  - intros p pl t Ht. exists (fun _ _ => True). destruct (decide (pl = AtWorker)) as [->|Hpl].
    + specialize (Hw p). remember AtWorker as pl eqn:Epl.
      destruct Ht as [|r turn Ht|r turn Ht|]; try discriminate; rewrite Ht in Hw; case_decide; try discriminate; subst p;
        unfold single_id; rewrite decide_True by done.
      * destruct reconcile; [|discriminate]. injection Hw as -> _. eapply rg_bind; [by apply rg_reconcile_drained, Hc|done].
      * injection Hw as _ ->. apply rg_turn.
    + eapply free_begins; [|apply drained_client|apply one_worker_single; by intros [_ ?]|apply Hb|done|done]. by intros st [? _].
  - apply deploy_ok_nothing. split; [apply empty_store_ok|]. by intros _ nid Hx.
Qed.
End binaries.

(** ** A concrete run with the in-memory host *)

(** The host brings a missing interface up from a config without peers. *)
#[local] Instance bare_host : Executor FakeExecutor := FakeExecutor_Executor (fun _ => Some []).
#[local] Instance bare_view : RuntimeView FakeExecutor := FakeExecutor_View (fun _ => Some []).

Lemma bootstrap_path_text wk iface : bootstrapConfigPath wk iface <> [].
Proof.
  unfold bootstrapConfigPath, path_Join. set (dir := if bool_decide _ then _ else _). set (file := iface ++ #".conf").
  assert (Hc : forall p, path_Clean p <> []) by (intros p; unfold path_Clean; destruct (HasPrefix p _); [done|by case_bool_decide]).
  assert (Hf : file <> []) by (unfold file; by destruct iface).
  destruct dir, file; done || apply Hc.
Qed.

Lemma bare_host_careful wk : careful_host wk.
Proof.
  split.
  - intros ctx iface cfg w e w'. cbn. unfold fake_SyncConf. destruct ctx; [by intros [= _ <-]|].
    destruct (fe_FailSyncConf w); [by intros [= _ <-]|]. destruct (fe_interfaces w !! iface); [done|by intros [= _ <-]].
  - intros ctx iface w. cbn. unfold fake_InterfaceUp. destruct ctx; [done|]. destruct (fe_FailInterfaceUp w); [done|].
    destruct (fe_interfaces w !! iface) as [ifc|] eqn:H; [done|]. unfold restoreFromBootstrapLocked.
    rewrite bool_decide_eq_false_2 by apply bootstrap_path_text. unfold fake_keys. cbn. by rewrite lookup_insert_eq, H.
Qed.

Local Abbreviation demo_thread := (prog (Store * FakeExecutor) (context * Z)).
Local Abbreviation demo_event := (event (S := Store * FakeExecutor)).

Definition demo_world_seeds : SeedDraws := mkSeed 1 7 2 3 1000 (Ok (demo_bytes 7)) (Ok (demo_bytes 9)).
Definition demo_host : FakeExecutor :=
  Provision #"awg0" #"priv="
    (match GenerateKeyPair (Ok (demo_bytes 7)) demo_X25519 with Ok kp => kp_PublicKey kp | Err _ => [] end) 38823 NewFakeExecutor.

Definition demo_start : demo_thread (result error unit) :=
  try (mret (Ok tt)) (fun _ : unit =>
  try (seed_thread id id demo_X25519 demo_world_seeds demo_seed (fun _ _ _ => Ok tt)) (fun _ => mret (Ok tt))).
Definition demo_create_request : demo_thread unit :=
  forget (create_thread race_uuid_Parse demo_uuid_String demo_hash demo_X25519 demo_service
    (demo_draws 2000 9) (Some demo_admin) #"acme" #"k1" (demo_request #"bob")).

Definition demo_provision : demo_thread (result error unit) :=
  try (mret (Ok tt)) (fun _ : unit =>
  try (relabel timed_out (@provision_thread _ id id demo_X25519 quiet_files demo_draws31 (Ok tt) demo_v31 no_files)) (fun _ => mret (Ok tt))).

(** The worker reconciles and applies; the API has none; a second node is provisioned. *)
Definition demo_binaries (p : nat) : Binary :=
  match p with
  | O => awg_worker demo_uuid_String id demo_worker true
  | 2%nat => awg_provision id id demo_X25519
  | _ => awg_api race_uuid_Parse demo_uuid_String id id demo_hash demo_hash_revoke id demo_X25519 demo_service None
  end.

Definition goes (n p : nat) (pl : place) (now : Z) : list demo_event := replicate n (EvGo p pl (None, now)).

(** The API starts, seeds and takes a create request; the worker claims the job and is
    killed; started again after the lease, it reconciles and applies the job; the API
    gets a signal and shuts down; a node is provisioned. *)
Definition demo_day : list demo_event :=
  [EvStart 1 demo_start] ++ goes 8 1 AtMain 1000 ++ [EvStart 0 (mret (Ok tt))] ++ goes 1 0 AtMain 1000 ++ goes 20 0 AtWorker 1500
  ++ [EvRequest 1 0 demo_create_request] ++ goes 4 1 (AtRequest 0) 2000
  ++ goes 4 0 AtWorker 3000 ++ [EvKill 0; EvStart 0 (mret (Ok tt))] ++ goes 1 0 AtMain 40000000000
  ++ goes 40 0 AtWorker 40000000000 ++ [EvSignal 1] ++ goes 2 1 AtMain 50000000000
  ++ [EvStart 2 demo_provision] ++ goes 4 2 AtMain 60000000000.

Definition demo_end : gmap nat (Proc (S := Store * FakeExecutor)) * (Store * FakeExecutor) :=
  play_events demo_binaries demo_day (∅, (empty_store, demo_host)).

Lemma demo_control p : control_plane race_uuid_Parse demo_uuid_String id id demo_hash demo_hash_revoke id demo_X25519 (demo_binaries p).
Proof. destruct p as [|[|[|p]]]; constructor. Qed.

Lemma demo_steps evs :
  Forall (admissible demo_binaries) evs ->
  rtc (deploy demo_binaries) (∅, (empty_store, demo_host)) (play_events demo_binaries evs (∅, (empty_store, demo_host))).
Proof. apply play_events_deploy. Qed.

Lemma goes_admissible n p pl now : Forall (admissible demo_binaries) (goes n p pl now).
Proof. by apply Forall_replicate. Qed.

Lemma demo_day_admissible : Forall (admissible demo_binaries) demo_day.
Proof.
  unfold demo_day. repeat (apply Forall_app; split); try apply goes_admissible; repeat constructor; by eexists.
Qed.

Lemma demo_end_runs : rtc (deploy demo_binaries) (∅, (empty_store, demo_host)) demo_end.
Proof. unfold demo_end. apply demo_steps, demo_day_admissible. Qed.

Lemma deployments_drained_witness :
  in_sync 2 (fst (snd demo_end)) (snd (snd demo_end))
  /\ (p_State <$> st_peers (fst (snd demo_end))) = [PeerActive] /\ length (st_nodes (fst (snd demo_end))) = 2%nat
  /\ ((fun r => j_Attempts (ob_Job r)) <$> st_outbox (fst (snd demo_end))) = [2].
Proof.
  pose proof demo_end_runs as H.
  destruct demo_end as [ps [s w]] eqn:E. apply (f_equal snd) in E. vm_compute in E. injection E as Es Ew. cbn [fst snd]. split.
  - apply (deployments_drained race_uuid_Parse demo_uuid_String id id demo_hash demo_hash_revoke id demo_X25519
             demo_binaries 0 demo_worker true demo_host ps s w 2); [apply demo_control| | |exact H|..].
    + by intros [|[|[|p]]].
    + intros _. apply bare_host_careful.
    + subst s. split; [split; [apply printable_peers_all|]; apply (bool_decide_unpack _); vm_compute; exact I|].
      intros n n' [->|[->|Hn]%elem_of_cons]%elem_of_cons [->|[->|Hn']%elem_of_cons]%elem_of_cons; try discriminate; try reflexivity;
        try (by apply elem_of_nil in Hn); by apply elem_of_nil in Hn'.
    + subst s. discriminate.
    + subst s. repeat constructor.
  - subst s. split; [reflexivity|]. split; reflexivity.
Defined.

Lemma deployments_keep_store_witness : store_ok (fst (snd demo_end)).
Proof.
  apply (deployments_keep_store race_uuid_Parse demo_uuid_String id id demo_hash demo_hash_revoke id demo_X25519
           demo_binaries demo_host); [apply demo_control|]. exact demo_end_runs.
Defined.

(** The API with a request in its hands when the signal comes. *)
Definition demo_evening : list demo_event :=
  [EvStart 1 demo_start] ++ goes 8 1 AtMain 1000 ++ [EvRequest 1 0 demo_create_request] ++ goes 1 1 (AtRequest 0) 2000
  ++ [EvSignal 1].

Definition demo_dusk : gmap nat (Proc (S := Store * FakeExecutor)) * (Store * FakeExecutor) :=
  play_events demo_binaries demo_evening (∅, (empty_store, demo_host)).

Lemma demo_dusk_lives P :
  fst demo_dusk !! 1%nat = Some P -> exists b, rtc (lives (demo_binaries 1)) (boot (demo_binaries 1) b) P.
Proof.
  intros HP. assert (H : rtc (deploy demo_binaries) (∅, (empty_store, demo_host)) demo_dusk).
  { unfold demo_dusk. apply demo_steps. unfold demo_evening.
    repeat (apply Forall_app; split); try apply goes_admissible; repeat constructor. }
  eapply deploy_lives in H; [|intros p P'; cbn [fst]; by rewrite lookup_empty|exact HP].
  destruct H as (b & _ & Hl). by exists b.
Qed.

Definition looks (P : Proc (S := Store * FakeExecutor)) : bool * bool * nat := (pr_done P, pr_listening P, size (pr_requests P)).

Lemma demo_dusk_looks : looks <$> fst demo_dusk !! 1%nat = Some (true, true, 1%nat).
Proof. vm_compute. reflexivity. Qed.

Lemma shutdown_terminates_witness :
  exists P, looks P = (true, true, 1%nat) /\ Acc (winds_down (demo_binaries 1)) P /\ Acc (paid (demo_binaries 1)) (5%nat, P).
Proof.
  pose proof demo_dusk_looks as Hk. destruct (fst demo_dusk !! 1%nat) as [P|] eqn:HP; [|discriminate].
  injection Hk as Hd Hl Hs. destruct (demo_dusk_lives P HP) as [b Hb]. exists P. split; [unfold looks; congruence|].
  destruct (shutdown_terminates (demo_binaries 1) b P (empty_store, demo_host) Hb Hd) as (H1 & H2 & _).
  split; [exact H1|exact (H2 5%nat)].
Defined.
